(** * Layout bindings: containers, elements and the reflow of a row

    A shallow embedding of the layout-binding demo (LayoutConstraintsNew):
    the two shape utilities [ContainerShapeUtil] and [ElementShapeUtil],
    the binding utility [LayoutBindingUtil], and the part of the canvas
    editor they talk to (shape store, binding store, hit testing,
    coordinate frames, the fractional-index allocator).

    Numbers are JavaScript numbers in the source; the embedding works on
    the integer-valued ones ([Z]), which is where every constant of the
    layout (24, 100, 124, 148) lives and on which the source's sums and
    comparisons are exact (below 2^53).  A position the pointer gives a
    dragged element may have a fractional part in the source; the
    theorems speak of stores whose coordinates are integers.

    The canvas editor is a library the application is built on.  What the
    application asks of it is modelled here as far as the application
    relies on it: the two stores as lists, the fractional-index keys, the
    coordinate frames and the hit test as interfaces with the properties
    the library documents ([KeySpace], [Frames], [HitTesting]).  Part III
    instantiates the interfaces and runs the engine on concrete stores.
    Part IV proves further properties of the engine, Part V embeds the
    collision check of the cursor demo ([App]), and Part VI runs the
    theorems of both on the canvas of Part III. *)

From Stdlib Require Import ZArith List Bool Lia String Sorted Permutation.
From Stdlib Require Import QArith Qcanon Lqa.
Import ListNotations.
Local Open Scope Z_scope.

(* ================================================================== *)
(** * Part I: the embedding                                            *)
(* ================================================================== *)

(** ** Constants and small numeric helpers *)

Definition CONTAINER_PADDING : Z := 24.

(** [Math.round(p / d)] for an integer numerator and a positive integer
    denominator: the nearest integer, halves going up. *)
Definition Math_round_div (p d : Z) : Z := (2 * p + d) / (2 * d).

(** The editor library's [clamp(n, min, max)] is
    [Math.max(min, Math.min(n, max))]. *)
Definition clamp (n lo hi : Z) : Z := Z.max lo (Z.min n hi).

(** JavaScript array indexing [arr[i]]: [undefined] outside the array,
    in particular at [-1]. *)
Definition js_index {A : Type} (arr : list A) (i : Z) : option A :=
  if i <? 0 then None else nth_error arr (Z.to_nat i).

Record Vec : Type := mkVec { vx : Z; vy : Z }.

(** ** Shapes *)

Definition ShapeId := nat.
Definition BindingId := nat.

(** A shape record of the store.  [props_width]/[props_height] hold the
    two numeric props of the shape: [{width, height}] for a container,
    [{w, h}] for an element (an element's colour plays no part in the
    layout and is left out). *)
Record Shape : Type := mkShape {
  shape_id : ShapeId;
  shape_type : string;
  shape_x : Z;
  shape_y : Z;
  props_width : Z;
  props_height : Z
}.

Definition set_xy (s : Shape) (x y : Z) : Shape :=
  mkShape (shape_id s) (shape_type s) x y (props_width s) (props_height s).

Definition set_size (s : Shape) (w h : Z) : Shape :=
  mkShape (shape_id s) (shape_type s) (shape_x s) (shape_y s) w h.

(** The argument of [canBind]. *)
Record CanBindOpts : Type := mkCanBindOpts {
  fromShapeType : string;
  toShapeType : string;
  bindingType : string
}.

Definition ContainerShapeUtil_type : string := "container".
Definition ElementShapeUtil_type : string := "element".
Definition LayoutBindingUtil_type : string := "layout".

Definition ContainerShapeUtil_getDefaultProps : Z * Z :=
  (100 + CONTAINER_PADDING * 2, 100 + CONTAINER_PADDING * 2).

Definition ElementShapeUtil_getDefaultProps : Z * Z := (100, 100).

Definition ContainerShapeUtil_canBind (o : CanBindOpts) : bool :=
  String.eqb (fromShapeType o) "container"
  && String.eqb (toShapeType o) "element"
  && String.eqb (bindingType o) "layout".

Definition ElementShapeUtil_canBind (o : CanBindOpts) : bool :=
  String.eqb (fromShapeType o) "container"
  && String.eqb (toShapeType o) "element"
  && String.eqb (bindingType o) "layout".

(** The shape types this file does not define are the editor library's.
    Its base class answers [true] to [canBind]; of its own utilities, the
    arrow's lets a binding lead from an arrow to a shape but not to an
    arrow, and the group's refuses every binding. *)
Definition ArrowShapeUtil_canBind (o : CanBindOpts) : bool :=
  negb (String.eqb (toShapeType o) "arrow").

Definition GroupShapeUtil_canBind (o : CanBindOpts) : bool := false.

(** [editor.getShapeUtil(type).canBind]. *)
Definition ShapeUtil_canBind (shapeType : string) (o : CanBindOpts) : bool :=
  if String.eqb shapeType ContainerShapeUtil_type then ContainerShapeUtil_canBind o
  else if String.eqb shapeType ElementShapeUtil_type then ElementShapeUtil_canBind o
  else if String.eqb shapeType "arrow" then ArrowShapeUtil_canBind o
  else if String.eqb shapeType "group" then GroupShapeUtil_canBind o
  else true.

(** [editor.canBindShapes({fromShape, toShape, binding})]: both ends are
    asked (once when they have the same type). *)
Definition Editor_canBindShapes (fromShape toShape : Shape) (binding : string) : bool :=
  let o := mkCanBindOpts (shape_type fromShape) (shape_type toShape) binding in
  if String.eqb (shape_type fromShape) (shape_type toShape)
  then ShapeUtil_canBind (shape_type fromShape) o
  else ShapeUtil_canBind (shape_type fromShape) o
       && ShapeUtil_canBind (shape_type toShape) o.

(** ** Index keys

    [IndexKey]s are the editor library's fractional-index strings.  The
    source compares them with [>] and [===] and obtains new ones from
    [getIndexBetween]; the class records exactly that interface, with the
    allocator's contract: a key strictly above the lower bound and
    strictly below the upper bound, whenever the bounds that are given
    are in order. *)
Class KeySpace : Type := {
  IndexKey : Type;
  key_ltb : IndexKey -> IndexKey -> bool;
  key_eqb : IndexKey -> IndexKey -> bool;
  getIndexBetween : option IndexKey -> option IndexKey -> IndexKey;
  key_eqb_eq : forall a b, key_eqb a b = true <-> a = b;
  key_ltb_irrefl : forall a, key_ltb a a = false;
  key_ltb_trans : forall a b c,
      key_ltb a b = true -> key_ltb b c = true -> key_ltb a c = true;
  key_ltb_total : forall a b,
      key_ltb a b = true \/ a = b \/ key_ltb b a = true;
  getIndexBetween_above_lower : forall a ob,
      match ob with Some b => key_ltb a b = true | None => True end ->
      key_ltb a (getIndexBetween (Some a) ob) = true;
  getIndexBetween_below_upper : forall oa b,
      match oa with Some a => key_ltb a b = true | None => True end ->
      key_ltb (getIndexBetween oa (Some b)) b = true
}.

(** ** Coordinate frames

    [getShapePageTransform s] stands for
    [editor.getShapePageTransform(s).applyToPoint] and
    [getPointInParentSpace s] for [editor.getPointInParentSpace(s, _)].
    A shape's page transform is made of its position, its rotation and
    its ancestors' transforms, never of its props; the parent space of a
    shape is its parent's page frame, so it does not move with the shape
    itself. *)
Class Frames : Type := {
  getShapePageTransform : Shape -> Vec -> Vec;
  getPointInParentSpace : Shape -> Vec -> Vec;
  getShapePageTransform_size : forall s w h p,
      getShapePageTransform (set_size s w h) p = getShapePageTransform s p;
  getPointInParentSpace_xy : forall s x y p,
      getPointInParentSpace (set_xy s x y) p = getPointInParentSpace s p
}.

Section Engine.

Context {KS : KeySpace}.

(** ** Layout bindings and the editor's stores *)

Record LayoutBinding : Type := mkBinding {
  binding_id : BindingId;
  fromId : ShapeId;
  toId : ShapeId;
  props_index : IndexKey;
  props_placeholder : bool
}.

Definition LayoutBindingUtil_getDefaultProps (a1 : IndexKey) : IndexKey * bool :=
  (a1, true).

(** The editor: the shape store, the binding store (every binding of
    this application is a layout binding) and the supply of fresh binding
    ids behind [createBindingId()]. *)
Record Editor : Type := mkEditor {
  shapes : list Shape;
  bindings : list LayoutBinding;
  nextBindingId : BindingId
}.

(** A shape partial as handed to [editor.updateShape]: either a new
    position or a new pair of size props. *)
Inductive ShapePartial : Type :=
| PartialXY (id : ShapeId) (x y : Z)
| PartialSize (id : ShapeId) (width height : Z).

Definition Editor_getShape (ed : Editor) (id : ShapeId) : option Shape :=
  find (fun s => Nat.eqb (shape_id s) id) (shapes ed).

Definition apply_partial (p : ShapePartial) (s : Shape) : Shape :=
  match p with
  | PartialXY id x y => if Nat.eqb (shape_id s) id then set_xy s x y else s
  | PartialSize id w h => if Nat.eqb (shape_id s) id then set_size s w h else s
  end.

(** [editor.updateShape(partial)]: the record with the partial's id takes
    the partial's fields; its [type] is never overwritten.  This is the
    write to the store; what the editor tells the bindings of the changed
    shape afterwards is [Editor_afterShapeChange] below. *)
Definition Editor_updateShape (ed : Editor) (p : ShapePartial) : Editor :=
  mkEditor (map (apply_partial p) (shapes ed)) (bindings ed) (nextBindingId ed).

Definition Editor_getBindingsFromShape (ed : Editor) (s : Shape) : list LayoutBinding :=
  filter (fun b => Nat.eqb (fromId b) (shape_id s)) (bindings ed).

Definition Editor_getBindingsToShape (ed : Editor) (s : Shape) : list LayoutBinding :=
  filter (fun b => Nat.eqb (toId b) (shape_id s)) (bindings ed).

(** ** Sorting by index

    [.sort((a, b) => (a.props.index > b.props.index ? 1 : -1))].  For
    pairwise distinct keys every sorting algorithm returns the same list,
    the strictly ascending one (see [sorted_permutation_unique] below).
    With equal keys the comparator answers [-1] whichever way round it is
    asked, and the order is what the engine's algorithm makes of that.
    The embedding sorts as the engine does a short array: the elements
    are taken from left to right and each goes in front of the first
    element the comparator does not put it after, hence in front of the
    earlier elements with the same key. *)
Definition index_gt (a b : LayoutBinding) : bool :=
  key_ltb (props_index b) (props_index a).

Fixpoint insert_by_index (b : LayoutBinding) (l : list LayoutBinding) : list LayoutBinding :=
  match l with
  | [] => [b]
  | a :: rest => if index_gt b a then a :: insert_by_index b rest else b :: a :: rest
  end.

Definition sort_by_index (l : list LayoutBinding) : list LayoutBinding :=
  fold_left (fun sorted b => insert_by_index b sorted) l [].

Context {FR : Frames}.

(** ** LayoutBindingUtil: the reflow *)

(** The state threaded through a reflow: the editor and the log of the
    [updateShape] calls the method has made so far. *)
Definition Run : Type := (Editor * list ShapePartial)%type.

(** An [editor.updateShape(partial)] of the method: the write to the
    store, entered in the log.  Whom the editor tells of the change is
    settled where the call is made, in [updateElementsForContainer_body]. *)
Definition run_updateShape (r : Run) (p : ShapePartial) : Run :=
  (Editor_updateShape (fst r) p, snd r ++ [p]).

(** [editor.getShapePageTransform(container)!] looks the shape up by id
    in the store as it is when called.  The container is in the store
    throughout the reflow ([updateShape] removes nothing), so the lookup
    never fails; the second branch is never taken. *)
Definition Editor_getShapePageTransform (ed : Editor) (s : Shape) : Vec -> Vec :=
  match Editor_getShape ed (shape_id s) with
  | Some s' => getShapePageTransform s'
  | None => getShapePageTransform s
  end.

Definition slot_offset (i : nat) : Vec :=
  mkVec (CONTAINER_PADDING + Z.of_nat i * (100 + CONTAINER_PADDING)) CONTAINER_PADDING.

(** [toId === binding.toId && placeholder], the test under which the
    loop passes a member over. *)
Definition reflow_skips (trigger_toId : ShapeId) (placeholder : bool)
    (binding : LayoutBinding) : bool :=
  Nat.eqb trigger_toId (toId binding) && placeholder.

(** The slot's offset carried from the container's frame to the page and
    from the page to the parent space of the member. *)
Definition slot_point (ed : Editor) (container shape : Shape) (i : nat) : Vec :=
  getPointInParentSpace shape
    (Editor_getShapePageTransform ed container (slot_offset i)).

(** One turn of the [for] loop of [updateElementsForContainer], for the
    binding at position [i]. *)
Definition reflow_member (trigger_toId : ShapeId) (placeholder : bool)
    (container : Shape) (i : nat) (binding : LayoutBinding) (r : Run) : Run :=
  if reflow_skips trigger_toId placeholder binding then r
  else
    match Editor_getShape (fst r) (toId binding) with
    | None => r
    | Some shape =>
        let point := slot_point (fst r) container shape i in
        if negb (shape_x shape =? vx point) || negb (shape_y shape =? vy point)
        then run_updateShape r (PartialXY (toId binding) (vx point) (vy point))
        else r
    end.

Fixpoint reflow_loop (trigger_toId : ShapeId) (placeholder : bool)
    (container : Shape) (i : nat) (bs : list LayoutBinding) (r : Run) : Run :=
  match bs with
  | [] => r
  | binding :: rest =>
      reflow_loop trigger_toId placeholder container (S i) rest
        (reflow_member trigger_toId placeholder container i binding r)
  end.

Definition layout_width (n : nat) : Z :=
  CONTAINER_PADDING
  + (Z.of_nat n * 100 + (Z.of_nat n - 1) * CONTAINER_PADDING)
  + CONTAINER_PADDING.

Definition layout_height : Z := CONTAINER_PADDING + 100 + CONTAINER_PADDING.

(** The statements of [updateElementsForContainer].  After each
    [updateShape] the editor tells the bindings of the changed shape.
    A member is at the to end of the row's relationships, for which the
    utility registers no hook, and no relationship leads from an element
    (the editor lets none in, see [ends_typed] below): a member's write
    wakes nobody.  Of the container's change the editor tells every
    relationship that leads from it, through [onAfterChangeFromShape],
    which is this method again; [told] stands for that call back into the
    editor, made before the method returns. *)
Definition updateElementsForContainer_body (told : Editor -> ShapeId -> Editor)
    (ed : Editor) (trigger : LayoutBinding) : Run :=
  match Editor_getShape ed (fromId trigger) with
  | None => (ed, [])
  | Some container =>
      let bs := sort_by_index (Editor_getBindingsFromShape ed container) in
      if Nat.eqb (List.length bs) 0 then (ed, [])
      else
        let r := reflow_loop (toId trigger) (props_placeholder trigger)
                   container 0 bs (ed, []) in
        let width := layout_width (List.length bs) in
        let height := layout_height in
        if negb (width =? props_width container)
           || negb (height =? props_height container)
        then
          let r1 := run_updateShape r (PartialSize (shape_id container) width height) in
          (told (fst r1) (shape_id container), snd r1)
        else r
  end.

(** The editor telling the bindings of a changed shape, when the hook of
    the from end runs [reflow] and the to end has none. *)
Definition Editor_tellBindings (reflow : Editor -> LayoutBinding -> Editor)
    (ed : Editor) (id : ShapeId) : Editor :=
  fold_left
    (fun e b => if Nat.eqb (fromId b) id then reflow e b else e)
    (filter (fun b => Nat.eqb (fromId b) id || Nat.eqb (toId b) id) (bindings ed))
    ed.

(** The method and the editor call each other: the method resizes the
    container, the editor tells the container's relationships, the hook
    runs the method.  The embedding unrolls the recursion once.  In the
    calls made from inside the resize the container already has the size
    of its row, so they resize nothing and the editor is not entered
    again: [updateElementsForContainer_unfold] below shows that the
    function defined here satisfies the recursive equation of the source,
    with [Editor_afterShapeChange] for [told]. *)
Definition updateElementsForContainer_reentered (ed : Editor) (trigger : LayoutBinding)
  : Editor :=
  fst (updateElementsForContainer_body (fun e _ => e) ed trigger).

Definition updateElementsForContainer_run (ed : Editor) (trigger : LayoutBinding) : Run :=
  updateElementsForContainer_body
    (Editor_tellBindings updateElementsForContainer_reentered) ed trigger.

(** The store when the method returns, the reflows the editor has run
    from inside it included. *)
Definition updateElementsForContainer (ed : Editor) (trigger : LayoutBinding) : Editor :=
  fst (updateElementsForContainer_run ed trigger).

(** The [updateShape] calls the method itself has made; those of the
    reflows the editor runs when it is told of the resize are theirs. *)
Definition updateElementsForContainer_writes (ed : Editor) (trigger : LayoutBinding)
  : list ShapePartial :=
  snd (updateElementsForContainer_run ed trigger).

(** ** LayoutBindingUtil: the lifecycle hooks

    The notifications the editor sends to a binding utility once a change
    has been made, as the editor library documents them:
    [onAfterChangeFromShape] is called after the shape at the binding's
    [fromId] has changed, [onAfterChangeToShape] after the shape at its
    [toId] has.  The layout bindings of this file lead from a container
    ([fromId]) to an element ([toId]). *)
Inductive BindingEvent : Type :=
| AfterCreate (binding : LayoutBinding)
| AfterChange (bindingBefore bindingAfter : LayoutBinding)
| AfterChangeFromShape (binding : LayoutBinding)
| AfterChangeToShape (binding : LayoutBinding)
| AfterDelete (binding : LayoutBinding).

Definition LayoutBindingUtil_onAfterCreate (ed : Editor) (binding : LayoutBinding) : Editor :=
  updateElementsForContainer ed binding.

Definition LayoutBindingUtil_onAfterChange (ed : Editor)
    (bindingBefore bindingAfter : LayoutBinding) : Editor :=
  updateElementsForContainer ed bindingAfter.

Definition LayoutBindingUtil_onAfterChangeFromShape (ed : Editor) (binding : LayoutBinding)
  : Editor :=
  updateElementsForContainer ed binding.

Definition LayoutBindingUtil_onAfterDelete (ed : Editor) (binding : LayoutBinding) : Editor :=
  updateElementsForContainer ed binding.

(** The methods [LayoutBindingUtil] overrides, by event; the base class
    has no handler of its own for any of them. *)
Definition LayoutBindingUtil_handler (ev : BindingEvent) : option (Editor -> Editor) :=
  match ev with
  | AfterCreate binding => Some (fun ed => LayoutBindingUtil_onAfterCreate ed binding)
  | AfterChange before after => Some (fun ed => LayoutBindingUtil_onAfterChange ed before after)
  | AfterChangeFromShape binding =>
      Some (fun ed => LayoutBindingUtil_onAfterChangeFromShape ed binding)
  | AfterChangeToShape _ => None
  | AfterDelete binding => Some (fun ed => LayoutBindingUtil_onAfterDelete ed binding)
  end.

Definition Editor_notify (ed : Editor) (ev : BindingEvent) : Editor :=
  match LayoutBindingUtil_handler ev with
  | Some h => h ed
  | None => ed
  end.

(** What the editor does after the shape [id] has changed: every binding
    that involves the shape is told, at the end it is involved by. *)
Definition Editor_afterShapeChange (ed : Editor) (id : ShapeId) : Editor :=
  fold_left
    (fun e b =>
       let e1 := if Nat.eqb (fromId b) id
                 then Editor_notify e (AfterChangeFromShape b) else e in
       if Nat.eqb (toId b) id
       then Editor_notify e1 (AfterChangeToShape b) else e1)
    (filter (fun b => Nat.eqb (fromId b) id || Nat.eqb (toId b) id) (bindings ed))
    ed.

(** ** The editor's binding store *)

Definition binding_eqb (a b : LayoutBinding) : bool :=
  Nat.eqb (binding_id a) (binding_id b)
  && Nat.eqb (fromId a) (fromId b)
  && Nat.eqb (toId a) (toId b)
  && key_eqb (props_index a) (props_index b)
  && Bool.eqb (props_placeholder a) (props_placeholder b).

Definition Editor_getBinding (ed : Editor) (id : BindingId) : option LayoutBinding :=
  find (fun b => Nat.eqb (binding_id b) id) (bindings ed).

Definition binding_allowed (ed : Editor) (from to : ShapeId) : bool :=
  match Editor_getShape ed from, Editor_getShape ed to with
  | Some fromShape, Some toShape =>
      Editor_canBindShapes fromShape toShape LayoutBindingUtil_type
  | _, _ => false
  end.

(** [editor.createBinding({id: createBindingId(), type: 'layout', fromId,
    toId, props})]: nothing is stored unless both shapes exist and may be
    bound; the utility is told once the record is in the store. *)
Definition Editor_createBinding (ed : Editor) (from to : ShapeId)
    (index : IndexKey) (placeholder : bool) : Editor :=
  if binding_allowed ed from to then
    let b := mkBinding (nextBindingId ed) from to index placeholder in
    Editor_notify
      (mkEditor (shapes ed) (bindings ed ++ [b]) (S (nextBindingId ed)))
      (AfterCreate b)
  else ed.

Definition put_binding (b : LayoutBinding) (l : list LayoutBinding) : list LayoutBinding :=
  map (fun a => if Nat.eqb (binding_id a) (binding_id b) then b else a) l.

(** Which of the records handed to [updateBindings] are written: those
    whose id is in the store, that differ from the stored record and
    whose ends may still be bound. *)
Definition binding_changes (ed : Editor) (b : LayoutBinding) : bool :=
  match Editor_getBinding ed (binding_id b) with
  | None => false
  | Some current => negb (binding_eqb current b) && binding_allowed ed (fromId b) (toId b)
  end.

(** [editor.updateBindings(records)]: the changed records are put in the
    store, then the utility is told of each. *)
Definition Editor_updateBindings (ed : Editor) (bs : list LayoutBinding) : Editor :=
  let changed := filter (binding_changes ed) bs in
  let stored := fold_left (fun l b => put_binding b l) changed (bindings ed) in
  fold_left
    (fun e b =>
       match Editor_getBinding ed (binding_id b) with
       | Some before => Editor_notify e (AfterChange before b)
       | None => e
       end)
    changed
    (mkEditor (shapes ed) stored (nextBindingId ed)).

Definition Editor_updateBinding (ed : Editor) (b : LayoutBinding) : Editor :=
  Editor_updateBindings ed [b].

(** [editor.deleteBindings(records)]: the records are removed from the
    store, then the utility is told of each removed one. *)
Definition Editor_deleteBindings (ed : Editor) (bs : list LayoutBinding) : Editor :=
  let doomed b := existsb (fun d => Nat.eqb (binding_id d) (binding_id b)) bs in
  let removed := filter doomed (bindings ed) in
  fold_left
    (fun e b => Editor_notify e (AfterDelete b))
    removed
    (mkEditor (shapes ed) (filter (fun b => negb (doomed b)) (bindings ed))
       (nextBindingId ed)).

(** ** Hit testing

    [editor.getShapeAtPoint(point, {hitInside: true, filter})]: the
    top-most shape of the store that passes the filter and whose geometry
    contains the point.  The shapes of this application are rectangles
    ([Rectangle2d] of the two size props) laid directly on the page,
    unrotated, so containing the point bounds the point by the rectangle's
    sides. *)
Class HitTesting : Type := {
  getShapeAtPoint : Editor -> Vec -> (Shape -> bool) -> option Shape;
  getShapeAtPoint_stored : forall ed p f s,
      getShapeAtPoint ed p f = Some s -> Editor_getShape ed (shape_id s) = Some s;
  getShapeAtPoint_filter : forall ed p f s,
      getShapeAtPoint ed p f = Some s -> f s = true;
  getShapeAtPoint_inside : forall ed p f s,
      getShapeAtPoint ed p f = Some s ->
      shape_x s <= vx p <= shape_x s + props_width s
      /\ shape_y s <= vy p <= shape_y s + props_height s
}.

Context {HT : HitTesting}.

(** ** ElementShapeUtil: the drag handlers *)

Definition ElementShapeUtil_getTargetContainer (ed : Editor) (shape : Shape)
    (pageAnchor : Vec) : option Shape :=
  getShapeAtPoint ed pageAnchor
    (fun otherShape => Editor_canBindShapes otherShape shape LayoutBindingUtil_type).

(** [sib?.toId === shape.id], and the key of [sib] when it holds. *)
Definition own_key (shape : Shape) (sib : option LayoutBinding) : option IndexKey :=
  match sib with
  | Some b => if Nat.eqb (toId b) (shape_id shape) then Some (props_index b) else None
  | None => None
  end.

Definition slot_order (n_siblings : nat) (container : Shape) (pageAnchor : Vec) : Z :=
  clamp
    (Math_round_div (vx pageAnchor - shape_x container - CONTAINER_PADDING)
       (100 + CONTAINER_PADDING))
    0
    (Z.of_nat n_siblings + 1).

Definition ElementShapeUtil_getBindingIndexForPosition (ed : Editor)
    (shape container : Shape) (pageAnchor : Vec) : IndexKey :=
  let allBindings := sort_by_index (Editor_getBindingsFromShape ed container) in
  let siblings :=
    filter (fun b => negb (Nat.eqb (toId b) (shape_id shape))) allBindings in
  let order := slot_order (List.length siblings) container pageAnchor in
  let belowSib := js_index allBindings (order - 1) in
  let aboveSib := js_index allBindings order in
  match own_key shape belowSib with
  | Some index => index
  | None =>
      match own_key shape aboveSib with
      | Some index => index
      | None =>
          getIndexBetween (option_map props_index belowSib)
            (option_map props_index aboveSib)
      end
  end.

Definition set_placeholder (b : LayoutBinding) (placeholder : bool) : LayoutBinding :=
  mkBinding (binding_id b) (fromId b) (toId b) (props_index b) placeholder.

Definition ElementShapeUtil_onTranslateStart (ed : Editor) (shape : Shape) : Editor :=
  Editor_updateBindings ed
    (map (fun binding => set_placeholder binding true)
       (Editor_getBindingsToShape ed shape)).

Definition element_anchor (shape : Shape) : Vec :=
  getShapePageTransform shape (mkVec 50 50).

Definition ElementShapeUtil_onTranslate (ed : Editor) (shape : Shape) : Editor :=
  let pageAnchor := element_anchor shape in
  match ElementShapeUtil_getTargetContainer ed shape pageAnchor with
  | None => Editor_deleteBindings ed (Editor_getBindingsToShape ed shape)
  | Some targetContainer =>
      let index :=
        ElementShapeUtil_getBindingIndexForPosition ed shape targetContainer pageAnchor in
      match find (fun b => Nat.eqb (toId b) (shape_id shape))
                 (Editor_getBindingsFromShape ed targetContainer) with
      | Some existingBinding =>
          if key_eqb (props_index existingBinding) index then ed
          else
            Editor_updateBinding ed
              (mkBinding (binding_id existingBinding) (fromId existingBinding)
                 (toId existingBinding) index true)
      | None =>
          Editor_createBinding ed (shape_id targetContainer) (shape_id shape) index true
      end
  end.

Definition ElementShapeUtil_onTranslateEnd (ed : Editor) (shape : Shape) : Editor :=
  let pageAnchor := element_anchor shape in
  match ElementShapeUtil_getTargetContainer ed shape pageAnchor with
  | None => ed
  | Some targetContainer =>
      let index :=
        ElementShapeUtil_getBindingIndexForPosition ed shape targetContainer pageAnchor in
      let ed1 := Editor_deleteBindings ed (Editor_getBindingsToShape ed shape) in
      Editor_createBinding ed1 (shape_id targetContainer) (shape_id shape) index false
  end.

(** ** A drag, as the editor drives it

    One step of the system: the three drag handlers of an element shape
    that is in the store, the editor moving a shape (which it does with
    the dragged element before every [onTranslate], and which it reports
    to the bindings of the moved shape), and the delivery of a binding
    event to the utility.  The steps come in any order, which is more
    than the editor does: what holds of every store reached this way
    holds of every store a drag reaches. *)
Inductive drag_step : Editor -> Editor -> Prop :=
| step_translate_start (ed : Editor) (shape : Shape) :
    Editor_getShape ed (shape_id shape) = Some shape ->
    shape_type shape = ElementShapeUtil_type ->
    drag_step ed (ElementShapeUtil_onTranslateStart ed shape)
| step_translate (ed : Editor) (shape : Shape) :
    Editor_getShape ed (shape_id shape) = Some shape ->
    shape_type shape = ElementShapeUtil_type ->
    drag_step ed (ElementShapeUtil_onTranslate ed shape)
| step_translate_end (ed : Editor) (shape : Shape) :
    Editor_getShape ed (shape_id shape) = Some shape ->
    shape_type shape = ElementShapeUtil_type ->
    drag_step ed (ElementShapeUtil_onTranslateEnd ed shape)
| step_shape_moved (ed : Editor) (id : ShapeId) (x y : Z) :
    drag_step ed (Editor_afterShapeChange (Editor_updateShape ed (PartialXY id x y)) id)
| step_notified (ed : Editor) (ev : BindingEvent) :
    drag_step ed (Editor_notify ed ev).

Inductive drag_steps (ed0 : Editor) : Editor -> Prop :=
| steps_none : drag_steps ed0 ed0
| steps_more (ed ed' : Editor) :
    drag_steps ed0 ed -> drag_step ed ed' -> drag_steps ed0 ed'.

(** The end of a drag.  The editor's translating tool reports the
    release point as one more drag move and then reports the end; each
    of the two handlers is handed the record the store holds for the
    shape when it is called. *)
Definition Translating_complete (ed : Editor) (shape : Shape) : Editor :=
  let ed1 := ElementShapeUtil_onTranslate ed shape in
  match Editor_getShape ed1 (shape_id shape) with
  | Some current => ElementShapeUtil_onTranslateEnd ed1 current
  | None => ed1
  end.

(** ** Invariants of the stores *)

Definition ends (b : LayoutBinding) : ShapeId * ShapeId := (fromId b, toId b).

Definition committed (b : LayoutBinding) : bool := negb (props_placeholder b).

(** Binding ids are distinct and below the next fresh one. *)
Definition ids_ok (ed : Editor) : Prop :=
  NoDup (map binding_id (bindings ed))
  /\ forall b, In b (bindings ed) -> (binding_id b < nextBindingId ed)%nat.

(** At most one relationship per (container, element) pair. *)
Definition pair_unique (ed : Editor) : Prop :=
  NoDup (map ends (bindings ed)).

(** At most one committed relationship leads to an element. *)
Definition one_committed (ed : Editor) : Prop :=
  NoDup (map toId (filter committed (bindings ed))).

(** No two relationships of one container share a key. *)
Definition keys_unique (ed : Editor) : Prop :=
  NoDup (map (fun b => (fromId b, props_index b)) (bindings ed)).

Definition member_count (ed : Editor) (id : ShapeId) : nat :=
  List.length (filter (fun b => Nat.eqb (fromId b) id) (bindings ed)).

(** A container that has members has the size of its member count. *)
Definition size_ok_at (ed : Editor) (id : ShapeId) : Prop :=
  forall c, Editor_getShape ed id = Some c ->
    member_count ed id <> 0%nat ->
    props_width c = layout_width (member_count ed id)
    /\ props_height c = layout_height.

Definition size_ok (ed : Editor) : Prop := forall id, size_ok_at ed id.

End Engine.

(* ================================================================== *)
(** * Part II: properties                                              *)
(* ================================================================== *)

(** ** Binding capability *)

Lemma ContainerShapeUtil_canBind_iff (o : CanBindOpts) :
  ContainerShapeUtil_canBind o = true <->
  fromShapeType o = "container"%string /\ toShapeType o = "element"%string
  /\ bindingType o = "layout"%string.
Proof.
  unfold ContainerShapeUtil_canBind.
  rewrite !andb_true_iff, !String.eqb_eq. tauto.
Qed.

Lemma ElementShapeUtil_canBind_iff (o : CanBindOpts) :
  ElementShapeUtil_canBind o = true <->
  fromShapeType o = "container"%string /\ toShapeType o = "element"%string
  /\ bindingType o = "layout"%string.
Proof.
  unfold ElementShapeUtil_canBind.
  rewrite !andb_true_iff, !String.eqb_eq. tauto.
Qed.

Lemma Editor_canBindShapes_layout (fromShape toShape : Shape) :
  (shape_type fromShape = "container"%string \/ shape_type fromShape = "element"%string
   \/ shape_type toShape = "container"%string \/ shape_type toShape = "element"%string) ->
  Editor_canBindShapes fromShape toShape "layout" = true ->
  shape_type fromShape = "container"%string /\ shape_type toShape = "element"%string.
Proof.
  unfold Editor_canBindShapes, ShapeUtil_canBind,
    ContainerShapeUtil_type, ElementShapeUtil_type.
  intros Hty.
  destruct (String.eqb_spec (shape_type fromShape) (shape_type toShape)) as [E|NE];
  destruct (String.eqb_spec (shape_type fromShape) "container") as [Ec|NEc];
  destruct (String.eqb_spec (shape_type fromShape) "element") as [Ee|NEe];
  destruct (String.eqb_spec (shape_type toShape) "container") as [Tc|NTc];
  destruct (String.eqb_spec (shape_type toShape) "element") as [Te|NTe];
  rewrite ?andb_true_iff, ?ContainerShapeUtil_canBind_iff, ?ElementShapeUtil_canBind_iff;
  simpl; intros; try tauto; try congruence;
  try (exfalso; destruct Hty as [?|[?|[?|?]]]; congruence).
Qed.

(** C10 (as amended). The binding-capability predicate of the container
    shape type and that of the element shape type accept a triple
    exactly when the from-type is 'container', the to-type is 'element'
    and the binding type is 'layout'; so the editor lets a layout binding
    relate two shapes of which one is a container or an element only
    from a container to an element.  Two shapes of other types are not
    the business of these two predicates. *)
Theorem canBind_only_container_to_element :
  (forall o : CanBindOpts,
      (ContainerShapeUtil_canBind o = true <->
       fromShapeType o = "container"%string /\ toShapeType o = "element"%string
       /\ bindingType o = "layout"%string)
      /\ (ElementShapeUtil_canBind o = true <->
          fromShapeType o = "container"%string /\ toShapeType o = "element"%string
          /\ bindingType o = "layout"%string))
  /\ (forall fromShape toShape : Shape,
         (shape_type fromShape = "container"%string
          \/ shape_type fromShape = "element"%string
          \/ shape_type toShape = "container"%string
          \/ shape_type toShape = "element"%string) ->
         (Editor_canBindShapes fromShape toShape "layout" = true <->
          shape_type fromShape = "container"%string
          /\ shape_type toShape = "element"%string)).
Proof.
  split.
  - intro o. split.
    + apply ContainerShapeUtil_canBind_iff.
    + apply ElementShapeUtil_canBind_iff.
  - intros f t Hty. split.
    + apply Editor_canBindShapes_layout; assumption.
    + intros [Hf Ht].
      unfold Editor_canBindShapes, ShapeUtil_canBind,
        ContainerShapeUtil_type, ElementShapeUtil_type,
        ContainerShapeUtil_canBind, ElementShapeUtil_canBind.
      rewrite Hf, Ht. reflexivity.
Qed.

(** ** Sorting by index *)

Section SortFacts.

Context {KS : KeySpace}.

Definition key_lt (a b : IndexKey) : Prop := key_ltb a b = true.

Definition index_lt (a b : LayoutBinding) : Prop :=
  key_lt (props_index a) (props_index b).

Lemma key_lt_irrefl (a : IndexKey) : ~ key_lt a a.
Proof. unfold key_lt. rewrite key_ltb_irrefl. discriminate. Qed.

Lemma key_lt_trans (a b c : IndexKey) : key_lt a b -> key_lt b c -> key_lt a c.
Proof. apply key_ltb_trans. Qed.

Lemma key_lt_neq (a b : IndexKey) : key_lt a b -> a <> b.
Proof. intros H E. subst. exact (key_lt_irrefl _ H). Qed.

Lemma key_eqb_refl (a : IndexKey) : key_eqb a a = true.
Proof. apply key_eqb_eq. reflexivity. Qed.

Lemma key_eqb_neq (a b : IndexKey) : key_eqb a b = false <-> a <> b.
Proof.
  split.
  - intros H E. apply key_eqb_eq in E. congruence.
  - intros H. destruct (key_eqb a b) eqn:E; [|reflexivity].
    apply key_eqb_eq in E. contradiction.
Qed.

Lemma insert_by_index_perm (b : LayoutBinding) (l : list LayoutBinding) :
  Permutation (insert_by_index b l) (b :: l).
Proof.
  induction l as [|a rest IH]; simpl.
  - apply Permutation_refl.
  - destruct (index_gt b a).
    + eapply perm_trans; [apply perm_skip, IH | apply perm_swap].
    + apply Permutation_refl.
Qed.

Lemma insert_all_perm (l : list LayoutBinding) : forall sorted,
  Permutation (fold_left (fun acc b => insert_by_index b acc) l sorted) (sorted ++ l).
Proof.
  induction l as [|b rest IH]; intros sorted; simpl.
  - rewrite app_nil_r. apply Permutation_refl.
  - eapply perm_trans; [apply IH|].
    eapply perm_trans; [apply Permutation_app_tail, insert_by_index_perm|].
    simpl. apply Permutation_middle.
Qed.

Lemma sort_by_index_perm (l : list LayoutBinding) :
  Permutation (sort_by_index l) l.
Proof. apply (insert_all_perm l []). Qed.

Lemma sort_by_index_length (l : list LayoutBinding) :
  List.length (sort_by_index l) = List.length l.
Proof. apply Permutation_length, sort_by_index_perm. Qed.

Lemma sort_by_index_In (l : list LayoutBinding) (b : LayoutBinding) :
  In b (sort_by_index l) <-> In b l.
Proof.
  split; apply Permutation_in;
    [apply sort_by_index_perm | apply Permutation_sym, sort_by_index_perm].
Qed.

Lemma insert_by_index_sorted (b : LayoutBinding) (l : list LayoutBinding) :
  StronglySorted index_lt l ->
  ~ In (props_index b) (map props_index l) ->
  StronglySorted index_lt (insert_by_index b l).
Proof.
  induction l as [|a rest IH]; simpl; intros Hs Hn.
  - constructor; constructor.
  - inversion Hs as [|a' rest' Hrest Hall]; subst.
    unfold index_gt. destruct (key_ltb (props_index a) (props_index b)) eqn:E.
    + constructor.
      * apply IH; [assumption | tauto].
      * rewrite Forall_forall. intros c Hc.
        apply (Permutation_in _ (insert_by_index_perm b rest)) in Hc.
        destruct Hc as [<-|Hc]; [exact E|].
        rewrite Forall_forall in Hall. auto.
    + assert (Hba : index_lt b a).
      { destruct (key_ltb_total (props_index b) (props_index a)) as [H|[H|H]].
        - exact H.
        - exfalso. apply Hn. left. symmetry. exact H.
        - congruence. }
      constructor; [assumption|].
      constructor; [exact Hba|].
      rewrite Forall_forall in *. intros c Hc.
      eapply key_lt_trans; [exact Hba | apply Hall, Hc].
Qed.

(** With pairwise distinct keys the sorted list is strictly ascending. *)
Lemma insert_all_sorted (l : list LayoutBinding) : forall sorted,
  StronglySorted index_lt sorted ->
  NoDup (map props_index (sorted ++ l)) ->
  StronglySorted index_lt (fold_left (fun acc b => insert_by_index b acc) l sorted).
Proof.
  induction l as [|b rest IH]; intros sorted Hs Hnd; simpl; [exact Hs|].
  rewrite map_app in Hnd. cbn [map] in Hnd.
  apply IH.
  - apply insert_by_index_sorted; [exact Hs|].
    intros Hin. apply NoDup_remove_2 in Hnd. apply Hnd.
    apply in_or_app. left. exact Hin.
  - apply (Permutation_NoDup (l := props_index b :: map props_index sorted
                                     ++ map props_index rest)).
    + rewrite map_app.
      apply (Permutation_app_tail (map props_index rest)
               (l := props_index b :: map props_index sorted)).
      apply Permutation_sym.
      apply (Permutation_map props_index (insert_by_index_perm b sorted)).
    + apply (Permutation_NoDup (Permutation_sym (Permutation_middle _ _ _))).
      exact Hnd.
Qed.

Lemma sort_by_index_sorted (l : list LayoutBinding) :
  NoDup (map props_index l) ->
  StronglySorted index_lt (sort_by_index l).
Proof.
  intros Hnd. apply insert_all_sorted; [constructor | exact Hnd].
Qed.

(** A strictly ascending list is the only strictly ascending arrangement
    of its elements: with distinct keys, whichever algorithm the engine
    sorts with returns [sort_by_index]. *)
Lemma sorted_permutation_unique (l1 l2 : list LayoutBinding) :
  StronglySorted index_lt l1 -> StronglySorted index_lt l2 ->
  Permutation l1 l2 -> l1 = l2.
Proof.
  revert l2. induction l1 as [|a r1 IH]; intros l2 H1 H2 HP.
  - apply Permutation_nil in HP. congruence.
  - destruct l2 as [|b r2].
    { apply Permutation_sym, Permutation_nil in HP. discriminate. }
    inversion H1 as [|? ? Hr1 Ha]; subst.
    inversion H2 as [|? ? Hr2 Hb]; subst.
    rewrite Forall_forall in Ha, Hb.
    assert (a = b) as ->.
    { assert (Hin1 : In a (b :: r2)) by (eapply Permutation_in; [exact HP | left; reflexivity]).
      assert (Hin2 : In b (a :: r1))
        by (eapply Permutation_in; [apply Permutation_sym, HP | left; reflexivity]).
      destruct Hin1 as [E|Hin1]; [congruence|].
      destruct Hin2 as [E|Hin2]; [congruence|].
      exfalso. apply (key_lt_irrefl (props_index a)).
      eapply key_lt_trans; [apply Ha, Hin2 | apply Hb, Hin1]. }
    f_equal. apply IH; auto. eapply Permutation_cons_inv. exact HP.
Qed.

Lemma sorted_keys_distinct (l : list LayoutBinding) :
  StronglySorted index_lt l -> NoDup (map props_index l).
Proof.
  induction l as [|a rest IH]; intros Hs; simpl; [constructor|].
  inversion Hs as [|? ? Hrest Hall]; subst. constructor; [|apply IH; exact Hrest].
  intros Hin. apply in_map_iff in Hin. destruct Hin as (b & E & Hb).
  rewrite Forall_forall in Hall. specialize (Hall b Hb).
  unfold index_lt in Hall. rewrite E in Hall. exact (key_lt_irrefl _ Hall).
Qed.

(** The members of a row in strictly ascending key order are the list
    the source's sort returns. *)
Lemma key_order_unique (row members : list LayoutBinding) :
  Permutation row members -> StronglySorted index_lt row ->
  row = sort_by_index members.
Proof.
  intros Hperm Hsorted. apply sorted_permutation_unique; [exact Hsorted | |].
  - apply sort_by_index_sorted.
    apply (Permutation_NoDup (Permutation_map props_index Hperm)).
    apply sorted_keys_distinct. exact Hsorted.
  - apply (Permutation_trans Hperm). apply Permutation_sym, sort_by_index_perm.
Qed.

(** In a strictly ascending list of keys, a key that lies above the
    entry before position [o] and below the entry at position [o] is none
    of the list's keys. *)
Lemma gap_fresh (ks : list IndexKey) (o : nat) (k : IndexKey) :
  StronglySorted key_lt ks ->
  (o <= List.length ks)%nat ->
  (forall a, (0 < o)%nat -> nth_error ks (o - 1) = Some a -> key_lt a k) ->
  (forall b, nth_error ks o = Some b -> key_lt k b) ->
  ~ In k ks.
Proof.
  revert o. induction ks as [|x r IH]; intros o Hs Ho Hlo Hhi.
  - simpl. tauto.
  - inversion Hs as [|? ? Hr Hx]; subst. rewrite Forall_forall in Hx.
    destruct o as [|o'].
    + assert (Hkx : key_lt k x) by (apply Hhi; reflexivity).
      intros [E|Hin].
      * subst. exact (key_lt_irrefl _ Hkx).
      * apply (key_lt_irrefl k). eapply key_lt_trans; [exact Hkx | apply Hx, Hin].
    + simpl in Ho.
      assert (Hxk : key_lt x k).
      { destruct o' as [|o''].
        - apply Hlo; [lia | reflexivity].
        - destruct (nth_error r o'') as [a|] eqn:En.
          + eapply key_lt_trans.
            * apply Hx. eapply nth_error_In. exact En.
            * apply Hlo; [lia|].
              replace (S (S o'') - 1)%nat with (S o'') by lia. exact En.
          + apply nth_error_None in En. lia. }
      intros [E|Hin].
      * subst. exact (key_lt_irrefl _ Hxk).
      * revert Hin. apply (IH o'); [assumption | lia | |].
        -- intros a Hpos Ha. apply Hlo; [lia|].
           replace (S o' - 1)%nat with (S (o' - 1)) by lia. exact Ha.
        -- intros b Hb. apply Hhi. exact Hb.
Qed.

End SortFacts.

(** ** The reflow *)

Section ReflowFacts.

Context {KS : KeySpace} {FR : Frames}.

Lemma fold_left_invariant {X : Type} (P : Editor -> Prop) (F : Editor -> X -> Editor)
    (l : list X) :
  (forall e x, In x l -> P e -> P (F e x)) ->
  forall e, P e -> P (fold_left F l e).
Proof.
  induction l as [|x l IH]; simpl; intros H e He; [exact He|].
  apply IH; [intros e' x' Hx'; apply H; right; exact Hx' | apply H; auto].
Qed.

Lemma fold_left_ext_in {X : Type} (F G : Editor -> X -> Editor) (l : list X) :
  (forall e x, In x l -> F e x = G e x) ->
  forall e, fold_left F l e = fold_left G l e.
Proof.
  induction l as [|x l IH]; simpl; intros H e; [reflexivity|].
  rewrite H by (left; reflexivity).
  apply IH. intros e' x' Hx'. apply H. right. exact Hx'.
Qed.

Lemma filter_ext_in_bool {X : Type} (p q : X -> bool) (l : list X) :
  (forall x, In x l -> p x = q x) -> filter p l = filter q l.
Proof.
  induction l as [|x l IH]; simpl; intros H; [reflexivity|].
  rewrite (H x) by (left; reflexivity).
  rewrite IH by (intros x' Hx'; apply H; right; exact Hx'). reflexivity.
Qed.

Lemma fold_left_reaches {X : Type} (P Q : Editor -> Prop) (F : Editor -> X -> Editor)
    (l : list X) (x0 : X) :
  (forall e x, In x l -> P e -> P (F e x)) ->
  (forall e x, In x l -> P e -> Q e -> Q (F e x)) ->
  (forall e, P e -> Q (F e x0)) ->
  In x0 l ->
  forall e, P e -> Q (fold_left F l e).
Proof.
  induction l as [|x l IH]; intros HP HQ H0 Hin e He; [contradiction|].
  simpl. destruct Hin as [->|Hin].
  - apply (fold_left_invariant (fun e' => P e' /\ Q e')).
    + intros e' x' Hx' [Hp Hq]. split.
      * apply HP; [right; exact Hx' | exact Hp].
      * apply HQ; [right; exact Hx' | exact Hp | exact Hq].
    + split; [apply HP; [left; reflexivity | exact He] | apply H0; exact He].
  - apply IH.
    + intros e' x' Hx'. apply HP. right. exact Hx'.
    + intros e' x' Hx'. apply HQ. right. exact Hx'.
    + exact H0.
    + exact Hin.
    + apply HP; [left; reflexivity | exact He].
Qed.

Lemma set_xy_same (s : Shape) : set_xy s (shape_x s) (shape_y s) = s.
Proof. destruct s; reflexivity. Qed.

Lemma set_size_same (s : Shape) : set_size s (props_width s) (props_height s) = s.
Proof. destruct s; reflexivity. Qed.

Lemma apply_partial_id (p : ShapePartial) (s : Shape) :
  shape_id (apply_partial p s) = shape_id s.
Proof.
  destruct p as [id x y|id w h]; simpl; destruct (Nat.eqb (shape_id s) id); reflexivity.
Qed.

Lemma Editor_getShape_id (ed : Editor) (id : ShapeId) (s : Shape) :
  Editor_getShape ed id = Some s -> shape_id s = id.
Proof.
  unfold Editor_getShape. intros H. apply find_some in H.
  destruct H as [_ H]. apply Nat.eqb_eq. exact H.
Qed.

Lemma Editor_getShape_updateShape (ed : Editor) (p : ShapePartial) (id : ShapeId) :
  Editor_getShape (Editor_updateShape ed p) id =
  option_map (apply_partial p) (Editor_getShape ed id).
Proof.
  unfold Editor_getShape, Editor_updateShape; simpl.
  induction (shapes ed) as [|s l IH]; simpl; [reflexivity|].
  rewrite apply_partial_id.
  destruct (Nat.eqb (shape_id s) id); [reflexivity | exact IH].
Qed.

Lemma Editor_getShape_updateShape_other (ed : Editor) (id id' : ShapeId) (x y : Z) :
  id <> id' ->
  Editor_getShape (Editor_updateShape ed (PartialXY id' x y)) id = Editor_getShape ed id.
Proof.
  intros Hne. rewrite Editor_getShape_updateShape.
  destruct (Editor_getShape ed id) as [s|] eqn:E; [|reflexivity].
  simpl. apply Editor_getShape_id in E. rewrite E.
  apply Nat.eqb_neq in Hne. rewrite Hne. reflexivity.
Qed.

Lemma reflow_member_bindings T ph c i b (r : Run) :
  bindings (fst (reflow_member T ph c i b r)) = bindings (fst r)
  /\ nextBindingId (fst (reflow_member T ph c i b r)) = nextBindingId (fst r).
Proof.
  unfold reflow_member.
  destruct (reflow_skips T ph b); [tauto|].
  destruct (Editor_getShape (fst r) (toId b)) as [s|]; [|tauto].
  destruct (negb _ || negb _); simpl; tauto.
Qed.

Lemma reflow_member_skip T ph c i b (r : Run) :
  reflow_skips T ph b = true -> reflow_member T ph c i b r = r.
Proof. unfold reflow_member. intros ->. reflexivity. Qed.

Lemma reflow_member_other T ph c i b (r : Run) (id : ShapeId) :
  id <> toId b ->
  Editor_getShape (fst (reflow_member T ph c i b r)) id = Editor_getShape (fst r) id.
Proof.
  intros Hne. unfold reflow_member.
  destruct (reflow_skips T ph b); [reflexivity|].
  destruct (Editor_getShape (fst r) (toId b)) as [s|]; [|reflexivity].
  destruct (negb _ || negb _); [|reflexivity].
  simpl. apply Editor_getShape_updateShape_other. exact Hne.
Qed.

Definition place_at (ed : Editor) (c : Shape) (i : nat) (s : Shape) : Shape :=
  set_xy s (vx (slot_point ed c s i)) (vy (slot_point ed c s i)).

Lemma reflow_member_place T ph c i b (r : Run) :
  reflow_skips T ph b = false ->
  Editor_getShape (fst (reflow_member T ph c i b r)) (toId b) =
  option_map (place_at (fst r) c i) (Editor_getShape (fst r) (toId b)).
Proof.
  intros Hskip. unfold reflow_member, place_at. rewrite Hskip.
  destruct (Editor_getShape (fst r) (toId b)) as [s|] eqn:Hs; [|rewrite Hs; reflexivity].
  destruct (negb (shape_x s =? vx (slot_point (fst r) c s i))
            || negb (shape_y s =? vy (slot_point (fst r) c s i))) eqn:E.
  - simpl. rewrite Editor_getShape_updateShape, Hs. simpl.
    apply Editor_getShape_id in Hs. rewrite Hs, Nat.eqb_refl. reflexivity.
  - apply orb_false_iff in E. destruct E as [Ex Ey].
    apply negb_false_iff, Z.eqb_eq in Ex. apply negb_false_iff, Z.eqb_eq in Ey.
    rewrite Hs. simpl. rewrite <- Ex, <- Ey, set_xy_same. reflexivity.
Qed.

(** A member that is already in its slot, is passed over or has no shape
    leaves the run as it is. *)
Definition member_settled T ph (ed : Editor) (c : Shape) (i : nat) (b : LayoutBinding)
  : Prop :=
  reflow_skips T ph b = true
  \/ match Editor_getShape ed (toId b) with
     | None => True
     | Some s => shape_x s = vx (slot_point ed c s i) /\ shape_y s = vy (slot_point ed c s i)
     end.

Lemma reflow_member_settled T ph c i b (r : Run) :
  member_settled T ph (fst r) c i b -> reflow_member T ph c i b r = r.
Proof.
  unfold member_settled, reflow_member. intros [H|H].
  - rewrite H. reflexivity.
  - destruct (reflow_skips T ph b); [reflexivity|].
    destruct (Editor_getShape (fst r) (toId b)) as [s|]; [|reflexivity].
    destruct H as [Hx Hy]. rewrite <- Hx, <- Hy, !Z.eqb_refl. reflexivity.
Qed.

Lemma reflow_loop_bindings T ph c (bs : list LayoutBinding) : forall i (r : Run),
  bindings (fst (reflow_loop T ph c i bs r)) = bindings (fst r)
  /\ nextBindingId (fst (reflow_loop T ph c i bs r)) = nextBindingId (fst r).
Proof.
  induction bs as [|b rest IH]; intros i r; simpl; [tauto|].
  destruct (IH (S i) (reflow_member T ph c i b r)) as [H1 H2].
  destruct (reflow_member_bindings T ph c i b r) as [H3 H4].
  split; congruence.
Qed.

(** A shape is left alone by the loop when every binding to it is passed
    over, in particular when no binding of the list leads to it. *)
Lemma reflow_loop_untouched T ph c (bs : list LayoutBinding) (id : ShapeId) :
  forall i (r : Run),
  (forall b, In b bs -> toId b = id -> reflow_skips T ph b = true) ->
  Editor_getShape (fst (reflow_loop T ph c i bs r)) id = Editor_getShape (fst r) id.
Proof.
  induction bs as [|b rest IH]; intros i r H; simpl; [reflexivity|].
  rewrite IH by (intros b' Hb'; apply H; right; exact Hb').
  destruct (Nat.eq_dec id (toId b)) as [E|NE].
  - rewrite reflow_member_skip; [reflexivity|].
    apply H; [left; reflexivity | congruence].
  - apply reflow_member_other. exact NE.
Qed.

Lemma reflow_loop_other T ph c (bs : list LayoutBinding) (id : ShapeId) i (r : Run) :
  ~ In id (map toId bs) ->
  Editor_getShape (fst (reflow_loop T ph c i bs r)) id = Editor_getShape (fst r) id.
Proof.
  intros Hn. apply reflow_loop_untouched.
  intros b Hb E. exfalso. apply Hn. rewrite <- E. apply in_map. exact Hb.
Qed.

Lemma slot_point_stable (ed ed' : Editor) (c s : Shape) (i : nat) :
  Editor_getShape ed' (shape_id c) = Editor_getShape ed (shape_id c) ->
  slot_point ed' c s i = slot_point ed c s i.
Proof.
  unfold slot_point, Editor_getShapePageTransform. intros ->. reflexivity.
Qed.

Lemma place_at_stable (ed ed' : Editor) (c s : Shape) (i : nat) :
  Editor_getShape ed' (shape_id c) = Editor_getShape ed (shape_id c) ->
  place_at ed' c i s = place_at ed c i s.
Proof.
  intros H. unfold place_at. rewrite (slot_point_stable ed ed' c s i H). reflexivity.
Qed.

(** Where the loop puts the member at position [j] of the list. *)
Lemma reflow_loop_place T ph c (bs : list LayoutBinding) :
  forall i (r : Run) j b,
  NoDup (map toId bs) ->
  ~ In (shape_id c) (map toId bs) ->
  nth_error bs j = Some b ->
  reflow_skips T ph b = false ->
  Editor_getShape (fst (reflow_loop T ph c i bs r)) (toId b) =
  option_map (place_at (fst r) c (i + j)) (Editor_getShape (fst r) (toId b)).
Proof.
  induction bs as [|b0 rest IH]; intros i r j b Hnd Hc Hj Hskip.
  - destruct j; discriminate.
  - simpl in Hnd, Hc. inversion Hnd as [|? ? Hb0 Hrest]; subst.
    destruct j as [|j']; simpl in Hj.
    + injection Hj as ->. simpl.
      rewrite reflow_loop_other by exact Hb0.
      rewrite Nat.add_0_r. apply reflow_member_place; assumption.
    + simpl.
      assert (Hne : toId b <> toId b0).
      { intros E. apply Hb0. rewrite <- E. apply in_map.
        eapply nth_error_In. exact Hj. }
      rewrite (IH (S i) (reflow_member T ph c i b0 r) j' b); try assumption; [|tauto].
      rewrite reflow_member_other by exact Hne.
      replace (S i + j')%nat with (i + S j')%nat by lia.
      destruct (Editor_getShape (fst r) (toId b)) as [s|]; [|reflexivity].
      simpl. f_equal. apply place_at_stable.
      apply reflow_member_other.
      intros E. apply Hc. left. symmetry. exact E.
Qed.

Lemma reflow_loop_settled T ph c (bs : list LayoutBinding) : forall i (r : Run),
  (forall j b, nth_error bs j = Some b -> member_settled T ph (fst r) c (i + j) b) ->
  reflow_loop T ph c i bs r = r.
Proof.
  induction bs as [|b rest IH]; intros i r H; simpl; [reflexivity|].
  rewrite reflow_member_settled.
  - apply IH. intros j b' Hj.
    replace (S i + j)%nat with (i + S j)%nat by lia. apply H. exact Hj.
  - specialize (H 0%nat b eq_refl). rewrite Nat.add_0_r in H. exact H.
Qed.

(** Every position the loop writes belongs to a member it does not pass
    over. *)
Lemma reflow_loop_writes T ph c (bs : list LayoutBinding) : forall i (r : Run) p,
  In p (snd (reflow_loop T ph c i bs r)) ->
  In p (snd r)
  \/ exists b x y, In b bs /\ reflow_skips T ph b = false /\ p = PartialXY (toId b) x y.
Proof.
  induction bs as [|b rest IH]; intros i r p Hp; simpl in Hp; [left; exact Hp|].
  apply IH in Hp. destruct Hp as [Hp|(b' & x & y & Hb' & Hs & E)].
  - unfold reflow_member in Hp.
    destruct (reflow_skips T ph b) eqn:Hskip; [left; exact Hp|].
    destruct (Editor_getShape (fst r) (toId b)) as [s|]; [|left; exact Hp].
    destruct (negb _ || negb _); [|left; exact Hp].
    simpl in Hp. apply in_app_or in Hp. destruct Hp as [Hp|[Hp|[]]].
    + left; exact Hp.
    + right. exists b. do 2 eexists. split; [left; reflexivity|].
      split; [exact Hskip | symmetry; exact Hp].
  - right. exists b', x, y. split; [right; exact Hb' | tauto].
Qed.

Lemma run_updateShape_fst (r : Run) (p : ShapePartial) :
  fst (run_updateShape r p) = Editor_updateShape (fst r) p.
Proof. reflexivity. Qed.

Lemma Editor_getBindingsFromShape_same (ed ed' : Editor) (c c' : Shape) :
  bindings ed' = bindings ed -> shape_id c' = shape_id c ->
  Editor_getBindingsFromShape ed' c' = Editor_getBindingsFromShape ed c.
Proof. unfold Editor_getBindingsFromShape. intros -> ->. reflexivity. Qed.

(** *** The method's statements, whoever is told of the resize *)

Definition sized (c : Shape) (n : nat) : Prop :=
  props_width c = layout_width n /\ props_height c = layout_height.

Lemma sized_test (c : Shape) (n : nat) :
  negb (layout_width n =? props_width c) || negb (layout_height =? props_height c) = false
  <-> sized c n.
Proof.
  unfold sized. rewrite orb_false_iff, !negb_false_iff, !Z.eqb_eq.
  split; intros [H1 H2]; split; congruence.
Qed.

Lemma body_missing told (ed : Editor) (trigger : LayoutBinding) :
  Editor_getShape ed (fromId trigger) = None ->
  updateElementsForContainer_body told ed trigger = (ed, []).
Proof. unfold updateElementsForContainer_body. intros ->. reflexivity. Qed.

Lemma body_empty told (ed : Editor) (trigger : LayoutBinding) (c : Shape) :
  Editor_getShape ed (fromId trigger) = Some c ->
  Editor_getBindingsFromShape ed c = [] ->
  updateElementsForContainer_body told ed trigger = (ed, []).
Proof. unfold updateElementsForContainer_body. intros -> ->. reflexivity. Qed.

(** With the container in the store and a row that is not empty, the
    method is its loop followed by the resize, if one is due. *)
Lemma body_unfold told (ed : Editor) (trigger : LayoutBinding) (c : Shape) :
  Editor_getShape ed (fromId trigger) = Some c ->
  let bs := sort_by_index (Editor_getBindingsFromShape ed c) in
  bs <> [] ->
  updateElementsForContainer_body told ed trigger =
    let r := reflow_loop (toId trigger) (props_placeholder trigger) c 0 bs (ed, []) in
    if negb (layout_width (List.length bs) =? props_width c)
       || negb (layout_height =? props_height c)
    then (told (Editor_updateShape (fst r)
                  (PartialSize (shape_id c) (layout_width (List.length bs)) layout_height))
               (shape_id c),
          snd r ++ [PartialSize (shape_id c) (layout_width (List.length bs)) layout_height])
    else r.
Proof.
  intros Hc bs Hne. unfold updateElementsForContainer_body. rewrite Hc. fold bs.
  destruct bs as [|b0 bs0]; [contradiction|]. reflexivity.
Qed.

(** When the container already has the size of its row nobody is told
    anything: the method does the same whatever [told] is. *)
Lemma body_sized told told' (ed : Editor) (trigger : LayoutBinding) :
  (forall c, Editor_getShape ed (fromId trigger) = Some c ->
     Editor_getBindingsFromShape ed c <> [] ->
     sized c (List.length (Editor_getBindingsFromShape ed c))) ->
  updateElementsForContainer_body told ed trigger
  = updateElementsForContainer_body told' ed trigger.
Proof.
  intros Hsized. unfold updateElementsForContainer_body.
  destruct (Editor_getShape ed (fromId trigger)) as [c|] eqn:Hc; [|reflexivity].
  destruct (Nat.eqb _ 0) eqn:En; [reflexivity|].
  rewrite sort_by_index_length in *.
  assert (Hs : sized c (List.length (Editor_getBindingsFromShape ed c))).
  { apply (Hsized c eq_refl). intros E. rewrite E in En. discriminate En. }
  apply sized_test in Hs. rewrite Hs. reflexivity.
Qed.

Lemma body_bindings told (ed : Editor) (trigger : LayoutBinding) :
  (forall e id, bindings (told e id) = bindings e
                /\ nextBindingId (told e id) = nextBindingId e) ->
  bindings (fst (updateElementsForContainer_body told ed trigger)) = bindings ed
  /\ nextBindingId (fst (updateElementsForContainer_body told ed trigger))
     = nextBindingId ed.
Proof.
  intros Htold. unfold updateElementsForContainer_body.
  destruct (Editor_getShape ed (fromId trigger)) as [c|]; [|tauto].
  destruct (Nat.eqb _ 0); [tauto|].
  destruct (negb _ || negb _);
    [|apply (reflow_loop_bindings _ _ _ _ 0%nat (ed, []))].
  cbv zeta. unfold run_updateShape. cbn [fst snd].
  match goal with
  | |- context [told ?e ?i] => destruct (Htold e i) as [H1 H2]; rewrite H1, H2
  end.
  cbn [Editor_updateShape bindings nextBindingId].
  apply (reflow_loop_bindings _ _ _ _ 0%nat (ed, [])).
Qed.

(** *** The method re-entered *)

Lemma reentered_bindings (ed : Editor) (trigger : LayoutBinding) :
  bindings (updateElementsForContainer_reentered ed trigger) = bindings ed
  /\ nextBindingId (updateElementsForContainer_reentered ed trigger) = nextBindingId ed.
Proof. apply body_bindings. intros e id. split; reflexivity. Qed.

(** The state the method leaves when nobody is told of the resize, shape
    by shape. *)
Lemma reentered_shapes (ed : Editor) (trigger : LayoutBinding) (c : Shape) :
  Editor_getShape ed (fromId trigger) = Some c ->
  let bs := sort_by_index (Editor_getBindingsFromShape ed c) in
  let T := toId trigger in
  let ph := props_placeholder trigger in
  let ed' := updateElementsForContainer_reentered ed trigger in
  bs <> [] ->
  ~ In (shape_id c) (map toId bs) ->
  Editor_getShape ed' (shape_id c) =
    Some (set_size c (layout_width (List.length bs)) layout_height)
  /\ (forall id, id <> shape_id c ->
        (forall b, In b bs -> toId b = id -> reflow_skips T ph b = true) ->
        Editor_getShape ed' id = Editor_getShape ed id)
  /\ (NoDup (map toId bs) ->
      forall j b, nth_error bs j = Some b -> reflow_skips T ph b = false ->
        Editor_getShape ed' (toId b) =
        option_map (place_at ed c j) (Editor_getShape ed (toId b))).
Proof.
  intros Hc bs T ph ed' Hne Hnotin.
  assert (Hid : shape_id c = fromId trigger) by (eapply Editor_getShape_id; exact Hc).
  pose proof (body_unfold (fun e _ => e) ed trigger c Hc Hne) as Hrun.
  cbv zeta in Hrun. fold bs T ph in Hrun.
  assert (Hloopc : Editor_getShape (fst (reflow_loop T ph c 0 bs (ed, []))) (shape_id c)
                   = Some c).
  { rewrite reflow_loop_other by exact Hnotin. simpl. rewrite Hid. exact Hc. }
  assert (Hfinal : forall id, id <> shape_id c ->
            Editor_getShape ed' id =
            Editor_getShape (fst (reflow_loop T ph c 0 bs (ed, []))) id).
  { intros id Hidne. unfold ed', updateElementsForContainer_reentered. rewrite Hrun.
    destruct (negb _ || negb _); [|reflexivity].
    cbn [fst]. rewrite Editor_getShape_updateShape.
    destruct (Editor_getShape _ id) as [s|] eqn:Es; [|reflexivity].
    simpl. apply Editor_getShape_id in Es. rewrite Es.
    apply Nat.eqb_neq in Hidne. rewrite Hidne. reflexivity. }
  split; [|split].
  - unfold ed', updateElementsForContainer_reentered. rewrite Hrun.
    destruct (negb (layout_width (List.length bs) =? props_width c)
              || negb (layout_height =? props_height c)) eqn:E.
    + cbn [fst]. rewrite Editor_getShape_updateShape, Hloopc. simpl.
      rewrite Nat.eqb_refl. reflexivity.
    + apply sized_test in E. destruct E as [Ew Eh].
      rewrite Hloopc, <- Ew, <- Eh, set_size_same. reflexivity.
  - intros id Hidne Hsk. rewrite Hfinal by exact Hidne.
    rewrite reflow_loop_untouched by exact Hsk. reflexivity.
  - intros Hnd j b Hj Hskip.
    assert (Hbne : toId b <> shape_id c).
    { intros E. apply Hnotin. rewrite <- E. apply in_map.
      eapply nth_error_In. exact Hj. }
    rewrite Hfinal by exact Hbne.
    rewrite (reflow_loop_place T ph c bs 0 (ed, []) j b); auto.
Qed.

(** *** The editor telling the container's relationships *)

Lemma tell_invariant (P : Editor -> Prop) (reflow : Editor -> LayoutBinding -> Editor)
    (ed : Editor) (id : ShapeId) :
  (forall e b, In b (bindings ed) -> fromId b = id -> P e -> P (reflow e b)) ->
  P ed -> P (Editor_tellBindings reflow ed id).
Proof.
  intros Hstep. unfold Editor_tellBindings. apply fold_left_invariant.
  intros e b Hb He. apply filter_In in Hb. destruct Hb as [Hb _].
  destruct (Nat.eqb_spec (fromId b) id) as [E|_]; [|exact He].
  apply Hstep; assumption.
Qed.

(** What one of the calls establishes and every call keeps holds at the
    end. *)
Lemma tell_reaches (P Q : Editor -> Prop) (reflow : Editor -> LayoutBinding -> Editor)
    (ed : Editor) (id : ShapeId) (b0 : LayoutBinding) :
  (forall e b, In b (bindings ed) -> fromId b = id -> P e -> P (reflow e b)) ->
  (forall e b, In b (bindings ed) -> fromId b = id -> P e -> Q e -> Q (reflow e b)) ->
  (forall e, P e -> Q (reflow e b0)) ->
  In b0 (bindings ed) -> fromId b0 = id ->
  P ed -> Q (Editor_tellBindings reflow ed id).
Proof.
  intros HP HQ H0 Hin Hfrom. unfold Editor_tellBindings.
  apply (fold_left_reaches P Q _ _ b0).
  - intros e b Hb He. apply filter_In in Hb. destruct Hb as [Hb _].
    destruct (Nat.eqb_spec (fromId b) id) as [E|_]; [|exact He].
    apply HP; assumption.
  - intros e b Hb He Hq. apply filter_In in Hb. destruct Hb as [Hb _].
    destruct (Nat.eqb_spec (fromId b) id) as [E|_]; [|exact Hq].
    apply HQ; assumption.
  - intros e He. rewrite Hfrom, Nat.eqb_refl. apply H0. exact He.
  - apply filter_In. split; [exact Hin|]. rewrite Hfrom, Nat.eqb_refl. reflexivity.
Qed.

(** *** The method as the program runs it *)

Lemma updateElementsForContainer_bindings (ed : Editor) (trigger : LayoutBinding) :
  bindings (updateElementsForContainer ed trigger) = bindings ed
  /\ nextBindingId (updateElementsForContainer ed trigger) = nextBindingId ed.
Proof.
  apply body_bindings. intros e id.
  apply (tell_invariant
           (fun e' => bindings e' = bindings e /\ nextBindingId e' = nextBindingId e));
    [|split; reflexivity].
  intros e0 b _ _ [H1 H2]. destruct (reentered_bindings e0 b) as [H3 H4].
  split; congruence.
Qed.

Lemma updateElementsForContainer_missing (ed : Editor) (trigger : LayoutBinding) :
  Editor_getShape ed (fromId trigger) = None ->
  updateElementsForContainer_run ed trigger = (ed, []).
Proof. apply body_missing. Qed.

Lemma updateElementsForContainer_empty (ed : Editor) (trigger : LayoutBinding) (c : Shape) :
  Editor_getShape ed (fromId trigger) = Some c ->
  Editor_getBindingsFromShape ed c = [] ->
  updateElementsForContainer_run ed trigger = (ed, []).
Proof. apply body_empty. Qed.

(** The method is its statements with nobody told, followed, when the
    container was resized, by the calls the editor makes for the
    container's relationships. *)
Lemma updateElementsForContainer_steps (ed : Editor) (trigger : LayoutBinding) (c : Shape) :
  Editor_getShape ed (fromId trigger) = Some c ->
  Editor_getBindingsFromShape ed c <> [] ->
  (sized c (List.length (Editor_getBindingsFromShape ed c)) ->
   updateElementsForContainer ed trigger = updateElementsForContainer_reentered ed trigger)
  /\ (~ sized c (List.length (Editor_getBindingsFromShape ed c)) ->
      updateElementsForContainer ed trigger
      = Editor_tellBindings updateElementsForContainer_reentered
          (updateElementsForContainer_reentered ed trigger) (shape_id c)).
Proof.
  intros Hc Hne.
  assert (Hne' : sort_by_index (Editor_getBindingsFromShape ed c) <> []).
  { intros E. apply Hne. apply length_zero_iff_nil.
    rewrite <- sort_by_index_length, E. reflexivity. }
  unfold updateElementsForContainer, updateElementsForContainer_reentered,
    updateElementsForContainer_run.
  rewrite !(body_unfold _ ed trigger c Hc Hne'). cbv zeta.
  rewrite sort_by_index_length.
  destruct (negb (layout_width (List.length (Editor_getBindingsFromShape ed c))
                  =? props_width c)
            || negb (layout_height =? props_height c)) eqn:E.
  - split; [|reflexivity].
    intros Hs. apply sized_test in Hs. congruence.
  - split; [reflexivity|]. intros Hs. exfalso. apply Hs. apply sized_test. exact E.
Qed.

Lemma set_xy_twice (s : Shape) (a b x y : Z) : set_xy (set_xy s a b) x y = set_xy s x y.
Proof. reflexivity. Qed.

(** Placing a member again, from a store in which the container has only
    changed size, puts it where the first placing did. *)
Lemma place_at_again (ed e : Editor) (c s s' : Shape) (w h : Z) (j : nat) :
  Editor_getShape ed (shape_id c) = Some c ->
  Editor_getShape e (shape_id c) = Some (set_size c w h) ->
  s' = s \/ s' = place_at ed c j s ->
  place_at e (set_size c w h) j s' = place_at ed c j s.
Proof.
  intros Hc He Hs.
  assert (Hpoint : forall u, slot_point e (set_size c w h) u j = slot_point ed c u j).
  { intros u. unfold slot_point, Editor_getShapePageTransform.
    change (shape_id (set_size c w h)) with (shape_id c).
    rewrite He, Hc, getShapePageTransform_size. reflexivity. }
  unfold place_at. rewrite Hpoint.
  destruct Hs as [-> | ->]; [reflexivity|].
  unfold place_at, slot_point. rewrite !getPointInParentSpace_xy.
  apply set_xy_twice.
Qed.

(** The state the method leaves, shape by shape: the container has the
    size of its row; a shape outside the row is as it was; a member is
    where it was or in its slot, and it is in its slot when the method
    itself did not pass it over, or when the container was resized and
    one of the container's relationships, as trigger, does not pass it
    over. *)
Lemma updateElementsForContainer_shapes (ed : Editor) (trigger : LayoutBinding) (c : Shape) :
  Editor_getShape ed (fromId trigger) = Some c ->
  let members := Editor_getBindingsFromShape ed c in
  let bs := sort_by_index members in
  let T := toId trigger in
  let ph := props_placeholder trigger in
  let ed' := updateElementsForContainer ed trigger in
  bs <> [] ->
  ~ In (shape_id c) (map toId bs) ->
  NoDup (map toId bs) ->
  Editor_getShape ed' (shape_id c) =
    Some (set_size c (layout_width (List.length bs)) layout_height)
  /\ (forall id, id <> shape_id c -> ~ In id (map toId bs) ->
        Editor_getShape ed' id = Editor_getShape ed id)
  /\ (forall j b, nth_error bs j = Some b ->
        (Editor_getShape ed' (toId b) = Editor_getShape ed (toId b)
         \/ Editor_getShape ed' (toId b)
            = option_map (place_at ed c j) (Editor_getShape ed (toId b)))
        /\ (reflow_skips T ph b = false ->
            Editor_getShape ed' (toId b)
            = option_map (place_at ed c j) (Editor_getShape ed (toId b)))
        /\ (reflow_skips T ph b = true -> sized c (List.length bs) ->
            Editor_getShape ed' (toId b) = Editor_getShape ed (toId b))
        /\ (~ sized c (List.length bs) ->
            forall b', In b' members ->
              reflow_skips (toId b') (props_placeholder b') b = false ->
              Editor_getShape ed' (toId b)
              = option_map (place_at ed c j) (Editor_getShape ed (toId b)))
        /\ (reflow_skips T ph b = true ->
            (forall b', In b' members ->
               reflow_skips (toId b') (props_placeholder b') b = true) ->
            Editor_getShape ed' (toId b) = Editor_getShape ed (toId b))).
Proof.
  intros Hc members bs T ph ed' Hne Hnotin Hnd.
  assert (Hid : shape_id c = fromId trigger) by (eapply Editor_getShape_id; exact Hc).
  assert (Hlen : List.length bs = List.length members) by apply sort_by_index_length.
  assert (Hmne : members <> []).
  { intros E. apply Hne. apply length_zero_iff_nil. rewrite Hlen, E. reflexivity. }
  set (W := layout_width (List.length bs)).
  set (c2 := set_size c W layout_height).
  set (placed := fun (e : Editor) (j : nat) (b : LayoutBinding) =>
         Editor_getShape e (toId b)
         = option_map (place_at ed c j) (Editor_getShape ed (toId b))).
  set (Inv := fun e : Editor =>
         bindings e = bindings ed
         /\ Editor_getShape e (shape_id c) = Some c2
         /\ (forall id, id <> shape_id c -> ~ In id (map toId bs) ->
               Editor_getShape e id = Editor_getShape ed id)
         /\ (forall j b, nth_error bs j = Some b ->
               Editor_getShape e (toId b) = Editor_getShape ed (toId b)
               \/ placed e j b)).
  (* one pass, entered from a store of the invariant *)
  assert (Hpass : forall e t, Inv e -> fromId t = shape_id c ->
            let e' := updateElementsForContainer_reentered e t in
            Inv e'
            /\ (forall j b, nth_error bs j = Some b ->
                  reflow_skips (toId t) (props_placeholder t) b = false -> placed e' j b)
            /\ (forall j b, nth_error bs j = Some b ->
                  reflow_skips (toId t) (props_placeholder t) b = true ->
                  Editor_getShape e' (toId b) = Editor_getShape e (toId b))
            /\ (forall j b, nth_error bs j = Some b -> placed e j b -> placed e' j b)).
  { intros e t (Hb & Hc2 & Hout & Hmem) Hft e'.
    assert (Hc2' : Editor_getShape e (fromId t) = Some c2) by (rewrite Hft; exact Hc2).
    assert (Hbs : sort_by_index (Editor_getBindingsFromShape e c2) = bs).
    { unfold bs, members. f_equal.
      apply Editor_getBindingsFromShape_same; [exact Hb | reflexivity]. }
    destruct (reentered_shapes e t c2 Hc2') as (Hcont & Hkeep & Hplace);
      [rewrite Hbs; exact Hne | rewrite Hbs; exact Hnotin |].
    rewrite Hbs in Hcont, Hkeep, Hplace. specialize (Hplace Hnd).
    fold e' in Hcont, Hkeep, Hplace.
    change (shape_id c2) with (shape_id c) in Hcont, Hkeep.
    assert (Hplaced : forall j b, nth_error bs j = Some b ->
              reflow_skips (toId t) (props_placeholder t) b = false -> placed e' j b).
    { intros j b Hj Hsk. unfold placed. rewrite (Hplace j b Hj Hsk).
      destruct (Hmem j b Hj) as [E|E]; rewrite E;
        destruct (Editor_getShape ed (toId b)) as [s|]; try reflexivity;
        cbn [option_map]; f_equal;
        apply (place_at_again ed e c s _ W layout_height j);
        try (rewrite Hid; exact Hc); try exact Hc2; auto. }
    assert (Hskipped : forall j b, nth_error bs j = Some b ->
              reflow_skips (toId t) (props_placeholder t) b = true ->
              Editor_getShape e' (toId b) = Editor_getShape e (toId b)).
    { intros j b Hj Hsk. apply Hkeep.
      - intros E. apply Hnotin. rewrite <- E. apply in_map.
        eapply nth_error_In. exact Hj.
      - intros b' _ E. unfold reflow_skips in *. rewrite E. exact Hsk. }
    split; [|split; [exact Hplaced | split; [exact Hskipped|]]].
    - split; [|split; [|split]].
      + rewrite <- Hb. apply reentered_bindings.
      + rewrite Hcont. unfold c2. reflexivity.
      + intros id Hne1 Hout1. rewrite Hkeep; [apply Hout; assumption | exact Hne1 |].
        intros b Hin E. exfalso. apply Hout1. rewrite <- E. apply in_map. exact Hin.
      + intros j b Hj.
        destruct (reflow_skips (toId t) (props_placeholder t) b) eqn:Hsk.
        * destruct (Hmem j b Hj) as [E|E]; [left | right; unfold placed in *];
            rewrite (Hskipped j b Hj Hsk); exact E.
        * right. apply Hplaced; assumption.
    - intros j b Hj Hp.
      destruct (reflow_skips (toId t) (props_placeholder t) b) eqn:Hsk.
      + unfold placed. rewrite (Hskipped j b Hj Hsk). exact Hp.
      + apply Hplaced; assumption. }
  (* the first pass *)
  set (e1 := updateElementsForContainer_reentered ed trigger).
  destruct (reentered_shapes ed trigger c Hc Hne Hnotin) as (Hcont1 & Hkeep1 & Hplace1).
  fold bs T ph e1 in Hcont1, Hkeep1, Hplace1. specialize (Hplace1 Hnd).
  assert (Hskip1 : forall j b, nth_error bs j = Some b -> reflow_skips T ph b = true ->
            Editor_getShape e1 (toId b) = Editor_getShape ed (toId b)).
  { intros j b Hj Hsk. apply Hkeep1.
    - intros E. apply Hnotin. rewrite <- E. apply in_map.
      eapply nth_error_In. exact Hj.
    - intros b' _ E. unfold reflow_skips in *. rewrite E. exact Hsk. }
  assert (Hinv1 : Inv e1).
  { split; [apply reentered_bindings|]. split; [exact Hcont1|]. split.
    - intros id Hne1 Hout1. apply Hkeep1; [exact Hne1|].
      intros b Hin E. exfalso. apply Hout1. rewrite <- E. apply in_map. exact Hin.
    - intros j b Hj. destruct (reflow_skips T ph b) eqn:Hsk.
      + left. apply (Hskip1 j b Hj Hsk).
      + right. apply Hplace1; assumption. }
  destruct (updateElementsForContainer_steps ed trigger c Hc Hmne) as [Hsame Htold].
  fold members in Hsame, Htold. rewrite <- Hlen in Hsame, Htold.
  fold ed' e1 in Hsame, Htold.
  destruct (Z.eq_dec (props_width c) W) as [Ew|Ew];
    [destruct (Z.eq_dec (props_height c) layout_height) as [Eh|Eh]|].
  1:{ (* no resize *)
      assert (Hs : sized c (List.length bs)) by (split; assumption).
      rewrite (Hsame Hs). destruct Hinv1 as (_ & H2 & H3 & H4).
      split; [exact H2|]. split; [exact H3|].
      intros j b Hj. split; [apply H4; exact Hj|].
      split; [intros Hsk; apply Hplace1; assumption|].
      split; [intros Hsk _; apply (Hskip1 j b Hj Hsk)|].
      split; [intros Hn; contradiction|].
      intros Hsk _. apply (Hskip1 j b Hj Hsk). }
  all: assert (Hns : ~ sized c (List.length bs))
         by (intros [H1 H2]; fold W in H1; congruence).
  all: rewrite (Htold Hns).
  all: assert (Hfinal : Inv (Editor_tellBindings updateElementsForContainer_reentered e1
                               (shape_id c)))
         by (apply (tell_invariant Inv); [|exact Hinv1];
             intros e b _ Hf He; apply (Hpass e b He Hf)).
  all: destruct Hfinal as (_ & H2 & H3 & H4).
  all: split; [exact H2|]; split; [exact H3|].
  all: intros j b Hj; split; [apply H4; exact Hj|].
  all: split;
    [intros Hsk;
     apply (tell_invariant (fun e => Inv e /\ placed e j b));
     [intros e t _ Hf [He Hp]; destruct (Hpass e t He Hf) as (Hi & _ & _ & Hk);
      split; [exact Hi | apply Hk; assumption]
     |split; [exact Hinv1 | apply Hplace1; assumption]]|].
  all: split; [intros _ Hs; contradiction|].
  all: split;
    [intros _ b' Hb' Hsk;
     apply (tell_reaches Inv (fun e => placed e j b) _ e1 (shape_id c) b');
     [intros e t _ Hf He; apply (Hpass e t He Hf)
     |intros e t _ Hf He Hp; destruct (Hpass e t He Hf) as (_ & _ & _ & Hk);
      apply Hk; assumption
     |intros e He;
      assert (Hf : fromId b' = shape_id c)
        by (apply filter_In in Hb'; apply Nat.eqb_eq; tauto);
      destruct (Hpass e b' He Hf) as (_ & Hpl & _); apply Hpl; assumption
     |destruct Hinv1 as (Hb1 & _); rewrite Hb1; apply filter_In in Hb'; tauto
     |apply filter_In in Hb'; apply Nat.eqb_eq; tauto
     |exact Hinv1]|].
  all: intros Hsk Hall;
    rewrite <- (Hskip1 j b Hj Hsk);
    apply (tell_invariant
             (fun e => Inv e /\ Editor_getShape e (toId b) = Editor_getShape e1 (toId b)));
    [|split; [exact Hinv1 | reflexivity]];
    intros e t Ht Hf [He Hq]; destruct (Hpass e t He Hf) as (Hi & _ & Hk & _);
    (split; [exact Hi|]);
    rewrite <- Hq; apply (Hk j b Hj); apply Hall;
    apply filter_In; (split; [|apply Nat.eqb_eq; exact Hf]);
    destruct Hinv1 as (Hb1 & _); rewrite <- Hb1; exact Ht.
Qed.

Lemma layout_width_formula (n : nat) :
  layout_width n = 24 + Z.of_nat n * 100 + (Z.of_nat n - 1) * 24 + 24.
Proof. unfold layout_width, CONTAINER_PADDING. lia. Qed.

Lemma slot_offset_formula (i : nat) :
  slot_offset i = mkVec (24 + Z.of_nat i * 124) 24.
Proof. unfold slot_offset, CONTAINER_PADDING. f_equal; lia. Qed.

Lemma reflow_skips_false_iff (trigger b : LayoutBinding) :
  reflow_skips (toId trigger) (props_placeholder trigger) b = false <->
  ~ (toId b = toId trigger /\ props_placeholder trigger = true).
Proof.
  unfold reflow_skips. rewrite andb_false_iff, Nat.eqb_neq. split.
  - intros [H|H] [H1 H2]; congruence.
  - intros H. destruct (Nat.eq_dec (toId trigger) (toId b)) as [E|NE]; [|tauto].
    right. destruct (props_placeholder trigger); [|reflexivity].
    exfalso. apply H. split; congruence.
Qed.

(** The row in key order, for distinct keys: the one strictly ascending
    arrangement of the members. *)
Lemma row_in_key_order (members : list LayoutBinding) :
  NoDup (map props_index members) ->
  Permutation (sort_by_index members) members
  /\ StronglySorted index_lt (sort_by_index members).
Proof.
  intros Hk. split; [apply sort_by_index_perm | apply sort_by_index_sorted; exact Hk].
Qed.

Lemma row_far_ends (members : list LayoutBinding) (id : ShapeId) :
  NoDup (map toId members) -> ~ In id (map toId members) ->
  NoDup (map toId (sort_by_index members))
  /\ ~ In id (map toId (sort_by_index members)).
Proof.
  intros Hnd Hout.
  pose proof (Permutation_map toId (sort_by_index_perm members)) as Hperm.
  split.
  - apply (Permutation_NoDup (Permutation_sym Hperm) Hnd).
  - intros Hin. apply Hout. apply (Permutation_in _ Hperm Hin).
Qed.

(** C1. After a reflow of a container with n >= 1 layout relationships
    the container is 24 + n*100 + (n-1)*24 + 24 wide and 148 high, and,
    the members being taken in ascending order of their index keys, the
    member at position i, unless it is the one of a placeholder-flagged
    trigger, sits at the offset (24 + i*124, 24) of the container's
    frame, carried to the member's parent space.  (The keys of the row
    are pairwise distinct; its relationships lead to distinct elements,
    none of them the container itself.) *)
Theorem reflow_geometry (ed : Editor) (trigger : LayoutBinding) (c : Shape) :
  Editor_getShape ed (fromId trigger) = Some c ->
  let members := Editor_getBindingsFromShape ed c in
  let n := List.length members in
  (1 <= n)%nat ->
  NoDup (map props_index members) ->
  NoDup (map toId members) ->
  ~ In (shape_id c) (map toId members) ->
  let ed' := updateElementsForContainer ed trigger in
  exists c' row,
    Editor_getShape ed' (fromId trigger) = Some c'
    /\ props_width c' = 24 + Z.of_nat n * 100 + (Z.of_nat n - 1) * 24 + 24
    /\ props_height c' = 24 + 100 + 24
    /\ Permutation row members
    /\ StronglySorted index_lt row
    /\ forall i b s,
        nth_error row i = Some b ->
        ~ (toId b = toId trigger /\ props_placeholder trigger = true) ->
        Editor_getShape ed (toId b) = Some s ->
        exists s',
          Editor_getShape ed' (toId b) = Some s'
          /\ mkVec (shape_x s') (shape_y s') =
             getPointInParentSpace s'
               (getShapePageTransform c' (mkVec (24 + Z.of_nat i * 124) 24)).
Proof.
  intros Hc members n Hn Hkeys Hnd0 Hnotin0 ed'.
  destruct (row_in_key_order members Hkeys) as [Hperm Hsorted].
  destruct (row_far_ends members (shape_id c) Hnd0 Hnotin0) as [Hnd Hnotin].
  set (bs := sort_by_index members) in *.
  assert (Hlen : List.length bs = n) by apply sort_by_index_length.
  assert (Hne : bs <> []).
  { intros E. rewrite E in Hlen. simpl in Hlen. lia. }
  destruct (updateElementsForContainer_shapes ed trigger c Hc Hne Hnotin Hnd)
    as (Hcont & _ & Hplace).
  fold members bs ed' in Hcont, Hplace. rewrite Hlen in Hcont.
  assert (Hid : shape_id c = fromId trigger) by (eapply Editor_getShape_id; exact Hc).
  exists (set_size c (layout_width n) layout_height), bs.
  split; [rewrite <- Hid; exact Hcont|].
  split; [simpl; apply layout_width_formula|].
  split; [reflexivity|].
  split; [exact Hperm|]. split; [exact Hsorted|].
  intros i b s Hi Hskip Hs.
  apply reflow_skips_false_iff in Hskip.
  destruct (Hplace i b Hi) as (_ & Hput & _). specialize (Hput Hskip).
  rewrite Hs in Hput. simpl in Hput.
  exists (place_at ed c i s). split; [exact Hput|].
  unfold place_at. rewrite getPointInParentSpace_xy, getShapePageTransform_size.
  simpl. unfold slot_point, Editor_getShapePageTransform.
  rewrite Hid, Hc, slot_offset_formula.
  destruct (getPointInParentSpace s _); reflexivity.
Qed.

(** The positions the method itself writes belong to members it does not
    pass over. *)
Lemma own_writes_skip (ed : Editor) (trigger b : LayoutBinding) (x y : Z) :
  reflow_skips (toId trigger) (props_placeholder trigger) b = true ->
  ~ In (PartialXY (toId b) x y) (updateElementsForContainer_writes ed trigger).
Proof.
  intros Hsk Hw.
  unfold updateElementsForContainer_writes, updateElementsForContainer_run,
    updateElementsForContainer_body in Hw.
  destruct (Editor_getShape ed (fromId trigger)) as [c|]; [|exact Hw].
  destruct (Nat.eqb _ 0); [exact Hw|].
  assert (Hloop : In (PartialXY (toId b) x y)
            (snd (reflow_loop (toId trigger) (props_placeholder trigger) c 0
                    (sort_by_index (Editor_getBindingsFromShape ed c)) (ed, [])))).
  { destruct (negb _ || negb _); [|exact Hw].
    cbv zeta in Hw. unfold run_updateShape in Hw. cbn [fst snd] in Hw.
    apply in_app_or in Hw.
    destruct Hw as [Hw|[Hw|[]]]; [exact Hw | discriminate]. }
  apply reflow_loop_writes in Hloop.
  destruct Hloop as [[]|(b' & x' & y' & _ & Hsk' & E)].
  injection E as E _ _. unfold reflow_skips in *. rewrite <- E in Hsk'. congruence.
Qed.

(** C7. In a reflow the method passes a member over exactly when the
    member's relationship is the one that triggered the reflow and that
    relationship's placeholder flag is set.  For the member passed over
    the method writes no position; every other member, at position i of
    the row in ascending key order, is in slot i when the method
    returns.  What becomes of the member passed over is then up to the
    editor: if the container keeps its size nobody is told and the
    member's record is what it was; if the method resizes the container
    the editor tells the container's relationships, and the reflow that
    one of another member triggers, in which this member is not the
    trigger's, puts it in slot i as well.  (The keys of the row are
    pairwise distinct; its relationships lead to distinct elements, none
    of them the container itself; the trigger is the container's only
    relationship to its element.) *)
Theorem reflow_skips_exactly_placeholder_trigger
    (ed : Editor) (trigger : LayoutBinding) (c : Shape) :
  Editor_getShape ed (fromId trigger) = Some c ->
  let members := Editor_getBindingsFromShape ed c in
  NoDup (map props_index members) ->
  NoDup (map toId members) ->
  ~ In (shape_id c) (map toId members) ->
  (forall b, In b members -> toId b = toId trigger -> b = trigger) ->
  let ed' := updateElementsForContainer ed trigger in
  exists row,
    Permutation row members
    /\ StronglySorted index_lt row
    /\ forall i b s,
        nth_error row i = Some b ->
        Editor_getShape ed (toId b) = Some s ->
        (reflow_skips (toId trigger) (props_placeholder trigger) b = true <->
         b = trigger /\ props_placeholder trigger = true)
        /\ (b = trigger /\ props_placeholder trigger = true ->
            (forall x y,
               ~ In (PartialXY (toId b) x y) (updateElementsForContainer_writes ed trigger))
            /\ (sized c (List.length members) ->
                Editor_getShape ed' (toId b) = Some s)
            /\ (~ sized c (List.length members) ->
                (exists b', In b' members /\ b' <> trigger) ->
                Editor_getShape ed' (toId b) = Some (place_at ed c i s)))
        /\ (~ (b = trigger /\ props_placeholder trigger = true) ->
            Editor_getShape ed' (toId b) = Some (place_at ed c i s)).
Proof.
  intros Hc members Hkeys Hnd0 Hnotin0 Hown ed'.
  destruct (row_in_key_order members Hkeys) as [Hperm Hsorted].
  destruct (row_far_ends members (shape_id c) Hnd0 Hnotin0) as [Hnd Hnotin].
  set (bs := sort_by_index members) in *.
  exists bs. split; [exact Hperm|]. split; [exact Hsorted|].
  intros i b s Hi Hs.
  assert (Hin : In b bs) by (eapply nth_error_In; exact Hi).
  assert (Hne : bs <> []) by (intros E; rewrite E in Hin; exact Hin).
  assert (Hiff : reflow_skips (toId trigger) (props_placeholder trigger) b = true <->
                 b = trigger /\ props_placeholder trigger = true).
  { unfold reflow_skips. rewrite andb_true_iff, Nat.eqb_eq. split.
    - intros [E Hp]. split; [|exact Hp].
      apply Hown; [apply (Permutation_in _ Hperm Hin) | symmetry; exact E].
    - intros [-> Hp]. split; [reflexivity | exact Hp]. }
  destruct (updateElementsForContainer_shapes ed trigger c Hc Hne Hnotin Hnd)
    as (_ & _ & Hplace).
  fold members bs ed' in Hplace.
  destruct (Hplace i b Hi) as (_ & Hput & Hkeep & Hsnap & _).
  split; [exact Hiff|]. split.
  - intros Hb. pose proof Hb as [Eb _]. apply Hiff in Hb. split; [|split].
    + intros x y. apply own_writes_skip. exact Hb.
    + intros Hsz. rewrite Hkeep; [exact Hs | exact Hb |].
      unfold bs. rewrite sort_by_index_length. exact Hsz.
    + intros Hns (b' & Hb' & Hneq).
      rewrite (Hsnap (fun H => Hns (eq_ind _ (sized c) H _ (sort_by_index_length _)))
                 b' Hb'), Hs; [reflexivity|].
      unfold reflow_skips. apply andb_false_iff. left. apply Nat.eqb_neq.
      intros E. apply Hneq. apply (Hown b' Hb'). rewrite E, Eb. reflexivity.
  - intros Hb.
    assert (Hsk : reflow_skips (toId trigger) (props_placeholder trigger) b = false).
    { destruct (reflow_skips _ _ b); [|reflexivity]. exfalso. apply Hb, Hiff. reflexivity. }
    rewrite (Hput Hsk), Hs. reflexivity.
Qed.

(** C8. Running the reflow a second time, with no relationship changed
    in between, writes no shape and leaves every position and the
    container's size as the first run left them.  (Relationships of one
    container lead to distinct elements, none of them the container
    itself.) *)
Theorem reflow_idempotent (ed : Editor) (trigger : LayoutBinding) :
  (forall c, Editor_getShape ed (fromId trigger) = Some c ->
     NoDup (map toId (Editor_getBindingsFromShape ed c))
     /\ ~ In (shape_id c) (map toId (Editor_getBindingsFromShape ed c))) ->
  let ed1 := updateElementsForContainer ed trigger in
  updateElementsForContainer_run ed1 trigger = (ed1, [])
  /\ updateElementsForContainer ed1 trigger = ed1
  /\ updateElementsForContainer_writes ed1 trigger = [].
Proof.
  intros Hwf ed1.
  enough (H : updateElementsForContainer_run ed1 trigger = (ed1, [])).
  { unfold updateElementsForContainer, updateElementsForContainer_writes.
    rewrite H. auto. }
  destruct (Editor_getShape ed (fromId trigger)) as [c|] eqn:Hc.
  2:{ assert (E : ed1 = ed).
      { unfold ed1, updateElementsForContainer.
        rewrite updateElementsForContainer_missing by exact Hc. reflexivity. }
      rewrite E. apply updateElementsForContainer_missing. exact Hc. }
  destruct (Hwf c eq_refl) as [Hnd0 Hnotin0].
  destruct (row_far_ends _ (shape_id c) Hnd0 Hnotin0) as [Hnd Hnotin].
  set (bs := sort_by_index (Editor_getBindingsFromShape ed c)) in *.
  destruct (Nat.eq_dec (List.length (Editor_getBindingsFromShape ed c)) 0) as [Hbs|Hbs].
  { apply length_zero_iff_nil in Hbs.
    assert (E : ed1 = ed).
    { unfold ed1, updateElementsForContainer.
      rewrite (updateElementsForContainer_empty ed trigger c Hc Hbs). reflexivity. }
    rewrite E. apply (updateElementsForContainer_empty ed trigger c Hc Hbs). }
  assert (Hne : bs <> []).
  { intros E. apply (f_equal (@List.length _)) in E. unfold bs in E.
    rewrite sort_by_index_length in E. simpl in E. contradiction. }
  destruct (updateElementsForContainer_shapes ed trigger c Hc Hne Hnotin Hnd)
    as (Hcont & _ & Hplace).
  fold bs ed1 in Hcont, Hplace.
  assert (Hid : shape_id c = fromId trigger) by (eapply Editor_getShape_id; exact Hc).
  set (c1 := set_size c (layout_width (List.length bs)) layout_height) in *.
  assert (Hb1 : bindings ed1 = bindings ed)
    by apply updateElementsForContainer_bindings.
  assert (Hbs1 : sort_by_index (Editor_getBindingsFromShape ed1 c1) = bs).
  { unfold bs. f_equal. apply Editor_getBindingsFromShape_same; [exact Hb1 | reflexivity]. }
  assert (Hc1 : Editor_getShape ed1 (fromId trigger) = Some c1)
    by (rewrite <- Hid; exact Hcont).
  unfold updateElementsForContainer_run.
  rewrite (body_unfold _ ed1 trigger c1 Hc1) by (rewrite Hbs1; exact Hne).
  cbv zeta. rewrite Hbs1.
  assert (Hs : sized c1 (List.length bs)) by (split; reflexivity).
  apply sized_test in Hs. rewrite Hs.
  apply reflow_loop_settled.
  intros j b Hj. cbn [fst Nat.add].
  destruct (reflow_skips (toId trigger) (props_placeholder trigger) b) eqn:Hsk;
    [left; exact Hsk | right].
  destruct (Hplace j b Hj) as (_ & Hput & _). rewrite (Hput Hsk).
  destruct (Editor_getShape ed (toId b)) as [s|]; simpl; [|exact I].
  unfold slot_point, Editor_getShapePageTransform.
  change (shape_id c1) with (shape_id c). rewrite Hcont. fold c1.
  unfold place_at. rewrite !getPointInParentSpace_xy.
  unfold c1. rewrite !getShapePageTransform_size.
  unfold slot_point, Editor_getShapePageTransform. rewrite Hid, Hc.
  split; reflexivity.
Qed.

End ReflowFacts.

(** ** The lifecycle hooks *)

Section HookFacts.

Context {KS : KeySpace} {FR : Frames}.

(** C9 (as amended). Reflow runs after every creation, change and
    deletion of a layout relationship and after a change of the shape at
    the relationship's from end, the container: the four registered hooks
    are after-create, after-change, after-delete and
    after-change-from-shape, each running the reflow of the relationship
    the event carries.  No hook is registered for a change of the shape
    at the to end, the bound element: that event leaves the editor as it
    is, so a change of a container reflows it once for each of its
    relationships and a change of an element reflows nothing. *)
Theorem hooks_reflow_binding_and_container_changes
    (ed : Editor) (before binding : LayoutBinding) :
  Editor_notify ed (AfterCreate binding) = updateElementsForContainer ed binding
  /\ Editor_notify ed (AfterChange before binding) = updateElementsForContainer ed binding
  /\ Editor_notify ed (AfterDelete binding) = updateElementsForContainer ed binding
  /\ Editor_notify ed (AfterChangeFromShape binding)
     = updateElementsForContainer ed binding
  /\ LayoutBindingUtil_handler (AfterChangeToShape binding) = None
  /\ Editor_notify ed (AfterChangeToShape binding) = ed
  /\ (forall container : ShapeId,
         (forall b, In b (bindings ed) -> toId b <> container) ->
         Editor_afterShapeChange ed container =
         fold_left updateElementsForContainer
           (filter (fun b => Nat.eqb (fromId b) container) (bindings ed)) ed)
  /\ (forall element : ShapeId,
         (forall b, In b (bindings ed) -> fromId b <> element) ->
         Editor_afterShapeChange ed element = ed).
Proof.
  do 6 (split; [reflexivity|]). split.
  - intros id Hto. unfold Editor_afterShapeChange.
    rewrite (filter_ext_in_bool _ (fun b => Nat.eqb (fromId b) id)).
    + apply fold_left_ext_in. intros e b Hb. apply filter_In in Hb.
      destruct Hb as [Hb Hfrom]. rewrite Hfrom.
      apply Hto in Hb. apply Nat.eqb_neq in Hb. rewrite Hb. reflexivity.
    + intros b Hb. apply Hto in Hb. apply Nat.eqb_neq in Hb. rewrite Hb.
      apply orb_false_r.
  - intros id Hfrom. unfold Editor_afterShapeChange.
    apply (fold_left_invariant (fun e => e = ed)); [|reflexivity].
    intros e b Hb ->. apply filter_In in Hb. destruct Hb as [Hb _].
    apply Hfrom in Hb. apply Nat.eqb_neq in Hb. rewrite Hb.
    destruct (Nat.eqb (toId b) id); reflexivity.
Qed.

Lemma Editor_notify_bindings (ed : Editor) (ev : BindingEvent) :
  bindings (Editor_notify ed ev) = bindings ed
  /\ nextBindingId (Editor_notify ed ev) = nextBindingId ed.
Proof.
  destruct ev; simpl; try tauto;
    unfold Editor_notify; simpl;
    apply updateElementsForContainer_bindings.
Qed.

End HookFacts.

(** ** The slot of a dragged element *)

Section SlotFacts.

Context {KS : KeySpace}.

(** [Math_round_div p d] is the integer nearest to [p / d], halves going
    up. *)
Lemma Math_round_div_nearest (p d : Z) :
  0 < d ->
  2 * d * Math_round_div p d - d <= 2 * p < 2 * d * Math_round_div p d + d.
Proof.
  intros Hd. unfold Math_round_div.
  pose proof (Z.div_mod (2 * p + d) (2 * d) ltac:(lia)) as E.
  pose proof (Z.mod_pos_bound (2 * p + d) (2 * d) ltac:(lia)) as B.
  lia.
Qed.

Lemma clamp_bounds (n lo hi : Z) : lo <= hi -> lo <= clamp n lo hi <= hi.
Proof. unfold clamp. lia. Qed.

Lemma slot_order_bounds (n : nat) (container : Shape) (pageAnchor : Vec) :
  0 <= slot_order n container pageAnchor <= Z.of_nat n + 1.
Proof. unfold slot_order. apply clamp_bounds. lia. Qed.

Lemma StronglySorted_nth {A : Type} (R : A -> A -> Prop) (l : list A) :
  StronglySorted R l ->
  forall i j a b, (i < j)%nat -> nth_error l i = Some a -> nth_error l j = Some b -> R a b.
Proof.
  induction 1 as [|x r Hr IH Hx]; intros i j a b Hij Hi Hj.
  - destruct i; discriminate.
  - destruct j as [|j']; [lia|]. simpl in Hj.
    destruct i as [|i']; simpl in Hi.
    + injection Hi as <-. rewrite Forall_forall in Hx.
      apply Hx. eapply nth_error_In. exact Hj.
    + apply (IH i' j'); [lia | assumption | assumption].
Qed.

Lemma js_index_Some {A : Type} (l : list A) (i : Z) (a : A) :
  js_index l i = Some a -> 0 <= i /\ nth_error l (Z.to_nat i) = Some a.
Proof.
  unfold js_index. destruct (i <? 0) eqn:E; [discriminate|].
  apply Z.ltb_ge in E. tauto.
Qed.

Lemma js_index_nat {A : Type} (l : list A) (i : nat) :
  js_index l (Z.of_nat i) = nth_error l i.
Proof.
  unfold js_index. destruct (Z.of_nat i <? 0) eqn:E.
  - apply Z.ltb_lt in E. lia.
  - rewrite Nat2Z.id. reflexivity.
Qed.

Lemma StronglySorted_map_index (l : list LayoutBinding) :
  StronglySorted index_lt l -> StronglySorted key_lt (map props_index l).
Proof.
  induction 1 as [|x r Hr IH Hx]; simpl; constructor; [assumption|].
  rewrite Forall_forall in *. intros k Hk.
  apply in_map_iff in Hk. destruct Hk as (b & <- & Hb). apply Hx, Hb.
Qed.

(** What the allocator is asked and what it answers, for the neighbours
    at [order - 1] and [order] of a strictly ascending list. *)
Lemma between_neighbours (l : list LayoutBinding) (order : Z) :
  StronglySorted index_lt l ->
  let below := js_index l (order - 1) in
  let above := js_index l order in
  let k := getIndexBetween (option_map props_index below) (option_map props_index above) in
  (forall b, below = Some b -> key_lt (props_index b) k)
  /\ (forall a, above = Some a -> key_lt k (props_index a))
  /\ (0 <= order <= Z.of_nat (List.length l) -> ~ In k (map props_index l)).
Proof.
  intros Hs below above k.
  assert (Hord : forall b a, below = Some b -> above = Some a -> index_lt b a).
  { intros b a Hb Ha. apply js_index_Some in Hb, Ha.
    destruct Hb as [Hb0 Hb], Ha as [Ha0 Ha].
    apply (StronglySorted_nth _ _ Hs (Z.to_nat (order - 1)) (Z.to_nat order)); auto.
    lia. }
  assert (Hlo : forall b, below = Some b -> key_lt (props_index b) k).
  { intros b Hb. unfold k. rewrite Hb. simpl.
    apply getIndexBetween_above_lower.
    destruct above as [a|] eqn:Ha; simpl; [|exact I].
    apply (Hord b a); [exact Hb | reflexivity]. }
  assert (Hhi : forall a, above = Some a -> key_lt k (props_index a)).
  { intros a Ha. unfold k. rewrite Ha. simpl.
    apply getIndexBetween_below_upper.
    destruct below as [b|] eqn:Hb; simpl; [|exact I].
    apply (Hord b a); [reflexivity | exact Ha]. }
  split; [exact Hlo|]. split; [exact Hhi|].
  intros Hrange.
  apply (gap_fresh (map props_index l) (Z.to_nat order) k).
  - apply StronglySorted_map_index. exact Hs.
  - rewrite length_map. lia.
  - intros a Hpos Ha. rewrite nth_error_map in Ha.
    destruct (nth_error l (Z.to_nat order - 1)) as [b|] eqn:Eb; [|discriminate].
    injection Ha as <-. apply Hlo. unfold below, js_index.
    destruct (order - 1 <? 0) eqn:E; [apply Z.ltb_lt in E; lia|].
    replace (Z.to_nat (order - 1)) with (Z.to_nat order - 1)%nat by lia. exact Eb.
  - intros b Hb. rewrite nth_error_map in Hb.
    destruct (nth_error l (Z.to_nat order)) as [a|] eqn:Ea; [|discriminate].
    injection Hb as <-. apply Hhi. unfold above, js_index.
    destruct (order <? 0) eqn:E; [apply Z.ltb_lt in E; lia|]. exact Ea.
Qed.

End SlotFacts.

Section SlotTheorem.

Context {KS : KeySpace}.

Lemma own_key_None (shape : Shape) (sib : option LayoutBinding) :
  own_key shape sib = None <->
  forall b, sib = Some b -> toId b <> shape_id shape.
Proof.
  unfold own_key. destruct sib as [b|].
  - destruct (Nat.eqb_spec (toId b) (shape_id shape)) as [E|NE]; split.
    + discriminate.
    + intros H. exfalso. exact (H b eq_refl E).
    + intros _ b' Hb'. injection Hb' as <-. exact NE.
    + reflexivity.
  - split; [intros _ b Hb; discriminate | reflexivity].
Qed.

Lemma own_key_Some (shape : Shape) (sib : option LayoutBinding) (k : IndexKey) :
  own_key shape sib = Some k <->
  exists b, sib = Some b /\ toId b = shape_id shape /\ k = props_index b.
Proof.
  unfold own_key. destruct sib as [b|].
  - destruct (Nat.eqb_spec (toId b) (shape_id shape)) as [E|NE]; split.
    + intros H. injection H as <-. exists b. auto.
    + intros (b' & Hb' & _ & ->). injection Hb' as <-. reflexivity.
    + discriminate.
    + intros (b' & Hb' & E & _). injection Hb' as <-. contradiction.
  - split; [discriminate | intros (b & Hb & _); discriminate].
Qed.

(** C2. The slot of a dragged element is
    round((anchorX - containerX - 24) / 124) clamped to [0, n+1], n being
    the number of the container's relationships that are not the
    element's own; the neighbours are the entries at slot-1 and slot of
    the unfiltered list in ascending key order; when the lower neighbour
    is the element's own relationship its key is kept, else when the
    upper neighbour is its key is kept, and otherwise the allocator is
    asked for a key between the two neighbour keys (an absent neighbour
    leaving that end open), which lies strictly between them and, for a
    slot within the list, is none of the container's keys.  (The keys of
    the container's relationships are pairwise distinct.) *)
Theorem slot_and_key_of_dragged_element
    (ed : Editor) (shape container : Shape) (pageAnchor : Vec) :
  NoDup (map props_index (Editor_getBindingsFromShape ed container)) ->
  let allBindings := sort_by_index (Editor_getBindingsFromShape ed container) in
  let n :=
    List.length
      (filter (fun b => negb (Nat.eqb (toId b) (shape_id shape))) allBindings) in
  let nearest := Math_round_div (vx pageAnchor - shape_x container - 24) 124 in
  let slot := Z.max 0 (Z.min nearest (Z.of_nat n + 1)) in
  let below := js_index allBindings (slot - 1) in
  let above := js_index allBindings slot in
  let index := ElementShapeUtil_getBindingIndexForPosition ed shape container pageAnchor in
  (2 * 124 * nearest - 124 <= 2 * (vx pageAnchor - shape_x container - 24)
     < 2 * 124 * nearest + 124)
  /\ 0 <= slot <= Z.of_nat n + 1
  /\ StronglySorted index_lt allBindings
  /\ Permutation allBindings (Editor_getBindingsFromShape ed container)
  /\ (forall b, below = Some b -> toId b = shape_id shape -> index = props_index b)
  /\ (forall a, own_key shape below = None ->
        above = Some a -> toId a = shape_id shape -> index = props_index a)
  /\ (own_key shape below = None -> own_key shape above = None ->
      index = getIndexBetween (option_map props_index below)
                (option_map props_index above)
      /\ (forall b, below = Some b -> key_lt (props_index b) index)
      /\ (forall a, above = Some a -> key_lt index (props_index a))
      /\ (slot <= Z.of_nat (List.length allBindings) ->
          ~ In index (map props_index allBindings))).
Proof.
  intros Hnd allBindings n nearest slot below above index.
  assert (Hsorted : StronglySorted index_lt allBindings)
    by (apply sort_by_index_sorted; exact Hnd).
  assert (Hslot : 0 <= slot <= Z.of_nat n + 1) by (unfold slot; lia).
  assert (Hindex : index =
            match own_key shape below with
            | Some k => k
            | None =>
                match own_key shape above with
                | Some k => k
                | None => getIndexBetween (option_map props_index below)
                            (option_map props_index above)
                end
            end) by reflexivity.
  split; [apply (Math_round_div_nearest _ 124); lia|].
  split; [exact Hslot|].
  split; [exact Hsorted|].
  split; [apply sort_by_index_perm|].
  split; [|split].
  - intros b Hb Hown. rewrite Hindex.
    assert (E : own_key shape below = Some (props_index b))
      by (apply own_key_Some; exists b; auto).
    rewrite E. reflexivity.
  - intros a Hbelow Ha Hown. rewrite Hindex, Hbelow.
    assert (E : own_key shape above = Some (props_index a))
      by (apply own_key_Some; exists a; auto).
    rewrite E. reflexivity.
  - intros Hbelow Habove.
    rewrite Hindex, Hbelow, Habove.
    destruct (between_neighbours allBindings slot Hsorted) as (Hlo & Hhi & Hfresh).
    split; [reflexivity|]. split; [exact Hlo|]. split; [exact Hhi|].
    intros Hle. apply Hfresh. lia.
Qed.

End SlotTheorem.

(** ** What a reflow leaves alone *)

Section Preserved.

Context {KS : KeySpace} {FR : Frames}.

(** Any feature of a shape that a change of position does not touch is
    left alone by the loop of the reflow. *)
Section Feature.

Variable A : Type.
Variable feature : Shape -> A.
Hypothesis feature_xy : forall s x y, feature (set_xy s x y) = feature s.

Definition feature_of (ed : Editor) (id : ShapeId) : option A :=
  option_map feature (Editor_getShape ed id).

Lemma feature_updateShape_xy (ed : Editor) (id' : ShapeId) (x y : Z) (id : ShapeId) :
  feature_of (Editor_updateShape ed (PartialXY id' x y)) id = feature_of ed id.
Proof.
  unfold feature_of. rewrite Editor_getShape_updateShape.
  destruct (Editor_getShape ed id) as [s|]; [|reflexivity].
  simpl. destruct (Nat.eqb (shape_id s) id'); [rewrite feature_xy|]; reflexivity.
Qed.

Lemma feature_reflow_member T ph c i b (r : Run) (id : ShapeId) :
  feature_of (fst (reflow_member T ph c i b r)) id = feature_of (fst r) id.
Proof.
  unfold reflow_member.
  destruct (reflow_skips T ph b); [reflexivity|].
  destruct (Editor_getShape (fst r) (toId b)) as [s|]; [|reflexivity].
  destruct (negb _ || negb _); [|reflexivity].
  apply feature_updateShape_xy.
Qed.

Lemma feature_reflow_loop T ph c (bs : list LayoutBinding) (id : ShapeId) :
  forall i (r : Run),
  feature_of (fst (reflow_loop T ph c i bs r)) id = feature_of (fst r) id.
Proof.
  induction bs as [|b rest IH]; intros i r; simpl; [reflexivity|].
  rewrite IH. apply feature_reflow_member.
Qed.

End Feature.

Definition type_of : Editor -> ShapeId -> option string := feature_of string shape_type.

Definition size_of : Editor -> ShapeId -> option (Z * Z) :=
  feature_of (Z * Z) (fun s => (props_width s, props_height s)).

Lemma type_of_updateShape (ed : Editor) (p : ShapePartial) (id : ShapeId) :
  type_of (Editor_updateShape ed p) id = type_of ed id.
Proof.
  unfold type_of, feature_of. rewrite Editor_getShape_updateShape.
  destruct (Editor_getShape ed id) as [s|]; [|reflexivity].
  simpl. destruct p as [id' x y|id' w h]; simpl;
    destruct (Nat.eqb (shape_id s) id'); reflexivity.
Qed.

Lemma type_of_body told (ed : Editor) (trigger : LayoutBinding) (id : ShapeId) :
  (forall e i, type_of (told e i) id = type_of e id) ->
  type_of (fst (updateElementsForContainer_body told ed trigger)) id = type_of ed id.
Proof.
  intros Htold. unfold updateElementsForContainer_body.
  destruct (Editor_getShape ed (fromId trigger)) as [c|]; [|reflexivity].
  destruct (Nat.eqb _ 0); [reflexivity|].
  destruct (negb _ || negb _).
  - cbv zeta. unfold run_updateShape. cbn [fst snd].
    rewrite Htold, type_of_updateShape.
    apply (feature_reflow_loop string shape_type); reflexivity.
  - apply (feature_reflow_loop string shape_type); reflexivity.
Qed.

Lemma type_of_reentered (ed : Editor) (trigger : LayoutBinding) (id : ShapeId) :
  type_of (updateElementsForContainer_reentered ed trigger) id = type_of ed id.
Proof. apply type_of_body. reflexivity. Qed.

Lemma type_of_reflow (ed : Editor) (trigger : LayoutBinding) (id : ShapeId) :
  type_of (updateElementsForContainer ed trigger) id = type_of ed id.
Proof.
  apply type_of_body. intros e i.
  apply (tell_invariant (fun e' => type_of e' id = type_of e id)); [|reflexivity].
  intros e0 b _ _ H. rewrite type_of_reentered. exact H.
Qed.

Lemma type_of_notify (ed : Editor) (ev : BindingEvent) (id : ShapeId) :
  type_of (Editor_notify ed ev) id = type_of ed id.
Proof.
  destruct ev; unfold Editor_notify; simpl; try reflexivity; apply type_of_reflow.
Qed.

(** Outside its own container a reflow changes no size. *)
Lemma size_of_body_other told (ed : Editor) (trigger : LayoutBinding) (id : ShapeId) :
  (forall e, size_of (told e (fromId trigger)) id = size_of e id) ->
  id <> fromId trigger ->
  size_of (fst (updateElementsForContainer_body told ed trigger)) id = size_of ed id.
Proof.
  intros Htold Hne.
  unfold updateElementsForContainer_body.
  destruct (Editor_getShape ed (fromId trigger)) as [c|] eqn:Hc; [|reflexivity].
  destruct (Nat.eqb _ 0); [reflexivity|].
  assert (Hloop : forall r i bs,
            size_of (fst (reflow_loop (toId trigger) (props_placeholder trigger)
                            c i bs r)) id = size_of (fst r) id).
  { intros r i bs.
    apply (feature_reflow_loop (Z * Z) (fun s => (props_width s, props_height s))).
    reflexivity. }
  destruct (negb _ || negb _); [|apply Hloop].
  cbv zeta. unfold run_updateShape. cbn [fst snd].
  rewrite (Editor_getShape_id ed _ _ Hc), Htold.
  unfold size_of, feature_of. rewrite Editor_getShape_updateShape.
  fold (feature_of (Z * Z) (fun s => (props_width s, props_height s))
          (fst (reflow_loop (toId trigger) (props_placeholder trigger) c 0
                  (sort_by_index (Editor_getBindingsFromShape ed c)) (ed, []))) id).
  destruct (Editor_getShape _ id) as [s|] eqn:Es.
  - simpl. apply Editor_getShape_id in Es as Eid. rewrite Eid.
    apply Nat.eqb_neq in Hne. rewrite Hne.
    specialize (Hloop (ed, []) 0%nat (sort_by_index (Editor_getBindingsFromShape ed c))).
    unfold size_of, feature_of in Hloop. rewrite Es in Hloop. exact Hloop.
  - specialize (Hloop (ed, []) 0%nat (sort_by_index (Editor_getBindingsFromShape ed c))).
    unfold size_of, feature_of in Hloop. rewrite Es in Hloop. exact Hloop.
Qed.

Lemma size_of_reentered_other (ed : Editor) (trigger : LayoutBinding) (id : ShapeId) :
  id <> fromId trigger ->
  size_of (updateElementsForContainer_reentered ed trigger) id = size_of ed id.
Proof. apply size_of_body_other. reflexivity. Qed.

Lemma size_of_reflow_other (ed : Editor) (trigger : LayoutBinding) (id : ShapeId) :
  id <> fromId trigger ->
  size_of (updateElementsForContainer ed trigger) id = size_of ed id.
Proof.
  intros Hne. apply size_of_body_other; [|exact Hne]. intros e.
  apply (tell_invariant (fun e' => size_of e' id = size_of e id)); [|reflexivity].
  intros e0 b _ Hfrom H. rewrite size_of_reentered_other; [exact H|].
  rewrite Hfrom. exact Hne.
Qed.

(** In its own container, when it has members, a reflow leaves the size
    of the member count. *)
Lemma size_of_body_self told (ed : Editor) (trigger : LayoutBinding) (c : Shape) :
  (forall e wh, size_of e (fromId trigger) = Some wh ->
     size_of (told e (fromId trigger)) (fromId trigger) = Some wh) ->
  Editor_getShape ed (fromId trigger) = Some c ->
  member_count ed (fromId trigger) <> 0%nat ->
  size_of (fst (updateElementsForContainer_body told ed trigger)) (fromId trigger) =
  Some (layout_width (member_count ed (fromId trigger)), layout_height).
Proof.
  intros Htold Hc Hn.
  assert (Hid : shape_id c = fromId trigger) by (eapply Editor_getShape_id; exact Hc).
  assert (Hlen : List.length (sort_by_index (Editor_getBindingsFromShape ed c)) =
                 member_count ed (fromId trigger)).
  { rewrite sort_by_index_length. unfold Editor_getBindingsFromShape, member_count.
    rewrite Hid. reflexivity. }
  unfold updateElementsForContainer_body.
  rewrite Hc, Hlen.
  destruct (Nat.eqb_spec (member_count ed (fromId trigger)) 0) as [E|_]; [contradiction|].
  set (r := reflow_loop _ _ _ _ _ _).
  assert (Hloop : size_of (fst r) (fromId trigger) = size_of ed (fromId trigger)).
  { apply (feature_reflow_loop (Z * Z) (fun s => (props_width s, props_height s))).
    reflexivity. }
  unfold size_of, feature_of in Hloop. rewrite Hc in Hloop. simpl in Hloop.
  destruct (negb (layout_width (member_count ed (fromId trigger)) =? props_width c)
            || negb (layout_height =? props_height c)) eqn:E.
  - cbv zeta. unfold run_updateShape. cbn [fst snd]. rewrite Hid. apply Htold.
    unfold size_of, feature_of.
    rewrite Editor_getShape_updateShape.
    destruct (Editor_getShape (fst r) (fromId trigger)) as [s|] eqn:Es; [|discriminate].
    simpl. apply Editor_getShape_id in Es. rewrite Es, Nat.eqb_refl. reflexivity.
  - apply orb_false_iff in E. destruct E as [Ew Eh].
    apply negb_false_iff, Z.eqb_eq in Ew. apply negb_false_iff, Z.eqb_eq in Eh.
    unfold size_of, feature_of. rewrite Hloop, Ew, Eh. reflexivity.
Qed.

Lemma size_of_reentered_self (ed : Editor) (trigger : LayoutBinding) (c : Shape) :
  Editor_getShape ed (fromId trigger) = Some c ->
  member_count ed (fromId trigger) <> 0%nat ->
  size_of (updateElementsForContainer_reentered ed trigger) (fromId trigger) =
  Some (layout_width (member_count ed (fromId trigger)), layout_height).
Proof. apply size_of_body_self. intros e wh H. exact H. Qed.

Lemma member_count_reentered (ed : Editor) (trigger : LayoutBinding) (id : ShapeId) :
  member_count (updateElementsForContainer_reentered ed trigger) id = member_count ed id.
Proof.
  unfold member_count. destruct (reentered_bindings ed trigger) as [E _].
  rewrite E. reflexivity.
Qed.

(** Re-entered in a store where the container has the size of its row,
    the method leaves the size as it is. *)
Lemma size_of_reentered_kept (ed : Editor) (trigger : LayoutBinding) (id : ShapeId)
    (wh : Z * Z) :
  (member_count ed id <> 0%nat -> wh = (layout_width (member_count ed id), layout_height)) ->
  size_of ed id = Some wh ->
  size_of (updateElementsForContainer_reentered ed trigger) id = Some wh.
Proof.
  intros Hwh Hs.
  destruct (Nat.eq_dec id (fromId trigger)) as [->|Hne];
    [|rewrite size_of_reentered_other by exact Hne; exact Hs].
  destruct (Editor_getShape ed (fromId trigger)) as [c|] eqn:Hc.
  - destruct (Nat.eq_dec (member_count ed (fromId trigger)) 0) as [Hz|Hn].
    + unfold updateElementsForContainer_reentered.
      rewrite (body_empty _ ed trigger c Hc); [exact Hs|].
      apply length_zero_iff_nil. unfold member_count in Hz.
      unfold Editor_getBindingsFromShape.
      rewrite (Editor_getShape_id ed _ _ Hc). exact Hz.
    + rewrite (size_of_reentered_self ed trigger c Hc Hn), (Hwh Hn). reflexivity.
  - unfold updateElementsForContainer_reentered.
    rewrite (body_missing _ ed trigger Hc). exact Hs.
Qed.

Lemma size_of_reflow_self (ed : Editor) (trigger : LayoutBinding) (c : Shape) :
  Editor_getShape ed (fromId trigger) = Some c ->
  member_count ed (fromId trigger) <> 0%nat ->
  size_of (updateElementsForContainer ed trigger) (fromId trigger) =
  Some (layout_width (member_count ed (fromId trigger)), layout_height).
Proof.
  intros Hc Hn.
  assert (Hid : shape_id c = fromId trigger) by (eapply Editor_getShape_id; exact Hc).
  assert (Hne : Editor_getBindingsFromShape ed c <> []).
  { intros E. apply Hn. unfold member_count. unfold Editor_getBindingsFromShape in E.
    rewrite Hid in E. rewrite E. reflexivity. }
  assert (Hlen : List.length (Editor_getBindingsFromShape ed c)
                 = member_count ed (fromId trigger)).
  { unfold Editor_getBindingsFromShape, member_count. rewrite Hid. reflexivity. }
  destruct (updateElementsForContainer_steps ed trigger c Hc Hne) as [Hsame Htold].
  rewrite Hlen in Hsame, Htold.
  pose proof (size_of_reentered_self ed trigger c Hc Hn) as H1.
  destruct (Z.eq_dec (props_width c) (layout_width (member_count ed (fromId trigger))))
    as [Ew|Ew]; [destruct (Z.eq_dec (props_height c) layout_height) as [Eh|Eh]|].
  1:{ rewrite Hsame by (split; assumption). exact H1. }
  all: rewrite Htold by (intros [H2 H3]; congruence).
  all: rewrite Hid.
  all: apply (tell_invariant
                (fun e => member_count e (fromId trigger) = member_count ed (fromId trigger)
                          /\ size_of e (fromId trigger)
                             = Some (layout_width (member_count ed (fromId trigger)),
                                     layout_height)));
    [|split; [apply member_count_reentered | exact H1]].
  all: intros e b _ _ [Hm Hs]; split; [rewrite member_count_reentered; exact Hm|].
  all: apply size_of_reentered_kept; [intros _; rewrite Hm; reflexivity | exact Hs].
Qed.

(** In a store where the container has the size of its row the method
    resizes nothing, and it makes no difference who would have been
    told. *)
Lemma reflow_of_sized_row (ed : Editor) (trigger : LayoutBinding) :
  (member_count ed (fromId trigger) <> 0%nat ->
   size_of ed (fromId trigger)
   = Some (layout_width (member_count ed (fromId trigger)), layout_height)) ->
  updateElementsForContainer ed trigger = updateElementsForContainer_reentered ed trigger.
Proof.
  intros Hsize.
  unfold updateElementsForContainer, updateElementsForContainer_run,
    updateElementsForContainer_reentered.
  f_equal. apply body_sized. intros c Hc Hne.
  assert (Hid : shape_id c = fromId trigger) by (eapply Editor_getShape_id; exact Hc).
  assert (Hlen : List.length (Editor_getBindingsFromShape ed c)
                 = member_count ed (fromId trigger)).
  { unfold Editor_getBindingsFromShape, member_count. rewrite Hid. reflexivity. }
  rewrite Hlen. unfold size_of, feature_of in Hsize. rewrite Hc in Hsize.
  cbn [option_map] in Hsize.
  assert (Hn : member_count ed (fromId trigger) <> 0%nat).
  { rewrite <- Hlen. intros E. apply Hne. apply length_zero_iff_nil. exact E. }
  specialize (Hsize Hn). injection Hsize as Hw Hh. split; assumption.
Qed.

Lemma fold_left_agree {X : Type} (P : Editor -> Prop) (F G : Editor -> X -> Editor)
    (l : list X) :
  (forall e x, In x l -> P e -> F e x = G e x /\ P (F e x)) ->
  forall e, P e -> fold_left F l e = fold_left G l e.
Proof.
  induction l as [|x l IH]; simpl; intros H e He; [reflexivity|].
  destruct (H e x (or_introl eq_refl) He) as [E Hp].
  rewrite <- E. apply IH; [|exact Hp].
  intros e' x' Hx'. apply H. right. exact Hx'.
Qed.

(** What the editor does after a shape has changed is telling the
    relationships that lead from it, with the reflow for the hook. *)
Lemma Editor_afterShapeChange_tells (ed : Editor) (id : ShapeId) :
  Editor_afterShapeChange ed id = Editor_tellBindings updateElementsForContainer ed id.
Proof.
  unfold Editor_afterShapeChange, Editor_tellBindings.
  apply fold_left_ext_in. intros e b _. cbv zeta.
  destruct (Nat.eqb (fromId b) id), (Nat.eqb (toId b) id); reflexivity.
Qed.

(** The recursion of the source.  The method, unrolled once in the
    embedding, is the method of the source: its statements, with the
    editor telling the container's relationships of the resize, each of
    which runs the method again, in full. *)
Theorem updateElementsForContainer_unfold (ed : Editor) (trigger : LayoutBinding) :
  updateElementsForContainer_run ed trigger
  = updateElementsForContainer_body Editor_afterShapeChange ed trigger.
Proof.
  unfold updateElementsForContainer_run.
  destruct (Editor_getShape ed (fromId trigger)) as [c|] eqn:Hc;
    [|rewrite !(body_missing _ ed trigger Hc); reflexivity].
  destruct (Editor_getBindingsFromShape ed c) as [|m ms] eqn:Em;
    [rewrite !(body_empty _ ed trigger c Hc Em); reflexivity|].
  assert (Hne : sort_by_index (Editor_getBindingsFromShape ed c) <> []).
  { intros E. apply (f_equal (@List.length _)) in E.
    rewrite sort_by_index_length, Em in E. discriminate E. }
  assert (Hid : shape_id c = fromId trigger) by (eapply Editor_getShape_id; exact Hc).
  assert (Hn : member_count ed (fromId trigger) <> 0%nat).
  { unfold member_count. unfold Editor_getBindingsFromShape in Em.
    rewrite <- Hid, Em. discriminate. }
  pose proof (size_of_reentered_self ed trigger c Hc Hn) as Hsz.
  destruct (reentered_bindings ed trigger) as [Hbs _].
  revert Hsz Hbs. unfold updateElementsForContainer_reentered.
  rewrite !(body_unfold _ ed trigger c Hc Hne). cbv zeta.
  destruct (negb _ || negb _); [|reflexivity].
  cbn [fst]. intros Hsz Hbs. f_equal.
  rewrite Editor_afterShapeChange_tells. unfold Editor_tellBindings.
  apply (fold_left_agree
           (fun e => bindings e = bindings ed
                     /\ size_of e (fromId trigger)
                        = Some (layout_width (member_count ed (fromId trigger)),
                                layout_height)));
    [|split; assumption].
  intros e b _ [He Hs].
  assert (Hm : forall id, member_count e id = member_count ed id)
    by (intros id; unfold member_count; rewrite He; reflexivity).
  rewrite Hid.
  destruct (Nat.eqb_spec (fromId b) (fromId trigger)) as [Ef|_];
    [|split; [reflexivity | split; assumption]].
  cbv beta iota. split.
  - symmetry. apply reflow_of_sized_row. intros _. rewrite Ef, Hm. exact Hs.
  - split.
    + fold (updateElementsForContainer_reentered e b).
      destruct (reentered_bindings e b) as [E _]. rewrite E. exact He.
    + fold (updateElementsForContainer_reentered e b).
      apply size_of_reentered_kept; [|exact Hs]. intros _. rewrite Hm. reflexivity.
Qed.

Lemma member_count_same (ed ed' : Editor) (id : ShapeId) :
  map fromId (bindings ed') = map fromId (bindings ed) ->
  member_count ed' id = member_count ed id.
Proof.
  unfold member_count. intros H.
  assert (G : forall l : list LayoutBinding,
             List.length (filter (fun b => Nat.eqb (fromId b) id) l) =
             List.length (filter (fun f => Nat.eqb f id) (map fromId l))).
  { induction l as [|b l IH]; simpl; [reflexivity|].
    destruct (Nat.eqb (fromId b) id); simpl; rewrite IH; reflexivity. }
  rewrite !G, H. reflexivity.
Qed.

Lemma size_ok_at_size_of (ed : Editor) (id : ShapeId) :
  size_ok_at ed id <->
  (member_count ed id <> 0%nat ->
   forall wh, size_of ed id = Some wh ->
     wh = (layout_width (member_count ed id), layout_height)).
Proof.
  unfold size_ok_at, size_of, feature_of. split.
  - intros H Hn wh Hwh.
    destruct (Editor_getShape ed id) as [c|]; [|discriminate].
    simpl in Hwh. injection Hwh as <-.
    destruct (H c eq_refl Hn) as [-> ->]. reflexivity.
  - intros H c Hc Hn. rewrite Hc in H. simpl in H.
    specialize (H Hn _ eq_refl). injection H as -> ->. auto.
Qed.

(** A reflow settles the size of its own container and unsettles no
    other. *)
Lemma size_ok_at_reflow (ed : Editor) (trigger : LayoutBinding) (id : ShapeId) :
  size_ok_at ed id \/ id = fromId trigger ->
  size_ok_at (updateElementsForContainer ed trigger) id.
Proof.
  intros H.
  assert (Hcount : member_count (updateElementsForContainer ed trigger) id
                   = member_count ed id).
  { apply member_count_same. f_equal. apply updateElementsForContainer_bindings. }
  apply size_ok_at_size_of. rewrite Hcount. intros Hn wh Hwh.
  destruct (Nat.eq_dec id (fromId trigger)) as [->|Hne].
  - destruct (Editor_getShape ed (fromId trigger)) as [c|] eqn:Hc.
    + rewrite (size_of_reflow_self ed trigger c Hc Hn) in Hwh. congruence.
    + unfold updateElementsForContainer in Hwh.
      rewrite (updateElementsForContainer_missing ed trigger Hc) in Hwh.
      unfold size_of, feature_of in Hwh. simpl in Hwh. rewrite Hc in Hwh. discriminate.
  - destruct H as [H|H]; [|contradiction].
    rewrite size_of_reflow_other in Hwh by exact Hne.
    apply (proj1 (size_ok_at_size_of ed id) H); assumption.
Qed.

End Preserved.

(** ** Lists of bindings: removing, replacing, appending *)

Section BindingLists.

Context {KS : KeySpace}.

Lemma NoDup_map_filter {X Y : Type} (proj : X -> Y) (keep : X -> bool) (xs : list X)
    (Hnd : NoDup (map proj xs)) :
  NoDup (map proj (filter keep xs)).
Proof.
  induction xs as [|x xs IH]; simpl in *; [constructor|].
  inversion Hnd as [|? ? Hx Hxs]; subst.
  destruct (keep x); simpl; [|auto].
  constructor; [|auto].
  intros Hin. apply Hx. apply in_map_iff in Hin. destruct Hin as (x' & E & Hx').
  apply filter_In in Hx'. apply in_map_iff. exists x'. tauto.
Qed.

Lemma NoDup_map_snoc {A B : Type} (f : A -> B) (l : list A) (b : A) :
  NoDup (map f l) -> ~ In (f b) (map f l) -> NoDup (map f (l ++ [b])).
Proof.
  intros Hnd Hn. rewrite map_app. simpl.
  apply NoDup_app; [exact Hnd | repeat constructor; tauto |].
  intros x Hx [<-|[]]. exact (Hn Hx).
Qed.

Lemma NoDup_map_eq_in {A B : Type} (f : A -> B) (l : list A) (a b : A) :
  NoDup (map f l) -> In a l -> In b l -> f a = f b -> a = b.
Proof.
  induction l as [|x l IH]; simpl; intros Hnd Ha Hb E; [contradiction|].
  inversion Hnd as [|? ? Hx Hl]; subst.
  destruct Ha as [->|Ha], Hb as [->|Hb]; auto.
  - exfalso. apply Hx. rewrite E. apply in_map. exact Hb.
  - exfalso. apply Hx. rewrite <- E. apply in_map. exact Ha.
Qed.

(** With distinct ids, the record with a given id sits at one place. *)
Lemma split_at_id (l : list LayoutBinding) (cur : LayoutBinding) :
  NoDup (map binding_id l) -> In cur l ->
  exists l1 l2, l = l1 ++ cur :: l2
    /\ forall a, In a (l1 ++ l2) -> binding_id a <> binding_id cur.
Proof.
  intros Hnd Hin. apply in_split in Hin. destruct Hin as (l1 & l2 & ->).
  exists l1, l2. split; [reflexivity|].
  intros a Ha E. rewrite map_app in Hnd. simpl in Hnd.
  apply NoDup_remove_2 in Hnd. apply Hnd.
  rewrite <- map_app, <- E. apply in_map. exact Ha.
Qed.

Lemma put_binding_other (b : LayoutBinding) (l : list LayoutBinding) :
  (forall a, In a l -> binding_id a <> binding_id b) -> put_binding b l = l.
Proof.
  induction l as [|a l IH]; simpl; intros H; [reflexivity|].
  destruct (Nat.eqb_spec (binding_id a) (binding_id b)) as [E|_].
  - exfalso. exact (H a (or_introl eq_refl) E).
  - f_equal. apply IH. intros a' Ha'. apply H. right. exact Ha'.
Qed.

Lemma put_binding_split (b cur : LayoutBinding) (l1 l2 : list LayoutBinding) :
  binding_id b = binding_id cur ->
  (forall a, In a (l1 ++ l2) -> binding_id a <> binding_id cur) ->
  put_binding b (l1 ++ cur :: l2) = l1 ++ b :: l2.
Proof.
  intros E H.
  assert (G : put_binding b (l1 ++ cur :: l2)
              = put_binding b l1 ++ b :: put_binding b l2).
  { unfold put_binding. rewrite map_app. simpl.
    rewrite <- E, Nat.eqb_refl. reflexivity. }
  rewrite G, !put_binding_other; [reflexivity | |];
    intros a Ha; rewrite E; apply H; apply in_or_app; auto.
Qed.

(** Replacing one entry keeps a projection free of repetitions when the
    new entry projects as the old one did or to something new. *)
Lemma NoDup_map_replace {B : Type} (f : LayoutBinding -> B)
    (l1 l2 : list LayoutBinding) (cur b : LayoutBinding) :
  NoDup (map f (l1 ++ cur :: l2)) ->
  f b = f cur \/ ~ In (f b) (map f (l1 ++ cur :: l2)) ->
  NoDup (map f (l1 ++ b :: l2)).
Proof.
  rewrite !map_app. simpl. intros Hnd [E|Hn].
  - rewrite E. exact Hnd.
  - apply NoDup_remove in Hnd. destruct Hnd as [Hnd _].
    apply NoDup_Add with (a := f b) (l := map f l1 ++ map f l2).
    + apply Add_app.
    + split; [exact Hnd|].
      intros Hin. apply Hn. apply in_app_or in Hin.
      apply in_or_app. simpl. tauto.
Qed.

Lemma committed_replace (l1 l2 : list LayoutBinding) (cur b : LayoutBinding) :
  props_placeholder b = true ->
  NoDup (map toId (filter committed (l1 ++ cur :: l2))) ->
  NoDup (map toId (filter committed (l1 ++ b :: l2))).
Proof.
  intros Hb.
  assert (Hc : committed b = false) by (unfold committed; rewrite Hb; reflexivity).
  rewrite !filter_app. simpl. rewrite Hc.
  destruct (committed cur); [|auto].
  rewrite !map_app. simpl. intros H. apply NoDup_remove in H. tauto.
Qed.

(** A record that restates a stored one: same id, same ends. *)
Definition restates (l : list LayoutBinding) (b : LayoutBinding) : Prop :=
  exists cur, In cur l /\ binding_id b = binding_id cur /\ ends b = ends cur.

Definition fk (b : LayoutBinding) : ShapeId * IndexKey := (fromId b, props_index b).

Lemma put_binding_restates (l : list LayoutBinding) (b : LayoutBinding) :
  NoDup (map binding_id l) -> restates l b ->
  exists l1 l2 cur,
    l = l1 ++ cur :: l2 /\ put_binding b l = l1 ++ b :: l2
    /\ binding_id b = binding_id cur /\ ends b = ends cur.
Proof.
  intros Hnd (cur & Hin & Eid & Eends).
  destruct (split_at_id l cur Hnd Hin) as (l1 & l2 & -> & Hother).
  exists l1, l2, cur. split; [reflexivity|].
  split; [apply put_binding_split; assumption | tauto].
Qed.

Lemma put_binding_ids (l : list LayoutBinding) (b : LayoutBinding) :
  NoDup (map binding_id l) -> restates l b ->
  map binding_id (put_binding b l) = map binding_id l
  /\ map ends (put_binding b l) = map ends l.
Proof.
  intros Hnd Hr.
  destruct (put_binding_restates l b Hnd Hr) as (l1 & l2 & cur & -> & -> & Eid & Eends).
  rewrite !map_app. simpl. rewrite Eid, Eends. tauto.
Qed.

Lemma put_binding_committed (l : list LayoutBinding) (b : LayoutBinding) :
  NoDup (map binding_id l) -> restates l b -> props_placeholder b = true ->
  NoDup (map toId (filter committed l)) ->
  NoDup (map toId (filter committed (put_binding b l))).
Proof.
  intros Hnd Hr Hp.
  destruct (put_binding_restates l b Hnd Hr) as (l1 & l2 & cur & -> & -> & _).
  apply committed_replace. exact Hp.
Qed.

Lemma put_binding_keys (l : list LayoutBinding) (b : LayoutBinding) :
  NoDup (map binding_id l) ->
  (exists cur, In cur l /\ binding_id b = binding_id cur /\ ends b = ends cur
     /\ (props_index b = props_index cur \/ ~ In (fk b) (map fk l))) ->
  NoDup (map fk l) ->
  NoDup (map fk (put_binding b l)).
Proof.
  intros Hnd (cur & Hin & Eid & Eends & Hkey).
  destruct (split_at_id l cur Hnd Hin) as (l1 & l2 & -> & Hother).
  rewrite put_binding_split by assumption.
  intros H. apply NoDup_map_replace with (cur := cur); [exact H|].
  destruct Hkey as [E|Hn]; [left | right; exact Hn].
  unfold fk. unfold ends in Eends. congruence.
Qed.

Lemma restates_put (l : list LayoutBinding) (b1 b : LayoutBinding) :
  NoDup (map binding_id l) -> restates l b1 -> restates l b ->
  restates (put_binding b1 l) b.
Proof.
  intros Hnd H1 (cur & Hin & Eid & Eends).
  destruct (put_binding_restates l b1 Hnd H1)
    as (l1 & l2 & cur1 & -> & -> & Eid1 & Eends1).
  apply in_app_or in Hin. destruct Hin as [Hin|[<-|Hin]].
  - exists cur. split; [apply in_or_app; auto | tauto].
  - exists b1. split; [apply in_or_app; simpl; auto|]. split; congruence.
  - exists cur. split; [apply in_or_app; simpl; auto | tauto].
Qed.

End BindingLists.

(** ** The binding store under the editor's operations *)

Section StoreFacts.

Context {KS : KeySpace} {FR : Frames}.

Definition same_bindings (ed ed' : Editor) : Prop :=
  bindings ed' = bindings ed /\ nextBindingId ed' = nextBindingId ed.

Lemma same_bindings_notify (ed0 ed : Editor) (ev : BindingEvent) :
  same_bindings ed0 ed -> same_bindings ed0 (Editor_notify ed ev).
Proof.
  unfold same_bindings. intros [H1 H2].
  destruct (Editor_notify_bindings ed ev) as [H3 H4]. split; congruence.
Qed.

Lemma Editor_createBinding_bindings (ed : Editor) (f t : ShapeId) (k : IndexKey)
    (ph : bool) :
  (binding_allowed ed f t = true ->
   bindings (Editor_createBinding ed f t k ph)
     = bindings ed ++ [mkBinding (nextBindingId ed) f t k ph]
   /\ nextBindingId (Editor_createBinding ed f t k ph) = S (nextBindingId ed))
  /\ (binding_allowed ed f t = false -> Editor_createBinding ed f t k ph = ed).
Proof.
  unfold Editor_createBinding. split; intros ->; [|reflexivity].
  apply (Editor_notify_bindings
           (mkEditor (shapes ed)
              (bindings ed ++ [mkBinding (nextBindingId ed) f t k ph])
              (S (nextBindingId ed)))).
Qed.

Definition doomed (bs : list LayoutBinding) (b : LayoutBinding) : bool :=
  existsb (fun d => Nat.eqb (binding_id d) (binding_id b)) bs.

Lemma Editor_deleteBindings_bindings (ed : Editor) (bs : list LayoutBinding) :
  bindings (Editor_deleteBindings ed bs)
    = filter (fun b => negb (doomed bs b)) (bindings ed)
  /\ nextBindingId (Editor_deleteBindings ed bs) = nextBindingId ed.
Proof.
  unfold Editor_deleteBindings.
  apply (fold_left_invariant
           (same_bindings
              (mkEditor (shapes ed)
                 (filter (fun b => negb (doomed bs b)) (bindings ed))
                 (nextBindingId ed)))).
  - intros e x _. apply same_bindings_notify.
  - split; reflexivity.
Qed.

Lemma Editor_updateBindings_bindings (ed : Editor) (bs : list LayoutBinding) :
  bindings (Editor_updateBindings ed bs)
    = fold_left (fun l b => put_binding b l) (filter (binding_changes ed) bs)
        (bindings ed)
  /\ nextBindingId (Editor_updateBindings ed bs) = nextBindingId ed.
Proof.
  unfold Editor_updateBindings.
  apply (fold_left_invariant
           (same_bindings
              (mkEditor (shapes ed)
                 (fold_left (fun l b => put_binding b l)
                    (filter (binding_changes ed) bs) (bindings ed))
                 (nextBindingId ed)))).
  - intros e x _ He.
    destruct (Editor_getBinding ed (binding_id x)); [|exact He].
    apply same_bindings_notify. exact He.
  - split; reflexivity.
Qed.

Lemma Editor_afterShapeChange_bindings (ed : Editor) (id : ShapeId) :
  same_bindings ed (Editor_afterShapeChange ed id).
Proof.
  unfold Editor_afterShapeChange.
  apply (fold_left_invariant (same_bindings ed)).
  - intros e b _ He.
    destruct (Nat.eqb (fromId b) id), (Nat.eqb (toId b) id);
      repeat apply same_bindings_notify; exact He.
  - split; reflexivity.
Qed.

(** *** Shape types *)

Lemma type_of_fold {X : Type} (F : Editor -> X -> Editor) (l : list X) (id : ShapeId) :
  (forall e x, type_of (F e x) id = type_of e id) ->
  forall e, type_of (fold_left F l e) id = type_of e id.
Proof.
  intros H e.
  apply (fold_left_invariant (fun e' => type_of e' id = type_of e id)); [|reflexivity].
  intros e' x _ He'. rewrite H. exact He'.
Qed.

Lemma type_of_deleteBindings (ed : Editor) (bs : list LayoutBinding) (id : ShapeId) :
  type_of (Editor_deleteBindings ed bs) id = type_of ed id.
Proof.
  unfold Editor_deleteBindings. rewrite type_of_fold; [reflexivity|].
  intros e x. apply type_of_notify.
Qed.

Lemma binding_allowed_types (ed ed' : Editor) (f t : ShapeId) :
  (forall id, type_of ed' id = type_of ed id) ->
  binding_allowed ed' f t = binding_allowed ed f t.
Proof.
  intros H. unfold binding_allowed.
  pose proof (H f) as Hf. pose proof (H t) as Ht.
  unfold type_of, feature_of in Hf, Ht.
  destruct (Editor_getShape ed' f) as [a'|], (Editor_getShape ed f) as [a|];
    try discriminate; [|reflexivity].
  destruct (Editor_getShape ed' t) as [b'|], (Editor_getShape ed t) as [b|];
    try discriminate; [|reflexivity].
  simpl in Hf, Ht. injection Hf as Hf. injection Ht as Ht.
  unfold Editor_canBindShapes. rewrite Hf, Ht. reflexivity.
Qed.

(** *** Container sizes *)

Lemma size_ok_at_transfer (ed ed' : Editor) (id : ShapeId) :
  Editor_getShape ed' id = Editor_getShape ed id ->
  member_count ed' id = member_count ed id ->
  size_ok_at ed id -> size_ok_at ed' id.
Proof.
  unfold size_ok_at. intros Hs Hm H c Hc Hn.
  rewrite Hs in Hc. rewrite Hm in *. auto.
Qed.

Lemma size_ok_at_notify (ed : Editor) (ev : BindingEvent) (id : ShapeId) :
  size_ok_at ed id -> size_ok_at (Editor_notify ed ev) id.
Proof.
  intros H. destruct ev; unfold Editor_notify; simpl; try exact H;
    apply size_ok_at_reflow; left; exact H.
Qed.

(** After a run of reflows a container is settled if it was before or if
    one of the reflows was its own. *)
Lemma size_ok_at_fold {X : Type} (F : Editor -> X -> Editor)
    (trig : X -> LayoutBinding) (l : list X) (id : ShapeId) :
  (forall e x, In x l -> F e x = updateElementsForContainer e (trig x)) ->
  forall e,
    size_ok_at e id \/ (exists x, In x l /\ fromId (trig x) = id) ->
    size_ok_at (fold_left F l e) id.
Proof.
  induction l as [|x l IH]; simpl; intros HF e H.
  - destruct H as [H|(x & [] & _)]. exact H.
  - apply IH; [intros e' x' Hx'; apply HF; right; exact Hx'|].
    rewrite HF by (left; reflexivity).
    destruct H as [H|(x' & [<-|Hx'] & E)].
    + left. apply size_ok_at_reflow. left. exact H.
    + left. apply size_ok_at_reflow. right. symmetry. exact E.
    + right. exists x'. tauto.
Qed.

Lemma size_ok_createBinding (ed : Editor) (f t : ShapeId) (k : IndexKey) (ph : bool) :
  size_ok ed -> size_ok (Editor_createBinding ed f t k ph).
Proof.
  intros H id. unfold Editor_createBinding.
  destruct (binding_allowed ed f t); [|apply H].
  unfold Editor_notify. simpl. unfold LayoutBindingUtil_onAfterCreate.
  apply size_ok_at_reflow. simpl.
  destruct (Nat.eq_dec id f) as [E|NE]; [right; exact E | left].
  apply (size_ok_at_transfer ed); [reflexivity | | apply H].
  unfold member_count. simpl. rewrite filter_app, length_app. simpl.
  apply Nat.eqb_neq in NE. rewrite Nat.eqb_sym in NE. rewrite NE. simpl. lia.
Qed.

Lemma size_ok_deleteBindings (ed : Editor) (bs : list LayoutBinding) :
  size_ok ed -> size_ok (Editor_deleteBindings ed bs).
Proof.
  intros H id. unfold Editor_deleteBindings.
  apply (size_ok_at_fold _ (fun b => b)).
  - intros e x _. reflexivity.
  - destruct (existsb (fun b => Nat.eqb (fromId b) id)
                (filter (fun b => existsb (fun d => Nat.eqb (binding_id d) (binding_id b)) bs)
                   (bindings ed))) eqn:E.
    + right. apply existsb_exists in E. destruct E as (x & Hx & E).
      apply Nat.eqb_eq in E. exists x. tauto.
    + left. apply (size_ok_at_transfer ed); [reflexivity | | apply H].
      unfold member_count. simpl. f_equal.
      induction (bindings ed) as [|b l IH]; simpl in *; [reflexivity|].
      destruct (existsb (fun d => Nat.eqb (binding_id d) (binding_id b)) bs); simpl in *.
      * apply orb_false_iff in E. destruct E as [E1 E2].
        rewrite E1. apply IH. exact E2.
      * destruct (Nat.eqb (fromId b) id); [f_equal|]; apply IH; exact E.
Qed.

Lemma size_ok_updateShape_xy (ed : Editor) (id' : ShapeId) (x y : Z) :
  size_ok ed -> size_ok (Editor_updateShape ed (PartialXY id' x y)).
Proof.
  intros H id. apply size_ok_at_size_of.
  assert (Hm : member_count (Editor_updateShape ed (PartialXY id' x y)) id
               = member_count ed id) by reflexivity.
  rewrite Hm. intros Hn wh Hwh.
  unfold size_of in Hwh. rewrite feature_updateShape_xy in Hwh by reflexivity.
  apply (proj1 (size_ok_at_size_of ed id) (H id)); assumption.
Qed.

Lemma size_ok_afterShapeChange (ed : Editor) (id : ShapeId) :
  size_ok ed -> size_ok (Editor_afterShapeChange ed id).
Proof.
  intros H. unfold Editor_afterShapeChange.
  apply (fold_left_invariant size_ok); [|exact H].
  intros e b _ He id'.
  destruct (Nat.eqb (fromId b) id), (Nat.eqb (toId b) id);
    repeat apply size_ok_at_notify; apply He.
Qed.

End StoreFacts.

(** ** Invariants under the editor's operations *)

Section OperationInvariants.

Context {KS : KeySpace} {FR : Frames}.

(** A record that restates a stored one with its key as well. *)
Definition raises (l : list LayoutBinding) (b : LayoutBinding) : Prop :=
  exists cur, In cur l /\ binding_id b = binding_id cur /\ ends b = ends cur
    /\ props_index b = props_index cur.

Lemma raises_restates (l : list LayoutBinding) (b : LayoutBinding) :
  raises l b -> restates l b.
Proof. intros (cur & H1 & H2 & H3 & _). exists cur. tauto. Qed.

Lemma put_binding_fk (l : list LayoutBinding) (b : LayoutBinding) :
  NoDup (map binding_id l) -> raises l b -> map fk (put_binding b l) = map fk l.
Proof.
  intros Hnd (cur & Hin & Eid & Eends & Ekey).
  destruct (split_at_id l cur Hnd Hin) as (l1 & l2 & -> & Hother).
  rewrite put_binding_split by assumption.
  rewrite !map_app. simpl. unfold fk at 2 5. unfold ends in Eends.
  injection Eends as Ef _. rewrite Ef, Ekey. reflexivity.
Qed.

Lemma raises_put (l : list LayoutBinding) (b1 b : LayoutBinding) :
  NoDup (map binding_id l) -> raises l b1 -> raises l b ->
  raises (put_binding b1 l) b.
Proof.
  intros Hnd H1 (cur & Hin & Eid & Eends & Ekey).
  destruct H1 as (cur1 & Hin1 & Eid1 & Eends1 & Ekey1).
  destruct (split_at_id l cur1 Hnd Hin1) as (l1 & l2 & -> & Hother).
  rewrite put_binding_split by assumption.
  apply in_app_or in Hin. destruct Hin as [Hin|[<-|Hin]].
  - exists cur. split; [apply in_or_app; auto | tauto].
  - exists b1. split; [apply in_or_app; simpl; auto|]. repeat split; congruence.
  - exists cur. split; [apply in_or_app; simpl; auto | tauto].
Qed.

Lemma fold_put_restates (bs : list LayoutBinding) : forall l : list LayoutBinding,
  NoDup (map binding_id l) ->
  (forall b, In b bs -> restates l b) ->
  let l' := fold_left (fun l b => put_binding b l) bs l in
  map binding_id l' = map binding_id l
  /\ map ends l' = map ends l
  /\ ((forall b, In b bs -> props_placeholder b = true) ->
      NoDup (map toId (filter committed l)) ->
      NoDup (map toId (filter committed l'))).
Proof.
  induction bs as [|b bs IH]; intros l Hnd Hr; simpl; [tauto|].
  assert (Hb : restates l b) by (apply Hr; left; reflexivity).
  destruct (put_binding_ids l b Hnd Hb) as [Hids Hends].
  destruct (IH (put_binding b l)) as (H1 & H2 & H3).
  - rewrite Hids. exact Hnd.
  - intros b' Hb'.
    apply restates_put; [exact Hnd | exact Hb | apply Hr; right; exact Hb'].
  - split; [congruence|]. split; [congruence|].
    intros Hph Hc. apply H3; [intros b' Hb'; apply Hph; right; exact Hb'|].
    apply put_binding_committed; [exact Hnd | exact Hb | | exact Hc].
    apply Hph. left. reflexivity.
Qed.

Lemma fold_put_raises (bs : list LayoutBinding) : forall l : list LayoutBinding,
  NoDup (map binding_id l) ->
  (forall b, In b bs -> raises l b) ->
  map fk (fold_left (fun l b => put_binding b l) bs l) = map fk l.
Proof.
  induction bs as [|b bs IH]; intros l Hnd Hr; simpl; [reflexivity|].
  assert (Hb : raises l b) by (apply Hr; left; reflexivity).
  rewrite IH.
  - apply put_binding_fk; assumption.
  - destruct (put_binding_ids l b Hnd (raises_restates l b Hb)) as [Hids _].
    rewrite Hids. exact Hnd.
  - intros b' Hb'.
    apply raises_put; [exact Hnd | exact Hb | apply Hr; right; exact Hb'].
Qed.

(** *** Binding ids *)

Lemma ids_ok_same (ed ed' : Editor) :
  same_bindings ed ed' -> ids_ok ed -> ids_ok ed'.
Proof. unfold same_bindings, ids_ok. intros [-> ->]. tauto. Qed.

Lemma ids_ok_createBinding (ed : Editor) (f t : ShapeId) (k : IndexKey) (ph : bool) :
  ids_ok ed -> ids_ok (Editor_createBinding ed f t k ph).
Proof.
  intros [Hnd Hb].
  destruct (Editor_createBinding_bindings ed f t k ph) as [Hyes Hno].
  destruct (binding_allowed ed f t).
  - destruct (Hyes eq_refl) as [E1 E2]. unfold ids_ok. rewrite E1, E2. split.
    + apply NoDup_map_snoc; [exact Hnd|]. simpl.
      intros Hin. apply in_map_iff in Hin. destruct Hin as (b & E & Hin).
      apply Hb in Hin. lia.
    + intros b Hin. apply in_app_or in Hin. destruct Hin as [Hin|[<-|[]]].
      * apply Hb in Hin. lia.
      * simpl. lia.
  - rewrite Hno by reflexivity. split; assumption.
Qed.

Lemma ids_ok_deleteBindings (ed : Editor) (bs : list LayoutBinding) :
  ids_ok ed -> ids_ok (Editor_deleteBindings ed bs).
Proof.
  intros [Hnd Hb].
  destruct (Editor_deleteBindings_bindings ed bs) as [E1 E2].
  unfold ids_ok. rewrite E1, E2. split.
  - apply NoDup_map_filter. exact Hnd.
  - intros b Hin. apply filter_In in Hin. apply Hb. tauto.
Qed.

Lemma updateBindings_maps (ed : Editor) (bs : list LayoutBinding) :
  ids_ok ed ->
  (forall b, In b bs -> restates (bindings ed) b) ->
  map binding_id (bindings (Editor_updateBindings ed bs)) = map binding_id (bindings ed)
  /\ map ends (bindings (Editor_updateBindings ed bs)) = map ends (bindings ed)
  /\ ((forall b, In b bs -> props_placeholder b = true) ->
      one_committed ed -> one_committed (Editor_updateBindings ed bs)).
Proof.
  intros [Hnd _] Hr.
  destruct (Editor_updateBindings_bindings ed bs) as [E _].
  unfold one_committed. rewrite E.
  destruct (fold_put_restates (filter (binding_changes ed) bs) (bindings ed) Hnd)
    as (H1 & H2 & H3).
  - intros b Hb. apply filter_In in Hb. apply Hr. tauto.
  - split; [exact H1|]. split; [exact H2|].
    intros Hph. apply H3. intros b Hb. apply filter_In in Hb. apply Hph. tauto.
Qed.

Lemma ids_ok_updateBindings (ed : Editor) (bs : list LayoutBinding) :
  ids_ok ed ->
  (forall b, In b bs -> restates (bindings ed) b) ->
  ids_ok (Editor_updateBindings ed bs).
Proof.
  intros Hok Hr.
  destruct (updateBindings_maps ed bs Hok Hr) as (Hids & _).
  destruct (Editor_updateBindings_bindings ed bs) as [_ En].
  destruct Hok as [Hnd Hb]. unfold ids_ok. rewrite Hids, En. split; [exact Hnd|].
  intros b Hin. apply (in_map binding_id) in Hin. rewrite Hids in Hin.
  apply in_map_iff in Hin. destruct Hin as (b0 & E & Hin0).
  rewrite <- E. apply Hb. exact Hin0.
Qed.

Lemma size_ok_updateBindings (ed : Editor) (bs : list LayoutBinding) :
  ids_ok ed ->
  (forall b, In b bs -> restates (bindings ed) b) ->
  size_ok ed -> size_ok (Editor_updateBindings ed bs).
Proof.
  intros Hok Hr H id.
  destruct (updateBindings_maps ed bs Hok Hr) as (_ & Hends & _).
  destruct (Editor_updateBindings_bindings ed bs) as [Eb _].
  unfold Editor_updateBindings in *.
  apply (size_ok_at_fold _ (fun b => b)).
  - intros e x Hx. apply filter_In in Hx. destruct Hx as [_ Hx].
    unfold binding_changes in Hx.
    destruct (Editor_getBinding ed (binding_id x)); [reflexivity | discriminate].
  - left. apply (size_ok_at_transfer ed); [reflexivity | | apply H].
    apply member_count_same. simpl.
    rewrite Eb in Hends.
    apply (f_equal (map fst)) in Hends. rewrite !map_map in Hends. exact Hends.
Qed.

(** *** One relationship per pair *)

Lemma pair_unique_createBinding (ed : Editor) (f t : ShapeId) (k : IndexKey) (ph : bool) :
  pair_unique ed -> ~ In (f, t) (map ends (bindings ed)) ->
  pair_unique (Editor_createBinding ed f t k ph).
Proof.
  intros Hp Hn.
  destruct (Editor_createBinding_bindings ed f t k ph) as [Hyes Hno].
  destruct (binding_allowed ed f t).
  - destruct (Hyes eq_refl) as [E1 _]. unfold pair_unique. rewrite E1.
    apply NoDup_map_snoc; assumption.
  - rewrite Hno by reflexivity. exact Hp.
Qed.

Lemma pair_unique_deleteBindings (ed : Editor) (bs : list LayoutBinding) :
  pair_unique ed -> pair_unique (Editor_deleteBindings ed bs).
Proof.
  intros Hp. destruct (Editor_deleteBindings_bindings ed bs) as [E1 _].
  unfold pair_unique. rewrite E1. apply NoDup_map_filter. exact Hp.
Qed.

Lemma pair_unique_updateBindings (ed : Editor) (bs : list LayoutBinding) :
  ids_ok ed ->
  (forall b, In b bs -> restates (bindings ed) b) ->
  pair_unique ed -> pair_unique (Editor_updateBindings ed bs).
Proof.
  intros Hok Hr Hp.
  destruct (updateBindings_maps ed bs Hok Hr) as (_ & Hends & _).
  unfold pair_unique. rewrite Hends. exact Hp.
Qed.

(** *** One committed relationship per element *)

Lemma one_committed_createBinding (ed : Editor) (f t : ShapeId) (k : IndexKey)
    (ph : bool) :
  one_committed ed ->
  (ph = false -> ~ In t (map toId (bindings ed))) ->
  one_committed (Editor_createBinding ed f t k ph).
Proof.
  intros Hc Hn.
  destruct (Editor_createBinding_bindings ed f t k ph) as [Hyes Hno].
  destruct (binding_allowed ed f t).
  - destruct (Hyes eq_refl) as [E1 _]. unfold one_committed. rewrite E1.
    rewrite filter_app. simpl. unfold committed at 2. simpl.
    destruct ph; simpl.
    + rewrite app_nil_r. exact Hc.
    + apply NoDup_map_snoc; [exact Hc|]. simpl. intros Hin.
      apply (Hn eq_refl). apply in_map_iff in Hin. destruct Hin as (b & E & Hb).
      apply filter_In in Hb. rewrite <- E. apply in_map. tauto.
  - rewrite Hno by reflexivity. exact Hc.
Qed.

Lemma one_committed_deleteBindings (ed : Editor) (bs : list LayoutBinding) :
  one_committed ed -> one_committed (Editor_deleteBindings ed bs).
Proof.
  intros Hc. destruct (Editor_deleteBindings_bindings ed bs) as [E1 _].
  unfold one_committed. rewrite E1.
  assert (G : forall l : list LayoutBinding,
             filter committed (filter (fun b => negb (doomed bs b)) l)
             = filter (fun b => negb (doomed bs b)) (filter committed l)).
  { induction l as [|b l IH]; simpl; [reflexivity|].
    destruct (doomed bs b) eqn:Ed, (committed b) eqn:Ec; simpl;
      rewrite ?Ed, ?Ec, IH; reflexivity. }
  rewrite G. apply NoDup_map_filter. exact Hc.
Qed.

(** *** Keys *)

Lemma keys_unique_createBinding (ed : Editor) (f t : ShapeId) (k : IndexKey) (ph : bool) :
  keys_unique ed -> ~ In (f, k) (map fk (bindings ed)) ->
  keys_unique (Editor_createBinding ed f t k ph).
Proof.
  intros Hk Hn.
  destruct (Editor_createBinding_bindings ed f t k ph) as [Hyes Hno].
  destruct (binding_allowed ed f t).
  - destruct (Hyes eq_refl) as [E1 _]. unfold keys_unique. rewrite E1.
    apply (NoDup_map_snoc fk); assumption.
  - rewrite Hno by reflexivity. exact Hk.
Qed.

Lemma keys_unique_deleteBindings (ed : Editor) (bs : list LayoutBinding) :
  keys_unique ed -> keys_unique (Editor_deleteBindings ed bs).
Proof.
  intros Hk. destruct (Editor_deleteBindings_bindings ed bs) as [E1 _].
  unfold keys_unique. rewrite E1. apply (NoDup_map_filter fk). exact Hk.
Qed.

Lemma keys_unique_raise (ed : Editor) (bs : list LayoutBinding) :
  ids_ok ed ->
  (forall b, In b bs -> raises (bindings ed) b) ->
  keys_unique ed -> keys_unique (Editor_updateBindings ed bs).
Proof.
  intros [Hnd _] Hr Hk.
  destruct (Editor_updateBindings_bindings ed bs) as [E _].
  unfold keys_unique. rewrite E.
  change (NoDup (map fk (fold_left (fun l b => put_binding b l)
                           (filter (binding_changes ed) bs) (bindings ed)))).
  rewrite fold_put_raises; [exact Hk | exact Hnd |].
  intros b Hb. apply filter_In in Hb. apply Hr. tauto.
Qed.

Lemma keys_unique_updateBinding (ed : Editor) (b : LayoutBinding) :
  ids_ok ed ->
  (exists cur, In cur (bindings ed) /\ binding_id b = binding_id cur
     /\ ends b = ends cur
     /\ (props_index b = props_index cur \/ ~ In (fk b) (map fk (bindings ed)))) ->
  keys_unique ed -> keys_unique (Editor_updateBinding ed b).
Proof.
  intros [Hnd _] Hb Hk.
  destruct (Editor_updateBindings_bindings ed [b]) as [E _].
  unfold keys_unique, Editor_updateBinding. rewrite E. simpl.
  destruct (binding_changes ed b); simpl; [|exact Hk].
  apply put_binding_keys; assumption.
Qed.

End OperationInvariants.

(** ** The key a drag computes *)

Section IndexFacts.

Context {KS : KeySpace}.

Lemma keys_unique_members (ed : Editor) (c : Shape) :
  keys_unique ed -> NoDup (map props_index (Editor_getBindingsFromShape ed c)).
Proof.
  unfold keys_unique, Editor_getBindingsFromShape. intros H.
  apply (NoDup_map_filter _ (fun b => Nat.eqb (fromId b) (shape_id c))) in H.
  apply (NoDup_map_inv (fun k => (shape_id c, k))).
  rewrite map_map.
  erewrite map_ext_in; [exact H|].
  intros b Hb. apply filter_In in Hb. destruct Hb as [_ Hb].
  apply Nat.eqb_eq in Hb. rewrite <- Hb. reflexivity.
Qed.

Lemma fresh_pair (ed : Editor) (c : Shape) (k : IndexKey) :
  ~ In k (map props_index (Editor_getBindingsFromShape ed c)) ->
  ~ In (shape_id c, k) (map fk (bindings ed)).
Proof.
  intros Hn Hin. apply Hn. apply in_map_iff in Hin.
  destruct Hin as (b & E & Hb). injection E as Ef Ek.
  apply in_map_iff. exists b. split; [exact Ek|].
  apply filter_In. split; [exact Hb | apply Nat.eqb_eq; exact Ef].
Qed.

Lemma filter_length_lt {A : Type} (p : A -> bool) (l : list A) (a : A) :
  In a l -> p a = false -> (List.length (filter p l) < List.length l)%nat.
Proof.
  induction l as [|x l IH]; simpl; intros Hin Hp; [contradiction|].
  pose proof (filter_length_le p l) as Hle.
  destruct Hin as [->|Hin].
  - rewrite Hp. lia.
  - specialize (IH Hin Hp). destruct (p x); simpl; lia.
Qed.

Lemma js_index_In {A : Type} (l : list A) (i : Z) (a : A) :
  js_index l i = Some a -> In a l.
Proof.
  intros H. apply js_index_Some in H. eapply nth_error_In. apply H.
Qed.

(** The key computed for a dragged element is the key of one of its own
    relationships in the container or a key the container does not have,
    as long as the slot lies within the list: which it does when the
    element already is a member, when there is no member at all, or when
    the rounded anchor does not exceed the member count. *)
Lemma index_own_or_fresh (ed : Editor) (shape t : Shape) (pageAnchor : Vec) :
  keys_unique ed ->
  let members := Editor_getBindingsFromShape ed t in
  let index := ElementShapeUtil_getBindingIndexForPosition ed shape t pageAnchor in
  (exists o, In o members /\ toId o = shape_id shape)
  \/ members = []
  \/ Math_round_div (vx pageAnchor - shape_x t - 24) 124
     <= Z.of_nat (List.length members) ->
  (exists o, In o members /\ toId o = shape_id shape /\ index = props_index o)
  \/ ~ In index (map props_index members).
Proof.
  intros Hk members index Hcase.
  set (allBindings := sort_by_index members).
  assert (Hperm : Permutation allBindings members) by apply sort_by_index_perm.
  assert (Hsorted : StronglySorted index_lt allBindings)
    by (apply sort_by_index_sorted, keys_unique_members; exact Hk).
  set (n := List.length
              (filter (fun b => negb (Nat.eqb (toId b) (shape_id shape))) allBindings)).
  set (slot := slot_order n t pageAnchor).
  assert (Hindex : index =
            match own_key shape (js_index allBindings (slot - 1)) with
            | Some k => k
            | None =>
                match own_key shape (js_index allBindings slot) with
                | Some k => k
                | None =>
                    getIndexBetween
                      (option_map props_index (js_index allBindings (slot - 1)))
                      (option_map props_index (js_index allBindings slot))
                end
            end) by reflexivity.
  destruct (own_key shape (js_index allBindings (slot - 1))) as [k|] eqn:Ebelow.
  { left. apply own_key_Some in Ebelow. destruct Ebelow as (b & Hb & Hto & ->).
    exists b. split; [|tauto].
    eapply Permutation_in; [exact Hperm | eapply js_index_In; exact Hb]. }
  destruct (own_key shape (js_index allBindings slot)) as [k|] eqn:Eabove.
  { left. apply own_key_Some in Eabove. destruct Eabove as (b & Hb & Hto & ->).
    exists b. split; [|tauto].
    eapply Permutation_in; [exact Hperm | eapply js_index_In; exact Hb]. }
  right. rewrite Hindex.
  destruct (between_neighbours allBindings slot Hsorted) as (_ & _ & Hfresh).
  intros Hin. apply Hfresh.
  - pose proof (slot_order_bounds n t pageAnchor) as Hb. fold slot in Hb.
    split; [lia|].
    assert (Hlen : List.length allBindings = List.length members)
      by (apply Permutation_length; exact Hperm).
    destruct Hcase as [(o & Ho & Hto)|[Hnil|Hround]].
    + assert (Hlt : (n < List.length allBindings)%nat).
      { apply (filter_length_lt _ _ o).
        - eapply Permutation_in; [apply Permutation_sym; exact Hperm | exact Ho].
        - rewrite Hto, Nat.eqb_refl. reflexivity. }
      lia.
    + exfalso. fold members in Hin. rewrite Hnil in Hin. exact Hin.
    + unfold slot, slot_order, clamp, CONTAINER_PADDING.
      change (100 + 24) with 124. lia.
  - eapply Permutation_in; [|exact Hin].
    apply Permutation_map, Permutation_sym. exact Hperm.
Qed.

Context {FR : Frames}.

(** Inside a container that has the size of its members, the rounded
    anchor does not exceed the member count. *)
Lemma round_within_members (ed : Editor) (t : Shape) (pageAnchor : Vec) :
  size_ok_at ed (shape_id t) ->
  Editor_getShape ed (shape_id t) = Some t ->
  shape_x t <= vx pageAnchor <= shape_x t + props_width t ->
  Editor_getBindingsFromShape ed t <> [] ->
  Math_round_div (vx pageAnchor - shape_x t - 24) 124
  <= Z.of_nat (List.length (Editor_getBindingsFromShape ed t)).
Proof.
  intros Hsize Hstored Hin Hne.
  assert (Hn : member_count ed (shape_id t) <> 0%nat).
  { unfold member_count. intros E. apply length_zero_iff_nil in E. exact (Hne E). }
  destruct (Hsize t Hstored Hn) as [Hw _].
  rewrite layout_width_formula in Hw.
  change (List.length (Editor_getBindingsFromShape ed t))
    with (member_count ed (shape_id t)).
  pose proof (Math_round_div_nearest (vx pageAnchor - shape_x t - 24) 124 ltac:(lia)).
  lia.
Qed.

End IndexFacts.

(** ** Invariants under the drag handlers *)

Section HandlerInvariants.

Context {KS : KeySpace} {FR : Frames} {HT : HitTesting}.

(** What one step hands on, each invariant under the ones it rests on. *)
Definition hands_on (ed ed' : Editor) : Prop :=
  ids_ok ed'
  /\ (pair_unique ed -> pair_unique ed')
  /\ (one_committed ed -> one_committed ed')
  /\ (size_ok ed -> size_ok ed')
  /\ (pair_unique ed -> size_ok ed -> keys_unique ed -> keys_unique ed').

Lemma hands_on_same (ed ed' : Editor) :
  same_bindings ed ed' -> ids_ok ed -> (size_ok ed -> size_ok ed') -> hands_on ed ed'.
Proof.
  intros Hs Hids Hsize. pose proof (ids_ok_same ed ed' Hs Hids) as Hids'.
  destruct Hs as [Eb En].
  unfold hands_on, pair_unique, one_committed, keys_unique. rewrite Eb. tauto.
Qed.

Lemma hands_on_refl (ed : Editor) : ids_ok ed -> hands_on ed ed.
Proof. intros H. unfold hands_on. tauto. Qed.

Lemma hands_on_deleteBindings (ed : Editor) (bs : list LayoutBinding) :
  ids_ok ed -> hands_on ed (Editor_deleteBindings ed bs).
Proof.
  intros H. unfold hands_on.
  split; [apply ids_ok_deleteBindings; exact H|].
  split; [apply pair_unique_deleteBindings|].
  split; [apply one_committed_deleteBindings|].
  split; [apply size_ok_deleteBindings|].
  intros _ _. apply keys_unique_deleteBindings.
Qed.

Lemma to_shape_doomed (ed : Editor) (shape : Shape) (b : LayoutBinding) :
  In b (bindings ed) -> toId b = shape_id shape ->
  doomed (Editor_getBindingsToShape ed shape) b = true.
Proof.
  intros Hin Hto. unfold doomed. apply existsb_exists. exists b.
  split; [|apply Nat.eqb_refl].
  apply filter_In. split; [exact Hin | apply Nat.eqb_eq; exact Hto].
Qed.

Lemma deleted_to_shape (ed : Editor) (shape : Shape) (b : LayoutBinding) :
  In b (bindings (Editor_deleteBindings ed (Editor_getBindingsToShape ed shape))) ->
  In b (bindings ed) /\ toId b <> shape_id shape.
Proof.
  destruct (Editor_deleteBindings_bindings ed (Editor_getBindingsToShape ed shape))
    as [E _].
  rewrite E. intros Hin. apply filter_In in Hin. destruct Hin as [Hin Hd].
  split; [exact Hin|]. intros Hto.
  rewrite (to_shape_doomed ed shape b Hin Hto) in Hd. discriminate.
Qed.

Lemma find_own_Some (ed : Editor) (t : Shape) (e : ShapeId) (ex : LayoutBinding) :
  find (fun b => Nat.eqb (toId b) e) (Editor_getBindingsFromShape ed t) = Some ex ->
  In ex (bindings ed) /\ fromId ex = shape_id t /\ toId ex = e.
Proof.
  intros H. apply find_some in H. destruct H as [Hin Hto].
  apply filter_In in Hin. destruct Hin as [Hin Hfrom].
  apply Nat.eqb_eq in Hto, Hfrom. tauto.
Qed.

Lemma find_own_None (ed : Editor) (t : Shape) (e : ShapeId) :
  find (fun b => Nat.eqb (toId b) e) (Editor_getBindingsFromShape ed t) = None ->
  forall b, In b (Editor_getBindingsFromShape ed t) -> toId b <> e.
Proof.
  intros H b Hb Hto. apply (find_none _ _ H) in Hb. apply Nat.eqb_neq in Hb. auto.
Qed.

(** The slot lies within the list whenever the target came out of the
    hit test of a store whose containers have the size of their
    members. *)
Lemma target_case (ed : Editor) (shape t : Shape) (pageAnchor : Vec) :
  size_ok ed ->
  ElementShapeUtil_getTargetContainer ed shape pageAnchor = Some t ->
  (exists o, In o (Editor_getBindingsFromShape ed t) /\ toId o = shape_id shape)
  \/ Editor_getBindingsFromShape ed t = []
  \/ Math_round_div (vx pageAnchor - shape_x t - 24) 124
     <= Z.of_nat (List.length (Editor_getBindingsFromShape ed t)).
Proof.
  intros Hsize Ht. unfold ElementShapeUtil_getTargetContainer in Ht.
  destruct (Editor_getBindingsFromShape ed t) as [|b0 l0] eqn:E; [right; left; reflexivity|].
  right. right. rewrite <- E.
  apply round_within_members.
  - apply Hsize.
  - eapply getShapeAtPoint_stored. exact Ht.
  - eapply getShapeAtPoint_inside. exact Ht.
  - rewrite E. discriminate.
Qed.

Lemma hands_on_onTranslateStart (ed : Editor) (shape : Shape) :
  ids_ok ed -> hands_on ed (ElementShapeUtil_onTranslateStart ed shape).
Proof.
  intros Hids. unfold ElementShapeUtil_onTranslateStart.
  set (bs := map (fun binding => set_placeholder binding true)
               (Editor_getBindingsToShape ed shape)).
  assert (Hraise : forall b, In b bs ->
            raises (bindings ed) b /\ props_placeholder b = true).
  { intros b Hb. apply in_map_iff in Hb. destruct Hb as (cur & <- & Hcur).
    apply filter_In in Hcur. split; [|reflexivity].
    exists cur. simpl. unfold ends. simpl. tauto. }
  assert (Hrest : forall b, In b bs -> restates (bindings ed) b)
    by (intros b Hb; apply raises_restates, Hraise, Hb).
  unfold hands_on.
  split; [apply ids_ok_updateBindings; assumption|].
  split; [apply pair_unique_updateBindings; assumption|].
  split; [apply (updateBindings_maps ed bs Hids Hrest); intros b Hb; apply Hraise, Hb|].
  split; [apply size_ok_updateBindings; assumption|].
  intros _ _. apply keys_unique_raise; [exact Hids|].
  intros b Hb. apply Hraise, Hb.
Qed.

Lemma hands_on_createBinding (ed : Editor) (f t : ShapeId) (k : IndexKey) (ph : bool) :
  ids_ok ed ->
  ~ In (f, t) (map ends (bindings ed)) ->
  (ph = false -> ~ In t (map toId (bindings ed))) ->
  (pair_unique ed -> size_ok ed -> keys_unique ed ->
   ~ In (f, k) (map fk (bindings ed))) ->
  hands_on ed (Editor_createBinding ed f t k ph).
Proof.
  intros Hids Hpair Hto Hkey. unfold hands_on.
  split; [apply ids_ok_createBinding; exact Hids|].
  split; [intros H; apply pair_unique_createBinding; assumption|].
  split; [intros H; apply one_committed_createBinding; assumption|].
  split; [apply size_ok_createBinding|].
  intros H1 H2 H3. apply keys_unique_createBinding; auto.
Qed.

Lemma hands_on_onTranslate (ed : Editor) (shape : Shape) :
  ids_ok ed -> hands_on ed (ElementShapeUtil_onTranslate ed shape).
Proof.
  intros Hids. unfold ElementShapeUtil_onTranslate.
  set (pageAnchor := element_anchor shape).
  destruct (ElementShapeUtil_getTargetContainer ed shape pageAnchor) as [t|] eqn:Ht;
    [|apply hands_on_deleteBindings; exact Hids].
  set (index := ElementShapeUtil_getBindingIndexForPosition ed shape t pageAnchor).
  destruct (find (fun b => Nat.eqb (toId b) (shape_id shape))
              (Editor_getBindingsFromShape ed t)) as [ex|] eqn:Hfind.
  - apply find_own_Some in Hfind as Hex. destruct Hex as (Hin & Hfrom & Hto).
    destruct (key_eqb (props_index ex) index) eqn:Ekey;
      [apply hands_on_refl; exact Hids|].
    set (b' := mkBinding (binding_id ex) (fromId ex) (toId ex) index true).
    assert (Hrest : forall b, In b [b'] -> restates (bindings ed) b).
    { intros b [<-|[]]. exists ex. unfold ends. simpl. tauto. }
    unfold hands_on, Editor_updateBinding.
    split; [apply ids_ok_updateBindings; assumption|].
    split; [apply pair_unique_updateBindings; assumption|].
    split; [apply (updateBindings_maps ed [b'] Hids Hrest); intros b [<-|[]]; reflexivity|].
    split; [apply size_ok_updateBindings; assumption|].
    intros Hpair Hsize Hkeys.
    apply keys_unique_updateBinding; [exact Hids | | exact Hkeys].
    exists ex. split; [exact Hin|]. split; [reflexivity|]. split; [reflexivity|].
    right. unfold fk, b'. simpl. rewrite Hfrom.
    destruct (index_own_or_fresh ed shape t pageAnchor Hkeys) as [(o & Ho & Hoto & Eo)|Hfresh].
    + left. exists ex. split; [|exact Hto].
      apply filter_In. split; [exact Hin | apply Nat.eqb_eq; exact Hfrom].
    + exfalso. apply filter_In in Ho. destruct Ho as [Ho Hofrom].
      apply Nat.eqb_eq in Hofrom.
      assert (o = ex).
      { apply (NoDup_map_eq_in ends (bindings ed)); auto.
        unfold ends. congruence. }
      subst o. fold index in Eo. rewrite Eo, key_eqb_refl in Ekey. discriminate.
    + apply fresh_pair. exact Hfresh.
  - apply hands_on_createBinding; [exact Hids | | discriminate |].
    + intros Hin. apply in_map_iff in Hin. destruct Hin as (b & E & Hb).
      injection E as Ef Et.
      apply (find_own_None ed t _ Hfind b); [|exact Et].
      apply filter_In. split; [exact Hb | apply Nat.eqb_eq; exact Ef].
    + intros Hpair Hsize Hkeys.
      destruct (index_own_or_fresh ed shape t pageAnchor Hkeys) as [(o & Ho & Hoto & _)|Hfresh].
      * destruct (target_case ed shape t pageAnchor Hsize Ht) as [H|H]; auto.
      * exfalso. exact (find_own_None ed t _ Hfind o Ho Hoto).
      * apply fresh_pair. exact Hfresh.
Qed.

Lemma hands_on_onTranslateEnd (ed : Editor) (shape : Shape) :
  ids_ok ed -> hands_on ed (ElementShapeUtil_onTranslateEnd ed shape).
Proof.
  intros Hids. unfold ElementShapeUtil_onTranslateEnd.
  set (pageAnchor := element_anchor shape).
  destruct (ElementShapeUtil_getTargetContainer ed shape pageAnchor) as [t|] eqn:Ht;
    [|apply hands_on_refl; exact Hids].
  set (index := ElementShapeUtil_getBindingIndexForPosition ed shape t pageAnchor).
  set (ed1 := Editor_deleteBindings ed (Editor_getBindingsToShape ed shape)).
  destruct (hands_on_deleteBindings ed (Editor_getBindingsToShape ed shape) Hids)
    as (Hids1 & Hpair1 & Hcomm1 & Hsize1 & Hkeys1).
  fold ed1 in Hids1, Hpair1, Hcomm1, Hsize1, Hkeys1.
  assert (Hgone : forall b, In b (bindings ed1) ->
            In b (bindings ed) /\ toId b <> shape_id shape)
    by (intros b; apply deleted_to_shape).
  assert (Hnone : ~ In (shape_id shape) (map toId (bindings ed1))).
  { intros Hin. apply in_map_iff in Hin. destruct Hin as (b & E & Hb).
    apply Hgone in Hb. tauto. }
  assert (Hnopair : ~ In (shape_id t, shape_id shape) (map ends (bindings ed1))).
  { intros Hin. apply in_map_iff in Hin. destruct Hin as (b & E & Hb).
    injection E as _ Et. apply Hgone in Hb. tauto. }
  unfold hands_on.
  split; [apply ids_ok_createBinding; exact Hids1|].
  split; [intros H; apply pair_unique_createBinding; auto|].
  split; [intros H; apply one_committed_createBinding; auto|].
  split; [intros H; apply size_ok_createBinding; auto|].
  - intros Hpair Hsize Hkeys.
    destruct (Editor_createBinding_bindings ed1 (shape_id t) (shape_id shape) index false)
      as [Hyes Hno].
    destruct (binding_allowed ed1 (shape_id t) (shape_id shape));
      [|rewrite Hno by reflexivity; auto].
    destruct (Hyes eq_refl) as [E _]. unfold keys_unique. rewrite E.
    apply (NoDup_map_snoc fk); [apply Hkeys1; assumption|].
    simpl. intros Hin. apply in_map_iff in Hin. destruct Hin as (b1 & Efk & Hb1).
    apply Hgone in Hb1. destruct Hb1 as [Hb1 Hb1to].
    unfold fk in Efk. injection Efk as Ef Ek.
    assert (Hmem : In b1 (Editor_getBindingsFromShape ed t))
      by (apply filter_In; split; [exact Hb1 | apply Nat.eqb_eq; exact Ef]).
    destruct (index_own_or_fresh ed shape t pageAnchor Hkeys
                (target_case ed shape t pageAnchor Hsize Ht))
      as [(o & Ho & Hoto & Eo)|Hfresh].
    + apply filter_In in Ho. destruct Ho as [Ho Hofrom]. apply Nat.eqb_eq in Hofrom.
      assert (b1 = o).
      { apply (NoDup_map_eq_in fk (bindings ed)); auto.
        unfold fk. fold index in Eo. congruence. }
      subst b1. contradiction.
    + apply Hfresh. fold index. rewrite <- Ek. apply in_map. exact Hmem.
Qed.

Lemma hands_on_step (ed ed' : Editor) :
  drag_step ed ed' -> ids_ok ed -> hands_on ed ed'.
Proof.
  intros Hstep Hids. destruct Hstep as [ed shape _ _|ed shape _ _|ed shape _ _|ed id x y|ed ev].
  - apply hands_on_onTranslateStart. exact Hids.
  - apply hands_on_onTranslate. exact Hids.
  - apply hands_on_onTranslateEnd. exact Hids.
  - apply hands_on_same; [|exact Hids|].
    + destruct (Editor_afterShapeChange_bindings
                  (Editor_updateShape ed (PartialXY id x y)) id) as [E1 E2].
      split; [rewrite E1 | rewrite E2]; reflexivity.
    + intros H. apply size_ok_afterShapeChange, size_ok_updateShape_xy. exact H.
  - apply hands_on_same; [|exact Hids|].
    + apply (Editor_notify_bindings ed ev).
    + intros H id. apply size_ok_at_notify. apply H.
Qed.

End HandlerInvariants.

(** ** The drag as a whole *)

Section DragTheorems.

Context {KS : KeySpace} {FR : Frames} {HT : HitTesting}.

Lemma hands_on_steps (ed0 ed : Editor) :
  drag_steps ed0 ed -> ids_ok ed0 -> hands_on ed0 ed.
Proof.
  intros Hsteps Hids. induction Hsteps as [|ed ed' Hsteps IH Hstep].
  - apply hands_on_refl. exact Hids.
  - destruct IH as (H1 & H2 & H3 & H4 & H5).
    destruct (hands_on_step ed ed' Hstep H1) as (G1 & G2 & G3 & G4 & G5).
    unfold hands_on.
    split; [exact G1|]. split; [auto|]. split; [auto|]. split; [auto|].
    intros Hp Hs Hk. apply G5; auto.
Qed.

Lemma filter_none {A : Type} (p : A -> bool) (l : list A) :
  (forall a, In a l -> p a = false) -> filter p l = [].
Proof.
  induction l as [|a l IH]; simpl; intros H; [reflexivity|].
  rewrite (H a) by (left; reflexivity). apply IH. intros a' Ha'. apply H. right. exact Ha'.
Qed.

Lemma NoDup_map_count {A B : Type} (f : A -> B) (p : A -> bool) (v : B) (l : list A) :
  NoDup (map f l) ->
  (forall a, p a = true -> f a = v) ->
  (List.length (filter p l) <= 1)%nat.
Proof.
  intros Hnd Hp. induction l as [|a l IH]; simpl; [lia|].
  inversion Hnd as [|? ? Ha Hl]; subst. specialize (IH Hl).
  destruct (p a) eqn:Ea; [|exact IH].
  simpl. rewrite filter_none; [simpl; lia|].
  intros a' Ha'. destruct (p a') eqn:Ea'; [|reflexivity].
  exfalso. apply Ha. rewrite (Hp a Ea), <- (Hp a' Ea'). apply in_map. exact Ha'.
Qed.


(** With no target for the last move and none for the end, the move has
    deleted every relationship that led to the element and the end
    changes nothing. *)
Lemma drag_end_leaves_none (ed : Editor) (shape current : Shape) :
  let ed1 := ElementShapeUtil_onTranslate ed shape in
  Editor_getShape ed1 (shape_id shape) = Some current ->
  ElementShapeUtil_getTargetContainer ed shape (element_anchor shape) = None ->
  ElementShapeUtil_getTargetContainer ed1 current (element_anchor current) = None ->
  Editor_getBindingsToShape (Translating_complete ed shape) shape = [].
Proof.
  intros ed1 Hcur Hmove Hend.
  unfold Translating_complete. fold ed1. rewrite Hcur.
  unfold ElementShapeUtil_onTranslateEnd. rewrite Hend.
  unfold ed1, ElementShapeUtil_onTranslate. rewrite Hmove.
  unfold Editor_getBindingsToShape at 1. apply filter_none.
  intros b Hb. apply Nat.eqb_neq. apply (deleted_to_shape ed shape b Hb).
Qed.



(** C5. Through any sequence of creations and reorderings the drag
    handlers make, the relationships of a container sorted by index key
    are strictly ascending: no two of them share a key.  (From a store
    with distinct binding ids, one relationship per pair, distinct keys
    within each container and containers of the size of their members.) *)
Theorem drag_keeps_keys_strictly_ordered (ed0 ed : Editor) :
  ids_ok ed0 -> pair_unique ed0 -> size_ok ed0 -> keys_unique ed0 ->
  drag_steps ed0 ed ->
  forall c : Shape,
    StronglySorted index_lt (sort_by_index (Editor_getBindingsFromShape ed c))
    /\ NoDup (map props_index (Editor_getBindingsFromShape ed c)).
Proof.
  intros Hids Hpair Hsize Hkeys Hsteps c.
  destruct (hands_on_steps ed0 ed Hsteps Hids) as (_ & _ & _ & _ & H5).
  specialize (H5 Hpair Hsize Hkeys).
  pose proof (keys_unique_members ed c H5) as Hnd.
  split; [apply sort_by_index_sorted; exact Hnd | exact Hnd].
Qed.

(** C6 (as amended). After every operation of the core, a container
    that has at least one member has exactly the width and height of the
    formula for its member count; when the last member is removed the
    reflow changes nothing and the container keeps the size it had. *)
Theorem drag_keeps_container_sizes (ed0 ed : Editor) :
  ids_ok ed0 -> size_ok ed0 ->
  drag_steps ed0 ed ->
  (forall c : Shape,
      Editor_getShape ed (shape_id c) = Some c ->
      let n := List.length (Editor_getBindingsFromShape ed c) in
      (1 <= n)%nat ->
      props_width c = 24 + Z.of_nat n * 100 + (Z.of_nat n - 1) * 24 + 24
      /\ props_height c = 24 + 100 + 24)
  /\ (forall (trigger : LayoutBinding) (c : Shape),
         Editor_getShape ed (fromId trigger) = Some c ->
         Editor_getBindingsFromShape ed c = [] ->
         updateElementsForContainer ed trigger = ed).
Proof.
  intros Hids Hsize Hsteps.
  destruct (hands_on_steps ed0 ed Hsteps Hids) as (_ & _ & _ & H4 & _).
  specialize (H4 Hsize). split.
  - intros c Hc n Hn.
    destruct (H4 (shape_id c) c Hc) as [Hw Hh].
    + unfold member_count. fold (Editor_getBindingsFromShape ed c). fold n. lia.
    + rewrite Hw, Hh, layout_width_formula. split; reflexivity.
  - intros trigger c Hc Hempty. unfold updateElementsForContainer.
    rewrite (updateElementsForContainer_empty ed trigger c Hc Hempty). reflexivity.
Qed.

End DragTheorems.

(** ** Stores the engine produces are rows the reflow expects

    The theorems on the reflow ask that the relationships of a container
    lead to distinct elements, none of them the container itself.  Every
    store the drag reaches is of that kind. *)

Section WellFormedRows.

Context {KS : KeySpace} {FR : Frames} {HT : HitTesting}.

(** Relationships lead from a container to an element. *)
Definition ends_typed (ed : Editor) : Prop :=
  forall b, In b (bindings ed) ->
    type_of ed (fromId b) = Some ContainerShapeUtil_type
    /\ type_of ed (toId b) = Some ElementShapeUtil_type.

Definition types_same (ed ed' : Editor) : Prop :=
  forall id, type_of ed' id = type_of ed id.

Lemma types_same_trans (ed1 ed2 ed3 : Editor) :
  types_same ed1 ed2 -> types_same ed2 ed3 -> types_same ed1 ed3.
Proof. unfold types_same. intros H1 H2 id. rewrite H2. apply H1. Qed.

Lemma types_same_createBinding (ed : Editor) (f t : ShapeId) (k : IndexKey) (ph : bool) :
  types_same ed (Editor_createBinding ed f t k ph).
Proof.
  intros id. unfold Editor_createBinding.
  destruct (binding_allowed ed f t); [|reflexivity].
  rewrite type_of_notify. reflexivity.
Qed.

Lemma types_same_updateBindings (ed : Editor) (bs : list LayoutBinding) :
  types_same ed (Editor_updateBindings ed bs).
Proof.
  intros id. unfold Editor_updateBindings.
  rewrite type_of_fold; [reflexivity|].
  intros e x. destruct (Editor_getBinding ed (binding_id x)); [|reflexivity].
  apply type_of_notify.
Qed.

Lemma types_same_deleteBindings (ed : Editor) (bs : list LayoutBinding) :
  types_same ed (Editor_deleteBindings ed bs).
Proof. intros id. apply type_of_deleteBindings. Qed.

Lemma types_same_afterShapeChange (ed : Editor) (id' : ShapeId) :
  types_same ed (Editor_afterShapeChange ed id').
Proof.
  intros id. unfold Editor_afterShapeChange.
  rewrite type_of_fold; [reflexivity|].
  intros e b.
  destruct (Nat.eqb (fromId b) id'), (Nat.eqb (toId b) id');
    rewrite ?type_of_notify; reflexivity.
Qed.

Lemma types_same_onTranslateStart (ed : Editor) (shape : Shape) :
  types_same ed (ElementShapeUtil_onTranslateStart ed shape).
Proof. apply types_same_updateBindings. Qed.

Lemma types_same_onTranslate (ed : Editor) (shape : Shape) :
  types_same ed (ElementShapeUtil_onTranslate ed shape).
Proof.
  unfold ElementShapeUtil_onTranslate. cbv zeta.
  destruct (ElementShapeUtil_getTargetContainer _ _ _) as [t|];
    [|apply types_same_deleteBindings].
  destruct (find _ _) as [ex|]; [|apply types_same_createBinding].
  destruct (key_eqb _ _); [intros id; reflexivity|].
  apply types_same_updateBindings.
Qed.

Lemma types_same_onTranslateEnd (ed : Editor) (shape : Shape) :
  types_same ed (ElementShapeUtil_onTranslateEnd ed shape).
Proof.
  unfold ElementShapeUtil_onTranslateEnd. cbv zeta.
  destruct (ElementShapeUtil_getTargetContainer _ _ _) as [t|];
    [|intros id; reflexivity].
  eapply types_same_trans; [apply types_same_deleteBindings|].
  apply types_same_createBinding.
Qed.

Lemma ends_typed_from_old (ed ed' : Editor) :
  types_same ed ed' ->
  (forall b', In b' (bindings ed') -> exists b, In b (bindings ed) /\ ends b' = ends b) ->
  ends_typed ed -> ends_typed ed'.
Proof.
  intros Hty Hsub Hold b' Hb'.
  destruct (Hsub b' Hb') as (b & Hb & E). unfold ends in E. injection E as Ef Et.
  rewrite !Hty, Ef, Et. apply Hold. exact Hb.
Qed.

Lemma ends_typed_updateBindings (ed : Editor) (bs : list LayoutBinding) :
  ids_ok ed ->
  (forall b, In b bs -> restates (bindings ed) b) ->
  ends_typed ed -> ends_typed (Editor_updateBindings ed bs).
Proof.
  intros Hids Hr. apply ends_typed_from_old; [apply types_same_updateBindings|].
  destruct (updateBindings_maps ed bs Hids Hr) as (_ & Hends & _).
  intros b' Hb'. apply (in_map ends) in Hb'. rewrite Hends in Hb'.
  apply in_map_iff in Hb'. destruct Hb' as (b & E & Hb). exists b. auto.
Qed.

Lemma ends_typed_deleteBindings (ed : Editor) (bs : list LayoutBinding) :
  ends_typed ed -> ends_typed (Editor_deleteBindings ed bs).
Proof.
  apply ends_typed_from_old; [apply types_same_deleteBindings|].
  destruct (Editor_deleteBindings_bindings ed bs) as [E _]. rewrite E.
  intros b' Hb'. apply filter_In in Hb'. exists b'. tauto.
Qed.

(** A relationship the editor agrees to create for an element leads to it
    from a container. *)
Lemma ends_typed_createBinding (ed : Editor) (f t : ShapeId) (k : IndexKey) (ph : bool) :
  type_of ed t = Some ElementShapeUtil_type ->
  ends_typed ed -> ends_typed (Editor_createBinding ed f t k ph).
Proof.
  intros Ht Hold.
  destruct (Editor_createBinding_bindings ed f t k ph) as [Hyes Hno].
  destruct (binding_allowed ed f t) eqn:Ha; [|rewrite Hno by reflexivity; exact Hold].
  destruct (Hyes eq_refl) as [E _].
  intros b Hb. rewrite !types_same_createBinding. rewrite E in Hb.
  apply in_app_or in Hb. destruct Hb as [Hb|[<-|[]]]; [apply Hold; exact Hb|].
  simpl. split; [|exact Ht].
  unfold binding_allowed in Ha. unfold type_of, feature_of in *.
  destruct (Editor_getShape ed f) as [fs|]; [|discriminate].
  destruct (Editor_getShape ed t) as [ts|]; [|discriminate].
  simpl in *. injection Ht as Ht.
  apply Editor_canBindShapes_layout in Ha; [|right; right; right; exact Ht].
  destruct Ha as [Hf _]. rewrite Hf. reflexivity.
Qed.

Lemma ends_typed_step (ed ed' : Editor) :
  drag_step ed ed' -> ids_ok ed -> ends_typed ed -> ends_typed ed'.
Proof.
  intros Hstep Hids Hty.
  destruct Hstep as [ed shape Hs He|ed shape Hs He|ed shape Hs He|ed id x y|ed ev].
  - unfold ElementShapeUtil_onTranslateStart.
    apply ends_typed_updateBindings; [exact Hids | | exact Hty].
    intros b Hb. apply in_map_iff in Hb. destruct Hb as (cur & <- & Hcur).
    apply filter_In in Hcur. exists cur. unfold ends. simpl. tauto.
  - assert (Hel : type_of ed (shape_id shape) = Some ElementShapeUtil_type)
      by (unfold type_of, feature_of; rewrite Hs; simpl; rewrite He; reflexivity).
    unfold ElementShapeUtil_onTranslate.
    destruct (ElementShapeUtil_getTargetContainer ed shape (element_anchor shape))
      as [t|]; [|apply ends_typed_deleteBindings; exact Hty].
    destruct (find _ _) as [ex|] eqn:Hfind;
      [|apply ends_typed_createBinding; assumption].
    destruct (key_eqb _ _); [exact Hty|].
    apply find_own_Some in Hfind.
    apply ends_typed_updateBindings; [exact Hids | | exact Hty].
    intros b [<-|[]]. exists ex. unfold ends. simpl. tauto.
  - assert (Hel : type_of ed (shape_id shape) = Some ElementShapeUtil_type)
      by (unfold type_of, feature_of; rewrite Hs; simpl; rewrite He; reflexivity).
    unfold ElementShapeUtil_onTranslateEnd.
    destruct (ElementShapeUtil_getTargetContainer ed shape (element_anchor shape))
      as [t|]; [|exact Hty].
    apply ends_typed_createBinding.
    + rewrite types_same_deleteBindings. exact Hel.
    + apply ends_typed_deleteBindings. exact Hty.
  - apply (ends_typed_from_old ed); [| |exact Hty].
    + apply (types_same_trans _ (Editor_updateShape ed (PartialXY id x y)));
        [intros id'; apply type_of_updateShape | apply types_same_afterShapeChange].
    + destruct (Editor_afterShapeChange_bindings
                  (Editor_updateShape ed (PartialXY id x y)) id) as [E _].
      rewrite E. intros b' Hb'. exists b'. auto.
  - apply (ends_typed_from_old ed); [| |exact Hty].
    + intros id. apply type_of_notify.
    + destruct (Editor_notify_bindings ed ev) as [E _].
      rewrite E. intros b' Hb'. exists b'. auto.
Qed.

(** In every store the drag reaches, the relationships of a container
    lead to distinct elements and never to the container itself. *)
Lemma reachable_rows_well_formed (ed0 ed : Editor) :
  ids_ok ed0 -> pair_unique ed0 -> ends_typed ed0 ->
  drag_steps ed0 ed ->
  forall c : Shape,
    NoDup (map toId (sort_by_index (Editor_getBindingsFromShape ed c)))
    /\ ~ In (shape_id c) (map toId (sort_by_index (Editor_getBindingsFromShape ed c))).
Proof.
  intros Hids Hpair Hty Hsteps c.
  assert (Hinv : ids_ok ed /\ pair_unique ed /\ ends_typed ed).
  { induction Hsteps as [|ed ed' Hsteps IH Hstep]; [tauto|].
    destruct IH as (I1 & I2 & I3).
    destruct (hands_on_step ed ed' Hstep I1) as (G1 & G2 & _).
    split; [exact G1|]. split; [auto|]. apply (ends_typed_step ed); assumption. }
  destruct Hinv as (_ & Hp & Ht).
  assert (Hperm : Permutation
                    (map toId (sort_by_index (Editor_getBindingsFromShape ed c)))
                    (map toId (Editor_getBindingsFromShape ed c)))
    by (apply Permutation_map, sort_by_index_perm).
  split.
  - eapply Permutation_NoDup; [apply Permutation_sym; exact Hperm|].
    unfold pair_unique, Editor_getBindingsFromShape in *.
    apply (NoDup_map_filter _ (fun b => Nat.eqb (fromId b) (shape_id c))) in Hp.
    apply (NoDup_map_inv (fun e => (shape_id c, e))).
    rewrite map_map. erewrite map_ext_in; [exact Hp|].
    intros b Hb. apply filter_In in Hb. destruct Hb as [_ Hb].
    apply Nat.eqb_eq in Hb. unfold ends. rewrite Hb. reflexivity.
  - intros Hin. apply (Permutation_in _ Hperm) in Hin.
    apply in_map_iff in Hin. destruct Hin as (b & Eto & Hb).
    apply filter_In in Hb. destruct Hb as [Hb Hfrom]. apply Nat.eqb_eq in Hfrom.
    destruct (Ht b Hb) as [Hf Hto]. rewrite Eto in Hto. rewrite Hfrom in Hf.
    rewrite Hf in Hto. discriminate Hto.
Qed.

End WellFormedRows.

(** ** Checking the invariants of a given store *)

Section Checks.

Context {KS : KeySpace} {FR : Frames}.

Fixpoint nodupb {X : Type} (eqb : X -> X -> bool) (xs : list X) : bool :=
  match xs with
  | [] => true
  | x :: rest => negb (existsb (eqb x) rest) && nodupb eqb rest
  end.

Lemma existsb_eqb_In {X : Type} (eqb : X -> X -> bool)
    (eqb_eq : forall a b, eqb a b = true <-> a = b) (x : X) (xs : list X) :
  existsb (eqb x) xs = true <-> In x xs.
Proof.
  rewrite existsb_exists. split.
  - intros (y & Hy & E). apply eqb_eq in E. subst. exact Hy.
  - intros H. exists x. split; [exact H | apply eqb_eq; reflexivity].
Qed.

Lemma nodupb_NoDup {X : Type} (eqb : X -> X -> bool)
    (eqb_eq : forall a b, eqb a b = true <-> a = b) (xs : list X) :
  nodupb eqb xs = true -> NoDup xs.
Proof.
  induction xs as [|x rest IH]; simpl; intros H; [constructor|].
  apply andb_true_iff in H. destruct H as [Hx Hrest].
  constructor; [|apply IH; exact Hrest].
  intros Hin. apply (existsb_eqb_In eqb eqb_eq) in Hin.
  rewrite Hin in Hx. discriminate Hx.
Qed.

Lemma not_In_by_eqb (x : nat) (xs : list nat) :
  existsb (Nat.eqb x) xs = false -> ~ In x xs.
Proof.
  intros H Hin. apply (existsb_eqb_In Nat.eqb Nat.eqb_eq) in Hin. congruence.
Qed.

Definition pair_eqb {X Y : Type} (eqx : X -> X -> bool) (eqy : Y -> Y -> bool)
    (a b : X * Y) : bool :=
  eqx (fst a) (fst b) && eqy (snd a) (snd b).

Lemma pair_eqb_eq {X Y : Type} (eqx : X -> X -> bool) (eqy : Y -> Y -> bool)
    (eqx_eq : forall a b, eqx a b = true <-> a = b)
    (eqy_eq : forall a b, eqy a b = true <-> a = b) (a b : X * Y) :
  pair_eqb eqx eqy a b = true <-> a = b.
Proof.
  destruct a as [a1 a2], b as [b1 b2]. unfold pair_eqb. simpl.
  rewrite andb_true_iff, eqx_eq, eqy_eq. split.
  - intros [-> ->]. reflexivity.
  - intros E. injection E as -> ->. auto.
Qed.

Definition ids_okb (ed : Editor) : bool :=
  nodupb Nat.eqb (map binding_id (bindings ed))
  && forallb (fun b => Nat.ltb (binding_id b) (nextBindingId ed)) (bindings ed).

Definition pair_uniqueb (ed : Editor) : bool :=
  nodupb (pair_eqb Nat.eqb Nat.eqb) (map ends (bindings ed)).

Definition one_committedb (ed : Editor) : bool :=
  nodupb Nat.eqb (map toId (filter committed (bindings ed))).

Definition keys_uniqueb (ed : Editor) : bool :=
  nodupb (pair_eqb Nat.eqb key_eqb) (map fk (bindings ed)).

Definition size_okb (ed : Editor) : bool :=
  forallb
    (fun c =>
       Nat.eqb (member_count ed (shape_id c)) 0
       || ((props_width c =? layout_width (member_count ed (shape_id c)))
           && (props_height c =? layout_height)))
    (shapes ed).

Definition has_type (ed : Editor) (id : ShapeId) (ty : string) : bool :=
  match Editor_getShape ed id with
  | Some s => String.eqb (shape_type s) ty
  | None => false
  end.

Definition ends_typedb (ed : Editor) : bool :=
  forallb
    (fun b => has_type ed (fromId b) ContainerShapeUtil_type
              && has_type ed (toId b) ElementShapeUtil_type)
    (bindings ed).

Lemma ids_okb_sound (ed : Editor) : ids_okb ed = true -> ids_ok ed.
Proof.
  unfold ids_okb, ids_ok. rewrite andb_true_iff, forallb_forall. intros [H1 H2].
  split; [apply (nodupb_NoDup Nat.eqb Nat.eqb_eq); exact H1|].
  intros b Hb. apply Nat.ltb_lt. apply H2. exact Hb.
Qed.

Lemma pair_uniqueb_sound (ed : Editor) : pair_uniqueb ed = true -> pair_unique ed.
Proof.
  apply nodupb_NoDup. apply pair_eqb_eq; apply Nat.eqb_eq.
Qed.

Lemma one_committedb_sound (ed : Editor) : one_committedb ed = true -> one_committed ed.
Proof. apply nodupb_NoDup. apply Nat.eqb_eq. Qed.

Lemma keys_uniqueb_sound (ed : Editor) : keys_uniqueb ed = true -> keys_unique ed.
Proof.
  apply nodupb_NoDup. apply pair_eqb_eq; [apply Nat.eqb_eq | apply key_eqb_eq].
Qed.

Lemma size_okb_sound (ed : Editor) : size_okb ed = true -> size_ok ed.
Proof.
  unfold size_okb. rewrite forallb_forall. intros H id c Hc Hn.
  pose proof (Editor_getShape_id ed id c Hc) as Hid.
  unfold Editor_getShape in Hc. apply find_some in Hc. destruct Hc as [Hin _].
  specialize (H c Hin). rewrite Hid in H.
  apply orb_true_iff in H. destruct H as [H|H].
  - apply Nat.eqb_eq in H. contradiction.
  - apply andb_true_iff in H. rewrite !Z.eqb_eq in H. exact H.
Qed.

Lemma has_type_sound (ed : Editor) (id : ShapeId) (ty : string) :
  has_type ed id ty = true -> type_of ed id = Some ty.
Proof.
  unfold has_type, type_of, feature_of.
  destruct (Editor_getShape ed id) as [s|]; [|discriminate].
  intros H. apply String.eqb_eq in H. simpl. rewrite H. reflexivity.
Qed.

Lemma ends_typedb_sound (ed : Editor) : ends_typedb ed = true -> ends_typed ed.
Proof.
  unfold ends_typedb. rewrite forallb_forall. intros H b Hb.
  specialize (H b Hb). apply andb_true_iff in H. destruct H as [H1 H2].
  split; apply has_type_sound; assumption.
Qed.

Lemma binding_eqb_eq (a b : LayoutBinding) : binding_eqb a b = true -> a = b.
Proof.
  unfold binding_eqb. rewrite !andb_true_iff, !Nat.eqb_eq, key_eqb_eq.
  intros ((((H1 & H2) & H3) & H4) & H5). apply Bool.eqb_prop in H5.
  destruct a, b. simpl in *. congruence.
Qed.

(** The trigger is the only relationship of the list to its element. *)
Definition only_triggerb (trigger : LayoutBinding) (bs : list LayoutBinding) : bool :=
  forallb
    (fun b => negb (Nat.eqb (toId b) (toId trigger)) || binding_eqb b trigger)
    bs.

Lemma only_triggerb_sound (trigger : LayoutBinding) (bs : list LayoutBinding) :
  only_triggerb trigger bs = true ->
  forall b, In b bs -> toId b = toId trigger -> b = trigger.
Proof.
  unfold only_triggerb. rewrite forallb_forall. intros H b Hb Hto.
  specialize (H b Hb). apply Nat.eqb_eq in Hto. rewrite Hto in H. simpl in H.
  apply binding_eqb_eq. exact H.
Qed.

End Checks.

(* ================================================================== *)
(** * Part III: a canvas to run the engine on                          *)
(* ================================================================== *)

(** ** Rational keys

    A key space with the allocator's contract: canonical rationals, the
    midpoint between two bounds, one step beyond a single bound, and
    with no bound a key below the first key the application mounts (the
    key [1], standing for ['a1']). *)

Definition Qc_ltb (a b : Qc) : bool :=
  match Qccompare a b with Lt => true | _ => false end.

Definition Qc_eqb (a b : Qc) : bool := Qeq_bool a b.

Definition Qc_getIndexBetween (below above : option Qc) : Qc :=
  match below, above with
  | None, None => Q2Qc (1 # 2)
  | Some a, None => Qcplus a (Q2Qc 1)
  | None, Some b => Qcminus b (Q2Qc 1)
  | Some a, Some b => Qcmult (Qcplus a b) (Q2Qc (1 # 2))
  end.

Lemma Qc_ltb_lt (a b : Qc) : Qc_ltb a b = true <-> Qclt a b.
Proof.
  unfold Qc_ltb. rewrite Qclt_alt. destruct (Qccompare a b); split; congruence.
Qed.

Lemma Qc_eqb_eq (a b : Qc) : Qc_eqb a b = true <-> a = b.
Proof.
  unfold Qc_eqb. rewrite Qeq_bool_iff. split.
  - apply Qc_is_canon.
  - intros ->. reflexivity.
Qed.

Lemma Qc_ltb_irrefl (a : Qc) : Qc_ltb a a = false.
Proof.
  destruct (Qc_ltb a a) eqn:E; [|reflexivity].
  apply Qc_ltb_lt in E. exfalso. exact (Qclt_not_eq _ _ E eq_refl).
Qed.

Lemma Qc_ltb_trans (a b c : Qc) :
  Qc_ltb a b = true -> Qc_ltb b c = true -> Qc_ltb a c = true.
Proof. rewrite !Qc_ltb_lt. apply Qclt_trans. Qed.

Lemma Qc_ltb_total (a b : Qc) : Qc_ltb a b = true \/ a = b \/ Qc_ltb b a = true.
Proof.
  rewrite !Qc_ltb_lt. destruct (Qc_dec a b) as [[H|H]|H]; auto.
Qed.

Lemma Qc_between_above (a : Qc) (ob : option Qc) :
  match ob with Some b => Qc_ltb a b = true | None => True end ->
  Qc_ltb a (Qc_getIndexBetween (Some a) ob) = true.
Proof.
  destruct ob as [b|]; intros H; apply Qc_ltb_lt; try apply Qc_ltb_lt in H;
    unfold Qc_getIndexBetween, Qcmult, Qcplus, Qclt, Q2Qc in *; cbn [this] in *;
    rewrite ?Qred_correct; lra.
Qed.

Lemma Qc_between_below (oa : option Qc) (b : Qc) :
  match oa with Some a => Qc_ltb a b = true | None => True end ->
  Qc_ltb (Qc_getIndexBetween oa (Some b)) b = true.
Proof.
  destruct oa as [a|]; intros H; apply Qc_ltb_lt; try apply Qc_ltb_lt in H;
    unfold Qc_getIndexBetween, Qcmult, Qcminus, Qcopp, Qcplus, Qclt, Q2Qc in *;
    cbn [this] in *; rewrite ?Qred_correct; lra.
Qed.

#[export] Instance Qc_keys : KeySpace := {|
  IndexKey := Qc;
  key_ltb := Qc_ltb;
  key_eqb := Qc_eqb;
  getIndexBetween := Qc_getIndexBetween;
  key_eqb_eq := Qc_eqb_eq;
  key_ltb_irrefl := Qc_ltb_irrefl;
  key_ltb_trans := Qc_ltb_trans;
  key_ltb_total := Qc_ltb_total;
  getIndexBetween_above_lower := Qc_between_above;
  getIndexBetween_below_upper := Qc_between_below
|}.

(** ** Shapes laid on the page

    Every shape is a child of the page and unrotated: its page transform
    is the translation by its position, and its parent space is the page
    itself. *)

Definition page_transform (s : Shape) (p : Vec) : Vec :=
  mkVec (shape_x s + vx p) (shape_y s + vy p).

Definition page_parent_space (s : Shape) (p : Vec) : Vec := p.

#[export] Instance page_frames : Frames := {|
  getShapePageTransform := page_transform;
  getPointInParentSpace := page_parent_space;
  getShapePageTransform_size := fun s w h p => eq_refl;
  getPointInParentSpace_xy := fun s x y p => eq_refl
|}.

Definition inside_rectangle (s : Shape) (p : Vec) : bool :=
  (shape_x s <=? vx p) && (vx p <=? shape_x s + props_width s)
  && (shape_y s <=? vy p) && (vy p <=? shape_y s + props_height s).

(** The first shape of a list that passes the filter and contains the
    point. *)
Fixpoint page_hit (ed : @Editor Qc_keys) (p : Vec) (f : Shape -> bool)
    (l : list Shape) : option Shape :=
  match l with
  | [] => None
  | s :: rest =>
      match Editor_getShape ed (shape_id s) with
      | Some s' => if f s' && inside_rectangle s' p then Some s' else page_hit ed p f rest
      | None => page_hit ed p f rest
      end
  end.

(** The store lists its shapes back to front, a new shape going on top
    of the others; the hit is the top-most one, the last of the store. *)
Definition page_getShapeAtPoint (ed : @Editor Qc_keys) (p : Vec) (f : Shape -> bool)
  : option Shape :=
  page_hit ed p f (rev (shapes ed)).

Lemma page_hit_spec (ed : @Editor Qc_keys) (p : Vec) (f : Shape -> bool)
    (l : list Shape) (s : Shape) :
  page_hit ed p f l = Some s ->
  Editor_getShape ed (shape_id s) = Some s
  /\ f s = true /\ inside_rectangle s p = true.
Proof.
  induction l as [|x l IH]; simpl; [discriminate|].
  destruct (Editor_getShape ed (shape_id x)) as [s'|] eqn:E; [|exact IH].
  destruct (f s' && inside_rectangle s' p) eqn:Ef; [|exact IH].
  intros H. injection H as <-. apply andb_true_iff in Ef.
  split; [|exact Ef].
  rewrite (Editor_getShape_id ed _ _ E). exact E.
Qed.

Lemma page_hit_inside (ed : @Editor Qc_keys) (p : Vec) (f : Shape -> bool) (s : Shape) :
  page_getShapeAtPoint ed p f = Some s ->
  shape_x s <= vx p <= shape_x s + props_width s
  /\ shape_y s <= vy p <= shape_y s + props_height s.
Proof.
  intros H. apply page_hit_spec in H. destruct H as (_ & _ & H).
  unfold inside_rectangle in H. rewrite !andb_true_iff, !Z.leb_le in H. lia.
Qed.

#[export] Instance page_hits : @HitTesting Qc_keys := {|
  getShapeAtPoint := page_getShapeAtPoint;
  getShapeAtPoint_stored := fun ed p f s H => proj1 (page_hit_spec ed p f _ s H);
  getShapeAtPoint_filter := fun ed p f s H => proj1 (proj2 (page_hit_spec ed p f _ s H));
  getShapeAtPoint_inside := page_hit_inside
|}.

(** ** Stores *)

Definition key (n : Z) : Qc := Q2Qc (inject_Z n).

Definition container_at (id : ShapeId) (x y width height : Z) : Shape :=
  mkShape id "container" x y width height.

Definition element_at (id : ShapeId) (x y : Z) : Shape :=
  mkShape id "element" x y 100 100.

(** The store the application mounts: a container at (200, 200), five
    elements in a row, and a committed relationship created for each in
    turn. *)
Definition mount_shapes : @Editor Qc_keys :=
  mkEditor
    (container_at 0%nat 200 200 668 148
     :: map (fun i => element_at (S i) (224 + Z.of_nat i * 124) 224) (seq 0 5))
    []
    0%nat.

Definition mounted : @Editor Qc_keys :=
  fold_left
    (fun ed i => Editor_createBinding ed 0%nat (S i) (key (Z.of_nat i + 1)) false)
    (seq 0 5)
    mount_shapes.

(** The two relationships of a two-member row. *)
Definition member_1 : @LayoutBinding Qc_keys := mkBinding 0%nat 0%nat 1%nat (key 1) false.

Definition member_2 : @LayoutBinding Qc_keys := mkBinding 1%nat 0%nat 2%nat (key 2) false.

(** A container with two committed members in their slots. *)
Definition row2 : @Editor Qc_keys :=
  mkEditor
    [container_at 0%nat 200 200 272 148; element_at 1%nat 224 224; element_at 2%nat 348 224]
    [member_1; member_2]
    2%nat.

(** The same two members out of place in a container of the wrong size. *)
Definition scattered : @Editor Qc_keys :=
  mkEditor
    [container_at 0%nat 200 200 500 90; element_at 1%nat 0 0; element_at 2%nat 10 10]
    [member_1; member_2]
    2%nat.

(** A container with one committed member. *)
Definition row1 : @Editor Qc_keys :=
  mkEditor
    [container_at 0%nat 200 200 148 148; element_at 1%nat 224 224]
    [member_1]
    1%nat.

(** Two containers, the first with one committed member. *)
Definition two_containers : @Editor Qc_keys :=
  mkEditor
    [container_at 0%nat 200 200 148 148; container_at 1%nat 200 400 148 148;
     element_at 2%nat 224 224]
    [mkBinding 0%nat 0%nat 2%nat (key 1) false]
    1%nat.

(** The store after [e] of [two_containers] has been picked up, carried
    over the second container and reported there by a drag move. *)
Definition carried_element : Shape := element_at 2%nat 224 424.

Definition picked_up : @Editor Qc_keys :=
  ElementShapeUtil_onTranslateStart two_containers (element_at 2%nat 224 224).

Definition carried : @Editor Qc_keys :=
  Editor_afterShapeChange (Editor_updateShape picked_up (PartialXY 2%nat 224 424)) 2%nat.

Definition hovering : @Editor Qc_keys :=
  ElementShapeUtil_onTranslate carried carried_element.

Definition dropped : @Editor Qc_keys :=
  ElementShapeUtil_onTranslateEnd hovering carried_element.

(** The store after the member of [row1] has been picked up and carried
    far from every container, and after the drag move there. *)
Definition far_element : Shape := element_at 1%nat 1000 1000.

Definition lifted : @Editor Qc_keys :=
  ElementShapeUtil_onTranslateStart row1 (element_at 1%nat 224 224).

Definition far_away : @Editor Qc_keys :=
  Editor_afterShapeChange (Editor_updateShape lifted (PartialXY 1%nat 1000 1000)) 1%nat.

Definition detached : @Editor Qc_keys :=
  ElementShapeUtil_onTranslate far_away far_element.

(** ** The theorems at work *)

Ltac by_check sound := apply sound; vm_compute; reflexivity.

Ltac distinct_ids := apply (nodupb_NoDup Nat.eqb Nat.eqb_eq); vm_compute; reflexivity.

Ltac distinct_keys := apply (nodupb_NoDup key_eqb key_eqb_eq); vm_compute; reflexivity.

Ltac absent_id := apply not_In_by_eqb; vm_compute; reflexivity.

Lemma ids_ok_row1 : ids_ok row1.
Proof. by_check ids_okb_sound. Defined.

Lemma ids_ok_two_containers : ids_ok two_containers.
Proof. by_check ids_okb_sound. Defined.

Lemma ids_ok_hovering : ids_ok hovering.
Proof. by_check ids_okb_sound. Defined.



Lemma size_ok_row1 : size_ok row1.
Proof. by_check size_okb_sound. Defined.

Lemma size_ok_two_containers : size_ok two_containers.
Proof. by_check size_okb_sound. Defined.

Lemma drag_steps_hovering : drag_steps two_containers hovering.
Proof.
  apply steps_more with (ed := carried).
  - apply steps_more with (ed := picked_up).
    + apply steps_more with (ed := two_containers); [apply steps_none|].
      apply step_translate_start; reflexivity.
    + apply step_shape_moved.
  - apply step_translate; vm_compute; reflexivity.
Defined.

Lemma drag_steps_detached : drag_steps row1 detached.
Proof.
  apply steps_more with (ed := far_away).
  - apply steps_more with (ed := lifted).
    + apply steps_more with (ed := row1); [apply steps_none|].
      apply step_translate_start; reflexivity.
    + apply step_shape_moved.
  - apply step_translate; vm_compute; reflexivity.
Defined.

Lemma canBind_only_container_to_element_witness :
  ContainerShapeUtil_canBind (mkCanBindOpts "container" "element" "layout") = true
  /\ Editor_canBindShapes (container_at 0%nat 0 0 148 148) (container_at 1%nat 0 0 148 148)
       "layout" = false.
Proof.
  destruct canBind_only_container_to_element as [Hp Hs]. split.
  - apply (Hp (mkCanBindOpts "container" "element" "layout")). repeat split.
  - destruct (Editor_canBindShapes (container_at 0%nat 0 0 148 148)
                (container_at 1%nat 0 0 148 148) "layout") eqn:E; [|reflexivity].
    apply Hs in E; [|left; reflexivity].
    destruct E as [_ E]. discriminate E.
Defined.

Lemma reflow_geometry_witness :
  let c := container_at 0%nat 200 200 500 90 in
  let members := Editor_getBindingsFromShape scattered c in
  let ed' := updateElementsForContainer scattered member_1 in
  Editor_getShape scattered (fromId member_1) = Some c
  /\ (1 <= List.length members)%nat
  /\ NoDup (map props_index members)
  /\ NoDup (map toId members)
  /\ ~ In (shape_id c) (map toId members)
  /\ exists c' s',
      Editor_getShape ed' 0%nat = Some c'
      /\ props_width c' = 272 /\ props_height c' = 148
      /\ Editor_getShape ed' 2%nat = Some s'
      /\ mkVec (shape_x s') (shape_y s') = mkVec (200 + 148) (200 + 24).
Proof.
  intros c members ed'.
  assert (H1 : Editor_getShape scattered (fromId member_1) = Some c) by reflexivity.
  assert (H2 : (1 <= List.length members)%nat)
    by (apply Nat.leb_le; vm_compute; reflexivity).
  assert (H3 : NoDup (map props_index members)) by distinct_keys.
  assert (H4 : NoDup (map toId members)) by distinct_ids.
  assert (H5 : ~ In (shape_id c) (map toId members)) by absent_id.
  split; [exact H1|]. split; [exact H2|]. split; [exact H3|]. split; [exact H4|].
  split; [exact H5|].
  destruct (reflow_geometry scattered member_1 c H1 H2 H3 H4 H5)
    as (c' & row & Hc & Hw & Hh & Hperm & Hsorted & Hpos).
  pose proof (key_order_unique row members Hperm Hsorted) as Erow.
  destruct (Hpos 1%nat member_2 (element_at 2%nat 10 10)) as (s' & Hs & Hxy).
  - rewrite Erow. reflexivity.
  - intros [E _]. discriminate E.
  - reflexivity.
  - exists c', s'. fold ed' in Hc, Hs.
    split; [exact Hc|]. split; [exact Hw|]. split; [exact Hh|].
    split; [exact Hs|]. rewrite Hxy.
    assert (Hed' : Editor_getShape ed' 0%nat = Some (container_at 0%nat 200 200 272 148))
      by (vm_compute; reflexivity).
    assert (E : Some c' = Some (container_at 0%nat 200 200 272 148))
      by (rewrite <- Hc; exact Hed').
    injection E as ->. reflexivity.
Defined.

(** An element that is no member yet, hovering over the second slot of
    [row2]. *)
Definition newcomer : Shape := element_at 3%nat 298 250.

Lemma slot_and_key_of_dragged_element_witness :
  let c := container_at 0%nat 200 200 272 148 in
  let index :=
    ElementShapeUtil_getBindingIndexForPosition row2 newcomer c (element_anchor newcomer) in
  NoDup (map props_index (Editor_getBindingsFromShape row2 c))
  /\ key_lt (key 1) index /\ key_lt index (key 2).
Proof.
  intros c index.
  assert (H1 : NoDup (map props_index (Editor_getBindingsFromShape row2 c)))
    by distinct_keys.
  split; [exact H1|].
  destruct (slot_and_key_of_dragged_element row2 newcomer c (element_anchor newcomer) H1)
    as (_ & _ & _ & _ & _ & _ & H).
  destruct H as (_ & Hlo & Hhi & _); [reflexivity | reflexivity |].
  split; [apply (Hlo member_1) | apply (Hhi member_2)]; reflexivity.
Defined.

(** A drag in progress on the first member of a two-member row: its
    relationship carries the placeholder flag, the element is away. *)
Definition dragging_member : @LayoutBinding Qc_keys :=
  mkBinding 0%nat 0%nat 1%nat (key 1) true.

Definition dragging : @Editor Qc_keys :=
  mkEditor
    [container_at 0%nat 200 200 272 148; element_at 1%nat 500 500; element_at 2%nat 10 10]
    [dragging_member; member_2]
    2%nat.

Lemma reflow_skips_exactly_placeholder_trigger_witness :
  let c := container_at 0%nat 200 200 272 148 in
  let members := Editor_getBindingsFromShape dragging c in
  let ed' := updateElementsForContainer dragging dragging_member in
  Editor_getShape dragging (fromId dragging_member) = Some c
  /\ NoDup (map props_index members)
  /\ NoDup (map toId members)
  /\ ~ In (shape_id c) (map toId members)
  /\ (forall b, In b members -> toId b = toId dragging_member -> b = dragging_member)
  /\ Editor_getShape ed' 1%nat = Some (element_at 1%nat 500 500)
  /\ Editor_getShape ed' 2%nat = Some (element_at 2%nat 348 224).
Proof.
  intros c members ed'.
  assert (H1 : Editor_getShape dragging (fromId dragging_member) = Some c) by reflexivity.
  assert (H2 : NoDup (map props_index members)) by distinct_keys.
  assert (H3 : NoDup (map toId members)) by distinct_ids.
  assert (H4 : ~ In (shape_id c) (map toId members)) by absent_id.
  assert (H5 : forall b, In b members -> toId b = toId dragging_member ->
                 b = dragging_member)
    by (apply only_triggerb_sound; vm_compute; reflexivity).
  split; [exact H1|]. split; [exact H2|]. split; [exact H3|]. split; [exact H4|].
  split; [exact H5|].
  destruct (reflow_skips_exactly_placeholder_trigger dragging dragging_member c
              H1 H2 H3 H4 H5) as (row & Hperm & Hsorted & H).
  pose proof (key_order_unique row members Hperm Hsorted) as Erow.
  split.
  - destruct (H 0%nat dragging_member (element_at 1%nat 500 500))
      as (_ & Hskip & _); [rewrite Erow; reflexivity | reflexivity |].
    apply Hskip; [split; reflexivity | split; reflexivity].
  - destruct (H 1%nat member_2 (element_at 2%nat 10 10))
      as (_ & _ & Hplace); [rewrite Erow; reflexivity | reflexivity |].
    etransitivity; [apply Hplace; intros [E _]; discriminate E | reflexivity].
Defined.

Lemma reflow_idempotent_witness :
  let ed1 := updateElementsForContainer scattered member_1 in
  (forall c, Editor_getShape scattered (fromId member_1) = Some c ->
     NoDup (map toId (Editor_getBindingsFromShape scattered c))
     /\ ~ In (shape_id c) (map toId (Editor_getBindingsFromShape scattered c)))
  /\ List.length (updateElementsForContainer_writes scattered member_1) = 3%nat
  /\ updateElementsForContainer_writes ed1 member_1 = []
  /\ updateElementsForContainer ed1 member_1 = ed1.
Proof.
  intros ed1.
  assert (H1 : forall c, Editor_getShape scattered (fromId member_1) = Some c ->
            NoDup (map toId (Editor_getBindingsFromShape scattered c))
            /\ ~ In (shape_id c) (map toId (Editor_getBindingsFromShape scattered c))).
  { intros c Hc. injection Hc as <-. split; [distinct_ids | absent_id]. }
  split; [exact H1|].
  split; [vm_compute; reflexivity|].
  destruct (reflow_idempotent scattered member_1 H1) as (_ & Hsame & Hnone).
  split; [exact Hnone | exact Hsame].
Defined.



Lemma drag_keeps_container_sizes_witness :
  let c := container_at 1%nat 200 400 148 148 in
  ids_ok two_containers /\ size_ok two_containers
  /\ drag_steps two_containers hovering
  /\ Editor_getShape hovering (shape_id c) = Some c
  /\ (1 <= List.length (Editor_getBindingsFromShape hovering c))%nat
  /\ props_width c = 24 + 1 * 100 + (1 - 1) * 24 + 24
  /\ props_height c = 24 + 100 + 24.
Proof.
  intros c.
  assert (H4 : Editor_getShape hovering (shape_id c) = Some c) by (vm_compute; reflexivity).
  assert (H5 : (1 <= List.length (Editor_getBindingsFromShape hovering c))%nat)
    by (apply Nat.leb_le; vm_compute; reflexivity).
  split; [exact ids_ok_two_containers|]. split; [exact size_ok_two_containers|].
  split; [exact drag_steps_hovering|]. split; [exact H4|]. split; [exact H5|].
  destruct (drag_keeps_container_sizes two_containers hovering
              ids_ok_two_containers size_ok_two_containers drag_steps_hovering)
    as [Hsize _].
  exact (Hsize c H4 H5).
Defined.

(** The container of [row1] moved by (100, 100): told of the change, its
    relationship carries the member along. *)
Definition container_moved : @Editor Qc_keys :=
  Editor_updateShape row1 (PartialXY 0%nat 300 300).

Lemma hooks_reflow_binding_and_container_changes_witness :
  (forall b, In b (bindings container_moved) -> toId b <> 0%nat)
  /\ (forall b, In b (bindings container_moved) -> fromId b <> 1%nat)
  /\ Editor_getShape (Editor_afterShapeChange container_moved 0%nat) 1%nat
     = Some (element_at 1%nat 324 324)
  /\ Editor_afterShapeChange container_moved 1%nat = container_moved.
Proof.
  assert (H1 : forall b, In b (bindings container_moved) -> toId b <> 0%nat)
    by (intros b [<-|[]]; discriminate).
  assert (H2 : forall b, In b (bindings container_moved) -> fromId b <> 1%nat)
    by (intros b [<-|[]]; discriminate).
  split; [exact H1|]. split; [exact H2|].
  destruct (hooks_reflow_binding_and_container_changes container_moved member_1 member_1)
    as (_ & _ & _ & _ & _ & _ & Hc & He).
  split.
  - rewrite (Hc 0%nat H1). vm_compute. reflexivity.
  - exact (He 1%nat H2).
Defined.

(** ** The mounted store and a reordering drag *)

Definition positions (ed : @Editor Qc_keys) : list (ShapeId * Z * Z) :=
  map (fun s => (shape_id s, shape_x s, shape_y s)) (shapes ed).

(** Mounting leaves the five elements in their slots and the container
    644 wide. *)
Lemma mounted_row :
  positions mounted
  = [(0%nat, 200, 200); (1%nat, 224, 224); (2%nat, 348, 224); (3%nat, 472, 224);
     (4%nat, 596, 224); (5%nat, 720, 224)]
  /\ option_map props_width (Editor_getShape mounted 0%nat) = Some 644
  /\ map (fun b => (fromId b, toId b, props_placeholder b)) (bindings mounted)
     = map (fun i => (0%nat, S i, false)) (seq 0 5).
Proof. repeat split; vm_compute; reflexivity. Qed.

(** The mounted store has every invariant the drag theorems start from. *)
Lemma mounted_well_formed :
  ids_ok mounted /\ pair_unique mounted /\ one_committed mounted
  /\ keys_unique mounted /\ size_ok mounted /\ ends_typed mounted.
Proof.
  split; [by_check ids_okb_sound|].
  split; [by_check pair_uniqueb_sound|].
  split; [by_check one_committedb_sound|].
  split; [by_check keys_uniqueb_sound|].
  split; [by_check size_okb_sound|].
  by_check ends_typedb_sound.
Defined.

(** The last element of the mounted row picked up, carried over the first
    slot, reported there and dropped. *)
Definition last_lifted : @Editor Qc_keys :=
  ElementShapeUtil_onTranslateStart mounted (element_at 5%nat 720 224).

Definition last_carried : @Editor Qc_keys :=
  Editor_afterShapeChange (Editor_updateShape last_lifted (PartialXY 5%nat 180 224)) 5%nat.

Definition last_hovering : @Editor Qc_keys :=
  ElementShapeUtil_onTranslate last_carried (element_at 5%nat 180 224).

Definition last_dropped : @Editor Qc_keys :=
  ElementShapeUtil_onTranslateEnd last_hovering (element_at 5%nat 180 224).

(** While it hovers over the first slot the element has a key below every
    other and the others have made room; dropped, it sits in the first
    slot under a fresh committed relationship. *)
Lemma reorder_to_front :
  positions last_hovering
  = [(0%nat, 200, 200); (1%nat, 348, 224); (2%nat, 472, 224); (3%nat, 596, 224);
     (4%nat, 720, 224); (5%nat, 180, 224)]
  /\ map (fun b => (binding_id b, toId b, props_placeholder b)) (bindings last_hovering)
     = [(0%nat, 1%nat, false); (1%nat, 2%nat, false); (2%nat, 3%nat, false);
        (3%nat, 4%nat, false); (4%nat, 5%nat, true)]
  /\ map toId (sort_by_index (bindings last_hovering)) = [5%nat; 1%nat; 2%nat; 3%nat; 4%nat]
  /\ positions last_dropped
     = [(0%nat, 200, 200); (1%nat, 348, 224); (2%nat, 472, 224); (3%nat, 596, 224);
        (4%nat, 720, 224); (5%nat, 224, 224)]
  /\ map (fun b => (binding_id b, toId b, props_placeholder b)) (bindings last_dropped)
     = [(0%nat, 1%nat, false); (1%nat, 2%nat, false); (2%nat, 3%nat, false);
        (3%nat, 4%nat, false); (5%nat, 5%nat, false)].
Proof. repeat split; vm_compute; reflexivity. Qed.

Lemma drag_steps_last_dropped : drag_steps mounted last_dropped.
Proof.
  apply steps_more with (ed := last_hovering).
  - apply steps_more with (ed := last_carried).
    + apply steps_more with (ed := last_lifted).
      * apply steps_more with (ed := mounted); [apply steps_none|].
        apply step_translate_start; vm_compute; reflexivity.
      * apply step_shape_moved.
    + apply step_translate; vm_compute; reflexivity.
  - apply step_translate_end; vm_compute; reflexivity.
Defined.

Lemma drag_keeps_keys_strictly_ordered_witness :
  let c := container_at 0%nat 200 200 644 148 in
  ids_ok mounted /\ pair_unique mounted /\ size_ok mounted /\ keys_unique mounted
  /\ drag_steps mounted last_dropped
  /\ StronglySorted index_lt (sort_by_index (Editor_getBindingsFromShape last_dropped c))
  /\ NoDup (map props_index (Editor_getBindingsFromShape last_dropped c)).
Proof.
  intros c.
  destruct mounted_well_formed as (H1 & H2 & _ & H4 & H3 & _).
  split; [exact H1|]. split; [exact H2|]. split; [exact H3|]. split; [exact H4|].
  split; [exact drag_steps_last_dropped|].
  apply (drag_keeps_keys_strictly_ordered mounted last_dropped
           H1 H2 H3 H4 drag_steps_last_dropped).
Defined.

(** ** Where the store departs from what one might expect *)

(** Against C10 as stated: the editor lets a layout relationship lead
    from an arrow to a geo shape, neither of them a container or an
    element; the two predicates of this file are not asked. *)
Lemma layout_binding_from_arrow_to_geo :
  let arrow := mkShape 7%nat "arrow" 0 0 0 0 in
  let geo := mkShape 8%nat "geo" 0 0 100 100 in
  let ed : @Editor Qc_keys := mkEditor [arrow; geo] [] 0%nat in
  Editor_canBindShapes arrow geo "layout" = true
  /\ binding_allowed ed 7%nat 8%nat = true
  /\ ~ (forall fromShape toShape : Shape,
          Editor_canBindShapes fromShape toShape "layout" = true ->
          shape_type fromShape = "container"%string
          /\ shape_type toShape = "element"%string).
Proof.
  intros arrow geo ed.
  assert (H : Editor_canBindShapes arrow geo "layout" = true) by reflexivity.
  split; [exact H|]. split; [reflexivity|].
  intros Hall. destruct (Hall arrow geo H) as [E _]. discriminate E.
Qed.


(** Against C6 as stated: when the last member is dragged out, the
    container keeps width 148, which is not the formula's value for no
    member. *)
Lemma last_member_removed_leaves_size :
  let c := container_at 0%nat 200 200 148 148 in
  ids_ok row1 /\ size_ok row1
  /\ drag_steps row1 detached
  /\ Editor_getShape detached 0%nat = Some c
  /\ Editor_getBindingsFromShape detached c = []
  /\ props_width c <>
     24 + Z.of_nat (List.length (Editor_getBindingsFromShape detached c)) * 100
     + (Z.of_nat (List.length (Editor_getBindingsFromShape detached c)) - 1) * 24 + 24.
Proof.
  intros c.
  assert (H : Editor_getBindingsFromShape detached c = []) by (vm_compute; reflexivity).
  split; [exact ids_ok_row1|]. split; [exact size_ok_row1|].
  split; [exact drag_steps_detached|].
  split; [vm_compute; reflexivity|]. split; [exact H|].
  rewrite H. simpl. discriminate.
Qed.

(** Against C9 as stated: the bound element moving away triggers no
    reflow, where a reflow would have put it back in its slot. *)
Lemma moving_the_bound_element_triggers_no_reflow :
  let moved := Editor_updateShape row1 (PartialXY 1%nat 500 500) in
  In member_1 (bindings moved)
  /\ Editor_afterShapeChange moved (toId member_1) = moved
  /\ Editor_getShape (Editor_afterShapeChange moved (toId member_1)) 1%nat
     = Some (element_at 1%nat 500 500)
  /\ Editor_getShape (updateElementsForContainer moved member_1) 1%nat
     = Some (element_at 1%nat 224 224)
  /\ Editor_notify moved (AfterChangeToShape member_1)
     <> updateElementsForContainer moved member_1.
Proof.
  intros moved.
  assert (H : Editor_getShape (updateElementsForContainer moved member_1) 1%nat
              = Some (element_at 1%nat 224 224)) by (vm_compute; reflexivity).
  split; [left; reflexivity|].
  split; [vm_compute; reflexivity|]. split; [vm_compute; reflexivity|].
  split; [exact H|].
  intros E. rewrite <- E in H. discriminate H.
Qed.

(* ================================================================== *)
(** * Part IV: further properties of the code                          *)
(* ================================================================== *)

(** ** What a reflow reaches *)

Section ReflowReach.

Context {KS : KeySpace} {FR : Frames}.

(** A shape other than the container keeps its record through the
    method's statements when every relationship of the container that
    leads to it is passed over, and whoever is told of the resize leaves
    it alone. *)
Lemma body_untouched told (ed : Editor) (trigger : LayoutBinding) (id : ShapeId) :
  (forall e, bindings e = bindings ed ->
     Editor_getShape (told e (fromId trigger)) id = Editor_getShape e id) ->
  id <> fromId trigger ->
  (forall b, In b (bindings ed) -> fromId b = fromId trigger -> toId b = id ->
     reflow_skips (toId trigger) (props_placeholder trigger) b = true) ->
  Editor_getShape (fst (updateElementsForContainer_body told ed trigger)) id
  = Editor_getShape ed id.
Proof.
  intros Htold Hid Hskip.
  unfold updateElementsForContainer_body.
  destruct (Editor_getShape ed (fromId trigger)) as [c|] eqn:Hc; [|reflexivity].
  cbv zeta.
  destruct (Nat.eqb (List.length (sort_by_index (Editor_getBindingsFromShape ed c))) 0);
    [reflexivity|].
  pose proof (Editor_getShape_id ed _ _ Hc) as Hcid.
  assert (Hloop :
    Editor_getShape
      (fst (reflow_loop (toId trigger) (props_placeholder trigger) c 0
              (sort_by_index (Editor_getBindingsFromShape ed c)) (ed, []))) id
    = Editor_getShape ed id).
  { rewrite reflow_loop_untouched; [reflexivity|].
    intros b Hb Hto. apply (proj1 (sort_by_index_In _ _)) in Hb.
    unfold Editor_getBindingsFromShape in Hb. apply filter_In in Hb.
    destruct Hb as [Hb Hfrom]. apply Nat.eqb_eq in Hfrom.
    apply Hskip; [exact Hb | congruence | exact Hto]. }
  destruct (negb _ || negb _); [|exact Hloop].
  unfold run_updateShape. cbn [fst snd].
  rewrite Hcid, Htold, Editor_getShape_updateShape, Hloop;
    [|cbn [Editor_updateShape bindings];
      apply (reflow_loop_bindings _ _ _ _ 0%nat (ed, []))].
  destruct (Editor_getShape ed id) as [s|] eqn:Hs; [|reflexivity].
  simpl. rewrite (Editor_getShape_id ed _ _ Hs).
  destruct (Nat.eqb_spec id (fromId trigger)) as [E|NE]; [congruence|reflexivity].
Qed.

Lemma reentered_untouched (ed : Editor) (trigger : LayoutBinding) (id : ShapeId) :
  id <> fromId trigger ->
  (forall b, In b (bindings ed) -> fromId b = fromId trigger -> toId b = id ->
     reflow_skips (toId trigger) (props_placeholder trigger) b = true) ->
  Editor_getShape (updateElementsForContainer_reentered ed trigger) id
  = Editor_getShape ed id.
Proof. apply body_untouched. reflexivity. Qed.

(** A shape that is neither the container nor a member of its row keeps
    its record through a reflow. *)
Lemma reflow_untouched (ed : Editor) (trigger : LayoutBinding) (id : ShapeId) :
  id <> fromId trigger ->
  (forall b, In b (bindings ed) -> fromId b = fromId trigger -> toId b <> id) ->
  Editor_getShape (updateElementsForContainer ed trigger) id = Editor_getShape ed id.
Proof.
  intros Hid Hout. apply body_untouched; [|exact Hid|].
  - intros e Hbe.
    apply (tell_invariant
             (fun e' => bindings e' = bindings ed
                        /\ Editor_getShape e' id = Editor_getShape e id));
      [|split; [exact Hbe | reflexivity]].
    intros e0 b Hb Hfrom [Hbs He]. split.
    + rewrite <- Hbs. apply reentered_bindings.
    + rewrite reentered_untouched; [exact He | rewrite Hfrom; exact Hid |].
      intros b' Hb' Hf' Ht'. exfalso. rewrite Hbs in Hb'.
      apply (Hout b' Hb'); [rewrite Hf'; exact Hfrom | exact Ht'].
  - intros b Hb Hf Ht. exfalso. exact (Hout b Hb Hf Ht).
Qed.

Section ShapeList.

Variable A : Type.
Variable field : Shape -> A.
Hypothesis field_kept : forall p s, field (apply_partial p s) = field s.

Lemma field_list_updateShape (ed : Editor) (p : ShapePartial) :
  map field (shapes (Editor_updateShape ed p)) = map field (shapes ed).
Proof.
  unfold Editor_updateShape. simpl. rewrite map_map.
  apply map_ext. intros s. apply field_kept.
Qed.

Lemma field_list_reflow_member T ph c i b (r : Run) :
  map field (shapes (fst (reflow_member T ph c i b r))) = map field (shapes (fst r)).
Proof.
  unfold reflow_member.
  destruct (reflow_skips T ph b); [reflexivity|].
  destruct (Editor_getShape (fst r) (toId b)) as [s|]; [|reflexivity].
  cbv zeta. destruct (negb _ || negb _); [|reflexivity].
  rewrite run_updateShape_fst. apply field_list_updateShape.
Qed.

Lemma field_list_reflow_loop T ph c (bs : list LayoutBinding) : forall i (r : Run),
  map field (shapes (fst (reflow_loop T ph c i bs r))) = map field (shapes (fst r)).
Proof.
  induction bs as [|b bs IH]; intros i r; simpl; [reflexivity|].
  rewrite IH. apply field_list_reflow_member.
Qed.

Lemma field_list_body told (ed : Editor) (trigger : LayoutBinding) :
  (forall e i, map field (shapes (told e i)) = map field (shapes e)) ->
  map field (shapes (fst (updateElementsForContainer_body told ed trigger)))
  = map field (shapes ed).
Proof.
  intros Htold. unfold updateElementsForContainer_body.
  destruct (Editor_getShape ed (fromId trigger)) as [c|]; [|reflexivity].
  cbv zeta. destruct (Nat.eqb _ 0); [reflexivity|].
  destruct (negb _ || negb _).
  - unfold run_updateShape. cbn [fst snd].
    rewrite Htold, field_list_updateShape. apply field_list_reflow_loop.
  - apply field_list_reflow_loop.
Qed.

Lemma field_list_reflow (ed : Editor) (trigger : LayoutBinding) :
  map field (shapes (updateElementsForContainer ed trigger)) = map field (shapes ed).
Proof.
  apply field_list_body. intros e i.
  apply (tell_invariant (fun e' => map field (shapes e') = map field (shapes e)));
    [|reflexivity].
  intros e0 b _ _ H. rewrite <- H. apply field_list_body. reflexivity.
Qed.

End ShapeList.

Lemma apply_partial_type (p : ShapePartial) (s : Shape) :
  shape_type (apply_partial p s) = shape_type s.
Proof.
  destruct p; simpl; destruct (Nat.eqb (shape_id s) id); reflexivity.
Qed.

(** X1. What [updateElementsForContainer] reaches.  It never touches the
    binding store or the supply of binding ids; it creates and deletes no
    shape and changes no shape's type; it changes no size but the
    container's; a shape that is neither the container nor the far end of
    one of its relationships keeps its whole record; and every write it
    makes is either a position for a member it did not pass over or the
    size of the container. *)
Theorem reflow_touches_only_its_row (ed : Editor) (trigger : LayoutBinding) :
  let ed' := updateElementsForContainer ed trigger in
  bindings ed' = bindings ed
  /\ nextBindingId ed' = nextBindingId ed
  /\ map shape_id (shapes ed') = map shape_id (shapes ed)
  /\ map shape_type (shapes ed') = map shape_type (shapes ed)
  /\ (forall id s', id <> fromId trigger ->
        Editor_getShape ed' id = Some s' ->
        exists s, Editor_getShape ed id = Some s
          /\ props_width s' = props_width s /\ props_height s' = props_height s)
  /\ (forall id, id <> fromId trigger ->
        (forall b, In b (bindings ed) -> fromId b = fromId trigger -> toId b <> id) ->
        Editor_getShape ed' id = Editor_getShape ed id)
  /\ (forall p, In p (updateElementsForContainer_writes ed trigger) ->
        (exists b x y, In b (bindings ed) /\ fromId b = fromId trigger
           /\ reflow_skips (toId trigger) (props_placeholder trigger) b = false
           /\ p = PartialXY (toId b) x y)
        \/ (exists w h, p = PartialSize (fromId trigger) w h)).
Proof.
  intros ed'. subst ed'.
  destruct (updateElementsForContainer_bindings ed trigger) as [Hb Hn].
  split; [exact Hb|]. split; [exact Hn|].
  split; [apply field_list_reflow; apply apply_partial_id|].
  split; [apply field_list_reflow; apply apply_partial_type|].
  split; [|split].
  - intros id s' Hid Hs'.
    pose proof (size_of_reflow_other ed trigger id Hid) as Hsz.
    unfold size_of, feature_of in Hsz. rewrite Hs' in Hsz.
    destruct (Editor_getShape ed id) as [s|]; [|discriminate Hsz].
    exists s. simpl in Hsz. injection Hsz as Hw Hh. auto.
  - intros id Hid Hno. apply reflow_untouched; [exact Hid | exact Hno].
  - intros p. unfold updateElementsForContainer_writes, updateElementsForContainer_run,
      updateElementsForContainer_body.
    destruct (Editor_getShape ed (fromId trigger)) as [c|] eqn:Hc; [|intros []].
    cbv zeta. destruct (Nat.eqb _ 0); [intros []|].
    pose proof (Editor_getShape_id ed _ _ Hc) as Hcid.
    assert (Hloop : forall q,
      In q (snd (reflow_loop (toId trigger) (props_placeholder trigger) c 0
                   (sort_by_index (Editor_getBindingsFromShape ed c)) (ed, []))) ->
      exists b x y, In b (bindings ed) /\ fromId b = fromId trigger
        /\ reflow_skips (toId trigger) (props_placeholder trigger) b = false
        /\ q = PartialXY (toId b) x y).
    { intros q Hq. apply reflow_loop_writes in Hq.
      destruct Hq as [[]|(b & x & y & Hin & Hsk & ->)].
      apply (proj1 (sort_by_index_In _ _)) in Hin. unfold Editor_getBindingsFromShape in Hin.
      apply filter_In in Hin. destruct Hin as [Hin Hf]. apply Nat.eqb_eq in Hf.
      exists b, x, y. repeat split; [exact Hin | congruence | exact Hsk]. }
    destruct (negb _ || negb _).
    + unfold run_updateShape. cbn [fst snd]. intros Hp. apply in_app_or in Hp.
      destruct Hp as [Hp|[<-|[]]].
      * left. apply Hloop. exact Hp.
      * right. rewrite Hcid. eauto.
    + intros Hp. left. apply Hloop. exact Hp.
Qed.

End ReflowReach.

(** ** The row as a tiling *)

(** X2. The slots tile the container: the first slot starts one padding
    from the left edge, each slot is 100 wide and followed by a gap of
    one padding, two different slots never overlap, the last of [n]
    slots ends one padding before the right edge of a container of width
    [layout_width n], every slot is one padding from the top and the
    bottom of a container of height [layout_height], the default props
    of a container are the size of a one-member row, and the step from
    one slot to the next is the default width of an element plus one
    padding. *)
Theorem slots_tile_the_container (n i j : nat) :
  (i < j)%nat -> (j < n)%nat ->
  vx (slot_offset 0) = CONTAINER_PADDING
  /\ vx (slot_offset (S i)) = vx (slot_offset i) + 100 + CONTAINER_PADDING
  /\ vx (slot_offset i) + 100 + CONTAINER_PADDING <= vx (slot_offset j)
  /\ vx (slot_offset j) + 100 + CONTAINER_PADDING <= layout_width n
  /\ vx (slot_offset (n - 1)) + 100 + CONTAINER_PADDING = layout_width n
  /\ vy (slot_offset i) = CONTAINER_PADDING
  /\ vy (slot_offset i) + 100 + CONTAINER_PADDING = layout_height
  /\ ContainerShapeUtil_getDefaultProps = (layout_width 1, layout_height)
  /\ vx (slot_offset (S i)) - vx (slot_offset i)
     = fst ElementShapeUtil_getDefaultProps + CONTAINER_PADDING.
Proof.
  intros Hij Hjn.
  unfold slot_offset, layout_width, layout_height, ContainerShapeUtil_getDefaultProps,
    ElementShapeUtil_getDefaultProps, CONTAINER_PADDING.
  cbn [vx vy fst].
  repeat split; lia.
Qed.

(** ** The slot under the anchor *)

Lemma Math_round_div_band (p d k : Z) :
  0 < d -> (Math_round_div p d = k <-> 2 * d * k - d <= 2 * p < 2 * d * k + d).
Proof.
  intros Hd. pose proof (Math_round_div_nearest p d Hd) as H.
  split.
  - intros <-. exact H.
  - intros Hk. nia.
Qed.

Lemma Math_round_div_mono (p q d : Z) :
  0 < d -> p <= q -> Math_round_div p d <= Math_round_div q d.
Proof.
  intros Hd Hpq. unfold Math_round_div.
  apply Z.div_le_mono; lia.
Qed.

(** X3. Which anchors fall on which slot.  [slot_order] never decreases
    when the anchor moves right; for [n] siblings it is slot [k], with
    [0 < k < n + 1], exactly when the anchor is less than half a step (62)
    to the left and at most half a step to the right of the slot's left
    edge [container.x + 24 + 124 k] (the left limit included); everything
    further left is slot 0 and everything further right slot [n + 1]. *)
Theorem slot_order_bands (n : nat) (container : Shape) (p q : Vec) :
  (vx p <= vx q -> slot_order n container p <= slot_order n container q)
  /\ (forall k : Z, 0 < k < Z.of_nat n + 1 ->
        (slot_order n container p = k <->
         24 + 124 * k - 62 <= vx p - shape_x container < 24 + 124 * k + 62))
  /\ (slot_order n container p = 0 <-> vx p - shape_x container < 24 + 62)
  /\ (slot_order n container p = Z.of_nat n + 1 <->
      24 + 124 * (Z.of_nat n + 1) - 62 <= vx p - shape_x container).
Proof.
  unfold slot_order, clamp, CONTAINER_PADDING.
  replace (100 + 24) with 124 by reflexivity.
  pose proof (Math_round_div_nearest (vx p - shape_x container - 24) 124 eq_refl) as Hp.
  split; [|split; [|split]].
  - intros Hpq.
    pose proof (Math_round_div_mono (vx p - shape_x container - 24)
                  (vx q - shape_x container - 24) 124 eq_refl).
    lia.
  - intros k Hk. split; intros H; lia.
  - split; intros H; lia.
  - split; intros H; lia.
Qed.

(** ** The binding store under the drag handlers *)

Section HandlerStores.

Context {KS : KeySpace} {FR : Frames} {HT : HitTesting}.

Lemma put_binding_keeps_ids (b : LayoutBinding) (l : list LayoutBinding) :
  map binding_id (put_binding b l) = map binding_id l.
Proof.
  unfold put_binding. rewrite map_map. apply map_ext. intros a.
  destruct (Nat.eqb_spec (binding_id a) (binding_id b)) as [E|NE]; congruence.
Qed.

Lemma Editor_getBinding_stored (ed : Editor) (b : LayoutBinding) :
  NoDup (map binding_id (bindings ed)) -> In b (bindings ed) ->
  Editor_getBinding ed (binding_id b) = Some b.
Proof.
  intros Hnd Hin. unfold Editor_getBinding.
  destruct (find (fun a => Nat.eqb (binding_id a) (binding_id b)) (bindings ed))
    as [a|] eqn:Hfind.
  - apply find_some in Hfind. destruct Hfind as [Ha E]. apply Nat.eqb_eq in E.
    f_equal. exact (NoDup_map_eq_in binding_id _ a b Hnd Ha Hin E).
  - apply (find_none _ _ Hfind) in Hin. rewrite Nat.eqb_refl in Hin. discriminate.
Qed.

(** Putting records that are all images, under one id-preserving and
    idempotent rewriting [h], of records of the store rewrites exactly the
    records whose id is among them. *)
Lemma fold_put_pointwise (h : LayoutBinding -> LayoutBinding)
    (h_id : forall a, binding_id (h a) = binding_id a)
    (h_twice : forall a, h (h a) = h a)
    (cs : list LayoutBinding) : forall l0 : list LayoutBinding,
  NoDup (map binding_id l0) ->
  (forall c, In c cs -> exists cur, In cur l0 /\ c = h cur) ->
  fold_left (fun l b => put_binding b l) cs l0
  = map (fun a =>
           if existsb (fun c => Nat.eqb (binding_id c) (binding_id a)) cs
           then h a else a) l0.
Proof.
  induction cs as [|c cs IH]; intros l0 Hnd Hcs.
  - simpl. symmetry. apply map_id.
  - cbn [fold_left].
    destruct (Hcs c (or_introl eq_refl)) as (cur & Hcur & Ec).
    assert (Hput : forall a, In a l0 ->
              (if Nat.eqb (binding_id a) (binding_id c) then c else a)
              = if Nat.eqb (binding_id a) (binding_id c) then h a else a).
    { intros a Ha. destruct (Nat.eqb_spec (binding_id a) (binding_id c)) as [E|NE];
        [|reflexivity].
      rewrite Ec. f_equal.
      apply (NoDup_map_eq_in binding_id l0 cur a Hnd Hcur Ha).
      rewrite E, Ec, h_id. reflexivity. }
    rewrite IH.
    + unfold put_binding. rewrite map_map. apply map_ext_in. intros a Ha.
      rewrite (Hput a Ha). cbn [existsb].
      rewrite (Nat.eqb_sym (binding_id c) (binding_id a)).
      destruct (Nat.eqb_spec (binding_id a) (binding_id c)) as [E|NE].
      * cbn [orb]. rewrite h_id, h_twice.
        destruct (existsb _ cs); reflexivity.
      * cbn [orb]. reflexivity.
    + rewrite put_binding_keeps_ids. exact Hnd.
    + intros c' Hc'. destruct (Hcs c' (or_intror Hc')) as (cur' & Hcur' & Ec').
      exists (if Nat.eqb (binding_id cur') (binding_id c) then c else cur').
      split.
      * unfold put_binding.
        apply (in_map (fun a => if Nat.eqb (binding_id a) (binding_id c) then c else a)).
        exact Hcur'.
      * rewrite (Hput cur' Hcur').
        destruct (Nat.eqb (binding_id cur') (binding_id c));
          [rewrite h_twice|]; exact Ec'.
Qed.

Lemma binding_allowed_typed (ed : Editor) (b : LayoutBinding) :
  ends_typed ed -> In b (bindings ed) ->
  binding_allowed ed (fromId b) (toId b) = true.
Proof.
  intros Hty Hb. destruct (Hty b Hb) as [Hf Ht].
  unfold type_of, feature_of, binding_allowed in *.
  destruct (Editor_getShape ed (fromId b)) as [fs|]; [|discriminate].
  destruct (Editor_getShape ed (toId b)) as [ts|]; [|discriminate].
  simpl in Hf, Ht. injection Hf as Hf. injection Ht as Ht.
  unfold Editor_canBindShapes, ShapeUtil_canBind. rewrite Hf, Ht. reflexivity.
Qed.

Definition raised_for (ed : Editor) (shape : Shape) (b : LayoutBinding) : LayoutBinding :=
  if Nat.eqb (toId b) (shape_id shape) && binding_allowed ed (fromId b) (toId b)
  then set_placeholder b true else b.

Lemma onTranslateStart_bindings (ed : Editor) (shape : Shape) :
  NoDup (map binding_id (bindings ed)) ->
  bindings (ElementShapeUtil_onTranslateStart ed shape)
  = map (raised_for ed shape) (bindings ed).
Proof.
  intros Hnd. unfold ElementShapeUtil_onTranslateStart.
  destruct (Editor_updateBindings_bindings ed
              (map (fun binding => set_placeholder binding true)
                 (Editor_getBindingsToShape ed shape))) as [E _].
  rewrite E. clear E.
  set (changed := filter (binding_changes ed)
                    (map (fun binding => set_placeholder binding true)
                       (Editor_getBindingsToShape ed shape))).
  assert (Hch : forall c, In c changed ->
            exists cur, In cur (bindings ed) /\ toId cur = shape_id shape
              /\ c = set_placeholder cur true /\ binding_changes ed c = true).
  { intros c Hc. apply filter_In in Hc. destruct Hc as [Hc Hchg].
    apply in_map_iff in Hc. destruct Hc as (cur & <- & Hcur).
    apply filter_In in Hcur. destruct Hcur as [Hcur Hto]. apply Nat.eqb_eq in Hto.
    exists cur. auto. }
  rewrite (fold_put_pointwise (fun a => set_placeholder a true)).
  - apply map_ext_in. intros a Ha. unfold raised_for.
    destruct (existsb (fun c => Nat.eqb (binding_id c) (binding_id a)) changed) eqn:Hex.
    + apply existsb_exists in Hex. destruct Hex as (c & Hc & Eid).
      apply Nat.eqb_eq in Eid.
      destruct (Hch c Hc) as (cur & Hcur & Hto & -> & Hchg).
      assert (cur = a) by (apply (NoDup_map_eq_in binding_id _ cur a Hnd Hcur Ha Eid)).
      subst cur.
      unfold binding_changes in Hchg. cbn [binding_id set_placeholder] in Hchg.
      rewrite (Editor_getBinding_stored ed a Hnd Ha) in Hchg.
      apply andb_true_iff in Hchg. destruct Hchg as [_ Hal].
      cbn [fromId toId set_placeholder] in Hal.
      rewrite Hal, Hto, Nat.eqb_refl. reflexivity.
    + destruct (Nat.eqb_spec (toId a) (shape_id shape)) as [Hto|Hto]; [|reflexivity].
      destruct (binding_allowed ed (fromId a) (toId a)) eqn:Hal; [|reflexivity].
      cbn [andb].
      assert (Hcand : In (set_placeholder a true)
                        (map (fun binding => set_placeholder binding true)
                           (Editor_getBindingsToShape ed shape))).
      { apply (in_map (fun binding => set_placeholder binding true)).
        apply filter_In. split; [exact Ha|]. apply Nat.eqb_eq. exact Hto. }
      destruct (binding_changes ed (set_placeholder a true)) eqn:Hchg.
      * exfalso.
        assert (Hin : In (set_placeholder a true) changed)
          by (apply filter_In; split; assumption).
        assert (Hex' : existsb (fun c => Nat.eqb (binding_id c) (binding_id a)) changed
                       = true).
        { apply existsb_exists. exists (set_placeholder a true).
          split; [exact Hin | apply Nat.eqb_refl]. }
        rewrite Hex' in Hex. discriminate.
      * unfold binding_changes in Hchg. cbn [binding_id set_placeholder] in Hchg.
        rewrite (Editor_getBinding_stored ed a Hnd Ha) in Hchg.
        cbn [fromId toId set_placeholder] in Hchg. rewrite Hal, andb_true_r in Hchg.
        apply negb_false_iff in Hchg. apply binding_eqb_eq in Hchg.
        exact Hchg.
  - intros a. reflexivity.
  - intros a. reflexivity.
  - exact Hnd.
  - intros c Hc. destruct (Hch c Hc) as (cur & Hcur & _ & E & _). exists cur. auto.
Qed.

(** X4. [onTranslateStart] raises flags and nothing else.  On a store
    with distinct binding ids it rewrites the binding store record by
    record: a relationship that leads to the dragged shape, and whose
    two ends the editor still agrees to bind, gets [placeholder = true];
    every other record is kept as it is; nothing is created, deleted or
    reordered, and no id, end or key changes.  When every relationship
    joins a stored container to a stored element, every relationship of
    the dragged shape carries the flag afterwards. *)
Theorem onTranslateStart_raises_flags_only (ed : Editor) (shape : Shape) :
  ids_ok ed ->
  let ed' := ElementShapeUtil_onTranslateStart ed shape in
  bindings ed'
  = map (fun b =>
           if Nat.eqb (toId b) (shape_id shape)
              && binding_allowed ed (fromId b) (toId b)
           then set_placeholder b true else b)
      (bindings ed)
  /\ nextBindingId ed' = nextBindingId ed
  /\ map (fun b => (binding_id b, fromId b, toId b, props_index b)) (bindings ed')
     = map (fun b => (binding_id b, fromId b, toId b, props_index b)) (bindings ed)
  /\ (forall b, In b (bindings ed) -> toId b <> shape_id shape -> In b (bindings ed'))
  /\ (ends_typed ed ->
      forall b, In b (bindings ed') -> toId b = shape_id shape ->
        props_placeholder b = true).
Proof.
  intros [Hnd _] ed'. subst ed'.
  pose proof (onTranslateStart_bindings ed shape Hnd) as E.
  unfold raised_for in E.
  split; [exact E|].
  split; [apply Editor_updateBindings_bindings|].
  rewrite E. split; [|split].
  - rewrite map_map. apply map_ext. intros b.
    destruct (Nat.eqb (toId b) (shape_id shape) && binding_allowed ed (fromId b) (toId b));
      reflexivity.
  - intros b Hb Hto. apply in_map_iff. exists b. split; [|exact Hb].
    apply Nat.eqb_neq in Hto. rewrite Hto. reflexivity.
  - intros Hty b Hb Hto. apply in_map_iff in Hb. destruct Hb as (a & <- & Ha).
    rewrite (binding_allowed_typed ed a Hty Ha), andb_true_r in *.
    destruct (Nat.eqb_spec (toId a) (shape_id shape)) as [E1|E1]; [reflexivity|].
    contradiction.
Qed.

(** *** The relationships of the other elements *)

Definition of_others (shape : Shape) (b : LayoutBinding) : bool :=
  negb (Nat.eqb (toId b) (shape_id shape)).

Lemma filter_within {X : Type} (keep sub : X -> bool) (xs : list X)
    (Hsub : forall x, In x xs -> keep x = true -> sub x = true) :
  filter keep (filter sub xs) = filter keep xs.
Proof.
  induction xs as [|x xs IH]; [reflexivity|].
  cbn [filter].
  assert (IH' : filter keep (filter sub xs) = filter keep xs)
    by (apply IH; intros y Hy; apply Hsub; right; exact Hy).
  destruct (sub x) eqn:Es.
  - cbn [filter]. rewrite IH'. reflexivity.
  - rewrite IH'. destruct (keep x) eqn:Ek; [|reflexivity].
    rewrite (Hsub x (or_introl eq_refl) Ek) in Es. discriminate.
Qed.

Lemma others_deleteBindings (ed : Editor) (shape : Shape) :
  NoDup (map binding_id (bindings ed)) ->
  bindings (Editor_deleteBindings ed (Editor_getBindingsToShape ed shape))
  = filter (of_others shape) (bindings ed).
Proof.
  intros Hnd.
  destruct (Editor_deleteBindings_bindings ed (Editor_getBindingsToShape ed shape))
    as [E _].
  rewrite E. apply filter_ext_in_bool. intros b Hb. unfold of_others. f_equal.
  destruct (Nat.eqb_spec (toId b) (shape_id shape)) as [Hto|Hto].
  - apply to_shape_doomed; assumption.
  - destruct (doomed (Editor_getBindingsToShape ed shape) b) eqn:Hd; [|reflexivity].
    exfalso. unfold doomed in Hd. apply existsb_exists in Hd.
    destruct Hd as (d & Hd & Eid). apply Nat.eqb_eq in Eid.
    apply filter_In in Hd. destruct Hd as [Hd Hdto]. apply Nat.eqb_eq in Hdto.
    assert (d = b) by (apply (NoDup_map_eq_in binding_id _ d b Hnd Hd Hb Eid)).
    subst d. contradiction.
Qed.

Lemma others_createBinding (ed : Editor) (shape : Shape) (f : ShapeId) (k : IndexKey)
    (ph : bool) :
  filter (of_others shape) (bindings (Editor_createBinding ed f (shape_id shape) k ph))
  = filter (of_others shape) (bindings ed).
Proof.
  destruct (Editor_createBinding_bindings ed f (shape_id shape) k ph) as [Hyes Hno].
  destruct (binding_allowed ed f (shape_id shape)) eqn:Ha;
    [|rewrite Hno by reflexivity; reflexivity].
  destruct (Hyes eq_refl) as [E _]. rewrite E, filter_app.
  assert (H1 : of_others shape (mkBinding (nextBindingId ed) f (shape_id shape) k ph)
               = false)
    by (unfold of_others; cbn [toId]; rewrite Nat.eqb_refl; reflexivity).
  cbn [filter]. rewrite H1. apply app_nil_r.
Qed.

Lemma others_updateBinding (ed : Editor) (shape : Shape) (ex : LayoutBinding)
    (k : IndexKey) (ph : bool) :
  NoDup (map binding_id (bindings ed)) ->
  In ex (bindings ed) -> toId ex = shape_id shape ->
  filter (of_others shape)
    (bindings (Editor_updateBinding ed
                 (mkBinding (binding_id ex) (fromId ex) (toId ex) k ph)))
  = filter (of_others shape) (bindings ed).
Proof.
  intros Hnd Hex Hto. unfold Editor_updateBinding.
  destruct (Editor_updateBindings_bindings ed
              [mkBinding (binding_id ex) (fromId ex) (toId ex) k ph]) as [E _].
  rewrite E. cbn [filter].
  destruct (binding_changes ed _); [|reflexivity].
  cbn [fold_left].
  destruct (split_at_id (bindings ed) ex Hnd Hex) as (l1 & l2 & El & Hother).
  rewrite El,
    (put_binding_split (mkBinding (binding_id ex) (fromId ex) (toId ex) k ph)
       ex l1 l2 eq_refl Hother).
  assert (H1 : of_others shape ex = false)
    by (unfold of_others; rewrite Hto, Nat.eqb_refl; reflexivity).
  assert (H2 : of_others shape (mkBinding (binding_id ex) (fromId ex) (toId ex) k ph)
               = false)
    by (unfold of_others; cbn [toId]; rewrite Hto, Nat.eqb_refl; reflexivity).
  rewrite !filter_app. cbn [filter]. rewrite H1, H2. reflexivity.
Qed.

Lemma filter_map_fixed {X : Type} (keep : X -> bool) (g : X -> X) (xs : list X)
    (Hfix : forall x, keep x = true -> g x = x)
    (Hout : forall x, keep x = false -> keep (g x) = false) :
  filter keep (map g xs) = filter keep xs.
Proof.
  induction xs as [|x xs IH]; [reflexivity|].
  cbn [map filter]. rewrite IH.
  destruct (keep x) eqn:Ek.
  - rewrite (Hfix x Ek), Ek. reflexivity.
  - rewrite (Hout x Ek). reflexivity.
Qed.

(** X5. The drag handlers of an element never touch the relationships of
    the other elements: on a store with distinct binding ids, the
    relationships that lead elsewhere than to the dragged shape are, in
    the store's order, exactly the same records after [onTranslateStart],
    after [onTranslate] and after [onTranslateEnd]. *)
Theorem drag_handlers_leave_other_elements (ed : Editor) (shape : Shape) :
  ids_ok ed ->
  let others (e : Editor) :=
    filter (fun b => negb (Nat.eqb (toId b) (shape_id shape))) (bindings e) in
  others (ElementShapeUtil_onTranslateStart ed shape) = others ed
  /\ others (ElementShapeUtil_onTranslate ed shape) = others ed
  /\ others (ElementShapeUtil_onTranslateEnd ed shape) = others ed.
Proof.
  intros [Hnd _] others. subst others. cbv beta.
  change (fun b : LayoutBinding => negb (Nat.eqb (toId b) (shape_id shape)))
    with (of_others shape).
  split; [|split].
  - rewrite (onTranslateStart_bindings ed shape Hnd).
    apply filter_map_fixed; intros b Hb; unfold raised_for, of_others in *.
    + apply negb_true_iff in Hb. rewrite Hb. reflexivity.
    + destruct (Nat.eqb (toId b) (shape_id shape) && binding_allowed ed (fromId b) (toId b));
        exact Hb.
  - unfold ElementShapeUtil_onTranslate.
    destruct (ElementShapeUtil_getTargetContainer ed shape (element_anchor shape)) as [t|].
    + destruct (find _ _) as [ex|] eqn:Hfind.
      * destruct (key_eqb _ _); [reflexivity|].
        apply find_own_Some in Hfind. destruct Hfind as (Hex & _ & Hto).
        apply others_updateBinding; assumption.
      * apply others_createBinding.
    + rewrite (others_deleteBindings ed shape Hnd).
      apply filter_within. auto.
  - unfold ElementShapeUtil_onTranslateEnd.
    destruct (ElementShapeUtil_getTargetContainer ed shape (element_anchor shape)) as [t|];
      [|reflexivity].
    rewrite others_createBinding, (others_deleteBindings ed shape Hnd).
    apply filter_within. auto.
Qed.

Lemma target_is_another_shape (ed : Editor) (shape t : Shape) (pageAnchor : Vec) :
  Editor_getShape ed (shape_id shape) = Some shape ->
  shape_type shape = ElementShapeUtil_type ->
  ElementShapeUtil_getTargetContainer ed shape pageAnchor = Some t ->
  shape_type t = ContainerShapeUtil_type /\ shape_id t <> shape_id shape.
Proof.
  intros Hs He Ht. unfold ElementShapeUtil_getTargetContainer in Ht.
  pose proof (getShapeAtPoint_stored _ _ _ _ Ht) as Hst.
  pose proof (getShapeAtPoint_filter _ _ _ _ Ht) as Hf. cbv beta in Hf.
  apply Editor_canBindShapes_layout in Hf; [|right; right; right; exact He].
  destruct Hf as [Hc _]. split; [exact Hc|].
  intros E. rewrite E, Hs in Hst. injection Hst as <-.
  rewrite He in Hc. discriminate Hc.
Qed.

(** *** Where a target comes from *)

(** X7. [getTargetContainer] answers with containers only.  For a dragged
    element, whatever the hit test finds under the filter is a shape of
    the store, of type 'container', other than the dragged element, that
    contains the anchor, and that the editor agrees to bind to the
    element by a layout binding. *)
Theorem getTargetContainer_finds_containers_only
    (ed : Editor) (shape t : Shape) (pageAnchor : Vec) :
  shape_type shape = "element"%string ->
  ElementShapeUtil_getTargetContainer ed shape pageAnchor = Some t ->
  shape_type t = "container"%string
  /\ Editor_getShape ed (shape_id t) = Some t
  /\ Editor_canBindShapes t shape "layout" = true
  /\ (shape_x t <= vx pageAnchor <= shape_x t + props_width t
      /\ shape_y t <= vy pageAnchor <= shape_y t + props_height t)
  /\ (Editor_getShape ed (shape_id shape) = Some shape ->
      shape_id t <> shape_id shape
      /\ binding_allowed ed (shape_id t) (shape_id shape) = true).
Proof.
  intros He Ht.
  pose proof Ht as Hhit. unfold ElementShapeUtil_getTargetContainer in Hhit.
  pose proof (getShapeAtPoint_stored _ _ _ _ Hhit) as Hst.
  pose proof (getShapeAtPoint_filter _ _ _ _ Hhit) as Hf. cbv beta in Hf.
  pose proof (getShapeAtPoint_inside _ _ _ _ Hhit) as Hin.
  pose proof Hf as Hc.
  apply Editor_canBindShapes_layout in Hc; [|right; right; right; exact He].
  split; [apply Hc|]. split; [exact Hst|]. split; [exact Hf|]. split; [exact Hin|].
  intros Hs. split.
  - apply (target_is_another_shape ed shape t pageAnchor Hs He Ht).
  - unfold binding_allowed. rewrite Hst, Hs. exact Hf.
Qed.

(** *** The ends of a relationship *)

(** X8. Every relationship leads from a container to an element, through
    the whole drag: from a store with distinct binding ids in which every
    relationship joins a stored shape of type 'container' to a stored
    shape of type 'element', every store the drag reaches is such a
    store; in particular no relationship ever leads from a shape to
    itself. *)
Theorem drag_keeps_relationships_typed (ed0 ed : Editor) :
  ids_ok ed0 ->
  (forall b, In b (bindings ed0) ->
     exists c e, Editor_getShape ed0 (fromId b) = Some c
       /\ shape_type c = "container"%string
       /\ Editor_getShape ed0 (toId b) = Some e
       /\ shape_type e = "element"%string) ->
  drag_steps ed0 ed ->
  forall b, In b (bindings ed) ->
    (exists c e, Editor_getShape ed (fromId b) = Some c
       /\ shape_type c = "container"%string
       /\ Editor_getShape ed (toId b) = Some e
       /\ shape_type e = "element"%string)
    /\ fromId b <> toId b.
Proof.
  intros Hids Hty0 Hsteps.
  assert (Hinv : ids_ok ed /\ ends_typed ed).
  { induction Hsteps as [|ed ed' Hsteps IH Hstep].
    - split; [exact Hids|]. intros b Hb.
      destruct (Hty0 b Hb) as (c & e & Hc & Tc & He & Te).
      unfold type_of, feature_of. rewrite Hc, He. simpl. rewrite Tc, Te. split; reflexivity.
    - destruct IH as [I1 I2]. split.
      + apply (hands_on_step ed ed' Hstep I1).
      + apply (ends_typed_step ed ed' Hstep I1 I2). }
  destruct Hinv as [_ Hty]. intros b Hb. destruct (Hty b Hb) as [Hf Ht].
  unfold type_of, feature_of in Hf, Ht.
  destruct (Editor_getShape ed (fromId b)) as [c|] eqn:Hc; [|discriminate].
  destruct (Editor_getShape ed (toId b)) as [e|] eqn:He; [|discriminate].
  simpl in Hf, Ht. injection Hf as Hf. injection Ht as Ht.
  split.
  - exists c, e. auto.
  - intros E. rewrite E, He in Hc. injection Hc as <-. rewrite Hf in Ht. discriminate.
Qed.

End HandlerStores.

(** ** Rows in order *)

Section SettledRows.

Context {KS : KeySpace} {FR : Frames} {HT : HitTesting}.

(** The row of container [cid] is in order, the members [left_out]
    apart: the container has the size of its member count; [row] is the
    list of its relationships in strictly ascending order of their keys
    (which are therefore pairwise distinct); and the member at position
    [i] of [row] has its position at slot [i] of the container, carried
    to the member's parent space. *)
Definition row_settled (ed : Editor) (cid : ShapeId) (left_out : LayoutBinding -> bool)
  : Prop :=
  exists c row,
    Editor_getShape ed cid = Some c
    /\ props_width c = layout_width (member_count ed cid)
    /\ props_height c = layout_height
    /\ Permutation row (Editor_getBindingsFromShape ed c)
    /\ StronglySorted index_lt row
    /\ forall i b,
        nth_error row i = Some b ->
        left_out b = false ->
        exists s, Editor_getShape ed (toId b) = Some s
          /\ mkVec (shape_x s) (shape_y s)
             = getPointInParentSpace s (getShapePageTransform c (slot_offset i)).

Lemma row_settled_weaken (ed : Editor) (cid : ShapeId)
    (p q : LayoutBinding -> bool) :
  (forall b, In b (bindings ed) -> fromId b = cid -> q b = false -> p b = false) ->
  row_settled ed cid p -> row_settled ed cid q.
Proof.
  intros Hpq (c & row & Hc & Hw & Hh & Hperm & Hsorted & Hrow). exists c, row.
  split; [exact Hc|]. split; [exact Hw|]. split; [exact Hh|].
  split; [exact Hperm|]. split; [exact Hsorted|].
  intros i b Hi Hq. apply (Hrow i b Hi).
  apply nth_error_In in Hi. apply (Permutation_in _ Hperm) in Hi.
  apply filter_In in Hi. destruct Hi as [Hb Hf]. apply Nat.eqb_eq in Hf.
  apply Hpq; [exact Hb | | exact Hq].
  rewrite Hf. apply (Editor_getShape_id ed _ _ Hc).
Qed.

Lemma members_distinct (l : list LayoutBinding) (cid : ShapeId) :
  NoDup (map ends l) ->
  NoDup (map toId (filter (fun b => Nat.eqb (fromId b) cid) l)).
Proof.
  intros Hp.
  apply (NoDup_map_filter _ (fun b => Nat.eqb (fromId b) cid)) in Hp.
  apply (NoDup_map_inv (fun e => (cid, e))).
  rewrite map_map. erewrite map_ext_in; [exact Hp|].
  intros b Hb. apply filter_In in Hb. destruct Hb as [_ Hb].
  apply Nat.eqb_eq in Hb. unfold ends. rewrite Hb. reflexivity.
Qed.

Lemma typed_shapes (ed : Editor) (b : LayoutBinding) :
  ends_typed ed -> In b (bindings ed) ->
  exists c e, Editor_getShape ed (fromId b) = Some c
    /\ shape_type c = ContainerShapeUtil_type
    /\ Editor_getShape ed (toId b) = Some e
    /\ shape_type e = ElementShapeUtil_type.
Proof.
  intros Hty Hb. destruct (Hty b Hb) as [Hf Ht].
  unfold type_of, feature_of in Hf, Ht.
  destruct (Editor_getShape ed (fromId b)) as [c|]; [|discriminate].
  destruct (Editor_getShape ed (toId b)) as [e|]; [|discriminate].
  simpl in Hf, Ht. injection Hf as Hf. injection Ht as Ht.
  exists c, e. auto.
Qed.

Lemma container_no_member (ed : Editor) (c : Shape) :
  ends_typed ed ->
  ~ In (shape_id c) (map toId (Editor_getBindingsFromShape ed c)).
Proof.
  intros Hty Hin. apply in_map_iff in Hin. destruct Hin as (b & Eto & Hb).
  apply filter_In in Hb. destruct Hb as [Hb Hfrom]. apply Nat.eqb_eq in Hfrom.
  destruct (typed_shapes ed b Hty Hb) as (c0 & e0 & Hc0 & Tc & He0 & Te).
  rewrite Eto, <- Hfrom, Hc0 in He0. injection He0 as <-.
  rewrite Tc in Te. discriminate Te.
Qed.

Lemma member_count_length (ed : Editor) (c : Shape) :
  member_count ed (shape_id c)
  = List.length (sort_by_index (Editor_getBindingsFromShape ed c)).
Proof. rewrite sort_by_index_length. reflexivity. Qed.

(** What the reflow of a container needs of the store: the container's
    relationships have distinct keys, lead to distinct elements, and
    there is at least one. *)
Lemma row_of_trigger (ed : Editor) (trigger : LayoutBinding) :
  pair_unique ed -> keys_unique ed -> ends_typed ed ->
  member_count ed (fromId trigger) <> 0%nat ->
  exists c,
    Editor_getShape ed (fromId trigger) = Some c
    /\ shape_id c = fromId trigger
    /\ let bs := sort_by_index (Editor_getBindingsFromShape ed c) in
       Permutation bs (Editor_getBindingsFromShape ed c)
       /\ StronglySorted index_lt bs
       /\ List.length bs = member_count ed (fromId trigger)
       /\ bs <> []
       /\ ~ In (shape_id c) (map toId bs)
       /\ NoDup (map toId bs).
Proof.
  intros Hpair Hkeys Hty Hcount.
  assert (Hc : exists c, Editor_getShape ed (fromId trigger) = Some c).
  { unfold member_count in Hcount.
    destruct (filter (fun b => Nat.eqb (fromId b) (fromId trigger)) (bindings ed))
      as [|b l] eqn:E; [contradiction Hcount; reflexivity|].
    assert (Hb : In b (filter (fun b => Nat.eqb (fromId b) (fromId trigger)) (bindings ed)))
      by (rewrite E; left; reflexivity).
    apply filter_In in Hb. destruct Hb as [Hb Hf]. apply Nat.eqb_eq in Hf.
    destruct (typed_shapes ed b Hty Hb) as (c & _ & Hc & _).
    exists c. rewrite <- Hf. exact Hc. }
  destruct Hc as [c Hc]. exists c.
  pose proof (Editor_getShape_id ed _ _ Hc) as Hcid.
  split; [exact Hc|]. split; [exact Hcid|]. cbv zeta.
  destruct (row_in_key_order _ (keys_unique_members ed c Hkeys)) as [Hperm Hsorted].
  destruct (row_far_ends (Editor_getBindingsFromShape ed c) (shape_id c)) as [Hnd Hnotin].
  { apply members_distinct. exact Hpair. }
  { apply container_no_member. exact Hty. }
  assert (Hlen : List.length (sort_by_index (Editor_getBindingsFromShape ed c))
                 = member_count ed (fromId trigger))
    by (rewrite <- Hcid; symmetry; apply member_count_length).
  split; [exact Hperm|]. split; [exact Hsorted|]. split; [exact Hlen|].
  split; [intros E; rewrite E in Hlen; simpl in Hlen; congruence|].
  split; [exact Hnotin | exact Hnd].
Qed.

(** After a reflow the row is in order, apart from the members [left_out],
    as soon as the members that are not left out have been placed. *)
Lemma row_settled_after_reflow (ed : Editor) (trigger : LayoutBinding) (c : Shape)
    (left_out : LayoutBinding -> bool) :
  ends_typed ed ->
  Editor_getShape ed (fromId trigger) = Some c ->
  let bs := sort_by_index (Editor_getBindingsFromShape ed c) in
  let ed' := updateElementsForContainer ed trigger in
  Permutation bs (Editor_getBindingsFromShape ed c) ->
  StronglySorted index_lt bs ->
  Editor_getShape ed' (shape_id c)
  = Some (set_size c (layout_width (List.length bs)) layout_height) ->
  (forall i b, nth_error bs i = Some b -> left_out b = false ->
     Editor_getShape ed' (toId b)
     = option_map (place_at ed c i) (Editor_getShape ed (toId b))) ->
  row_settled ed' (fromId trigger) left_out.
Proof.
  intros Hty Hc bs ed' Hperm Hsorted Hcont Hplace.
  pose proof (Editor_getShape_id ed _ _ Hc) as Hcid.
  destruct (updateElementsForContainer_bindings ed trigger) as [Eb _].
  fold ed' in Eb.
  exists (set_size c (layout_width (List.length bs)) layout_height), bs.
  split; [rewrite <- Hcid; exact Hcont|].
  split.
  { cbn [props_width set_size]. f_equal. unfold member_count. rewrite Eb.
    unfold bs. rewrite sort_by_index_length.
    unfold Editor_getBindingsFromShape. rewrite Hcid. reflexivity. }
  split; [reflexivity|].
  split.
  { rewrite (Editor_getBindingsFromShape_same ed ed' c
               (set_size c (layout_width (List.length bs)) layout_height) Eb eq_refl).
    exact Hperm. }
  split; [exact Hsorted|].
  intros i b Hi Hout.
  assert (Hb : In b (bindings ed)).
  { apply nth_error_In in Hi. apply (Permutation_in _ Hperm) in Hi.
    apply filter_In in Hi. tauto. }
  destruct (typed_shapes ed b Hty Hb) as (_ & s & _ & _ & Hs & _).
  exists (place_at ed c i s). split.
  - rewrite (Hplace i b Hi Hout), Hs. reflexivity.
  - unfold place_at. rewrite getPointInParentSpace_xy, getShapePageTransform_size.
    cbn [shape_x shape_y set_xy]. unfold slot_point, Editor_getShapePageTransform.
    rewrite Hcid, Hc.
    destruct (getPointInParentSpace s _); reflexivity.
Qed.

(** A reflow leaves the row of its container in order, the members it
    passes over apart. *)
Lemma reflow_settles_row (ed : Editor) (trigger : LayoutBinding) :
  pair_unique ed -> keys_unique ed -> ends_typed ed ->
  member_count ed (fromId trigger) <> 0%nat ->
  row_settled (updateElementsForContainer ed trigger) (fromId trigger)
    (reflow_skips (toId trigger) (props_placeholder trigger)).
Proof.
  intros Hpair Hkeys Hty Hcount.
  destruct (row_of_trigger ed trigger Hpair Hkeys Hty Hcount)
    as (c & Hc & Hcid & Hperm & Hsorted & Hlen & Hne & Hnotin & Hnd).
  destruct (updateElementsForContainer_shapes ed trigger c Hc Hne Hnotin Hnd)
    as (Hcont & _ & Hplace).
  apply (row_settled_after_reflow ed trigger c _ Hty Hc Hperm Hsorted Hcont).
  intros i b Hi Hskip. apply (Hplace i b Hi). exact Hskip.
Qed.

(** When the reflow resizes the container, the editor tells the
    container's relationships, and the calls it makes put the member the
    method passed over in its slot too, provided one of the container's
    relationships, as trigger, does not pass it over: then the whole row
    is in order. *)
Lemma reflow_settles_whole_row (ed : Editor) (trigger : LayoutBinding) (c : Shape) :
  pair_unique ed -> keys_unique ed -> ends_typed ed ->
  Editor_getShape ed (fromId trigger) = Some c ->
  ~ sized c (member_count ed (fromId trigger)) ->
  (exists b', In b' (bindings ed) /\ fromId b' = fromId trigger
     /\ (toId b' <> toId trigger \/ props_placeholder b' = false)) ->
  row_settled (updateElementsForContainer ed trigger) (fromId trigger) (fun _ => false).
Proof.
  intros Hpair Hkeys Hty Hc Hns (b' & Hb' & Hf' & Hother).
  assert (Hcount : member_count ed (fromId trigger) <> 0%nat).
  { unfold member_count. intros E. apply length_zero_iff_nil in E.
    assert (Hin : In b' (filter (fun b => Nat.eqb (fromId b) (fromId trigger))
                           (bindings ed)))
      by (apply filter_In; split; [exact Hb' | apply Nat.eqb_eq; exact Hf']).
    rewrite E in Hin. exact Hin. }
  destruct (row_of_trigger ed trigger Hpair Hkeys Hty Hcount)
    as (c0 & Hc0 & Hcid & Hperm & Hsorted & Hlen & Hne & Hnotin & Hnd).
  rewrite Hc in Hc0. injection Hc0 as <-.
  destruct (updateElementsForContainer_shapes ed trigger c Hc Hne Hnotin Hnd)
    as (Hcont & _ & Hplace).
  apply (row_settled_after_reflow ed trigger c _ Hty Hc Hperm Hsorted Hcont).
  intros i b Hi _.
  destruct (Hplace i b Hi) as (_ & Hput & _ & Hsnap & _).
  destruct (reflow_skips (toId trigger) (props_placeholder trigger) b) eqn:Hsk;
    [|apply Hput; reflexivity].
  rewrite Hlen in Hsnap. apply (Hsnap Hns b').
  - apply filter_In. split; [exact Hb'|]. apply Nat.eqb_eq. congruence.
  - unfold reflow_skips in *. apply andb_true_iff in Hsk. destruct Hsk as [Hsk _].
    apply Nat.eqb_eq in Hsk. apply andb_false_iff.
    destruct Hother as [Hto|Hph]; [left | right; exact Hph].
    apply Nat.eqb_neq. congruence.
Qed.

Lemma filter_all {X : Type} (keep : X -> bool) (xs : list X)
    (Hall : forall x, In x xs -> keep x = true) :
  filter keep xs = xs.
Proof.
  induction xs as [|x xs IH]; [reflexivity|].
  cbn [filter]. rewrite (Hall x (or_introl eq_refl)). f_equal.
  apply IH. intros y Hy. apply Hall. right. exact Hy.
Qed.

Lemma filter_one_split {X : Type} (keep : X -> bool) (xs : list X) (x : X) :
  filter keep xs = [x] ->
  exists l1 l2, xs = l1 ++ x :: l2
    /\ forall a, In a (l1 ++ l2) -> keep a = false.
Proof.
  induction xs as [|a xs IH]; [discriminate|].
  cbn [filter]. destruct (keep a) eqn:Ea.
  - intros E. injection E as <- E. exists [], xs. split; [reflexivity|].
    intros b Hb. cbn [app] in Hb.
    destruct (keep b) eqn:Eb; [|reflexivity].
    assert (Hin : In b (filter keep xs)) by (apply filter_In; auto).
    rewrite E in Hin. destruct Hin.
  - intros E. destruct (IH E) as (l1 & l2 & -> & Hrest).
    exists (a :: l1), l2. split; [reflexivity|].
    intros b [<-|Hb]; [exact Ea | apply Hrest; exact Hb].
Qed.

Lemma target_allowed (ed : Editor) (shape t : Shape) (pageAnchor : Vec) :
  Editor_getShape ed (shape_id shape) = Some shape ->
  ElementShapeUtil_getTargetContainer ed shape pageAnchor = Some t ->
  binding_allowed ed (shape_id t) (shape_id shape) = true.
Proof.
  intros Hs Ht. unfold ElementShapeUtil_getTargetContainer in Ht.
  unfold binding_allowed.
  rewrite (getShapeAtPoint_stored _ _ _ _ Ht), Hs.
  exact (getShapeAtPoint_filter _ _ _ _ Ht).
Qed.

Lemma type_of_stored (ed : Editor) (s : Shape) :
  Editor_getShape ed (shape_id s) = Some s ->
  type_of ed (shape_id s) = Some (shape_type s).
Proof. intros H. unfold type_of, feature_of. rewrite H. reflexivity. Qed.

(** The editor's answer on two shapes depends on their types only: a
    target found for a record of the dragged element may be bound to
    whatever record of the same type the store holds for it. *)
Lemma target_allowed_typed (ed : Editor) (shape t : Shape) (pageAnchor : Vec) :
  type_of ed (shape_id shape) = Some (shape_type shape) ->
  ElementShapeUtil_getTargetContainer ed shape pageAnchor = Some t ->
  binding_allowed ed (shape_id t) (shape_id shape) = true.
Proof.
  intros Hty Ht. unfold ElementShapeUtil_getTargetContainer in Ht.
  unfold binding_allowed. rewrite (getShapeAtPoint_stored _ _ _ _ Ht).
  unfold type_of, feature_of in Hty.
  destruct (Editor_getShape ed (shape_id shape)) as [s|]; [|discriminate Hty].
  cbn [option_map] in Hty. injection Hty as Hty.
  pose proof (getShapeAtPoint_filter _ _ _ _ Ht) as Hf. cbv beta in Hf.
  unfold Editor_canBindShapes in *. rewrite Hty. exact Hf.
Qed.

(** The store with one more relationship, as [createBinding] has it when
    it tells the utility. *)
Definition with_binding (ed : Editor) (b : LayoutBinding) : Editor :=
  mkEditor (shapes ed) (bindings ed ++ [b]) (S (nextBindingId ed)).

Lemma Editor_createBinding_allowed (ed : Editor) (f t : ShapeId) (k : IndexKey)
    (ph : bool) :
  binding_allowed ed f t = true ->
  Editor_createBinding ed f t k ph
  = updateElementsForContainer
      (with_binding ed (mkBinding (nextBindingId ed) f t k ph))
      (mkBinding (nextBindingId ed) f t k ph).
Proof. intros Ha. unfold Editor_createBinding. rewrite Ha. reflexivity. Qed.

Lemma with_binding_well_formed (ed : Editor) (b : LayoutBinding) :
  pair_unique ed -> ends_typed ed ->
  ~ In (ends b) (map ends (bindings ed)) ->
  type_of ed (fromId b) = Some ContainerShapeUtil_type ->
  type_of ed (toId b) = Some ElementShapeUtil_type ->
  pair_unique (with_binding ed b) /\ ends_typed (with_binding ed b)
  /\ member_count (with_binding ed b) (fromId b) <> 0%nat.
Proof.
  intros Hpair Hty Hfresh Hf Ht. split; [|split].
  - unfold pair_unique, with_binding. cbn [bindings].
    apply NoDup_map_snoc; assumption.
  - intros a Ha. unfold with_binding in Ha. cbn [bindings] in Ha.
    change (type_of (with_binding ed b) (fromId a)) with (type_of ed (fromId a)).
    change (type_of (with_binding ed b) (toId a)) with (type_of ed (toId a)).
    apply in_app_or in Ha. destruct Ha as [Ha|[<-|[]]]; [apply Hty; exact Ha|].
    split; assumption.
  - unfold member_count, with_binding. cbn [bindings].
    rewrite filter_app, length_app. cbn [filter]. rewrite Nat.eqb_refl.
    cbn [List.length]. lia.
Qed.

Lemma keys_unique_before_reflow (ed : Editor) (trigger : LayoutBinding) :
  keys_unique (updateElementsForContainer ed trigger) -> keys_unique ed.
Proof.
  unfold keys_unique.
  destruct (updateElementsForContainer_bindings ed trigger) as [E _].
  rewrite E. auto.
Qed.

(** X9. A drop puts the whole row of the target in order.  On a store
    with distinct binding ids, one relationship per pair, distinct keys
    per container, containers sized to their members and every
    relationship joining a stored container to a stored element, when
    the drag end of a stored element resolves a target, then afterwards
    the target has the size of its member count, the dropped element is
    one of its members, the keys of the row are pairwise distinct, and
    every member, the dropped element included, sits in the slot of its
    position in ascending key order. *)
Theorem drop_settles_the_target_row (ed : Editor) (shape t : Shape) :
  ids_ok ed -> pair_unique ed -> keys_unique ed -> size_ok ed -> ends_typed ed ->
  Editor_getShape ed (shape_id shape) = Some shape ->
  shape_type shape = ElementShapeUtil_type ->
  ElementShapeUtil_getTargetContainer ed shape (element_anchor shape) = Some t ->
  let ed' := ElementShapeUtil_onTranslateEnd ed shape in
  row_settled ed' (shape_id t) (fun _ => false)
  /\ In (shape_id shape) (map toId (Editor_getBindingsFromShape ed' t)).
Proof.
  intros Hids Hpair Hkeys Hsize Hty Hs He Ht ed'. subst ed'.
  pose proof (proj2 (proj2 (proj2 (proj2 (hands_on_onTranslateEnd ed shape Hids))))
                Hpair Hsize Hkeys) as Hk'.
  revert Hk'.
  unfold ElementShapeUtil_onTranslateEnd. rewrite Ht.
  set (ed1 := Editor_deleteBindings ed (Editor_getBindingsToShape ed shape)).
  set (k := ElementShapeUtil_getBindingIndexForPosition ed shape t (element_anchor shape)).
  destruct (target_is_another_shape ed shape t _ Hs He Ht) as [Tc _].
  pose proof Ht as Hst. unfold ElementShapeUtil_getTargetContainer in Hst.
  apply getShapeAtPoint_stored in Hst.
  assert (Hsame : forall id, type_of ed1 id = type_of ed id)
    by (intros id; apply types_same_deleteBindings).
  assert (Hal : binding_allowed ed1 (shape_id t) (shape_id shape) = true).
  { unfold ed1. rewrite (binding_allowed_types ed _ _ _ Hsame).
    apply (target_allowed ed shape t _ Hs Ht). }
  rewrite (Editor_createBinding_allowed ed1 _ _ k false Hal).
  set (new := mkBinding (nextBindingId ed1) (shape_id t) (shape_id shape) k false).
  intros Hk'. apply keys_unique_before_reflow in Hk'.
  destruct (with_binding_well_formed ed1 new) as (P2 & T2 & M2).
  - apply pair_unique_deleteBindings. exact Hpair.
  - apply ends_typed_deleteBindings. exact Hty.
  - intros Hin. apply in_map_iff in Hin. destruct Hin as (b & Eb & Hb).
    apply deleted_to_shape in Hb. destruct Hb as [_ Hb]. apply Hb.
    unfold ends in Eb. cbn in Eb. congruence.
  - cbn [fromId new]. rewrite Hsame, (type_of_stored ed t Hst), Tc. reflexivity.
  - cbn [toId new]. rewrite Hsame, (type_of_stored ed shape Hs), He. reflexivity.
  - split.
    + apply (row_settled_weaken _ _
               (reflow_skips (toId new) (props_placeholder new))).
      * intros b _ _ _. unfold reflow_skips. cbn. apply andb_false_r.
      * apply (reflow_settles_row (with_binding ed1 new) new P2 Hk' T2 M2).
    + destruct (updateElementsForContainer_bindings (with_binding ed1 new) new) as [Eb _].
      unfold Editor_getBindingsFromShape. rewrite Eb.
      apply in_map_iff. exists new. split; [reflexivity|].
      apply filter_In. split; [|apply Nat.eqb_refl].
      unfold with_binding. cbn [bindings]. apply in_or_app. right. left. reflexivity.
Qed.

(** X10. While an element hovers over a target, the other members make
    room.  On a store with distinct binding ids, one relationship per
    pair, distinct keys per container, containers sized to their members
    and every relationship joining a stored container to a stored
    element, when a drag move of a stored element resolves a target and
    changes the store at all (it creates the element's relationship to
    the target, or gives it another key), then afterwards the target has
    the size of its member count, the dragged element counted in, the
    keys of the row are pairwise distinct, and every member other than
    the dragged element sits in the slot of its position in ascending
    key order, the dragged element's relationship counted in that
    order. *)
Theorem hover_makes_room (ed : Editor) (shape t : Shape) :
  ids_ok ed -> pair_unique ed -> keys_unique ed -> size_ok ed -> ends_typed ed ->
  Editor_getShape ed (shape_id shape) = Some shape ->
  shape_type shape = ElementShapeUtil_type ->
  ElementShapeUtil_getTargetContainer ed shape (element_anchor shape) = Some t ->
  let ed' := ElementShapeUtil_onTranslate ed shape in
  ed' <> ed ->
  row_settled ed' (shape_id t) (fun b => Nat.eqb (toId b) (shape_id shape))
  /\ In (shape_id shape) (map toId (Editor_getBindingsFromShape ed' t)).
Proof.
  intros Hids Hpair Hkeys Hsize Hty Hs He Ht ed'. subst ed'.
  pose proof (proj2 (proj2 (proj2 (proj2 (hands_on_onTranslate ed shape Hids))))
                Hpair Hsize Hkeys) as Hk'.
  revert Hk'.
  unfold ElementShapeUtil_onTranslate. rewrite Ht.
  set (k := ElementShapeUtil_getBindingIndexForPosition ed shape t (element_anchor shape)).
  destruct (target_is_another_shape ed shape t _ Hs He Ht) as [Tc _].
  pose proof Ht as Hst. unfold ElementShapeUtil_getTargetContainer in Hst.
  apply getShapeAtPoint_stored in Hst.
  assert (Hskip : forall trigger : LayoutBinding,
            toId trigger = shape_id shape -> props_placeholder trigger = true ->
            forall b : LayoutBinding,
              Nat.eqb (toId b) (shape_id shape) = false ->
              reflow_skips (toId trigger) (props_placeholder trigger) b = false).
  { intros trigger E1 E2 b Hb. unfold reflow_skips.
    rewrite E1, E2, Nat.eqb_sym, Hb. reflexivity. }
  destruct (find _ _) as [ex|] eqn:Hfind.
  - destruct (key_eqb (props_index ex) k);
      [intros _ Hch; contradiction Hch; reflexivity|].
    apply find_own_Some in Hfind. destruct Hfind as (Hex & Hfrom & Hto).
    set (b' := mkBinding (binding_id ex) (fromId ex) (toId ex) k true).
    unfold Editor_updateBinding, Editor_updateBindings. cbn [filter].
    destruct (binding_changes ed b') eqn:Hchg.
    2:{ cbn [fold_left]. intros _ Hch. contradiction Hch. destruct ed; reflexivity. }
    cbn [fold_left].
    cbn [binding_id b'].
    rewrite (Editor_getBinding_stored ed ex (proj1 Hids) Hex).
    unfold Editor_notify. cbn [LayoutBindingUtil_handler].
    unfold LayoutBindingUtil_onAfterChange.
    set (mid := mkEditor (shapes ed) (put_binding b' (bindings ed)) (nextBindingId ed)).
    intros Hk' _. apply keys_unique_before_reflow in Hk'.
    assert (Hrest : restates (bindings ed) b')
      by (exists ex; unfold ends; cbn; auto).
    destruct (put_binding_ids (bindings ed) b' (proj1 Hids) Hrest) as [_ Hends].
    assert (P2 : pair_unique mid).
    { unfold pair_unique, mid. cbn [bindings]. rewrite Hends. exact Hpair. }
    assert (T2 : ends_typed mid).
    { intros a Ha. unfold mid in Ha. cbn [bindings] in Ha.
      change (type_of mid (fromId a)) with (type_of ed (fromId a)).
      change (type_of mid (toId a)) with (type_of ed (toId a)).
      apply (in_map ends) in Ha. rewrite Hends in Ha.
      apply in_map_iff in Ha. destruct Ha as (a0 & E0 & Ha0).
      unfold ends in E0. injection E0 as E1 E2. rewrite <- E1, <- E2.
      apply Hty. exact Ha0. }
    assert (Hmem : In b' (filter (fun b => Nat.eqb (fromId b) (shape_id t)) (bindings mid))).
    { apply filter_In. split.
      - unfold mid. cbn [bindings].
        destruct (put_binding_restates (bindings ed) b' (proj1 Hids) Hrest)
          as (l1 & l2 & cur & _ & -> & _).
        apply in_or_app. right. left. reflexivity.
      - cbn [fromId b']. rewrite Hfrom. apply Nat.eqb_refl. }
    assert (M2 : member_count mid (fromId b') <> 0%nat).
    { unfold member_count. cbn [fromId b']. rewrite Hfrom.
      destruct (filter _ (bindings mid)); [destruct Hmem | discriminate]. }
    destruct (updateElementsForContainer_bindings mid b') as [Eb _].
    split.
    + replace (shape_id t) with (fromId b') by exact Hfrom.
      apply (row_settled_weaken _ _
               (reflow_skips (toId b') (props_placeholder b'))).
      * intros b _ _. apply (Hskip b' Hto eq_refl).
      * apply (reflow_settles_row mid b' P2 Hk' T2 M2).
    + unfold Editor_getBindingsFromShape. rewrite Eb.
      apply in_map_iff. exists b'. split; [exact Hto | exact Hmem].
  - unfold Editor_createBinding.
    destruct (binding_allowed ed (shape_id t) (shape_id shape)) eqn:Hal;
      [|intros _ Hch; contradiction Hch; reflexivity].
    change (Editor_notify _ _)
      with (updateElementsForContainer
              (with_binding ed (mkBinding (nextBindingId ed) (shape_id t) (shape_id shape)
                                  k true))
              (mkBinding (nextBindingId ed) (shape_id t) (shape_id shape) k true)).
    set (new := mkBinding (nextBindingId ed) (shape_id t) (shape_id shape) k true).
    intros Hk' _. apply keys_unique_before_reflow in Hk'.
    destruct (with_binding_well_formed ed new) as (P2 & T2 & M2).
    + exact Hpair.
    + exact Hty.
    + intros Hin. apply in_map_iff in Hin. destruct Hin as (b & Eb & Hb).
      unfold ends in Eb. cbn in Eb. injection Eb as E1 E2.
      apply (find_own_None ed t (shape_id shape) Hfind b); [|exact E2].
      apply filter_In. split; [exact Hb | apply Nat.eqb_eq; exact E1].
    + cbn [fromId new]. rewrite (type_of_stored ed t Hst), Tc. reflexivity.
    + cbn [toId new]. rewrite (type_of_stored ed shape Hs), He. reflexivity.
    + split.
      * apply (row_settled_weaken _ _
                 (reflow_skips (toId new) (props_placeholder new))).
        -- intros b _ _. apply (Hskip new eq_refl eq_refl).
        -- apply (reflow_settles_row (with_binding ed new) new P2 Hk' T2 M2).
      * destruct (updateElementsForContainer_bindings (with_binding ed new) new) as [Eb _].
        unfold Editor_getBindingsFromShape. rewrite Eb.
        apply in_map_iff. exists new. split; [reflexivity|].
        apply filter_In. split; [|apply Nat.eqb_refl].
        unfold with_binding. cbn [bindings]. apply in_or_app. right. left. reflexivity.
Qed.

(** X6. Entering a row puts the dragged element into its slot at once.
    On a store with distinct binding ids, one relationship per pair,
    distinct keys per container, containers sized to their members and
    every relationship joining a stored container to a stored element,
    when a drag move of a stored element resolves a target that has
    members already and no relationship to the element, then afterwards
    the element is a member of the target, the target has the size of
    its member count, and every member, the dragged element included,
    sits in the slot of its position in ascending key order: the method
    passes the dragged element over, but the resize of the container is
    reported to the relationships of the other members, and the reflow
    that follows places it. *)
Theorem hover_entry_places_the_dragged_element (ed : Editor) (shape t : Shape) :
  ids_ok ed -> pair_unique ed -> keys_unique ed -> size_ok ed -> ends_typed ed ->
  Editor_getShape ed (shape_id shape) = Some shape ->
  shape_type shape = ElementShapeUtil_type ->
  ElementShapeUtil_getTargetContainer ed shape (element_anchor shape) = Some t ->
  member_count ed (shape_id t) <> 0%nat ->
  ~ In (shape_id shape) (map toId (Editor_getBindingsFromShape ed t)) ->
  let ed' := ElementShapeUtil_onTranslate ed shape in
  row_settled ed' (shape_id t) (fun _ => false)
  /\ In (shape_id shape) (map toId (Editor_getBindingsFromShape ed' t)).
Proof.
  intros Hids Hpair Hkeys Hsize Hty Hs He Ht Hn Hnew ed'. subst ed'.
  pose proof (proj2 (proj2 (proj2 (proj2 (hands_on_onTranslate ed shape Hids))))
                Hpair Hsize Hkeys) as Hk'.
  revert Hk'.
  unfold ElementShapeUtil_onTranslate. rewrite Ht.
  set (k := ElementShapeUtil_getBindingIndexForPosition ed shape t (element_anchor shape)).
  destruct (target_is_another_shape ed shape t _ Hs He Ht) as [Tc _].
  pose proof Ht as Hst. unfold ElementShapeUtil_getTargetContainer in Hst.
  apply getShapeAtPoint_stored in Hst.
  destruct (find _ _) as [ex|] eqn:Hfind.
  { exfalso. apply find_own_Some in Hfind. destruct Hfind as (Hex & Hfrom & Hto).
    apply Hnew. apply in_map_iff. exists ex. split; [exact Hto|].
    apply filter_In. split; [exact Hex | apply Nat.eqb_eq; exact Hfrom]. }
  rewrite (Editor_createBinding_allowed ed _ _ k true (target_allowed ed shape t _ Hs Ht)).
  set (new := mkBinding (nextBindingId ed) (shape_id t) (shape_id shape) k true).
  intros Hk'. apply keys_unique_before_reflow in Hk'.
  destruct (with_binding_well_formed ed new) as (P2 & T2 & M2).
  - exact Hpair.
  - exact Hty.
  - intros Hin. apply in_map_iff in Hin. destruct Hin as (b & Eb & Hb).
    unfold ends in Eb. cbn in Eb. injection Eb as E1 E2.
    apply (find_own_None ed t (shape_id shape) Hfind b); [|exact E2].
    apply filter_In. split; [exact Hb | apply Nat.eqb_eq; exact E1].
  - cbn [fromId new]. rewrite (type_of_stored ed t Hst), Tc. reflexivity.
  - cbn [toId new]. rewrite (type_of_stored ed shape Hs), He. reflexivity.
  - split.
    + change (shape_id t) with (fromId new).
      apply (reflow_settles_whole_row (with_binding ed new) new t P2 Hk' T2 Hst).
      * intros [Hw _].
        destruct (Hsize (shape_id t) t Hst Hn) as [Hw0 _]. rewrite Hw0 in Hw.
        assert (Ecount : member_count (with_binding ed new) (fromId new)
                         = S (member_count ed (shape_id t))).
        { unfold member_count, with_binding. cbn [bindings fromId new].
          rewrite filter_app, length_app. cbn [filter fromId new].
          rewrite Nat.eqb_refl. cbn [List.length]. lia. }
        rewrite Ecount in Hw. unfold layout_width, CONTAINER_PADDING in Hw. lia.
      * unfold member_count in Hn.
        destruct (filter (fun b => Nat.eqb (fromId b) (shape_id t)) (bindings ed))
          as [|m ms] eqn:Em; [contradiction Hn; reflexivity|].
        assert (Hm : In m (filter (fun b => Nat.eqb (fromId b) (shape_id t))
                             (bindings ed)))
          by (rewrite Em; left; reflexivity).
        exists m. pose proof Hm as Hm'. apply filter_In in Hm'.
        destruct Hm' as [Hin Hf]. apply Nat.eqb_eq in Hf.
        split; [unfold with_binding; cbn [bindings]; apply in_or_app; left; exact Hin|].
        split; [exact Hf|]. left. cbn [toId new]. intros E. apply Hnew.
        apply in_map_iff. exists m. split; [exact E | exact Hm].
    + destruct (updateElementsForContainer_bindings (with_binding ed new) new) as [Eb _].
      unfold Editor_getBindingsFromShape. rewrite Eb.
      apply in_map_iff. exists new. split; [reflexivity|].
      apply filter_In. split; [|apply Nat.eqb_refl].
      unfold with_binding. cbn [bindings]. apply in_or_app. right. left. reflexivity.
Qed.

(** Deleting the single relationship of an element: the record goes,
    and the utility is told once, which is one reflow of the row the
    element has left. *)
Lemma single_relationship_removed (ed : Editor) (shape : Shape) (own : LayoutBinding) :
  ids_ok ed ->
  Editor_getBindingsToShape ed shape = [own] ->
  exists l1 l2,
    bindings ed = l1 ++ own :: l2
    /\ toId own = shape_id shape
    /\ (forall a, In a (l1 ++ l2) -> Nat.eqb (toId a) (shape_id shape) = false)
    /\ Editor_deleteBindings ed (Editor_getBindingsToShape ed shape)
       = updateElementsForContainer
           (mkEditor (shapes ed) (l1 ++ l2) (nextBindingId ed)) own.
Proof.
  intros Hids Hown.
  pose proof (others_deleteBindings ed shape (proj1 Hids)) as Hbs.
  rewrite Hown in *.
  destruct (filter_one_split _ _ _ Hown) as (l1 & l2 & El & Hrest).
  assert (Hto : toId own = shape_id shape).
  { assert (Hin : In own (Editor_getBindingsToShape ed shape))
      by (rewrite Hown; left; reflexivity).
    apply filter_In in Hin. apply Nat.eqb_eq. tauto. }
  assert (Hothers : filter (of_others shape) (bindings ed) = l1 ++ l2).
  { rewrite El, filter_app. cbn [filter]. unfold of_others at 2.
    rewrite Hto, Nat.eqb_refl. cbn [negb]. rewrite <- filter_app.
    apply filter_all. intros a Ha. unfold of_others. rewrite (Hrest a Ha). reflexivity. }
  rewrite Hothers in Hbs.
  assert (Hremoved : filter (doomed [own]) (bindings ed) = [own]).
  { assert (Hids' : NoDup (map binding_id (l1 ++ own :: l2)))
      by (rewrite <- El; apply Hids).
    rewrite map_app in Hids'. cbn [map] in Hids'.
    apply NoDup_remove_2 in Hids'. rewrite <- map_app in Hids'.
    assert (Hout : forall a, In a (l1 ++ l2) -> doomed [own] a = false).
    { intros a Ha. unfold doomed. cbn [existsb]. rewrite orb_false_r.
      apply Nat.eqb_neq. intros E. apply Hids'. rewrite E. apply in_map. exact Ha. }
    rewrite El, filter_app. cbn [filter].
    assert (Hd : doomed [own] own = true)
      by (unfold doomed; cbn [existsb]; rewrite Nat.eqb_refl; reflexivity).
    rewrite Hd, !filter_none; [reflexivity | |];
      intros a Ha; apply Hout; apply in_or_app; [right|left]; exact Ha. }
  exists l1, l2. split; [exact El|]. split; [exact Hto|]. split; [exact Hrest|].
  unfold Editor_deleteBindings. fold (doomed [own]). rewrite Hremoved.
  cbn [fold_left]. rewrite <- Hbs.
  destruct (Editor_deleteBindings_bindings ed [own]) as [E _]. rewrite E.
  reflexivity.
Qed.

Lemma without_one_well_formed (ed : Editor) (l1 l2 : list LayoutBinding)
    (own : LayoutBinding) (nx : nat) :
  pair_unique ed -> keys_unique ed -> ends_typed ed ->
  bindings ed = l1 ++ own :: l2 ->
  pair_unique (mkEditor (shapes ed) (l1 ++ l2) nx)
  /\ keys_unique (mkEditor (shapes ed) (l1 ++ l2) nx)
  /\ ends_typed (mkEditor (shapes ed) (l1 ++ l2) nx).
Proof.
  intros Hpair Hkeys Hty El. split; [|split].
  - unfold pair_unique. cbn [bindings].
    unfold pair_unique in Hpair. rewrite El, map_app in Hpair. cbn [map] in Hpair.
    apply NoDup_remove_1 in Hpair. rewrite map_app. exact Hpair.
  - unfold keys_unique. cbn [bindings].
    unfold keys_unique in Hkeys. rewrite El, map_app in Hkeys. cbn [map] in Hkeys.
    apply NoDup_remove_1 in Hkeys. rewrite map_app. exact Hkeys.
  - intros a Ha. cbn [bindings] in Ha.
    change (type_of (mkEditor (shapes ed) (l1 ++ l2) nx) (fromId a))
      with (type_of ed (fromId a)).
    change (type_of (mkEditor (shapes ed) (l1 ++ l2) nx) (toId a))
      with (type_of ed (toId a)).
    apply Hty. rewrite El. apply in_app_or in Ha. apply in_or_app.
    destruct Ha as [Ha|Ha]; [left|right; right]; exact Ha.
Qed.

(** X11. Leaving closes the gap.  On a store with distinct binding ids,
    one relationship per pair, distinct keys per container and every
    relationship joining a stored container to a stored element, for an
    element with exactly one relationship, a drag move that resolves no
    target removes that relationship and nothing else from the binding
    store; the container has one member less; if that was its last
    member no shape is touched, and otherwise the container has the size
    of the members that remain, their keys are pairwise distinct, and
    each of them sits in the slot of its position in ascending key
    order. *)
Theorem leaving_closes_the_gap (ed : Editor) (shape : Shape) (own : LayoutBinding) :
  ids_ok ed -> pair_unique ed -> keys_unique ed -> ends_typed ed ->
  Editor_getBindingsToShape ed shape = [own] ->
  ElementShapeUtil_getTargetContainer ed shape (element_anchor shape) = None ->
  let ed' := ElementShapeUtil_onTranslate ed shape in
  (exists l1 l2, bindings ed = l1 ++ own :: l2 /\ bindings ed' = l1 ++ l2)
  /\ S (member_count ed' (fromId own)) = member_count ed (fromId own)
  /\ (member_count ed' (fromId own) = 0%nat -> shapes ed' = shapes ed)
  /\ (member_count ed' (fromId own) <> 0%nat ->
      row_settled ed' (fromId own) (fun _ => false)).
Proof.
  intros Hids Hpair Hkeys Hty Hown Ht ed'. subst ed'.
  unfold ElementShapeUtil_onTranslate. rewrite Ht.
  destruct (single_relationship_removed ed shape own Hids Hown)
    as (l1 & l2 & El & Hto & Hrest & Hrun).
  rewrite Hrun.
  set (mid := mkEditor (shapes ed) (l1 ++ l2) (nextBindingId ed)).
  destruct (updateElementsForContainer_bindings mid own) as [Eb _].
  assert (Hcount : S (member_count mid (fromId own)) = member_count ed (fromId own)).
  { unfold member_count, mid. cbn [bindings]. rewrite El, !filter_app, !length_app.
    cbn [filter]. rewrite Nat.eqb_refl. cbn [List.length]. lia. }
  assert (Hcount' : member_count (updateElementsForContainer mid own) (fromId own)
                    = member_count mid (fromId own))
    by (unfold member_count; rewrite Eb; reflexivity).
  split; [exists l1, l2; split; [exact El | exact Eb]|].
  split; [rewrite Hcount'; exact Hcount|].
  rewrite Hcount'. split.
  - intros Hzero. unfold updateElementsForContainer.
    destruct (Editor_getShape mid (fromId own)) as [c|] eqn:Hc.
    + rewrite (updateElementsForContainer_empty mid own c Hc); [reflexivity|].
      pose proof (Editor_getShape_id mid _ _ Hc) as Hcid.
      unfold member_count in Hzero. unfold Editor_getBindingsFromShape. rewrite Hcid.
      apply length_zero_iff_nil. exact Hzero.
    + rewrite (updateElementsForContainer_missing mid own Hc). reflexivity.
  - intros Hsome.
    destruct (without_one_well_formed ed l1 l2 own (nextBindingId ed) Hpair Hkeys Hty El)
      as (P2 & K2 & T2).
    apply (row_settled_weaken _ _
             (reflow_skips (toId own) (props_placeholder own))).
    + intros b Hb _ _. rewrite Eb in Hb. unfold mid in Hb. cbn [bindings] in Hb.
      pose proof (Hrest b Hb) as Hn. unfold reflow_skips.
      rewrite Hto, Nat.eqb_sym, Hn. reflexivity.
    + apply (reflow_settles_row mid own P2 K2 T2 Hsome).
Qed.

End SettledRows.

(** ** The position a key gives *)

Section KeyPositions.

Context {KS : KeySpace}.

Definition below_key (k : IndexKey) (b : LayoutBinding) : bool :=
  key_ltb (props_index b) k.

(** How many members of a list have a key below [k]. *)
Definition count_below (k : IndexKey) (l : list LayoutBinding) : nat :=
  List.length (filter (below_key k) l).

Lemma count_below_app (k : IndexKey) (l1 l2 : list LayoutBinding) :
  count_below k (l1 ++ l2) = (count_below k l1 + count_below k l2)%nat.
Proof. unfold count_below. rewrite filter_app, length_app. reflexivity. Qed.

Lemma count_below_perm (k : IndexKey) (l l' : list LayoutBinding) :
  Permutation l l' -> count_below k l = count_below k l'.
Proof.
  unfold count_below. intros Hp.
  induction Hp as [|x l l' Hp IH|x y l|l l' l'' Hp1 IH1 Hp2 IH2]; cbn [filter].
  - reflexivity.
  - destruct (below_key k x); cbn [List.length]; congruence.
  - destruct (below_key k x), (below_key k y); reflexivity.
  - congruence.
Qed.

Lemma key_lt_asym (a b : IndexKey) : key_lt a b -> key_ltb b a = false.
Proof.
  intros Hab. destruct (key_ltb b a) eqn:E; [|reflexivity].
  exfalso. apply (key_lt_irrefl a). apply (key_lt_trans a b a); assumption.
Qed.

(** In a list sorted by key a member stands at the position that counts
    the keys below its own. *)
Lemma sorted_position (l : list LayoutBinding) (x : LayoutBinding) :
  StronglySorted index_lt l -> In x l ->
  nth_error l (count_below (props_index x) l) = Some x.
Proof.
  intros Hs. induction Hs as [|a r Hs IH Hall]; intros Hin; [destruct Hin|].
  rewrite Forall_forall in Hall.
  unfold count_below. cbn [filter].
  destruct Hin as [<-|Hin].
  - unfold below_key at 1. rewrite key_ltb_irrefl.
    rewrite filter_none; [reflexivity|].
    intros y Hy. unfold below_key. apply key_lt_asym. apply Hall. exact Hy.
  - unfold below_key at 1.
    pose proof (Hall x Hin) as Hax. unfold index_lt, key_lt in Hax. rewrite Hax.
    cbn [List.length nth_error]. apply IH. exact Hin.
Qed.

(** A key that lies in the gap before position [o] of a sorted list has
    exactly the [o] first keys below it. *)
Lemma count_below_gap (l : list LayoutBinding) (k : IndexKey) :
  StronglySorted index_lt l ->
  forall o : nat,
  (o <= List.length l)%nat ->
  (forall a, (0 < o)%nat -> nth_error l (o - 1) = Some a -> key_lt (props_index a) k) ->
  (forall b, nth_error l o = Some b -> key_lt k (props_index b)) ->
  count_below k l = o.
Proof.
  intros Hs. induction Hs as [|a r Hs IH Hall]; intros o Hlen Hlo Hhi.
  - cbn [List.length] in Hlen. unfold count_below. cbn. lia.
  - rewrite Forall_forall in Hall. unfold count_below. cbn [filter].
    destruct o as [|o'].
    + pose proof (Hhi a eq_refl) as Hka.
      unfold below_key at 1. rewrite (key_lt_asym _ _ Hka).
      rewrite filter_none; [reflexivity|].
      intros y Hy. unfold below_key. apply key_lt_asym.
      apply (key_lt_trans _ (props_index a)); [exact Hka | apply Hall; exact Hy].
    + cbn [List.length] in Hlen.
      assert (Hak : key_lt (props_index a) k).
      { destruct o' as [|o''].
        - apply Hlo; [lia | reflexivity].
        - destruct (nth_error r o'') as [a'|] eqn:Ea'.
          + apply (key_lt_trans _ (props_index a')).
            * apply Hall. eapply nth_error_In. exact Ea'.
            * apply Hlo; [lia|].
              replace (S (S o'') - 1)%nat with (S o'') by lia. exact Ea'.
          + apply nth_error_None in Ea'. lia. }
      unfold below_key at 1. unfold key_lt in Hak. rewrite Hak.
      cbn [List.length]. f_equal. apply IH.
      * lia.
      * intros a0 Hpos Ha0. apply Hlo; [lia|].
        replace (S o' - 1)%nat with (S (o' - 1)) by lia. exact Ha0.
      * intros b Hb. apply Hhi. exact Hb.
Qed.

Lemma filter_length_perm {X : Type} (keep : X -> bool) (xs ys : list X) :
  Permutation xs ys -> List.length (filter keep xs) = List.length (filter keep ys).
Proof.
  intros Hp.
  induction Hp as [|x l l' Hp IH|x y l|l l' l'' Hp1 IH1 Hp2 IH2]; cbn [filter].
  - reflexivity.
  - destruct (keep x); cbn [List.length]; congruence.
  - destruct (keep x), (keep y); reflexivity.
  - congruence.
Qed.

(** The key computed for an element whose own relationship stands at
    position [q] of the sorted list, when the slot is [q] or [q + 1]: the
    relationship's own key. *)
Lemma index_of_member_near_own_slot (ed : Editor) (shape container : Shape)
    (pageAnchor : Vec) (own : LayoutBinding) (q : nat) :
  let all := sort_by_index (Editor_getBindingsFromShape ed container) in
  let order :=
    slot_order
      (List.length (filter (fun b => negb (Nat.eqb (toId b) (shape_id shape))) all))
      container pageAnchor in
  nth_error all q = Some own ->
  toId own = shape_id shape ->
  (forall b, In b all -> toId b = shape_id shape -> props_index b = props_index own) ->
  order = Z.of_nat q \/ order = Z.of_nat q + 1 ->
  ElementShapeUtil_getBindingIndexForPosition ed shape container pageAnchor
  = props_index own.
Proof.
  intros all order Hq Hto Huniq Hord.
  unfold ElementShapeUtil_getBindingIndexForPosition. cbv zeta.
  fold all. fold order.
  destruct (own_key shape (js_index all (order - 1))) as [i|] eqn:Hbelow.
  - apply own_key_Some in Hbelow. destruct Hbelow as (b & Eb & Hbto & ->).
    apply Huniq; [|exact Hbto]. apply (js_index_In _ _ _ Eb).
  - destruct (own_key shape (js_index all order)) as [i|] eqn:Habove.
    + apply own_key_Some in Habove. destruct Habove as (b & Eb & Hbto & ->).
      apply Huniq; [|exact Hbto]. apply (js_index_In _ _ _ Eb).
    + exfalso. destruct Hord as [E|E].
      * rewrite own_key_None in Habove. apply (Habove own); [|exact Hto].
        rewrite E, js_index_nat. exact Hq.
      * rewrite own_key_None in Hbelow. apply (Hbelow own); [|exact Hto].
        replace (order - 1) with (Z.of_nat q) by lia.
        rewrite js_index_nat. exact Hq.
Qed.

Lemma NoDup_of_map {X Y : Type} (proj : X -> Y) (xs : list X) :
  NoDup (map proj xs) -> NoDup xs.
Proof.
  induction xs as [|x xs IH]; intros Hnd; [constructor|].
  cbn [map] in Hnd. inversion Hnd as [|y ys Hnotin Hrest]; subst.
  constructor; [|apply IH; exact Hrest].
  intros Hin. apply Hnotin. apply in_map. exact Hin.
Qed.

Lemma siblings_count (shape : Shape) (all : list LayoutBinding) (own : LayoutBinding) :
  NoDup all -> In own all -> toId own = shape_id shape ->
  (forall b, In b all -> toId b = shape_id shape -> b = own) ->
  S (List.length (filter (fun b => negb (Nat.eqb (toId b) (shape_id shape))) all))
  = List.length all.
Proof.
  intros Hnd Hin Hto Huniq.
  destruct (in_split _ _ Hin) as (l1 & l2 & ->).
  apply NoDup_remove_2 in Hnd.
  assert (Hrest : forall a, In a (l1 ++ l2) ->
            negb (Nat.eqb (toId a) (shape_id shape)) = true).
  { intros a Ha. apply negb_true_iff, Nat.eqb_neq. intros E.
    apply Hnd. rewrite <- (Huniq a); [exact Ha | | exact E].
    apply in_app_or in Ha. apply in_or_app.
    destruct Ha as [Ha|Ha]; [left|right; right]; exact Ha. }
  rewrite filter_app. cbn [filter]. rewrite Hto, Nat.eqb_refl. cbn [negb].
  rewrite <- filter_app, (filter_all _ _ Hrest), !length_app. cbn [List.length]. lia.
Qed.

(** The key computed for a member whose anchor lies in the band of its
    own slot and the next. *)
Lemma index_kept_in_band (ed : Editor) (shape container : Shape) (pageAnchor : Vec)
    (own : LayoutBinding) (q : nat) :
  NoDup (map props_index (Editor_getBindingsFromShape ed container)) ->
  (forall b, In b (Editor_getBindingsFromShape ed container) ->
     toId b = shape_id shape -> b = own) ->
  nth_error (sort_by_index (Editor_getBindingsFromShape ed container)) q = Some own ->
  toId own = shape_id shape ->
  24 + 124 * Z.of_nat q - 62 <= vx pageAnchor - shape_x container
    < 24 + 124 * (Z.of_nat q + 1) + 62 ->
  ElementShapeUtil_getBindingIndexForPosition ed shape container pageAnchor
  = props_index own.
Proof.
  intros Hkeys Huniq Hq Hto Hband.
  set (members := Editor_getBindingsFromShape ed container) in *.
  set (all := sort_by_index members) in *.
  assert (Hin : In own all) by (eapply nth_error_In; exact Hq).
  assert (Hnd : NoDup all).
  { apply (Permutation_NoDup (Permutation_sym (sort_by_index_perm members))).
    apply (NoDup_of_map props_index). exact Hkeys. }
  assert (Huniq' : forall b, In b all -> toId b = shape_id shape -> b = own).
  { intros b Hb. apply Huniq. apply (proj1 (sort_by_index_In _ _)). exact Hb. }
  pose proof (siblings_count shape all own Hnd Hin Hto Huniq') as Hn.
  assert (Hqlen : (q < List.length all)%nat) by (apply nth_error_Some; congruence).
  apply (index_of_member_near_own_slot ed shape container pageAnchor own q).
  - exact Hq.
  - exact Hto.
  - intros b Hb Hbto. rewrite (Huniq' b Hb Hbto). reflexivity.
  - fold members. fold all.
    set (n := List.length
                (filter (fun b => negb (Nat.eqb (toId b) (shape_id shape))) all)) in *.
    unfold slot_order, clamp, CONTAINER_PADDING.
    replace (100 + 24) with 124 by reflexivity.
    pose proof (Math_round_div_nearest (vx pageAnchor - shape_x container - 24) 124
                  eq_refl).
    lia.
Qed.

(** X12. A member keeps its key over its own slot and over the next one.
    For a container with distinct keys and a dragged element whose one
    relationship to it stands at position [q] in key order: whenever the
    anchor is within half a step left of its own slot's left edge and
    less than half a step right of the next slot's left edge,
    [getBindingIndexForPosition] returns the relationship's own key; and
    a drag move of that element over that container at such an anchor
    leaves the editor exactly as it is. *)
Theorem member_near_own_slot_keeps_key {HT : HitTesting} {FR : Frames}
    (ed : Editor) (shape container : Shape) (pageAnchor : Vec)
    (own : LayoutBinding) (q : nat) :
  NoDup (map props_index (Editor_getBindingsFromShape ed container)) ->
  (forall b, In b (Editor_getBindingsFromShape ed container) ->
     toId b = shape_id shape -> b = own) ->
  nth_error (sort_by_index (Editor_getBindingsFromShape ed container)) q = Some own ->
  toId own = shape_id shape ->
  24 + 124 * Z.of_nat q - 62 <= vx pageAnchor - shape_x container
    < 24 + 124 * (Z.of_nat q + 1) + 62 ->
  ElementShapeUtil_getBindingIndexForPosition ed shape container pageAnchor
  = props_index own
  /\ (pageAnchor = element_anchor shape ->
      ElementShapeUtil_getTargetContainer ed shape pageAnchor = Some container ->
      ElementShapeUtil_onTranslate ed shape = ed).
Proof.
  intros Hkeys Huniq Hq Hto Hband.
  pose proof (index_kept_in_band ed shape container pageAnchor own q
                Hkeys Huniq Hq Hto Hband) as Hindex.
  split; [exact Hindex|].
  intros -> Ht. unfold ElementShapeUtil_onTranslate. rewrite Ht, Hindex.
  destruct (find (fun b => Nat.eqb (toId b) (shape_id shape))
              (Editor_getBindingsFromShape ed container)) as [ex|] eqn:Hfind.
  - apply find_some in Hfind. destruct Hfind as [Hex Hexto]. apply Nat.eqb_eq in Hexto.
    rewrite (Huniq ex Hex Hexto), key_eqb_refl. reflexivity.
  - exfalso. apply nth_error_In in Hq. apply (proj1 (sort_by_index_In _ _)) in Hq.
    apply (find_none _ _ Hfind) in Hq. rewrite Hto, Nat.eqb_refl in Hq. discriminate.
Qed.

End KeyPositions.


(** ** A container on the move *)

Section ContainerMoves.

Context {KS : KeySpace} {FR : Frames} {HT : HitTesting}.

Lemma afterShapeChange_of_container (ed : Editor) (id : ShapeId) :
  (forall b, In b (bindings ed) -> toId b <> id) ->
  Editor_afterShapeChange ed id
  = fold_left updateElementsForContainer
      (filter (fun b => Nat.eqb (fromId b) id) (bindings ed)) ed.
Proof.
  intros Hto. unfold Editor_afterShapeChange.
  rewrite (filter_ext_in_bool _ (fun b => Nat.eqb (fromId b) id)).
  - apply fold_left_ext_in. intros e b Hb. apply filter_In in Hb.
    destruct Hb as [Hb Hfrom]. rewrite Hfrom.
    apply Hto in Hb. apply Nat.eqb_neq in Hb. rewrite Hb. reflexivity.
  - intros b Hb. apply Hto in Hb. apply Nat.eqb_neq in Hb. rewrite Hb.
    apply orb_false_r.
Qed.

Definition position_of (ed : Editor) (id : ShapeId) : option (Z * Z) :=
  option_map (fun s => (shape_x s, shape_y s)) (Editor_getShape ed id).

(** The method moves members only: a shape that is no member of the row
    is where it was, the container included. *)
Lemma body_keeps_position told (ed : Editor) (trigger : LayoutBinding) (id : ShapeId) :
  (forall e, bindings e = bindings ed ->
     position_of (told e (fromId trigger)) id = position_of e id) ->
  (forall b, In b (bindings ed) -> fromId b = fromId trigger -> toId b <> id) ->
  position_of (fst (updateElementsForContainer_body told ed trigger)) id
  = position_of ed id.
Proof.
  intros Htold Hout.
  unfold updateElementsForContainer_body.
  destruct (Editor_getShape ed (fromId trigger)) as [c|] eqn:Hc; [|reflexivity].
  cbv zeta.
  destruct (Nat.eqb (List.length (sort_by_index (Editor_getBindingsFromShape ed c))) 0);
    [reflexivity|].
  pose proof (Editor_getShape_id ed _ _ Hc) as Hcid.
  assert (Hloop :
    Editor_getShape
      (fst (reflow_loop (toId trigger) (props_placeholder trigger) c 0
              (sort_by_index (Editor_getBindingsFromShape ed c)) (ed, []))) id
    = Editor_getShape ed id).
  { rewrite reflow_loop_other; [reflexivity|].
    intros Hin. apply in_map_iff in Hin. destruct Hin as (b & Hto & Hb).
    apply (proj1 (sort_by_index_In _ _)) in Hb.
    unfold Editor_getBindingsFromShape in Hb. apply filter_In in Hb.
    destruct Hb as [Hb Hfrom]. apply Nat.eqb_eq in Hfrom.
    apply (Hout b Hb); congruence. }
  destruct (negb _ || negb _); [|unfold position_of; rewrite Hloop; reflexivity].
  unfold run_updateShape. cbn [fst snd].
  rewrite Hcid, Htold;
    [|cbn [Editor_updateShape bindings];
      apply (reflow_loop_bindings _ _ _ _ 0%nat (ed, []))].
  unfold position_of. rewrite Editor_getShape_updateShape, Hloop.
  destruct (Editor_getShape ed id) as [s|]; [|reflexivity].
  cbn. destruct (Nat.eqb (shape_id s) (fromId trigger)); reflexivity.
Qed.

Lemma reflow_keeps_position (ed : Editor) (trigger : LayoutBinding) (id : ShapeId) :
  (forall b, In b (bindings ed) -> fromId b = fromId trigger -> toId b <> id) ->
  position_of (updateElementsForContainer ed trigger) id = position_of ed id.
Proof.
  intros Hout. apply body_keeps_position; [|exact Hout].
  intros e Hbe.
  apply (tell_invariant
           (fun e' => bindings e' = bindings ed
                      /\ position_of e' id = position_of e id));
    [|split; [exact Hbe | reflexivity]].
  intros e0 b Hb Hfrom [Hbs He]. split.
  - rewrite <- Hbs. apply reentered_bindings.
  - rewrite <- He. apply body_keeps_position; [reflexivity|].
    intros b' Hb' Hf'. rewrite Hbs in Hb'. apply (Hout b' Hb').
    rewrite Hf'. exact Hfrom.
Qed.

Lemma reflow_keeps_container_position (ed : Editor) (trigger : LayoutBinding) (c : Shape) :
  ends_typed ed ->
  Editor_getShape ed (fromId trigger) = Some c ->
  exists c', Editor_getShape (updateElementsForContainer ed trigger) (fromId trigger)
             = Some c'
    /\ shape_x c' = shape_x c /\ shape_y c' = shape_y c.
Proof.
  intros Hty Hc.
  pose proof (Editor_getShape_id ed _ _ Hc) as Hcid.
  assert (Hpos : position_of (updateElementsForContainer ed trigger) (fromId trigger)
                 = position_of ed (fromId trigger)).
  { apply reflow_keeps_position. intros b Hb Hf Hto.
    apply (container_no_member ed c Hty). apply in_map_iff. exists b.
    split; [congruence|]. apply filter_In. split; [exact Hb|].
    apply Nat.eqb_eq. congruence. }
  unfold position_of in Hpos. rewrite Hc in Hpos.
  destruct (Editor_getShape (updateElementsForContainer ed trigger) (fromId trigger))
    as [c'|]; [|discriminate Hpos].
  cbn in Hpos. injection Hpos as Hx Hy. exists c'. auto.
Qed.

(** X13. A container that moves carries its row along.  On a store with
    one relationship per pair and distinct keys per container, in which
    every relationship joins a stored container to a stored element,
    once the editor has moved a container that has members to [(x, y)]
    and told its relationships, the binding store is as before, the
    container is at [(x, y)] with the size of its member count, and
    every member whose relationship is committed sits in the slot of its
    position in ascending key order, taken from the container's new
    position. *)
Theorem moving_a_container_carries_its_row (ed : Editor) (c : Shape) (x y : Z) :
  pair_unique ed -> keys_unique ed -> ends_typed ed ->
  Editor_getShape ed (shape_id c) = Some c ->
  member_count ed (shape_id c) <> 0%nat ->
  let ed' :=
    Editor_afterShapeChange (Editor_updateShape ed (PartialXY (shape_id c) x y))
      (shape_id c) in
  bindings ed' = bindings ed
  /\ row_settled ed' (shape_id c) props_placeholder
  /\ exists c', Editor_getShape ed' (shape_id c) = Some c'
       /\ shape_x c' = x /\ shape_y c' = y.
Proof.
  intros Hpair Hkeys Hty Hc Hcount ed'.
  set (cid := shape_id c) in *.
  set (ed0 := Editor_updateShape ed (PartialXY cid x y)) in *.
  assert (Hty0 : forall e, bindings e = bindings ed ->
            (forall id, type_of e id = type_of ed id) -> ends_typed e).
  { intros e Eb Et b Hb. rewrite !Et. apply Hty. rewrite <- Eb. exact Hb. }
  assert (Hnoto : forall b, In b (bindings ed0) -> toId b <> cid).
  { intros b Hb E. apply (container_no_member ed c Hty).
    unfold member_count in Hcount.
    destruct (filter (fun b => Nat.eqb (fromId b) cid) (bindings ed)) as [|m ms] eqn:Em;
      [contradiction Hcount; reflexivity|].
    assert (Hm : In m (filter (fun b => Nat.eqb (fromId b) cid) (bindings ed)))
      by (rewrite Em; left; reflexivity).
    apply filter_In in Hm. destruct Hm as [Hm Hmf]. apply Nat.eqb_eq in Hmf.
    destruct (typed_shapes ed m Hty Hm) as (c1 & _ & Hc1 & Tc1 & _).
    destruct (typed_shapes ed b Hty Hb) as (_ & e1 & _ & _ & He1 & Te1).
    exfalso. rewrite E, <- Hmf, Hc1 in He1. injection He1 as <-.
    rewrite Tc1 in Te1. discriminate Te1. }
  unfold ed'. rewrite (afterShapeChange_of_container ed0 cid Hnoto).
  change (bindings ed0) with (bindings ed).
  set (members := filter (fun b => Nat.eqb (fromId b) cid) (bindings ed)).
  assert (Hmembers : members <> []).
  { intros E. apply Hcount. unfold member_count. fold members. rewrite E. reflexivity. }
  destruct (exists_last Hmembers) as (front & last & Elast).
  rewrite Elast, fold_left_app. cbn [fold_left].
  set (pre := fold_left updateElementsForContainer front ed0).
  assert (Hlast : In last (bindings ed) /\ fromId last = cid).
  { assert (Hin : In last members)
      by (rewrite Elast; apply in_or_app; right; left; reflexivity).
    apply filter_In in Hin. destruct Hin as [Hin Hf]. apply Nat.eqb_eq in Hf. auto. }
  destruct Hlast as [Hlast Hlastf].
  assert (Hpre : bindings pre = bindings ed
                 /\ (forall id, type_of pre id = type_of ed id)
                 /\ exists c', Editor_getShape pre cid = Some c'
                      /\ shape_x c' = x /\ shape_y c' = y).
  { unfold pre.
    apply (fold_left_invariant
             (fun e => bindings e = bindings ed
                       /\ (forall id, type_of e id = type_of ed id)
                       /\ exists c', Editor_getShape e cid = Some c'
                            /\ shape_x c' = x /\ shape_y c' = y)).
    - intros e b Hb (Eb & Et & c1 & Hc1 & Hx & Hy).
      assert (Hbf : fromId b = cid).
      { assert (Hin : In b members) by (rewrite Elast; apply in_or_app; left; exact Hb).
        apply filter_In in Hin. apply Nat.eqb_eq. tauto. }
      destruct (updateElementsForContainer_bindings e b) as [Eb' _].
      split; [congruence|].
      split; [intros id; rewrite type_of_reflow; apply Et|].
      rewrite <- Hbf in Hc1.
      destruct (reflow_keeps_container_position e b c1 (Hty0 e Eb Et) Hc1)
        as (c2 & Hc2 & Hx2 & Hy2).
      exists c2. rewrite <- Hbf. split; [exact Hc2|]. split; congruence.
    - split; [reflexivity|].
      split; [intros id; apply type_of_updateShape|].
      exists (set_xy c x y). split; [|split; reflexivity].
      unfold ed0. rewrite Editor_getShape_updateShape. fold cid. rewrite Hc.
      cbn. fold cid. rewrite Nat.eqb_refl. reflexivity. }
  destruct Hpre as (Eb & Et & c1 & Hc1 & Hx & Hy).
  destruct (updateElementsForContainer_bindings pre last) as [Eb' _].
  split; [congruence|].
  assert (P2 : pair_unique pre) by (unfold pair_unique; rewrite Eb; exact Hpair).
  assert (K2 : keys_unique pre) by (unfold keys_unique; rewrite Eb; exact Hkeys).
  assert (T2 : ends_typed pre) by (apply Hty0; assumption).
  assert (M2 : member_count pre (fromId last) <> 0%nat).
  { unfold member_count. rewrite Eb, Hlastf. exact Hcount. }
  split.
  - rewrite <- Hlastf.
    apply (row_settled_weaken _ _
             (reflow_skips (toId last) (props_placeholder last))).
    + intros b Hb Hbf Hph. unfold reflow_skips.
      destruct (Nat.eqb_spec (toId last) (toId b)) as [E|NE]; [|reflexivity].
      cbn [andb]. rewrite Eb', Eb in Hb.
      assert (b = last).
      { apply (NoDup_map_eq_in ends (bindings ed)); auto.
        unfold ends. congruence. }
      subst b. exact Hph.
    + apply (reflow_settles_row pre last P2 K2 T2 M2).
  - rewrite <- Hlastf in Hc1.
    destruct (reflow_keeps_container_position pre last c1 T2 Hc1)
      as (c2 & Hc2 & Hx2 & Hy2).
    exists c2. rewrite <- Hlastf. split; [exact Hc2|]. split; congruence.
Qed.

End ContainerMoves.

(** ** Containers stay where they are *)

Section ContainerPositions.

Context {KS : KeySpace} {FR : Frames} {HT : HitTesting}.

(** What the handlers keep of a container [id]: relationships stay
    typed, the shape stays a container, and it stays at [v]. *)
Definition container_kept (id : ShapeId) (v : option (Z * Z)) (e : Editor) : Prop :=
  ends_typed e
  /\ type_of e id = Some ContainerShapeUtil_type
  /\ position_of e id = v.

Lemma ends_typed_reflow (ed : Editor) (trigger : LayoutBinding) :
  ends_typed ed -> ends_typed (updateElementsForContainer ed trigger).
Proof.
  apply ends_typed_from_old.
  - intros id. apply type_of_reflow.
  - destruct (updateElementsForContainer_bindings ed trigger) as [E _]. rewrite E.
    intros b Hb. exists b. auto.
Qed.

Lemma reflow_keeps_containers (ed : Editor) (trigger : LayoutBinding) (id : ShapeId)
    (v : option (Z * Z)) :
  container_kept id v ed -> container_kept id v (updateElementsForContainer ed trigger).
Proof.
  intros (Hty & Hc & Hv).
  split; [apply ends_typed_reflow; exact Hty|].
  split; [rewrite type_of_reflow; exact Hc|].
  rewrite <- Hv. unfold position_of.
  destruct (Nat.eq_dec id (fromId trigger)) as [E|NE].
  - subst id. unfold type_of, feature_of in Hc.
    destruct (Editor_getShape ed (fromId trigger)) as [c|] eqn:Ec; [|discriminate Hc].
    destruct (reflow_keeps_container_position ed trigger c Hty Ec) as (c' & Ec' & Hx & Hy).
    rewrite Ec'. cbn. rewrite Hx, Hy. reflexivity.
  - rewrite reflow_untouched; [reflexivity | exact NE |].
    intros b Hb _ Hto. exfalso.
    destruct (Hty b Hb) as [_ Ht]. rewrite Hto, Hc in Ht. discriminate Ht.
Qed.

Lemma notify_keeps_containers (ed : Editor) (ev : BindingEvent) (id : ShapeId)
    (v : option (Z * Z)) :
  container_kept id v ed -> container_kept id v (Editor_notify ed ev).
Proof.
  intros H. destruct ev; unfold Editor_notify; cbn [LayoutBindingUtil_handler];
    try exact H; apply reflow_keeps_containers; exact H.
Qed.

Lemma container_kept_same_shapes (ed mid : Editor) (id : ShapeId) (v : option (Z * Z)) :
  shapes mid = shapes ed ->
  (forall b', In b' (bindings mid) ->
     type_of ed (fromId b') = Some ContainerShapeUtil_type
     /\ type_of ed (toId b') = Some ElementShapeUtil_type) ->
  container_kept id v ed -> container_kept id v mid.
Proof.
  intros Esh Hb (Hty & Hc & Hv).
  assert (Hget : forall i, Editor_getShape mid i = Editor_getShape ed i)
    by (intros i; unfold Editor_getShape; rewrite Esh; reflexivity).
  split; [|split].
  - intros b' Hb'. unfold type_of, feature_of. rewrite !Hget. apply Hb. exact Hb'.
  - unfold type_of, feature_of. rewrite Hget. exact Hc.
  - unfold position_of. rewrite Hget. exact Hv.
Qed.

Lemma updateBindings_keeps_containers (ed : Editor) (bs : list LayoutBinding)
    (id : ShapeId) (v : option (Z * Z)) :
  ids_ok ed ->
  (forall b, In b bs -> restates (bindings ed) b) ->
  container_kept id v ed -> container_kept id v (Editor_updateBindings ed bs).
Proof.
  intros Hids Hr Hk.
  destruct (updateBindings_maps ed bs Hids Hr) as (_ & Hends & _).
  destruct (Editor_updateBindings_bindings ed bs) as [Est _].
  rewrite Est in Hends.
  unfold Editor_updateBindings.
  apply (fold_left_invariant (container_kept id v)).
  - intros e b _ He. destruct (Editor_getBinding ed (binding_id b)); [|exact He].
    apply notify_keeps_containers. exact He.
  - apply (container_kept_same_shapes ed); [reflexivity | | exact Hk].
    cbn [bindings]. intros b' Hb'. apply (in_map ends) in Hb'. rewrite Hends in Hb'.
    apply in_map_iff in Hb'. destruct Hb' as (b & E & Hb).
    unfold ends in E. injection E as E1 E2. rewrite <- E1, <- E2.
    destruct Hk as (Hty & _). apply Hty. exact Hb.
Qed.

Lemma deleteBindings_keeps_containers (ed : Editor) (bs : list LayoutBinding)
    (id : ShapeId) (v : option (Z * Z)) :
  container_kept id v ed -> container_kept id v (Editor_deleteBindings ed bs).
Proof.
  intros Hk. unfold Editor_deleteBindings.
  apply (fold_left_invariant (container_kept id v)).
  - intros e b _ He. apply notify_keeps_containers. exact He.
  - apply (container_kept_same_shapes ed); [reflexivity | | exact Hk].
    cbn [bindings]. intros b' Hb'. apply filter_In in Hb'.
    destruct Hk as (Hty & _). apply Hty. tauto.
Qed.

Lemma createBinding_keeps_containers (ed : Editor) (f t : ShapeId) (k : IndexKey)
    (ph : bool) (id : ShapeId) (v : option (Z * Z)) :
  type_of ed t = Some ElementShapeUtil_type ->
  container_kept id v ed -> container_kept id v (Editor_createBinding ed f t k ph).
Proof.
  intros Ht Hk. unfold Editor_createBinding.
  destruct (binding_allowed ed f t) eqn:Ha; [|exact Hk].
  apply notify_keeps_containers.
  apply (container_kept_same_shapes ed); [reflexivity | | exact Hk].
  cbn [bindings]. intros b' Hb'. apply in_app_or in Hb'.
  destruct Hb' as [Hb'|[<-|[]]]; [destruct Hk as (Hty & _); apply Hty; exact Hb'|].
  cbn [fromId toId]. split; [|exact Ht].
  unfold binding_allowed in Ha. unfold type_of, feature_of in *.
  destruct (Editor_getShape ed f) as [fs|]; [|discriminate].
  destruct (Editor_getShape ed t) as [ts|]; [|discriminate].
  cbn in *. injection Ht as Ht.
  apply Editor_canBindShapes_layout in Ha; [|right; right; right; exact Ht].
  destruct Ha as [Hf _]. rewrite Hf. reflexivity.
Qed.

Lemma handlers_keep_containers (ed : Editor) (shape : Shape) (id : ShapeId)
    (v : option (Z * Z)) :
  ids_ok ed ->
  Editor_getShape ed (shape_id shape) = Some shape ->
  shape_type shape = ElementShapeUtil_type ->
  container_kept id v ed ->
  container_kept id v (ElementShapeUtil_onTranslateStart ed shape)
  /\ container_kept id v (ElementShapeUtil_onTranslate ed shape)
  /\ container_kept id v (ElementShapeUtil_onTranslateEnd ed shape).
Proof.
  intros Hids Hs He Hk.
  assert (Hel : type_of ed (shape_id shape) = Some ElementShapeUtil_type)
    by (rewrite (type_of_stored ed shape Hs), He; reflexivity).
  split; [|split].
  - unfold ElementShapeUtil_onTranslateStart.
    apply updateBindings_keeps_containers; [exact Hids | | exact Hk].
    intros b Hb. apply in_map_iff in Hb. destruct Hb as (cur & <- & Hcur).
    apply filter_In in Hcur. exists cur. unfold ends. cbn. tauto.
  - unfold ElementShapeUtil_onTranslate.
    destruct (ElementShapeUtil_getTargetContainer ed shape (element_anchor shape)) as [t|];
      [|apply deleteBindings_keeps_containers; exact Hk].
    destruct (find _ _) as [ex|] eqn:Hfind;
      [|apply createBinding_keeps_containers; assumption].
    destruct (key_eqb _ _); [exact Hk|].
    apply find_own_Some in Hfind.
    apply updateBindings_keeps_containers; [exact Hids | | exact Hk].
    intros b [<-|[]]. exists ex. unfold ends. cbn. tauto.
  - unfold ElementShapeUtil_onTranslateEnd.
    destruct (ElementShapeUtil_getTargetContainer ed shape (element_anchor shape)) as [t|];
      [|exact Hk].
    apply createBinding_keeps_containers.
    + rewrite types_same_deleteBindings. exact Hel.
    + apply deleteBindings_keeps_containers. exact Hk.
Qed.

(** X14. The drag handlers never move a container.  On a store with
    distinct binding ids in which every relationship joins a stored
    container to a stored element, a stored shape of type 'container' is
    at the same position after [onTranslateStart], after [onTranslate]
    and after [onTranslateEnd] of any stored element: the reflows they
    set off move elements and resize containers, nothing else. *)
Theorem drag_handlers_never_move_containers (ed : Editor) (shape c : Shape) :
  ids_ok ed -> ends_typed ed ->
  Editor_getShape ed (shape_id shape) = Some shape ->
  shape_type shape = ElementShapeUtil_type ->
  Editor_getShape ed (shape_id c) = Some c ->
  shape_type c = ContainerShapeUtil_type ->
  forall ed',
    ed' = ElementShapeUtil_onTranslateStart ed shape
    \/ ed' = ElementShapeUtil_onTranslate ed shape
    \/ ed' = ElementShapeUtil_onTranslateEnd ed shape ->
    exists c', Editor_getShape ed' (shape_id c) = Some c'
      /\ shape_type c' = ContainerShapeUtil_type
      /\ shape_x c' = shape_x c /\ shape_y c' = shape_y c.
Proof.
  intros Hids Hty Hs He Hc Tc ed' Hed'.
  assert (Hk : container_kept (shape_id c) (Some (shape_x c, shape_y c)) ed).
  { split; [exact Hty|]. split.
    - rewrite (type_of_stored ed c Hc), Tc. reflexivity.
    - unfold position_of. rewrite Hc. reflexivity. }
  destruct (handlers_keep_containers ed shape _ _ Hids Hs He Hk) as (K1 & K2 & K3).
  assert (K : container_kept (shape_id c) (Some (shape_x c, shape_y c)) ed')
    by (destruct Hed' as [->|[->| ->]]; assumption).
  destruct K as (_ & Kt & Kp). unfold type_of, feature_of, position_of in Kt, Kp.
  destruct (Editor_getShape ed' (shape_id c)) as [c'|]; [|discriminate Kt].
  cbn in Kt, Kp. injection Kt as Kt. injection Kp as Kx Ky.
  exists c'. auto.
Qed.

End ContainerPositions.

(** ** A hover, looked at twice *)

Section HoverStability.

Context {KS : KeySpace} {FR : Frames} {HT : HitTesting}.

(** What a drag move over a target does, case by case: nothing, the
    element's relationship to the target having the computed key
    already; or one reflow of the store in which the element's
    relationship to the target, re-keyed or new, is a placeholder with
    the computed key. *)
Lemma onTranslate_over_target (ed : Editor) (shape t : Shape) :
  ids_ok ed -> pair_unique ed -> ends_typed ed ->
  Editor_getShape ed (shape_id shape) = Some shape ->
  ElementShapeUtil_getTargetContainer ed shape (element_anchor shape) = Some t ->
  let k := ElementShapeUtil_getBindingIndexForPosition ed shape t (element_anchor shape) in
  let ed1 := ElementShapeUtil_onTranslate ed shape in
  (ed1 = ed
   /\ exists ex, In ex (Editor_getBindingsFromShape ed t) /\ toId ex = shape_id shape
        /\ props_index ex = k)
  \/ (exists l1 olds l2 id nx,
        bindings ed = l1 ++ olds ++ l2
        /\ (List.length olds <= 1)%nat
        /\ (forall x, In x olds ->
              fromId x = shape_id t /\ toId x = shape_id shape /\ props_index x <> k)
        /\ (forall x, In x (l1 ++ l2) -> fromId x = shape_id t -> toId x <> shape_id shape)
        /\ ed1 = updateElementsForContainer
                   (mkEditor (shapes ed)
                      (l1 ++ mkBinding id (shape_id t) (shape_id shape) k true :: l2) nx)
                   (mkBinding id (shape_id t) (shape_id shape) k true)).
Proof.
  intros Hids Hpair Hty Hs Ht k ed1. subst ed1.
  unfold ElementShapeUtil_onTranslate. rewrite Ht. fold k.
  destruct (find (fun b => Nat.eqb (toId b) (shape_id shape))
              (Editor_getBindingsFromShape ed t)) as [ex|] eqn:Hfind.
  - pose proof (find_own_Some ed t _ ex Hfind) as (Hex & Hfrom & Hto).
    destruct (key_eqb (props_index ex) k) eqn:Ekey.
    + left. split; [reflexivity|]. exists ex.
      split; [|split; [exact Hto | apply key_eqb_eq; exact Ekey]].
      apply filter_In. split; [exact Hex | apply Nat.eqb_eq; exact Hfrom].
    + right.
      destruct (split_at_id (bindings ed) ex (proj1 Hids) Hex) as (l1 & l2 & El & Hother).
      exists l1, [ex], l2, (binding_id ex), (nextBindingId ed).
      split; [exact El|]. split; [cbn; lia|]. split; [|split].
      * intros x [<-|[]]. split; [exact Hfrom|]. split; [exact Hto|].
        apply key_eqb_neq. exact Ekey.
      * intros x Hx Hxf Hxt.
        assert (Hxin : In x (bindings ed)).
        { rewrite El. apply in_app_or in Hx. apply in_or_app.
          destruct Hx as [Hx|Hx]; [left|right; right]; exact Hx. }
        assert (x = ex).
        { apply (NoDup_map_eq_in ends (bindings ed)); auto.
          unfold ends. congruence. }
        subst x. exact (Hother ex Hx eq_refl).
      * rewrite Hfrom, Hto.
        set (b' := mkBinding (binding_id ex) (shape_id t) (shape_id shape) k true).
        assert (Hchg : binding_changes ed b' = true).
        { unfold binding_changes. cbn [binding_id b'].
          rewrite (Editor_getBinding_stored ed ex (proj1 Hids) Hex).
          apply andb_true_iff. split.
          - apply negb_true_iff. unfold binding_eqb. cbn [props_index b'].
            rewrite Ekey. rewrite andb_false_r. reflexivity.
          - cbn [fromId toId b']. rewrite <- Hfrom, <- Hto.
            apply binding_allowed_typed; assumption. }
        unfold Editor_updateBinding, Editor_updateBindings. cbn [filter].
        rewrite Hchg. cbn [fold_left binding_id b'].
        rewrite (Editor_getBinding_stored ed ex (proj1 Hids) Hex).
        rewrite El at 1.
        rewrite (put_binding_split b' ex l1 l2 eq_refl Hother).
        reflexivity.
  - right. exists (bindings ed), [], [], (nextBindingId ed), (S (nextBindingId ed)).
    split; [cbn [app]; symmetry; apply app_nil_r|].
    split; [cbn; lia|]. split; [intros x []|]. split.
    + intros x Hx Hxf. rewrite app_nil_r in Hx.
      apply (find_own_None ed t _ Hfind).
      apply filter_In. split; [exact Hx | apply Nat.eqb_eq; exact Hxf].
    + apply Editor_createBinding_allowed.
      apply (target_allowed ed shape t _ Hs Ht).
Qed.

Lemma typed_no_relationship_from_element (ed : Editor) (shape : Shape) :
  ends_typed ed ->
  Editor_getShape ed (shape_id shape) = Some shape ->
  shape_type shape = ElementShapeUtil_type ->
  forall b, In b (bindings ed) -> fromId b <> shape_id shape.
Proof.
  intros Hty Hs He b Hb E.
  destruct (typed_shapes ed b Hty Hb) as (c & _ & Hc & Tc & _).
  rewrite E, Hs in Hc. injection Hc as <-. rewrite He in Tc. discriminate Tc.
Qed.

Lemma filter_perm {X : Type} (keep : X -> bool) (xs ys : list X) :
  Permutation xs ys -> Permutation (filter keep xs) (filter keep ys).
Proof.
  intros Hp.
  induction Hp as [|x l l' Hp IH|x y l|l l' l'' Hp1 IH1 Hp2 IH2]; cbn [filter].
  - constructor.
  - destruct (keep x); [constructor|]; exact IH.
  - destruct (keep x), (keep y); try apply Permutation_refl. constructor.
  - exact (Permutation_trans IH1 IH2).
Qed.

Lemma sorted_filter (keep : LayoutBinding -> bool) (l : list LayoutBinding) :
  StronglySorted index_lt l -> StronglySorted index_lt (filter keep l).
Proof.
  intros Hs. induction Hs as [|a r Hs IH Hall]; cbn [filter]; [constructor|].
  destruct (keep a); [|exact IH].
  constructor; [exact IH|].
  rewrite Forall_forall in *. intros x Hx. apply Hall.
  apply filter_In in Hx. tauto.
Qed.

(** The row of the target after a drag move that re-keyed or created the
    element's relationship [own']: the relationship is the element's only
    one in the row; it stands at the slot the move computed, or one
    before; the other members are in the order they were in; and the
    container is the record it was but for its size. *)
Lemma hover_landing (ed : Editor) (shape t : Shape)
    (l1 olds l2 : list LayoutBinding) (id nx : nat) :
  pair_unique ed -> keys_unique ed -> size_ok ed -> ends_typed ed ->
  keys_unique (ElementShapeUtil_onTranslate ed shape) ->
  Editor_getShape ed (shape_id shape) = Some shape ->
  shape_type shape = ElementShapeUtil_type ->
  ElementShapeUtil_getTargetContainer ed shape (element_anchor shape) = Some t ->
  let k := ElementShapeUtil_getBindingIndexForPosition ed shape t (element_anchor shape) in
  let own' := mkBinding id (shape_id t) (shape_id shape) k true in
  let ed1 := ElementShapeUtil_onTranslate ed shape in
  bindings ed = l1 ++ olds ++ l2 ->
  (List.length olds <= 1)%nat ->
  (forall x, In x olds ->
     fromId x = shape_id t /\ toId x = shape_id shape /\ props_index x <> k) ->
  (forall x, In x (l1 ++ l2) -> fromId x = shape_id t -> toId x <> shape_id shape) ->
  ed1 = updateElementsForContainer
          (mkEditor (shapes ed) (l1 ++ own' :: l2) nx) own' ->
  let others := fun b : LayoutBinding => negb (Nat.eqb (toId b) (shape_id shape)) in
  let L := sort_by_index (Editor_getBindingsFromShape ed t) in
  let L1 := sort_by_index (Editor_getBindingsFromShape ed1 t) in
  let o := slot_order (List.length (filter others L)) t (element_anchor shape) in
  In own' (Editor_getBindingsFromShape ed1 t)
  /\ (forall b, In b L1 -> toId b = shape_id shape -> b = own')
  /\ (exists q, nth_error L1 q = Some own'
        /\ (o = Z.of_nat q \/ o = Z.of_nat q + 1)
        /\ (olds = [] -> L <> [] -> o = Z.of_nat q))
  /\ filter others L1 = filter others L
  /\ exists t1, Editor_getShape ed1 (shape_id t) = Some t1 /\ shape_x t1 = shape_x t.
Proof.
  intros Hpair Hkeys Hsize Hty Hkeys1 Hs He Ht k own' ed1 El Holds Hold Hrest Erun
    others L L1 o.
  pose proof Ht as Hst. unfold ElementShapeUtil_getTargetContainer in Hst.
  apply getShapeAtPoint_stored in Hst.
  destruct (target_is_another_shape ed shape t _ Hs He Ht) as [Tc _].
  set (mid := mkEditor (shapes ed) (l1 ++ own' :: l2) nx) in *.
  destruct (updateElementsForContainer_bindings mid own') as [Eb _].
  rewrite <- Erun in Eb. unfold mid in Eb. cbn [bindings] in Eb.
  set (from_t := fun b : LayoutBinding => Nat.eqb (fromId b) (shape_id t)).
  set (m1 := filter from_t l1). set (m2 := filter from_t l2).
  assert (Hmem : Editor_getBindingsFromShape ed t = m1 ++ olds ++ m2).
  { unfold Editor_getBindingsFromShape. fold from_t.
    rewrite El, !filter_app. fold m1. fold m2. f_equal. f_equal.
    apply filter_all. intros x Hx. unfold from_t. apply Nat.eqb_eq.
    apply (Hold x Hx). }
  assert (Hmem' : Editor_getBindingsFromShape ed1 t = m1 ++ own' :: m2).
  { unfold Editor_getBindingsFromShape. rewrite Eb. fold from_t.
    rewrite filter_app. cbn [filter]. unfold from_t at 2. cbn [fromId own'].
    rewrite Nat.eqb_refl. reflexivity. }
  assert (Hm : forall x, In x (m1 ++ m2) -> toId x <> shape_id shape).
  { intros x Hx. apply in_app_or in Hx.
    assert (Hx' : In x (l1 ++ l2) /\ from_t x = true).
    { destruct Hx as [Hx|Hx]; apply filter_In in Hx; destruct Hx as [Hx Hf];
        (split; [apply in_or_app; auto | exact Hf]). }
    destruct Hx' as [Hx1 Hx2]. apply Nat.eqb_eq in Hx2.
    apply (Hrest x Hx1 Hx2). }
  assert (HL : L = sort_by_index (m1 ++ olds ++ m2)) by (unfold L; rewrite Hmem; reflexivity).
  assert (HL1 : L1 = sort_by_index (m1 ++ own' :: m2))
    by (unfold L1; rewrite Hmem'; reflexivity).
  assert (HsL : StronglySorted index_lt L).
  { unfold L. apply sort_by_index_sorted. apply keys_unique_members. exact Hkeys. }
  assert (HsL1 : StronglySorted index_lt L1).
  { unfold L1. apply sort_by_index_sorted. apply keys_unique_members. exact Hkeys1. }
  pose proof (slot_order_bounds (List.length (filter others L)) t
                (element_anchor shape)) as Hob.
  fold o in Hob.
  assert (Hkdef :
    k = match own_key shape (js_index L (o - 1)) with
        | Some index => index
        | None =>
            match own_key shape (js_index L o) with
            | Some index => index
            | None =>
                getIndexBetween (option_map props_index (js_index L (o - 1)))
                  (option_map props_index (js_index L o))
            end
        end) by reflexivity.
  assert (Hold_own : forall i b, js_index L i = Some b -> toId b = shape_id shape ->
            In b olds).
  { intros i b Hb Hbto. apply js_index_In in Hb. rewrite HL in Hb.
    apply (proj1 (sort_by_index_In _ _)) in Hb.
    apply in_app_or in Hb. destruct Hb as [Hb|Hb];
      [exfalso; apply (Hm b); [apply in_or_app; left; exact Hb | exact Hbto]|].
    apply in_app_or in Hb. destruct Hb as [Hb|Hb]; [exact Hb|].
    exfalso. apply (Hm b); [apply in_or_app; right; exact Hb | exact Hbto]. }
  assert (Hk : k = getIndexBetween (option_map props_index (js_index L (o - 1)))
                     (option_map props_index (js_index L o))).
  { destruct (own_key shape (js_index L (o - 1))) as [i1|] eqn:E1.
    - exfalso. apply own_key_Some in E1. destruct E1 as (b1 & Eb1 & Hb1 & ->).
      destruct (Hold b1 (Hold_own _ _ Eb1 Hb1)) as (_ & _ & Hne).
      apply Hne. symmetry. exact Hkdef.
    - destruct (own_key shape (js_index L o)) as [i2|] eqn:E2; [|exact Hkdef].
      exfalso. apply own_key_Some in E2. destruct E2 as (b2 & Eb2 & Hb2 & ->).
      destruct (Hold b2 (Hold_own _ _ Eb2 Hb2)) as (_ & _ & Hne).
      apply Hne. symmetry. exact Hkdef. }
  pose proof (between_neighbours L o HsL) as Hbn. cbv zeta in Hbn.
  rewrite <- Hk in Hbn. destruct Hbn as (Hlo & Hhi & _).
  split; [rewrite Hmem'; apply in_or_app; right; left; reflexivity|].
  split.
  { intros b Hb Hbto. rewrite HL1 in Hb.
    apply (proj1 (sort_by_index_In _ _)) in Hb.
    apply in_app_or in Hb. destruct Hb as [Hb|[<-|Hb]]; [|reflexivity|].
    - exfalso. apply (Hm b); [apply in_or_app; left; exact Hb | exact Hbto].
    - exfalso. apply (Hm b); [apply in_or_app; right; exact Hb | exact Hbto]. }
  split.
  { (* where the element's relationship stands in the new list *)
    assert (Hq1 : nth_error L1 (count_below k L1) = Some own').
    { apply (sorted_position L1 own' HsL1). rewrite HL1.
      apply sort_by_index_In. apply in_or_app. right. left. reflexivity. }
    assert (H1 : count_below k L
                 = (count_below k m1 + (count_below k olds + count_below k m2))%nat).
    { rewrite HL, (count_below_perm k _ _ (sort_by_index_perm _)).
      rewrite !count_below_app. reflexivity. }
    assert (H2 : count_below k L1 = (count_below k m1 + count_below k m2)%nat).
    { rewrite HL1, (count_below_perm k _ _ (sort_by_index_perm _)).
      rewrite count_below_app. f_equal.
      unfold count_below. cbn [filter]. unfold below_key at 1. cbn [props_index own'].
      rewrite key_ltb_irrefl. reflexivity. }
    assert (H3 : (count_below k olds <= 1)%nat).
    { unfold count_below. pose proof (filter_length_le (below_key k) olds). lia. }
    assert (Hgap : 0 <= o <= Z.of_nat (List.length L) -> count_below k L = Z.to_nat o).
    { intros Hrange. apply count_below_gap; [exact HsL | lia | |].
      - intros a Hpos Ha. apply Hlo. unfold js_index.
        destruct (o - 1 <? 0) eqn:E; [apply Z.ltb_lt in E; lia|].
        replace (Z.to_nat (o - 1)) with (Z.to_nat o - 1)%nat by lia. exact Ha.
      - intros b Hb. apply Hhi. unfold js_index.
        destruct (o <? 0) eqn:E; [apply Z.ltb_lt in E; lia|]. exact Hb. }
    exists (count_below k L1). split; [exact Hq1|].
    destruct olds as [|ex [|ex2 olds']]; [| |cbn in Holds; lia].
    - assert (H4 : count_below k ([] : list LayoutBinding) = 0%nat) by reflexivity.
      destruct (target_case ed shape t (element_anchor shape) Hsize Ht)
        as [(x & Hx & Hxto)|[Hempty|Hround]].
      + exfalso. rewrite Hmem in Hx. cbn [app] in Hx. exact (Hm x Hx Hxto).
      + assert (EL : L = []) by (unfold L; rewrite Hempty; reflexivity).
        rewrite EL in *. cbn [filter List.length] in Hob.
        unfold count_below at 1 in H1. cbn [filter List.length] in H1.
        split; [lia|]. intros _ Hne. contradiction Hne. reflexivity.
      + assert (Hrange : 0 <= o <= Z.of_nat (List.length L)).
        { split; [lia|]. unfold L. rewrite sort_by_index_length.
          unfold o, slot_order, clamp, CONTAINER_PADDING.
          replace (100 + 24) with 124 by reflexivity. lia. }
        specialize (Hgap Hrange). split; [lia|]. intros _ _. lia.
    - assert (Hrange : 0 <= o <= Z.of_nat (List.length L)).
      { split; [lia|].
        assert (HexL : In ex L).
        { rewrite HL. apply sort_by_index_In. apply in_or_app. right. left. reflexivity. }
        assert (Hexo : others ex = false).
        { unfold others. destruct (Hold ex (or_introl eq_refl)) as (_ & E & _).
          rewrite E, Nat.eqb_refl. reflexivity. }
        pose proof (filter_length_lt others L ex HexL Hexo). lia. }
      specialize (Hgap Hrange). split; [lia|]. intros E. discriminate E. }
  split.
  { (* the other members keep their order *)
    apply sorted_permutation_unique.
    - apply sorted_filter. exact HsL1.
    - apply sorted_filter. exact HsL.
    - rewrite HL1, HL.
      apply (Permutation_trans (filter_perm others _ _ (sort_by_index_perm _))).
      apply Permutation_sym.
      apply (Permutation_trans (filter_perm others _ _ (sort_by_index_perm _))).
      rewrite !filter_app. cbn [filter].
      assert (E1 : others own' = false)
        by (unfold others; cbn [toId own']; rewrite Nat.eqb_refl; reflexivity).
      rewrite E1, (filter_none others olds); [apply Permutation_refl|].
      intros x Hx. unfold others. destruct (Hold x Hx) as (_ & E & _).
      rewrite E, Nat.eqb_refl. reflexivity. }
  (* the container is where it was *)
  assert (T2 : ends_typed mid).
  { intros a Ha. unfold mid in Ha. cbn [bindings] in Ha.
    change (type_of mid (fromId a)) with (type_of ed (fromId a)).
    change (type_of mid (toId a)) with (type_of ed (toId a)).
    apply in_app_or in Ha. destruct Ha as [Ha|[<-|Ha]].
    - apply Hty. rewrite El. apply in_or_app. left. exact Ha.
    - cbn [fromId toId own'].
      rewrite (type_of_stored ed t Hst), (type_of_stored ed shape Hs), Tc, He.
      split; reflexivity.
    - apply Hty. rewrite El. apply in_or_app. right. apply in_or_app. right. exact Ha. }
  assert (Hmid_t : Editor_getShape mid (fromId own') = Some t) by exact Hst.
  destruct (reflow_keeps_container_position mid own' t T2 Hmid_t)
    as (t1 & Ht1 & Hx1 & _).
  rewrite <- Erun in Ht1. exists t1. split; [exact Ht1 | exact Hx1].
Qed.

(** X15. A hover is stable.  Take a store with distinct binding ids, one
    relationship per pair, distinct keys per container, containers sized
    to their members and every relationship joining a stored container to
    a stored element, and a drag move of a stored element that resolves a
    target.  If, after that move, the same anchor resolves the same
    container again, then the element has a relationship to the container
    whose key is what [getBindingIndexForPosition] now returns; a second
    drag move leaves the editor exactly as the first left it; and a drag
    end commits a relationship with that same key. *)
Theorem hover_is_stable (ed : Editor) (shape t t' : Shape) :
  ids_ok ed -> pair_unique ed -> keys_unique ed -> size_ok ed -> ends_typed ed ->
  Editor_getShape ed (shape_id shape) = Some shape ->
  shape_type shape = ElementShapeUtil_type ->
  ElementShapeUtil_getTargetContainer ed shape (element_anchor shape) = Some t ->
  let ed1 := ElementShapeUtil_onTranslate ed shape in
  ElementShapeUtil_getTargetContainer ed1 shape (element_anchor shape) = Some t' ->
  shape_id t' = shape_id t ->
  exists own,
    In own (bindings ed1) /\ fromId own = shape_id t /\ toId own = shape_id shape
    /\ ElementShapeUtil_getBindingIndexForPosition ed1 shape t' (element_anchor shape)
       = props_index own
    /\ ElementShapeUtil_onTranslate ed1 shape = ed1
    /\ In (mkBinding (nextBindingId ed1) (shape_id t) (shape_id shape)
             (props_index own) false)
          (bindings (ElementShapeUtil_onTranslateEnd ed1 shape)).
Proof.
  intros Hids Hpair Hkeys Hsize Hty Hs He Ht ed1 Ht' Hid'.
  destruct (hands_on_onTranslate ed shape Hids) as (Hids1 & Hpair1 & _ & _ & Hkeys1).
  specialize (Hpair1 Hpair). specialize (Hkeys1 Hpair Hsize Hkeys).
  fold ed1 in Hids1, Hpair1.
  pose proof Ht as Hst. unfold ElementShapeUtil_getTargetContainer in Hst.
  apply getShapeAtPoint_stored in Hst.
  pose proof Ht' as Hst'. unfold ElementShapeUtil_getTargetContainer in Hst'.
  apply getShapeAtPoint_stored in Hst'.
  assert (Hmem' : Editor_getBindingsFromShape ed1 t' = Editor_getBindingsFromShape ed1 t)
    by (unfold Editor_getBindingsFromShape; rewrite Hid'; reflexivity).
  assert (Hcore : exists own,
            In own (Editor_getBindingsFromShape ed1 t') /\ toId own = shape_id shape
            /\ ElementShapeUtil_getBindingIndexForPosition ed1 shape t'
                 (element_anchor shape)
               = props_index own).
  { destruct (onTranslate_over_target ed shape t Hids Hpair Hty Hs Ht)
      as [[Esame (ex & Hex & Hto & Ek)]
         |(l1 & olds & l2 & id & nx & El & Holds & Hold & Hrest & Erun)];
      [fold ed1 in Esame | fold ed1 in Erun].
    - (* nothing changed *)
      assert (t' = t).
      { rewrite Esame, Hid', Hst in Hst'. injection Hst' as <-. reflexivity. }
      subst t'. exists ex. rewrite Esame. auto.
    - (* one reflow, the element's relationship a placeholder with the new key *)
      destruct (hover_landing ed shape t l1 olds l2 id nx Hpair Hkeys Hsize Hty Hkeys1
                  Hs He Ht El Holds Hold Hrest Erun)
        as (Hown & Huniq & (q & Hq & Hoq & _) & Hsib & (t1 & Ht1 & Hx)).
      fold ed1 in Hown, Huniq, Hq, Hsib, Ht1.
      assert (t1 = t') by (rewrite Hid', Ht1 in Hst'; injection Hst' as <-; reflexivity).
      subst t1.
      eexists. split; [rewrite Hmem'; exact Hown|]. split; [reflexivity|].
      apply (index_of_member_near_own_slot ed1 shape t' (element_anchor shape) _ q).
      + rewrite Hmem'. exact Hq.
      + reflexivity.
      + rewrite Hmem'. intros b Hb Hbto. rewrite (Huniq b Hb Hbto). reflexivity.
      + rewrite Hmem', Hsib. unfold slot_order. rewrite Hx. exact Hoq. }
  destruct Hcore as (own & Hown & Hoto & Hindex).
  pose proof Hown as Hown'. apply filter_In in Hown'.
  destruct Hown' as [Hown1 Hofrom]. apply Nat.eqb_eq in Hofrom.
  exists own. split; [exact Hown1|]. split; [congruence|]. split; [exact Hoto|].
  split; [exact Hindex|]. split.
  - unfold ElementShapeUtil_onTranslate. rewrite Ht', Hindex.
    destruct (find (fun b => Nat.eqb (toId b) (shape_id shape))
                (Editor_getBindingsFromShape ed1 t')) as [ex|] eqn:Hfind.
    + pose proof (find_own_Some ed1 t' _ ex Hfind) as (Hex & Hexf & Hext).
      assert (ex = own).
      { apply (NoDup_map_eq_in ends (bindings ed1)); auto.
        unfold ends. congruence. }
      subst ex. rewrite key_eqb_refl. reflexivity.
    + exfalso. exact (find_own_None ed1 t' _ Hfind own Hown Hoto).
  - assert (Hs1 : type_of ed1 (shape_id shape) = Some (shape_type shape)).
    { unfold ed1. rewrite types_same_onTranslate. apply type_of_stored. exact Hs. }
    unfold ElementShapeUtil_onTranslateEnd. rewrite Ht', Hindex.
    set (ed2 := Editor_deleteBindings ed1 (Editor_getBindingsToShape ed1 shape)).
    assert (Hal : binding_allowed ed2 (shape_id t') (shape_id shape) = true).
    { unfold ed2.
      rewrite (binding_allowed_types ed1 _ _ _
                 (fun id => types_same_deleteBindings ed1 _ id)).
      apply (target_allowed_typed ed1 shape t' _ Hs1 Ht'). }
    destruct (Editor_createBinding_bindings ed2 (shape_id t') (shape_id shape)
                (props_index own) false) as [Hyes _].
    destruct (Hyes Hal) as [E _]. rewrite E.
    apply in_or_app. right. left.
    destruct (Editor_deleteBindings_bindings ed1 (Editor_getBindingsToShape ed1 shape))
      as [_ En].
    fold ed2 in En. rewrite En, Hid'. reflexivity.
Qed.

(** X16. The dragged element lands at the slot under its anchor, and
    nobody else changes place.  On a store with distinct binding ids, one
    relationship per pair, distinct keys per container, containers sized
    to their members and every relationship joining a stored container to
    a stored element, when a drag move of a stored element resolves a
    target and changes the store, then in the target's row, sorted by
    key: the other members stand in
    the order they stood in before; the element's relationship, its only
    one in the row, is a placeholder that carries the computed key and
    stands at the position of the computed slot, or one before it (its
    old self having stood below the slot); and an element that was no
    member of a row that had members stands exactly at the computed
    slot. *)
Theorem hover_lands_at_the_slot (ed : Editor) (shape t : Shape) :
  ids_ok ed -> pair_unique ed -> keys_unique ed -> size_ok ed -> ends_typed ed ->
  Editor_getShape ed (shape_id shape) = Some shape ->
  shape_type shape = ElementShapeUtil_type ->
  ElementShapeUtil_getTargetContainer ed shape (element_anchor shape) = Some t ->
  let ed1 := ElementShapeUtil_onTranslate ed shape in
  ed1 <> ed ->
  let others := fun b : LayoutBinding => negb (Nat.eqb (toId b) (shape_id shape)) in
  let row := sort_by_index (Editor_getBindingsFromShape ed t) in
  let row1 := sort_by_index (Editor_getBindingsFromShape ed1 t) in
  let slot := slot_order (List.length (filter others row)) t (element_anchor shape) in
  filter others row1 = filter others row
  /\ exists own q,
      nth_error row1 q = Some own
      /\ toId own = shape_id shape
      /\ props_placeholder own = true
      /\ props_index own
         = ElementShapeUtil_getBindingIndexForPosition ed shape t (element_anchor shape)
      /\ (forall b, In b row1 -> toId b = shape_id shape -> b = own)
      /\ (slot = Z.of_nat q \/ slot = Z.of_nat q + 1)
      /\ (filter others row = row -> row <> [] -> slot = Z.of_nat q).
Proof.
  intros Hids Hpair Hkeys Hsize Hty Hs He Ht ed1 Hch others row row1 slot.
  destruct (hands_on_onTranslate ed shape Hids) as (_ & _ & _ & _ & Hkeys1).
  specialize (Hkeys1 Hpair Hsize Hkeys).
  destruct (onTranslate_over_target ed shape t Hids Hpair Hty Hs Ht)
    as [[Esame _]
       |(l1 & olds & l2 & id & nx & El & Holds & Hold & Hrest & Erun)];
    [contradiction Hch; exact Esame|].
  destruct (hover_landing ed shape t l1 olds l2 id nx Hpair Hkeys Hsize Hty Hkeys1
              Hs He Ht El Holds Hold Hrest Erun)
    as (Hown & Huniq & (q & Hq & Hoq & Hexact) & Hsib & _).
  split; [exact Hsib|].
  eexists. exists q. split; [exact Hq|].
  split; [reflexivity|]. split; [reflexivity|]. split; [reflexivity|].
  split; [exact Huniq|]. split; [exact Hoq|].
  intros Hall Hne. apply Hexact; [|exact Hne].
  destruct olds as [|ex olds']; [reflexivity|]. exfalso.
  destruct (Hold ex (or_introl eq_refl)) as (Hexf & Hext & _).
  assert (Hin : In ex row).
  { unfold row. apply sort_by_index_In. apply filter_In. split.
    - rewrite El. apply in_or_app. right. left. reflexivity.
    - apply Nat.eqb_eq. exact Hexf. }
  fold row in Hall. rewrite <- Hall in Hin. apply filter_In in Hin.
  destruct Hin as [_ Hin]. unfold others in Hin. rewrite Hext, Nat.eqb_refl in Hin.
  discriminate Hin.
Qed.

End HoverStability.

(** ** From one container to another *)

Section Transfer.

Context {KS : KeySpace} {FR : Frames} {HT : HitTesting}.

Lemma reflow_of_no_members (ed : Editor) (trigger : LayoutBinding) :
  member_count ed (fromId trigger) = 0%nat ->
  updateElementsForContainer ed trigger = ed.
Proof.
  intros Hzero. unfold updateElementsForContainer.
  destruct (Editor_getShape ed (fromId trigger)) as [c|] eqn:Hc.
  - rewrite (updateElementsForContainer_empty ed trigger c Hc); [reflexivity|].
    pose proof (Editor_getShape_id ed _ _ Hc) as Hcid.
    unfold member_count in Hzero. unfold Editor_getBindingsFromShape. rewrite Hcid.
    apply length_zero_iff_nil. exact Hzero.
  - rewrite (updateElementsForContainer_missing ed trigger Hc). reflexivity.
Qed.

(** A row in order stays in order through the reflow of another row
    that shares no element with it. *)
Lemma row_settled_frame (ed : Editor) (trigger : LayoutBinding) (cid : ShapeId)
    (left_out : LayoutBinding -> bool) :
  ends_typed ed ->
  cid <> fromId trigger ->
  (forall b, In b (bindings ed) -> fromId b = fromId trigger -> toId b <> cid) ->
  (forall b1 b2, In b1 (bindings ed) -> In b2 (bindings ed) ->
     fromId b1 = cid -> fromId b2 = fromId trigger -> toId b1 <> toId b2) ->
  row_settled ed cid left_out ->
  row_settled (updateElementsForContainer ed trigger) cid left_out.
Proof.
  intros Hty Hne Hnotc Hdisj Hrow.
  destruct (Nat.eq_dec (member_count ed (fromId trigger)) 0) as [Hzero|Hsome];
    [rewrite (reflow_of_no_members ed trigger Hzero); exact Hrow|].
  assert (Tc : type_of ed (fromId trigger) = Some ContainerShapeUtil_type).
  { unfold member_count in Hsome.
    destruct (filter (fun b => Nat.eqb (fromId b) (fromId trigger)) (bindings ed))
      as [|m ms] eqn:Em; [contradiction Hsome; reflexivity|].
    assert (Hm : In m (filter (fun b => Nat.eqb (fromId b) (fromId trigger)) (bindings ed)))
      by (rewrite Em; left; reflexivity).
    apply filter_In in Hm. destruct Hm as [Hm Hmf]. apply Nat.eqb_eq in Hmf.
    rewrite <- Hmf. apply (Hty m Hm). }
  destruct Hrow as (c & row & Hc & Hw & Hh & Hperm & Hsorted & Hslots).
  pose proof (Editor_getShape_id ed _ _ Hc) as Hcid.
  destruct (updateElementsForContainer_bindings ed trigger) as [Eb _].
  assert (Hkeep : Editor_getShape (updateElementsForContainer ed trigger) cid
                  = Editor_getShape ed cid)
    by (apply reflow_untouched; [exact Hne | exact Hnotc]).
  exists c, row. split; [rewrite Hkeep; exact Hc|].
  split; [unfold member_count; rewrite Eb; exact Hw|]. split; [exact Hh|].
  split; [rewrite (Editor_getBindingsFromShape_same ed _ c c Eb eq_refl); exact Hperm|].
  split; [exact Hsorted|].
  intros i b Hi Hout.
  destruct (Hslots i b Hi Hout) as (s & Hs & Hpos).
  exists s. split; [|exact Hpos].
  assert (Hb : In b (bindings ed) /\ fromId b = cid).
  { apply nth_error_In in Hi. apply (Permutation_in _ Hperm) in Hi.
    apply filter_In in Hi. destruct Hi as [Hi Hf]. apply Nat.eqb_eq in Hf.
    split; [exact Hi | congruence]. }
  destruct Hb as [Hb Hbf].
  rewrite reflow_untouched; [exact Hs | |].
  - intros E. destruct (Hty b Hb) as [_ Te]. rewrite E, Tc in Te. discriminate Te.
  - intros b2 Hb2 Hb2f Hb2t.
    exact (Hdisj b b2 Hb Hb2 Hbf Hb2f (eq_sym Hb2t)).
Qed.

(** Deleting the relationships of an element: the records go first,
    then the utility is told of each in turn, which is one reflow for
    each container the element has left. *)
Definition reflows (triggers : list LayoutBinding) (ed : Editor) : Editor :=
  fold_left (fun e b => updateElementsForContainer e b) triggers ed.

Lemma deleteBindings_of_shape (ed : Editor) (shape : Shape) :
  NoDup (map binding_id (bindings ed)) ->
  Editor_deleteBindings ed (Editor_getBindingsToShape ed shape)
  = reflows (Editor_getBindingsToShape ed shape)
      (mkEditor (shapes ed) (filter (of_others shape) (bindings ed)) (nextBindingId ed)).
Proof.
  intros Hnd.
  pose proof (others_deleteBindings ed shape Hnd) as Hrest.
  destruct (Editor_deleteBindings_bindings ed (Editor_getBindingsToShape ed shape))
    as [E _].
  rewrite E in Hrest.
  assert (Hgone : filter (doomed (Editor_getBindingsToShape ed shape)) (bindings ed)
                  = Editor_getBindingsToShape ed shape).
  { unfold Editor_getBindingsToShape at 2. apply filter_ext_in_bool. intros b Hb.
    destruct (Nat.eqb_spec (toId b) (shape_id shape)) as [Hto|Hto];
      [apply to_shape_doomed; assumption|].
    destruct (doomed (Editor_getBindingsToShape ed shape) b) eqn:Hd; [|reflexivity].
    exfalso. unfold doomed in Hd. apply existsb_exists in Hd.
    destruct Hd as (d & Hd & Eid). apply Nat.eqb_eq in Eid.
    apply filter_In in Hd. destruct Hd as [Hd Hdto]. apply Nat.eqb_eq in Hdto.
    assert (d = b) by (apply (NoDup_map_eq_in binding_id _ d b Hnd Hd Hb Eid)).
    subst d. contradiction. }
  change (Editor_deleteBindings ed (Editor_getBindingsToShape ed shape))
    with (fold_left (fun e b => Editor_notify e (AfterDelete b))
            (filter (doomed (Editor_getBindingsToShape ed shape)) (bindings ed))
            (mkEditor (shapes ed)
               (filter (fun b => negb (doomed (Editor_getBindingsToShape ed shape) b))
                  (bindings ed))
               (nextBindingId ed))).
  rewrite Hgone, Hrest. reflexivity.
Qed.

Lemma reflows_bindings (triggers : list LayoutBinding) (ed : Editor) :
  bindings (reflows triggers ed) = bindings ed.
Proof.
  unfold reflows.
  apply (fold_left_invariant (fun e => bindings e = bindings ed)); [|reflexivity].
  intros e x _ He.
  destruct (updateElementsForContainer_bindings e x) as [E _]. rewrite E. exact He.
Qed.

Lemma type_of_reflows (triggers : list LayoutBinding) (ed : Editor) (id : ShapeId) :
  type_of (reflows triggers ed) id = type_of ed id.
Proof.
  unfold reflows. apply type_of_fold. intros e x. apply type_of_reflow.
Qed.

Lemma ends_typed_reflows (triggers : list LayoutBinding) (ed : Editor) :
  ends_typed ed -> ends_typed (reflows triggers ed).
Proof.
  intros Hty. unfold reflows. apply (fold_left_invariant ends_typed); [|exact Hty].
  intros e x _. apply ends_typed_reflow.
Qed.

(** A row in order stays in order through the reflows of containers
    that share no element with it. *)
Lemma reflows_frame (cid : ShapeId) (left_out : LayoutBinding -> bool)
    (triggers : list LayoutBinding) : forall ed : Editor,
  ends_typed ed ->
  (forall tr, In tr triggers -> cid <> fromId tr) ->
  (forall b, In b (bindings ed) -> toId b <> cid) ->
  (forall b1 b2, In b1 (bindings ed) -> In b2 (bindings ed) ->
     fromId b1 = cid -> fromId b2 <> cid -> toId b1 <> toId b2) ->
  row_settled ed cid left_out ->
  row_settled (reflows triggers ed) cid left_out.
Proof.
  induction triggers as [|tr trs IH]; intros ed Hty Hne Hnotc Hdisj Hrow;
    [exact Hrow|].
  change (reflows (tr :: trs) ed) with (reflows trs (updateElementsForContainer ed tr)).
  destruct (updateElementsForContainer_bindings ed tr) as [Eb _].
  assert (Hne1 : cid <> fromId tr) by (apply Hne; left; reflexivity).
  apply IH.
  - apply ends_typed_reflow. exact Hty.
  - intros tr' Htr'. apply Hne. right. exact Htr'.
  - rewrite Eb. exact Hnotc.
  - rewrite Eb. exact Hdisj.
  - apply (row_settled_frame ed tr cid left_out Hty Hne1).
    + intros b Hb _. apply Hnotc. exact Hb.
    + intros b1 b2 Hb1 Hb2 Hf1 Hf2. apply Hdisj; [exact Hb1 | exact Hb2 | exact Hf1|].
      rewrite Hf2. intros E. apply Hne1. symmetry. exact E.
    + exact Hrow.
Qed.

Lemma filter_length_split {X : Type} (keep side : X -> bool) (xs : list X) :
  List.length (filter keep xs)
  = (List.length (filter keep (filter side xs))
     + List.length (filter (fun x => keep x && negb (side x)) xs))%nat.
Proof.
  induction xs as [|x xs IH]; [reflexivity|].
  cbn [filter]. destruct (side x) eqn:Es; cbn [filter]; destruct (keep x) eqn:Ek;
    cbn [andb negb List.length]; lia.
Qed.

(** The container a relationship of the element leads from has exactly
    one member more than when the element's relationships are taken
    away. *)
Lemma one_member_less (ed : Editor) (shape : Shape) (own : LayoutBinding) :
  pair_unique ed ->
  In own (Editor_getBindingsToShape ed shape) ->
  member_count ed (fromId own)
  = S (List.length (filter (fun b => Nat.eqb (fromId b) (fromId own))
                      (filter (of_others shape) (bindings ed)))).
Proof.
  intros Hpair Hown.
  apply filter_In in Hown. destruct Hown as [Hin Hto]. apply Nat.eqb_eq in Hto.
  unfold member_count.
  rewrite (filter_length_split _ (of_others shape)).
  set (mine := fun b : LayoutBinding =>
         Nat.eqb (fromId b) (fromId own) && negb (of_others shape b)).
  assert (Hle : (List.length (filter mine (bindings ed)) <= 1)%nat).
  { apply (NoDup_map_count ends mine (fromId own, shape_id shape) _ Hpair).
    intros a Ha. unfold mine, of_others in Ha. apply andb_true_iff in Ha.
    destruct Ha as [Hf Ht]. apply Nat.eqb_eq in Hf.
    rewrite negb_involutive in Ht. apply Nat.eqb_eq in Ht.
    unfold ends. rewrite Hf, Ht. reflexivity. }
  assert (Hge : In own (filter mine (bindings ed))).
  { apply filter_In. split; [exact Hin|]. unfold mine, of_others.
    rewrite Hto, !Nat.eqb_refl. reflexivity. }
  destruct (filter mine (bindings ed)) as [|m [|m' ms]];
    [contradiction Hge | cbn [List.length]; lia | cbn [List.length] in Hle; lia].
Qed.

(** X20. Carrying an element from one container to another leaves both
    rows in order.  On a store with distinct binding ids, one
    relationship per pair, distinct keys per container, containers sized
    to their members, every relationship joining a stored container to a
    stored element, and every element other than the dragged one tied to
    one container at most, take a stored element whose drag end resolves
    a target.  After the drag end the target has the size of its member
    count and each of its members, the element included, is in the slot
    of its position in ascending key order; and every other container
    that had a relationship to the element, committed or placeholder,
    has one member less and, if members are left, has their size and
    each of them in the slot of its position in ascending key order. *)
Theorem transfer_settles_both_rows
    (ed : Editor) (shape t : Shape) (own : LayoutBinding) :
  ids_ok ed -> pair_unique ed -> keys_unique ed -> size_ok ed -> ends_typed ed ->
  (forall b1 b2, In b1 (bindings ed) -> In b2 (bindings ed) ->
     toId b1 = toId b2 -> toId b1 <> shape_id shape -> fromId b1 = fromId b2) ->
  Editor_getShape ed (shape_id shape) = Some shape ->
  shape_type shape = ElementShapeUtil_type ->
  ElementShapeUtil_getTargetContainer ed shape (element_anchor shape) = Some t ->
  In own (Editor_getBindingsToShape ed shape) ->
  fromId own <> shape_id t ->
  let ed' := ElementShapeUtil_onTranslateEnd ed shape in
  row_settled ed' (shape_id t) (fun _ => false)
  /\ S (member_count ed' (fromId own)) = member_count ed (fromId own)
  /\ (member_count ed' (fromId own) <> 0%nat ->
      row_settled ed' (fromId own) (fun _ => false)).
Proof.
  intros Hids Hpair Hkeys Hsize Hty Hsingle Hs He Ht Hown Hother ed'. subst ed'.
  destruct (hands_on_onTranslateEnd ed shape Hids) as (_ & _ & _ & _ & Kend).
  specialize (Kend Hpair Hsize Hkeys).
  unfold ElementShapeUtil_onTranslateEnd in Kend |- *. rewrite Ht in Kend |- *.
  set (k := ElementShapeUtil_getBindingIndexForPosition ed shape t (element_anchor shape))
    in *.
  rewrite (deleteBindings_of_shape ed shape (proj1 Hids)) in Kend |- *.
  pose proof (one_member_less ed shape own Hpair Hown) as Hless.
  set (rest := filter (of_others shape) (bindings ed)) in *.
  set (mid := mkEditor (shapes ed) rest (nextBindingId ed)).
  assert (Hrest : forall a, In a rest -> In a (bindings ed) /\ toId a <> shape_id shape).
  { intros a Ha. apply filter_In in Ha. destruct Ha as [Ha Hn]. split; [exact Ha|].
    unfold of_others in Hn. apply negb_true_iff in Hn. apply Nat.eqb_neq. exact Hn. }
  assert (Pm : pair_unique mid)
    by (unfold pair_unique, mid; cbn [bindings]; apply NoDup_map_filter; exact Hpair).
  assert (Tm : ends_typed mid).
  { intros a Ha. cbn [bindings mid] in Ha.
    change (type_of mid (fromId a)) with (type_of ed (fromId a)).
    change (type_of mid (toId a)) with (type_of ed (toId a)).
    apply Hty. apply (Hrest a Ha). }
  (* the element's relationships, split at the one from the old container *)
  pose proof Hown as Hin_own. apply filter_In in Hin_own.
  destruct Hin_own as [Hin_own Hto]. apply Nat.eqb_eq in Hto.
  assert (Hnd : NoDup (map ends (Editor_getBindingsToShape ed shape)))
    by (apply NoDup_map_filter; exact Hpair).
  assert (Hall : forall tr, In tr (Editor_getBindingsToShape ed shape) ->
                   toId tr = shape_id shape)
    by (intros tr Htr; apply filter_In in Htr; apply Nat.eqb_eq; tauto).
  destruct (in_split own _ Hown) as (r1 & r2 & Etos).
  rewrite Etos in Hnd, Hall, Kend |- *.
  assert (Hr2 : forall tr, In tr r2 -> fromId own <> fromId tr).
  { intros tr Htr E. rewrite map_app in Hnd. cbn [map] in Hnd.
    apply NoDup_remove_2 in Hnd. apply Hnd. apply in_or_app. right.
    apply in_map_iff. exists tr. split; [|exact Htr].
    unfold ends. rewrite E, Hto.
    rewrite (Hall tr) by (apply in_or_app; right; right; exact Htr). reflexivity. }
  unfold reflows in Kend |- *. rewrite fold_left_app in Kend |- *.
  cbn [fold_left] in Kend |- *.
  fold (reflows r1 mid).
  set (e1 := reflows r1 mid).
  set (e2 := updateElementsForContainer e1 own).
  fold (reflows r2 e2).
  set (ed1 := reflows r2 e2).
  change (keys_unique (Editor_createBinding ed1 (shape_id t) (shape_id shape) k false))
    in Kend.
  assert (B1 : bindings e1 = rest) by (unfold e1; rewrite reflows_bindings; reflexivity).
  assert (B2 : bindings e2 = rest).
  { destruct (updateElementsForContainer_bindings e1 own) as [E _].
    unfold e2. rewrite E. exact B1. }
  assert (B3 : bindings ed1 = rest) by (unfold ed1; rewrite reflows_bindings; exact B2).
  assert (P1 : pair_unique e1) by (unfold pair_unique; rewrite B1; exact Pm).
  assert (K1 : keys_unique e1).
  { unfold keys_unique. rewrite B1. apply (NoDup_map_filter fk). exact Hkeys. }
  assert (T1 : ends_typed e1) by (apply ends_typed_reflows; exact Tm).
  assert (T2 : ends_typed e2) by (apply ends_typed_reflow; exact T1).
  assert (T3 : ends_typed ed1) by (apply ends_typed_reflows; exact T2).
  assert (P3 : pair_unique ed1) by (unfold pair_unique; rewrite B3; exact Pm).
  assert (Hsame : forall id, type_of ed1 id = type_of ed id).
  { intros id. unfold ed1. rewrite type_of_reflows. unfold e2. rewrite type_of_reflow.
    unfold e1. rewrite type_of_reflows. reflexivity. }
  assert (Tcown : type_of ed (fromId own) = Some ContainerShapeUtil_type)
    by (apply (Hty own Hin_own)).
  assert (Hnotc : forall b, In b rest -> toId b <> fromId own).
  { intros b Hb E. destruct (Hty b (proj1 (Hrest b Hb))) as [_ Te].
    rewrite E, Tcown in Te. discriminate Te. }
  assert (Hdisj : forall b1 b2, In b1 rest -> In b2 rest ->
                    fromId b1 = fromId own -> fromId b2 <> fromId own ->
                    toId b1 <> toId b2).
  { intros b1 b2 Hb1 Hb2 Hf1 Hf2 E. apply Hf2. rewrite <- Hf1. symmetry.
    apply (Hsingle b1 b2 (proj1 (Hrest b1 Hb1)) (proj1 (Hrest b2 Hb2)) E).
    apply (Hrest b1 Hb1). }
  (* the fresh relationship *)
  destruct (target_is_another_shape ed shape t _ Hs He Ht) as [Tc _].
  pose proof Ht as Hst. unfold ElementShapeUtil_getTargetContainer in Hst.
  apply getShapeAtPoint_stored in Hst.
  assert (Hal : binding_allowed ed1 (shape_id t) (shape_id shape) = true).
  { rewrite (binding_allowed_types ed _ _ _ Hsame).
    apply (target_allowed ed shape t _ Hs Ht). }
  rewrite (Editor_createBinding_allowed ed1 _ _ k false Hal) in Kend |- *.
  set (new := mkBinding (nextBindingId ed1) (shape_id t) (shape_id shape) k false) in *.
  destruct (with_binding_well_formed ed1 new P3 T3) as (P4 & T4 & M4).
  { intros Hin. apply in_map_iff in Hin. destruct Hin as (b & Eb & Hb).
    rewrite B3 in Hb. apply (proj2 (Hrest b Hb)).
    unfold ends in Eb. cbn in Eb. congruence. }
  { cbn [fromId new]. rewrite Hsame, (type_of_stored ed t Hst), Tc. reflexivity. }
  { cbn [toId new]. rewrite Hsame, (type_of_stored ed shape Hs), He. reflexivity. }
  set (ed2 := with_binding ed1 new) in *.
  assert (B4 : bindings ed2 = rest ++ [new])
    by (unfold ed2, with_binding; cbn [bindings]; rewrite B3; reflexivity).
  destruct (updateElementsForContainer_bindings ed2 new) as [B5 _].
  assert (K4 : keys_unique ed2).
  { unfold keys_unique in Kend |- *. rewrite B5 in Kend. exact Kend. }
  assert (Hfrom_new : Nat.eqb (fromId new) (fromId own) = false).
  { apply Nat.eqb_neq. cbn [fromId new]. intros E. apply Hother. symmetry. exact E. }
  assert (Hcount : forall e, bindings e = rest ++ [new] ->
            member_count e (fromId own)
            = List.length (filter (fun b => Nat.eqb (fromId b) (fromId own)) rest)).
  { intros e Be. unfold member_count. rewrite Be, filter_app, length_app.
    cbn [filter]. rewrite Hfrom_new. cbn [List.length]. lia. }
  split; [|split].
  - apply (row_settled_weaken _ _
             (reflow_skips (toId new) (props_placeholder new))).
    + intros b _ _ _. unfold reflow_skips. cbn. apply andb_false_r.
    + apply (reflow_settles_row ed2 new P4 K4 T4 M4).
  - rewrite (Hcount _ (eq_trans B5 B4)). symmetry. exact Hless.
  - intros Hsome. rewrite (Hcount _ (eq_trans B5 B4)) in Hsome.
    assert (Hrow_e2 : row_settled e2 (fromId own) (fun _ => false)).
    { apply (row_settled_weaken _ _
               (reflow_skips (toId own) (props_placeholder own))).
      - intros b Hb _ _. rewrite B2 in Hb. unfold reflow_skips.
        destruct (Nat.eqb_spec (toId own) (toId b)) as [E|_]; [|reflexivity].
        exfalso. apply (proj2 (Hrest b Hb)). rewrite <- E. exact Hto.
      - apply (reflow_settles_row e1 own P1 K1 T1).
        unfold member_count. rewrite B1. exact Hsome. }
    assert (Hrow_ed1 : row_settled ed1 (fromId own) (fun _ => false)).
    { apply (reflows_frame (fromId own) (fun _ => false) r2 e2 T2 Hr2);
        [rewrite B2; exact Hnotc | rewrite B2; exact Hdisj | exact Hrow_e2]. }
    assert (Hrow_ed2 : row_settled ed2 (fromId own) (fun _ => false)).
    { destruct Hrow_ed1 as (c & row & Hc & Hw & Hh & Hperm & Hsorted & Hslots).
      assert (E : Editor_getBindingsFromShape ed2 c = Editor_getBindingsFromShape ed1 c).
      { unfold Editor_getBindingsFromShape. rewrite B4, B3, filter_app.
        cbn [filter]. rewrite (Editor_getShape_id ed1 _ _ Hc), Hfrom_new.
        apply app_nil_r. }
      exists c, row. split; [exact Hc|]. split.
      - rewrite Hw. f_equal. rewrite (Hcount ed2 B4).
        unfold member_count. rewrite B3. reflexivity.
      - split; [exact Hh|]. split; [rewrite E; exact Hperm|].
        split; [exact Hsorted|]. exact Hslots. }
    apply (row_settled_frame ed2 new (fromId own) (fun _ => false) T4).
    + exact Hother.
    + intros b Hb _ Hbt. destruct (T4 b Hb) as [_ Te].
      change (type_of ed2 (toId b)) with (type_of ed1 (toId b)) in Te.
      rewrite Hbt, Hsame, Tcown in Te. discriminate Te.
    + intros b1 b2 Hb1 Hb2 Hf1 Hf2.
      rewrite B4 in Hb1, Hb2.
      apply in_app_or in Hb1. apply in_app_or in Hb2.
      destruct Hb1 as [Hb1|[<-|[]]];
        [|cbn [fromId new] in Hf1; exfalso; apply Hother; symmetry; exact Hf1].
      destruct Hb2 as [Hb2|[<-|[]]].
      * apply (Hdisj b1 b2 Hb1 Hb2 Hf1). rewrite Hf2. cbn [fromId new].
        intros E. apply Hother. symmetry. exact E.
      * cbn [toId new]. apply (Hrest b1 Hb1).
    + exact Hrow_ed2.
Qed.

End Transfer.


(** ** Picking an element up and dropping it where it was *)

Section RoundTrip.

Context {KS : KeySpace} {FR : Frames} {HT : HitTesting}.

Lemma insert_by_index_map (g : LayoutBinding -> LayoutBinding)
    (Hg : forall b, props_index (g b) = props_index b)
    (b : LayoutBinding) (l : list LayoutBinding) :
  insert_by_index (g b) (map g l) = map g (insert_by_index b l).
Proof.
  induction l as [|a l IH]; [reflexivity|].
  cbn [map insert_by_index]. unfold index_gt. rewrite !Hg.
  destruct (key_ltb (props_index a) (props_index b)); cbn [map]; [|reflexivity].
  rewrite IH. reflexivity.
Qed.

Lemma sort_by_index_map (g : LayoutBinding -> LayoutBinding)
    (Hg : forall b, props_index (g b) = props_index b) (l : list LayoutBinding) :
  sort_by_index (map g l) = map g (sort_by_index l).
Proof.
  unfold sort_by_index. change (@nil LayoutBinding) with (map g []) at 1.
  generalize (@nil LayoutBinding) as acc.
  induction l as [|b l IH]; intros acc; [reflexivity|].
  cbn [map fold_left]. rewrite (insert_by_index_map g Hg). apply IH.
Qed.

Lemma filter_map_same {X : Type} (keep : X -> bool) (g : X -> X) (xs : list X)
    (Hg : forall x, keep (g x) = keep x) :
  filter keep (map g xs) = map g (filter keep xs).
Proof.
  induction xs as [|x xs IH]; [reflexivity|].
  cbn [map filter]. rewrite Hg, IH. destruct (keep x); reflexivity.
Qed.

Lemma raised_for_fields (ed : Editor) (shape : Shape) (b : LayoutBinding) :
  binding_id (raised_for ed shape b) = binding_id b
  /\ fromId (raised_for ed shape b) = fromId b
  /\ toId (raised_for ed shape b) = toId b
  /\ props_index (raised_for ed shape b) = props_index b.
Proof.
  unfold raised_for.
  destruct (Nat.eqb (toId b) (shape_id shape) && binding_allowed ed (fromId b) (toId b));
    repeat split; reflexivity.
Qed.

(** X17. Picking an element up and dropping it where it was changes
    nothing but the id of its relationship.  Take a store with distinct
    binding ids, distinct keys per container and every relationship
    joining a stored container to a stored element, and a stored element
    whose single relationship [own] stands at position [q] of its
    container's row,
    with its anchor within the band of slot [q] and the next.  After
    [onTranslateStart], if the anchor resolves that container, then
    [onTranslateEnd] leaves the binding store with the relationships of
    the other elements exactly as they were, followed by one committed
    relationship from the same container to the element with the same
    key as [own] and the next fresh id. *)
Theorem pick_up_and_drop_in_place
    (ed : Editor) (shape t t1 : Shape) (own : LayoutBinding) (q : nat) :
  ids_ok ed -> keys_unique ed -> ends_typed ed ->
  Editor_getShape ed (shape_id shape) = Some shape ->
  shape_type shape = ElementShapeUtil_type ->
  Editor_getShape ed (shape_id t) = Some t ->
  Editor_getBindingsToShape ed shape = [own] ->
  nth_error (sort_by_index (Editor_getBindingsFromShape ed t)) q = Some own ->
  24 + 124 * Z.of_nat q - 62 <= vx (element_anchor shape) - shape_x t
    < 24 + 124 * (Z.of_nat q + 1) + 62 ->
  let ed1 := ElementShapeUtil_onTranslateStart ed shape in
  ElementShapeUtil_getTargetContainer ed1 shape (element_anchor shape) = Some t1 ->
  shape_id t1 = shape_id t ->
  let ed2 := ElementShapeUtil_onTranslateEnd ed1 shape in
  bindings ed2
  = filter (fun b => negb (Nat.eqb (toId b) (shape_id shape))) (bindings ed)
    ++ [mkBinding (nextBindingId ed) (shape_id t) (shape_id shape)
          (props_index own) false]
  /\ nextBindingId ed2 = S (nextBindingId ed).
Proof.
  intros Hids Hkeys Hty Hs He Hc Hown Hq Hband ed1 Ht1 Hid1 ed2.
  pose proof (onTranslateStart_bindings ed shape (proj1 Hids)) as Eb1.
  fold ed1 in Eb1.
  set (g := raised_for ed shape) in *.
  assert (Hg : forall b, props_index (g b) = props_index b)
    by (intros b; apply raised_for_fields).
  (* the element's relationship *)
  assert (Hownto : In own (bindings ed) /\ toId own = shape_id shape).
  { assert (Hin : In own (Editor_getBindingsToShape ed shape))
      by (rewrite Hown; left; reflexivity).
    apply filter_In in Hin. destruct Hin as [Hin Hto]. apply Nat.eqb_eq in Hto. auto. }
  destruct Hownto as [Hownin Hownto].
  assert (Hownfrom : fromId own = shape_id t).
  { apply nth_error_In in Hq. apply (proj1 (sort_by_index_In _ _)) in Hq.
    apply filter_In in Hq. apply Nat.eqb_eq. tauto. }
  (* the started store *)
  assert (Hids1 : ids_ok ed1) by (apply (hands_on_onTranslateStart ed shape Hids)).
  assert (Hmem1 : Editor_getBindingsFromShape ed1 t1
                  = map g (Editor_getBindingsFromShape ed t)).
  { unfold Editor_getBindingsFromShape. rewrite Eb1, Hid1.
    apply filter_map_same. intros b.
    destruct (raised_for_fields ed shape b) as (_ & E & _). fold g in E.
    rewrite E. reflexivity. }
  pose proof Ht1 as Hst1. unfold ElementShapeUtil_getTargetContainer in Hst1.
  apply getShapeAtPoint_stored in Hst1.
  assert (Tc : shape_type t = ContainerShapeUtil_type).
  { destruct (typed_shapes ed own Hty Hownin) as (c0 & _ & Hc0 & Tc0 & _).
    rewrite Hownfrom, Hc in Hc0. injection Hc0 as <-. exact Tc0. }
  assert (Hx : shape_x t1 = shape_x t).
  { assert (Hk : container_kept (shape_id t) (Some (shape_x t, shape_y t)) ed).
    { split; [exact Hty|]. split.
      - rewrite (type_of_stored ed t Hc), Tc. reflexivity.
      - unfold position_of. rewrite Hc. reflexivity. }
    destruct (handlers_keep_containers ed shape _ _ Hids Hs He Hk) as ((_ & _ & Kp) & _).
    fold ed1 in Kp. unfold position_of in Kp. rewrite <- Hid1, Hst1 in Kp.
    cbn in Kp. injection Kp as Kx _. exact Kx. }
  (* the key computed at the drop *)
  assert (Hindex : ElementShapeUtil_getBindingIndexForPosition ed1 shape t1
                     (element_anchor shape) = props_index own).
  { rewrite <- (Hg own).
    apply (index_kept_in_band ed1 shape t1 (element_anchor shape) (g own) q).
    - rewrite Hmem1, map_map.
      rewrite (map_ext _ props_index Hg). apply keys_unique_members. exact Hkeys.
    - rewrite Hmem1. intros b Hb Hbto. apply in_map_iff in Hb.
      destruct Hb as (b0 & <- & Hb0). f_equal.
      destruct (raised_for_fields ed shape b0) as (_ & _ & E & _). fold g in E.
      rewrite E in Hbto.
      assert (Hin : In b0 (Editor_getBindingsToShape ed shape)).
      { apply filter_In. apply filter_In in Hb0. split; [tauto|].
        apply Nat.eqb_eq. exact Hbto. }
      rewrite Hown in Hin. destruct Hin as [<-|[]]. reflexivity.
    - rewrite Hmem1, (sort_by_index_map g Hg), nth_error_map, Hq. reflexivity.
    - destruct (raised_for_fields ed shape own) as (_ & _ & E & _). fold g in E.
      rewrite E. exact Hownto.
    - rewrite Hx. exact Hband. }
  (* the drop *)
  assert (Hs1 : type_of ed1 (shape_id shape) = Some (shape_type shape)).
  { unfold ed1. rewrite types_same_onTranslateStart. apply type_of_stored. exact Hs. }
  subst ed2. unfold ElementShapeUtil_onTranslateEnd. rewrite Ht1, Hindex.
  set (ed1' := Editor_deleteBindings ed1 (Editor_getBindingsToShape ed1 shape)).
  assert (Hal : binding_allowed ed1' (shape_id t1) (shape_id shape) = true).
  { unfold ed1'.
    rewrite (binding_allowed_types ed1 _ _ _
               (fun id => types_same_deleteBindings ed1 _ id)).
    apply (target_allowed_typed ed1 shape t1 _ Hs1 Ht1). }
  destruct (Editor_createBinding_bindings ed1' (shape_id t1) (shape_id shape)
              (props_index own) false) as [Hyes _].
  destruct (Hyes Hal) as [E En]. rewrite E, En.
  destruct (Editor_deleteBindings_bindings ed1 (Editor_getBindingsToShape ed1 shape))
    as [_ En1].
  fold ed1' in En1. rewrite En1.
  assert (En0 : nextBindingId ed1 = nextBindingId ed)
    by (apply Editor_updateBindings_bindings).
  rewrite En0, Hid1. split; [|reflexivity]. f_equal.
  unfold ed1'. rewrite (others_deleteBindings ed1 shape (proj1 Hids1)), Eb1.
  apply filter_map_fixed; intros b Hb; unfold g, raised_for, of_others in *.
  - apply negb_true_iff in Hb. rewrite Hb. reflexivity.
  - destruct (Nat.eqb (toId b) (shape_id shape) && binding_allowed ed (fromId b) (toId b));
      exact Hb.
Qed.

End RoundTrip.

(* ================================================================== *)
(** * Part V: the cursor demo                                          *)
(* ================================================================== *)

(** The application the entry point renders ([App]) keeps one circle on
    the canvas and, on every animation frame, colours it by where the
    trailing cursor image is.  The part of the frame that talks to the
    editor is embedded here: the lookup of the circle, the test against
    its page bounds, and the write of the colour.

    The coordinates of the cursor image are not integers (each frame
    moves it by a twenty-fifth of its distance to the pointer), so the
    numbers of this part are kept abstract: a type with the comparison
    [<=] and the addition of the source, of which nothing is assumed.
    [a >= b] is read as [b <= a]. *)

Module CursorDemo.

Section Frame.

Variable number : Type.
Variable le : number -> number -> bool.
Variable plus : number -> number -> number.

Record Point : Type := mkPoint {
  point_x : number;
  point_y : number
}.

(** The box [editor.getShapePageBounds] answers with. *)
Record Box : Type := mkBox {
  box_x : number;
  box_y : number;
  box_w : number;
  box_h : number
}.

(** The circle as the frame reads it: its type and its colour prop. *)
Record Circle : Type := mkCircle {
  circle_type : string;
  circle_color : string
}.

(** What the frame asks of the editor: the shape with the circle's id,
    the page bounds of that shape, and the conversion of a screen point
    to a page point. *)
Record EditorRef : Type := mkEditorRef {
  getShape_circle : option Circle;
  getShapePageBounds : option Box;
  screenToPage : Point -> Point
}.

(** [isInside]: the four comparisons of the frame. *)
Definition isInside (pagePoint : Point) (circleBounds : Box) : bool :=
  le (box_x circleBounds) (point_x pagePoint)
  && le (point_x pagePoint) (plus (box_x circleBounds) (box_w circleBounds))
  && le (box_y circleBounds) (point_y pagePoint)
  && le (point_y pagePoint) (plus (box_y circleBounds) (box_h circleBounds)).

(** The colour the frame hands to [updateShape], if it calls it. *)
Definition colour_write (isInside : bool) (currentColor : string) : option string :=
  if isInside && negb (String.eqb currentColor "green") then Some "green"%string
  else if negb isInside && negb (String.eqb currentColor "blue") then Some "blue"%string
  else None.

(** The collision check of one frame, for the editor the ref holds (if it
    holds one) and the new position of the cursor image: the record
    handed to [updateShape], if the frame calls it. *)
Definition check_collision (editorRef : option EditorRef) (newPos : Point)
  : option Circle :=
  match editorRef with
  | Some editor =>
      match getShape_circle editor with
      | Some circle =>
          if String.eqb (circle_type circle) "geo" then
            match getShapePageBounds editor with
            | Some circleBounds =>
                let pagePoint := screenToPage editor newPos in
                match colour_write (isInside pagePoint circleBounds)
                        (circle_color circle) with
                | Some colour => Some (mkCircle (circle_type circle) colour)
                | None => None
                end
            | None => None
            end
          else None
      | None => None
      end
  | None => None
  end.

(** The editor after the frame: [updateShape] stores the record it is
    handed; a colour changes neither the bounds nor the camera. *)
Definition after_frame (editor : EditorRef) (newPos : Point) : EditorRef :=
  match check_collision (Some editor) newPos with
  | Some circle =>
      mkEditorRef (Some circle) (getShapePageBounds editor) (screenToPage editor)
  | None => editor
  end.

Lemma colour_write_spec (inside : bool) (currentColor : string) :
  let after :=
    match colour_write inside currentColor with
    | Some colour => colour
    | None => currentColor
    end in
  after = (if inside then "green" else "blue")%string
  /\ (colour_write inside currentColor = None <-> after = currentColor)
  /\ colour_write inside after = None.
Proof.
  unfold colour_write.
  destruct inside;
    destruct (String.eqb_spec currentColor "green") as [Eg|Eg];
    destruct (String.eqb_spec currentColor "blue") as [Eb|Eb];
    cbn; subst; cbn; repeat split; intros; try reflexivity; try congruence.
Qed.

(** X18. The circle's colour follows the cursor image.  After a frame's
    collision check on an editor that holds a circle of type 'geo' with
    page bounds, the circle is still of type 'geo' and is green when the
    page point of the cursor image passes the four comparisons against
    the bounding box (so the sides and corners of the box count, and so
    do the corners of the box that lie outside the ellipse) and blue when
    it does not, whatever its colour was; the frame calls [updateShape]
    exactly when that changes the colour; and a second check at the same
    position calls nothing.  With no editor in the ref, no circle, a
    shape of another type or no bounds, the check calls nothing. *)
Theorem collision_colour_follows_cursor
    (editor : EditorRef) (c : Circle) (bounds : Box) (newPos : Point) :
  getShape_circle editor = Some c ->
  circle_type c = "geo"%string ->
  getShapePageBounds editor = Some bounds ->
  let pagePoint := screenToPage editor newPos in
  let inside := isInside pagePoint bounds in
  let editor' := after_frame editor newPos in
  (inside = true <->
   le (box_x bounds) (point_x pagePoint) = true
   /\ le (point_x pagePoint) (plus (box_x bounds) (box_w bounds)) = true
   /\ le (box_y bounds) (point_y pagePoint) = true
   /\ le (point_y pagePoint) (plus (box_y bounds) (box_h bounds)) = true)
  /\ (exists c', getShape_circle editor' = Some c'
        /\ circle_type c' = "geo"%string
        /\ circle_color c' = (if inside then "green" else "blue")%string
        /\ (check_collision (Some editor) newPos = None
            <-> circle_color c' = circle_color c))
  /\ getShapePageBounds editor' = Some bounds
  /\ check_collision (Some editor') newPos = None
  /\ check_collision None newPos = None
  /\ (forall other : EditorRef,
         getShape_circle other = None
         \/ getShapePageBounds other = None
         \/ (exists o, getShape_circle other = Some o /\ circle_type o <> "geo"%string) ->
         check_collision (Some other) newPos = None).
Proof.
  intros Hc Hgeo Hb pagePoint inside editor'.
  pose proof (colour_write_spec inside (circle_color c)) as (Hcol & Hnone & Hagain).
  assert (Hcheck : check_collision (Some editor) newPos
                   = match colour_write inside (circle_color c) with
                     | Some colour => Some (mkCircle (circle_type c) colour)
                     | None => None
                     end).
  { unfold check_collision. rewrite Hc, Hgeo, Hb. reflexivity. }
  split; [|split; [|split; [|split; [|split]]]].
  - unfold inside, isInside. rewrite !andb_true_iff. tauto.
  - unfold editor', after_frame. rewrite Hcheck.
    destruct (colour_write inside (circle_color c)) as [colour|] eqn:Ew.
    + eexists. split; [reflexivity|]. cbn [circle_type circle_color].
      split; [exact Hgeo|]. split; [exact Hcol|].
      split; [discriminate|]. intros E. apply Hnone in E. discriminate E.
    + exists c. split; [exact Hc|]. split; [exact Hgeo|]. split; [exact Hcol|].
      tauto.
  - unfold editor', after_frame. rewrite Hcheck.
    destruct (colour_write inside (circle_color c)); exact Hb.
  - unfold editor', after_frame. rewrite Hcheck.
    destruct (colour_write inside (circle_color c)) as [colour|] eqn:Ew.
    + unfold check_collision.
      cbn [getShape_circle getShapePageBounds screenToPage circle_type circle_color].
      rewrite Hgeo, Hb. cbn [String.eqb Ascii.eqb Bool.eqb].
      fold pagePoint. fold inside. rewrite Hagain. reflexivity.
    + exact Hcheck.
  - reflexivity.
  - intros other [Hn|[Hn|(o & Ho & Hty)]]; unfold check_collision.
    + rewrite Hn. reflexivity.
    + rewrite Hn. destruct (getShape_circle other) as [o|]; [|reflexivity].
      destruct (String.eqb (circle_type o) "geo"); reflexivity.
    + rewrite Ho. apply String.eqb_neq in Hty. rewrite Hty. reflexivity.
Qed.

End Frame.

End CursorDemo.

(* ================================================================== *)
(** * Part VI: the further theorems on the canvas                      *)
(* ================================================================== *)

(** ** The mounted application *)

(** X19. Every store the mounted application reaches by drags is well
    formed.  From the store [onMount] builds (a container, five elements,
    a committed relationship created for each in turn), every store
    reached by drag starts, drag moves, drag ends, moves of shapes and
    deliveries of binding events has distinct binding ids below the next
    fresh one, one relationship per pair, at most one committed
    relationship per element, distinct keys per container, containers
    sized to their members, and relationships that join a stored
    container to a stored element. *)
Theorem stores_reached_from_mount_are_well_formed (ed : @Editor Qc_keys) :
  drag_steps mounted ed ->
  ids_ok ed /\ pair_unique ed /\ one_committed ed
  /\ keys_unique ed /\ size_ok ed /\ ends_typed ed.
Proof.
  intros Hsteps.
  induction Hsteps as [|ed ed' Hsteps IH Hstep]; [exact mounted_well_formed|].
  destruct IH as (I1 & I2 & I3 & I4 & I5 & I6).
  destruct (hands_on_step ed ed' Hstep I1) as (G1 & G2 & G3 & G4 & G5).
  split; [exact G1|]. split; [exact (G2 I2)|]. split; [exact (G3 I3)|].
  split; [exact (G5 I2 I5 I4)|]. split; [exact (G4 I5)|].
  exact (ends_typed_step ed ed' Hstep I1 I6).
Qed.

Lemma stores_reached_from_mount_are_well_formed_witness :
  drag_steps mounted last_dropped
  /\ ids_ok last_dropped /\ pair_unique last_dropped /\ one_committed last_dropped
  /\ keys_unique last_dropped /\ size_ok last_dropped /\ ends_typed last_dropped.
Proof.
  split; [exact drag_steps_last_dropped|].
  exact (stores_reached_from_mount_are_well_formed last_dropped drag_steps_last_dropped).
Defined.

(** ** Stores *)

(** The last element of the mounted row, carried over the first slot. *)
Definition last_element : Shape := element_at 5%nat 180 224.

(** The container of the mounted row. *)
Definition mounted_container : Shape := container_at 0%nat 200 200 644 148.

(** The container of [row2]. *)
Definition row2_container : Shape := container_at 0%nat 200 200 272 148.

(** The first member of a two-member row under drag, carried a little
    over a hundred to the right: its anchor is over the second slot. *)
Definition nudged_element : Shape := element_at 1%nat 330 224.

Definition nudged : @Editor Qc_keys :=
  mkEditor
    [row2_container; nudged_element; element_at 2%nat 348 224]
    [dragging_member; member_2]
    2%nat.

(** The second member of [row2] picked up, carried far from every
    container, and the drag move there. *)
Definition second_lifted : @Editor Qc_keys :=
  ElementShapeUtil_onTranslateStart row2 (element_at 2%nat 348 224).

Definition second_far : @Editor Qc_keys :=
  Editor_afterShapeChange (Editor_updateShape second_lifted (PartialXY 2%nat 1000 1000))
    2%nat.

Definition second_gone : @Editor Qc_keys :=
  ElementShapeUtil_onTranslate second_far (element_at 2%nat 1000 1000).

Lemma no_relationship_from (ed : @Editor Qc_keys) (id : ShapeId) :
  forallb (fun b => negb (Nat.eqb (fromId b) id)) (bindings ed) = true ->
  forall b, In b (bindings ed) -> fromId b <> id.
Proof.
  intros H b Hb E. rewrite forallb_forall in H. specialize (H b Hb).
  rewrite E, Nat.eqb_refl in H. discriminate H.
Qed.

Lemma stored_typed (ed : @Editor Qc_keys) :
  ends_typed ed ->
  forall b, In b (bindings ed) ->
    exists c e, Editor_getShape ed (fromId b) = Some c
      /\ shape_type c = "container"%string
      /\ Editor_getShape ed (toId b) = Some e
      /\ shape_type e = "element"%string.
Proof. intros Hty b Hb. exact (typed_shapes ed b Hty Hb). Qed.

(** ** The theorems at work *)

Lemma slots_tile_the_container_witness :
  (1 < 4)%nat /\ (4 < 5)%nat
  /\ vx (slot_offset 1) + 100 + 24 <= vx (slot_offset 4)
  /\ vx (slot_offset 4) + 100 + 24 = layout_width 5.
Proof.
  assert (H1 : (1 < 4)%nat) by lia.
  assert (H2 : (4 < 5)%nat) by lia.
  split; [exact H1|]. split; [exact H2|].
  destruct (slots_tile_the_container 5 1 4 H1 H2) as (_ & _ & Hgap & _ & Hlast & _).
  split; [exact Hgap | exact Hlast].
Defined.

Lemma onTranslateStart_raises_flags_only_witness :
  ids_ok two_containers
  /\ map props_placeholder (bindings two_containers) = [false]
  /\ map props_placeholder (bindings picked_up) = [true].
Proof.
  split; [exact ids_ok_two_containers|]. split; [reflexivity|].
  destruct (onTranslateStart_raises_flags_only two_containers (element_at 2%nat 224 224)
              ids_ok_two_containers) as (E & _).
  unfold picked_up. rewrite E. vm_compute. reflexivity.
Defined.

Lemma ids_ok_last_carried : ids_ok last_carried.
Proof. by_check ids_okb_sound. Defined.

Lemma pair_unique_last_carried : pair_unique last_carried.
Proof. by_check pair_uniqueb_sound. Defined.

Lemma keys_unique_last_carried : keys_unique last_carried.
Proof. by_check keys_uniqueb_sound. Defined.

Lemma size_ok_last_carried : size_ok last_carried.
Proof. by_check size_okb_sound. Defined.

Lemma ends_typed_last_carried : ends_typed last_carried.
Proof. by_check ends_typedb_sound. Defined.

Lemma last_element_carried :
  Editor_getShape last_carried (shape_id last_element) = Some last_element.
Proof. vm_compute. reflexivity. Defined.

Lemma target_of_last_carried :
  ElementShapeUtil_getTargetContainer last_carried last_element
    (element_anchor last_element) = Some mounted_container.
Proof. vm_compute. reflexivity. Defined.

Lemma target_of_last_hovering :
  ElementShapeUtil_getTargetContainer last_hovering last_element
    (element_anchor last_element) = Some mounted_container.
Proof. vm_compute. reflexivity. Defined.

Lemma last_hovering_changed :
  ElementShapeUtil_onTranslate last_carried last_element <> last_carried.
Proof.
  assert (H1 : map (fun b => Qc_eqb (props_index b) (key 5))
                 (bindings (ElementShapeUtil_onTranslate last_carried last_element))
               = [false; false; false; false; false]) by (vm_compute; reflexivity).
  assert (H2 : map (fun b => Qc_eqb (props_index b) (key 5)) (bindings last_carried)
               = [false; false; false; false; true]) by (vm_compute; reflexivity).
  intros E. rewrite E, H2 in H1. discriminate H1.
Defined.

Lemma drag_handlers_leave_other_elements_witness :
  let others (e : @Editor Qc_keys) :=
    filter (fun b => negb (Nat.eqb (toId b) 5)) (bindings e) in
  ids_ok last_carried
  /\ List.length (others last_carried) = 4%nat
  /\ others last_hovering = others last_carried.
Proof.
  intros others.
  split; [exact ids_ok_last_carried|]. split; [vm_compute; reflexivity|].
  destruct (drag_handlers_leave_other_elements last_carried last_element
              ids_ok_last_carried) as (_ & Hmove & _).
  exact Hmove.
Defined.

(** The row of [row2] with a third element carried over it, its anchor
    over the second slot. *)
Definition row2_visited : @Editor Qc_keys :=
  mkEditor
    [container_at 0%nat 200 200 272 148; element_at 1%nat 224 224;
     element_at 2%nat 348 224; newcomer]
    [member_1; member_2]
    2%nat.

Lemma hover_entry_places_the_dragged_element_witness :
  let ed' := ElementShapeUtil_onTranslate row2_visited newcomer in
  ids_ok row2_visited /\ pair_unique row2_visited /\ keys_unique row2_visited
  /\ size_ok row2_visited /\ ends_typed row2_visited
  /\ Editor_getShape row2_visited (shape_id newcomer) = Some newcomer
  /\ ElementShapeUtil_getTargetContainer row2_visited newcomer (element_anchor newcomer)
     = Some row2_container
  /\ member_count row2_visited (shape_id row2_container) <> 0%nat
  /\ ~ In (shape_id newcomer)
         (map toId (Editor_getBindingsFromShape row2_visited row2_container))
  /\ row_settled ed' 0%nat (fun _ => false)
  /\ positions ed'
     = [(0%nat, 200, 200); (1%nat, 224, 224); (2%nat, 472, 224); (3%nat, 348, 224)].
Proof.
  intros ed'.
  assert (H1 : ids_ok row2_visited) by (by_check ids_okb_sound).
  assert (H2 : pair_unique row2_visited) by (by_check pair_uniqueb_sound).
  assert (H3 : keys_unique row2_visited) by (by_check keys_uniqueb_sound).
  assert (H4 : size_ok row2_visited) by (by_check size_okb_sound).
  assert (H5 : ends_typed row2_visited) by (by_check ends_typedb_sound).
  assert (H6 : ElementShapeUtil_getTargetContainer row2_visited newcomer
                 (element_anchor newcomer) = Some row2_container)
    by (vm_compute; reflexivity).
  assert (H7 : member_count row2_visited (shape_id row2_container) <> 0%nat)
    by discriminate.
  assert (H8 : ~ In (shape_id newcomer)
                 (map toId (Editor_getBindingsFromShape row2_visited row2_container)))
    by absent_id.
  split; [exact H1|]. split; [exact H2|]. split; [exact H3|]. split; [exact H4|].
  split; [exact H5|]. split; [reflexivity|]. split; [exact H6|]. split; [exact H7|].
  split; [exact H8|].
  split; [|vm_compute; reflexivity].
  exact (proj1 (hover_entry_places_the_dragged_element row2_visited newcomer
                  row2_container H1 H2 H3 H4 H5 eq_refl eq_refl H6 H7 H8)).
Defined.

(** The row of [dragging] in a container of the wrong size: the method
    passes the dragged element over and resizes the container, and the
    reflow the editor then runs for the second member's relationship
    puts the dragged element in its slot. *)
Definition dragging_unsized : @Editor Qc_keys :=
  mkEditor
    [container_at 0%nat 200 200 500 90; element_at 1%nat 500 500; element_at 2%nat 10 10]
    [dragging_member; member_2]
    2%nat.

Lemma resize_places_the_dragged_element :
  updateElementsForContainer_writes dragging_unsized dragging_member
  = [PartialXY 2%nat 348 224; PartialSize 0%nat 272 148]
  /\ positions (updateElementsForContainer dragging_unsized dragging_member)
     = [(0%nat, 200, 200); (1%nat, 224, 224); (2%nat, 348, 224)]
  /\ positions (updateElementsForContainer dragging dragging_member)
     = [(0%nat, 200, 200); (1%nat, 500, 500); (2%nat, 348, 224)].
Proof. repeat split; vm_compute; reflexivity. Qed.

Lemma getTargetContainer_finds_containers_only_witness :
  let t := container_at 1%nat 200 400 148 148 in
  shape_type carried_element = "element"%string
  /\ ElementShapeUtil_getTargetContainer carried carried_element
       (element_anchor carried_element) = Some t
  /\ Editor_getShape carried (shape_id carried_element) = Some carried_element
  /\ shape_type t = "container"%string
  /\ binding_allowed carried 1%nat 2%nat = true.
Proof.
  intros t.
  assert (H2 : ElementShapeUtil_getTargetContainer carried carried_element
                 (element_anchor carried_element) = Some t) by (vm_compute; reflexivity).
  assert (H3 : Editor_getShape carried (shape_id carried_element) = Some carried_element)
    by (vm_compute; reflexivity).
  split; [reflexivity|]. split; [exact H2|]. split; [exact H3|].
  destruct (getTargetContainer_finds_containers_only carried carried_element t
              (element_anchor carried_element) eq_refl H2) as (Hc & _ & _ & _ & Hst).
  split; [exact Hc|]. exact (proj2 (Hst H3)).
Defined.

Lemma drag_keeps_relationships_typed_witness :
  ids_ok mounted
  /\ drag_steps mounted last_dropped
  /\ forall b, In b (bindings last_dropped) -> fromId b <> toId b.
Proof.
  destruct mounted_well_formed as (H1 & _ & _ & _ & _ & H6).
  split; [exact H1|]. split; [exact drag_steps_last_dropped|].
  intros b Hb.
  exact (proj2 (drag_keeps_relationships_typed mounted last_dropped H1
                  (stored_typed mounted H6) drag_steps_last_dropped b Hb)).
Defined.

Lemma pair_unique_last_hovering : pair_unique last_hovering.
Proof. by_check pair_uniqueb_sound. Defined.

Lemma ends_typed_last_hovering : ends_typed last_hovering.
Proof. by_check ends_typedb_sound. Defined.

Lemma last_element_hovering :
  Editor_getShape last_hovering (shape_id last_element) = Some last_element.
Proof. vm_compute. reflexivity. Defined.

Lemma ids_ok_last_hovering : ids_ok last_hovering.
Proof. by_check ids_okb_sound. Defined.

Lemma keys_unique_last_hovering : keys_unique last_hovering.
Proof. by_check keys_uniqueb_sound. Defined.

Lemma size_ok_last_hovering : size_ok last_hovering.
Proof. by_check size_okb_sound. Defined.

Lemma drop_settles_the_target_row_witness :
  ids_ok last_hovering /\ pair_unique last_hovering /\ keys_unique last_hovering
  /\ size_ok last_hovering /\ ends_typed last_hovering
  /\ Editor_getShape last_hovering (shape_id last_element) = Some last_element
  /\ ElementShapeUtil_getTargetContainer last_hovering last_element
       (element_anchor last_element) = Some mounted_container
  /\ row_settled last_dropped 0%nat (fun _ => false)
  /\ In 5%nat (map toId (Editor_getBindingsFromShape last_dropped mounted_container)).
Proof.
  split; [exact ids_ok_last_hovering|]. split; [exact pair_unique_last_hovering|].
  split; [exact keys_unique_last_hovering|]. split; [exact size_ok_last_hovering|].
  split; [exact ends_typed_last_hovering|].
  split; [exact last_element_hovering|]. split; [exact target_of_last_hovering|].
  exact (drop_settles_the_target_row last_hovering last_element mounted_container
           ids_ok_last_hovering pair_unique_last_hovering keys_unique_last_hovering
           size_ok_last_hovering ends_typed_last_hovering last_element_hovering
           eq_refl target_of_last_hovering).
Defined.

Lemma hover_makes_room_witness :
  ids_ok last_carried /\ pair_unique last_carried /\ keys_unique last_carried
  /\ size_ok last_carried /\ ends_typed last_carried
  /\ ElementShapeUtil_getTargetContainer last_carried last_element
       (element_anchor last_element) = Some mounted_container
  /\ last_hovering <> last_carried
  /\ row_settled last_hovering 0%nat (fun b => Nat.eqb (toId b) 5).
Proof.
  split; [exact ids_ok_last_carried|]. split; [exact pair_unique_last_carried|].
  split; [exact keys_unique_last_carried|]. split; [exact size_ok_last_carried|].
  split; [exact ends_typed_last_carried|]. split; [exact target_of_last_carried|].
  split; [exact last_hovering_changed|].
  exact (proj1 (hover_makes_room last_carried last_element mounted_container
                  ids_ok_last_carried pair_unique_last_carried keys_unique_last_carried
                  size_ok_last_carried ends_typed_last_carried
                  last_element_carried eq_refl target_of_last_carried
                  last_hovering_changed)).
Defined.

Lemma leaving_closes_the_gap_witness :
  let own := mkBinding 1%nat 0%nat 2%nat (key 2) true in
  ids_ok second_far /\ pair_unique second_far /\ keys_unique second_far
  /\ ends_typed second_far
  /\ Editor_getBindingsToShape second_far (element_at 2%nat 1000 1000) = [own]
  /\ ElementShapeUtil_getTargetContainer second_far (element_at 2%nat 1000 1000)
       (element_anchor (element_at 2%nat 1000 1000)) = None
  /\ member_count second_far 0%nat = 2%nat
  /\ member_count second_gone 0%nat = 1%nat
  /\ row_settled second_gone 0%nat (fun _ => false).
Proof.
  intros own.
  assert (H1 : ids_ok second_far) by (by_check ids_okb_sound).
  assert (H2 : pair_unique second_far) by (by_check pair_uniqueb_sound).
  assert (K2 : keys_unique second_far) by (by_check keys_uniqueb_sound).
  assert (H3 : ends_typed second_far) by (by_check ends_typedb_sound).
  assert (H4 : Editor_getBindingsToShape second_far (element_at 2%nat 1000 1000) = [own])
    by (vm_compute; reflexivity).
  assert (H5 : ElementShapeUtil_getTargetContainer second_far (element_at 2%nat 1000 1000)
                 (element_anchor (element_at 2%nat 1000 1000)) = None)
    by (vm_compute; reflexivity).
  assert (H6 : member_count second_gone 0%nat = 1%nat) by (vm_compute; reflexivity).
  split; [exact H1|]. split; [exact H2|]. split; [exact K2|]. split; [exact H3|].
  split; [exact H4|].
  split; [exact H5|]. split; [vm_compute; reflexivity|]. split; [exact H6|].
  destruct (leaving_closes_the_gap second_far (element_at 2%nat 1000 1000) own
              H1 H2 K2 H3 H4 H5) as (_ & _ & _ & Hrow).
  apply Hrow. intros E.
  change (member_count second_gone 0%nat = 0%nat) in E.
  rewrite H6 in E. discriminate E.
Defined.

Lemma member_near_own_slot_keeps_key_witness :
  NoDup (map props_index (Editor_getBindingsFromShape nudged row2_container))
  /\ nth_error (sort_by_index (Editor_getBindingsFromShape nudged row2_container)) 0
     = Some dragging_member
  /\ vx (element_anchor nudged_element) - shape_x row2_container = 180
  /\ slot_order 1 row2_container (element_anchor nudged_element) = 1
  /\ ElementShapeUtil_getBindingIndexForPosition nudged nudged_element row2_container
       (element_anchor nudged_element) = key 1
  /\ ElementShapeUtil_onTranslate nudged nudged_element = nudged.
Proof.
  assert (H1 : NoDup (map props_index (Editor_getBindingsFromShape nudged row2_container)))
    by distinct_keys.
  assert (H2 : forall b, In b (Editor_getBindingsFromShape nudged row2_container) ->
            toId b = shape_id nudged_element -> b = dragging_member)
    by (apply (only_triggerb_sound dragging_member); vm_compute; reflexivity).
  assert (H3 : nth_error (sort_by_index (Editor_getBindingsFromShape nudged row2_container))
                 0 = Some dragging_member) by (vm_compute; reflexivity).
  assert (H5 : 24 + 124 * Z.of_nat 0 - 62
               <= vx (element_anchor nudged_element) - shape_x row2_container
               < 24 + 124 * (Z.of_nat 0 + 1) + 62)
    by (vm_compute; split; [discriminate | reflexivity]).
  assert (H6 : ElementShapeUtil_getTargetContainer nudged nudged_element
                 (element_anchor nudged_element) = Some row2_container)
    by (vm_compute; reflexivity).
  split; [exact H1|]. split; [exact H3|]. split; [reflexivity|]. split; [reflexivity|].
  destruct (member_near_own_slot_keeps_key nudged nudged_element row2_container
              (element_anchor nudged_element) dragging_member 0 H1 H2 H3 eq_refl H5)
    as [Hkey Hsame].
  split; [exact Hkey | exact (Hsame eq_refl H6)].
Defined.

Lemma pair_unique_row2 : pair_unique row2.
Proof. by_check pair_uniqueb_sound. Defined.

Lemma ends_typed_row2 : ends_typed row2.
Proof. by_check ends_typedb_sound. Defined.

Lemma ids_ok_row2 : ids_ok row2.
Proof. by_check ids_okb_sound. Defined.

Lemma keys_unique_row2 : keys_unique row2.
Proof. by_check keys_uniqueb_sound. Defined.

Lemma moving_a_container_carries_its_row_witness :
  let ed' :=
    Editor_afterShapeChange (Editor_updateShape row2 (PartialXY 0%nat 300 300)) 0%nat in
  pair_unique row2 /\ keys_unique row2 /\ ends_typed row2
  /\ Editor_getShape row2 (shape_id row2_container) = Some row2_container
  /\ member_count row2 (shape_id row2_container) <> 0%nat
  /\ row_settled ed' 0%nat props_placeholder
  /\ Editor_getShape ed' 2%nat = Some (element_at 2%nat 448 324).
Proof.
  intros ed'.
  assert (H4 : member_count row2 (shape_id row2_container) <> 0%nat) by discriminate.
  split; [exact pair_unique_row2|]. split; [exact keys_unique_row2|].
  split; [exact ends_typed_row2|].
  split; [reflexivity|]. split; [exact H4|].
  destruct (moving_a_container_carries_its_row row2 row2_container 300 300
              pair_unique_row2 keys_unique_row2 ends_typed_row2 eq_refl H4)
    as (_ & Hrow & _).
  split; [exact Hrow|]. vm_compute. reflexivity.
Defined.

Lemma drag_handlers_never_move_containers_witness :
  ids_ok last_carried /\ ends_typed last_carried
  /\ Editor_getShape last_carried (shape_id last_element) = Some last_element
  /\ Editor_getShape last_carried (shape_id mounted_container) = Some mounted_container
  /\ exists c', Editor_getShape last_hovering 0%nat = Some c'
       /\ shape_x c' = 200 /\ shape_y c' = 200.
Proof.
  assert (H5 : Editor_getShape last_carried (shape_id mounted_container)
               = Some mounted_container) by (vm_compute; reflexivity).
  split; [exact ids_ok_last_carried|]. split; [exact ends_typed_last_carried|].
  split; [exact last_element_carried|]. split; [exact H5|].
  destruct (drag_handlers_never_move_containers last_carried last_element
              mounted_container ids_ok_last_carried ends_typed_last_carried
              last_element_carried eq_refl H5 eq_refl last_hovering
              (or_intror (or_introl eq_refl))) as (c' & Hc' & _ & Hx & Hy).
  exists c'. split; [exact Hc'|]. split; [exact Hx | exact Hy].
Defined.

Lemma hover_is_stable_witness :
  ids_ok last_carried /\ pair_unique last_carried /\ keys_unique last_carried
  /\ size_ok last_carried /\ ends_typed last_carried
  /\ ElementShapeUtil_getTargetContainer last_carried last_element
       (element_anchor last_element) = Some mounted_container
  /\ ElementShapeUtil_getTargetContainer last_hovering last_element
       (element_anchor last_element) = Some mounted_container
  /\ ElementShapeUtil_onTranslate last_hovering last_element = last_hovering.
Proof.
  split; [exact ids_ok_last_carried|]. split; [exact pair_unique_last_carried|].
  split; [exact keys_unique_last_carried|]. split; [exact size_ok_last_carried|].
  split; [exact ends_typed_last_carried|]. split; [exact target_of_last_carried|].
  split; [exact target_of_last_hovering|].
  destruct (hover_is_stable last_carried last_element mounted_container mounted_container
              ids_ok_last_carried pair_unique_last_carried keys_unique_last_carried
              size_ok_last_carried ends_typed_last_carried last_element_carried eq_refl
              target_of_last_carried target_of_last_hovering eq_refl)
    as (own & _ & _ & _ & _ & Hsame & _).
  exact Hsame.
Defined.

Lemma hover_lands_at_the_slot_witness :
  let others := fun b : @LayoutBinding Qc_keys => negb (Nat.eqb (toId b) 5) in
  let row := sort_by_index (Editor_getBindingsFromShape last_carried mounted_container) in
  let row1 := sort_by_index (Editor_getBindingsFromShape last_hovering mounted_container) in
  ids_ok last_carried /\ pair_unique last_carried /\ keys_unique last_carried
  /\ size_ok last_carried /\ ends_typed last_carried
  /\ last_hovering <> last_carried
  /\ map toId row = [1%nat; 2%nat; 3%nat; 4%nat; 5%nat]
  /\ slot_order 4 mounted_container (element_anchor last_element) = 0
  /\ map toId row1 = [5%nat; 1%nat; 2%nat; 3%nat; 4%nat]
  /\ filter others row1 = filter others row.
Proof.
  intros others row row1.
  split; [exact ids_ok_last_carried|]. split; [exact pair_unique_last_carried|].
  split; [exact keys_unique_last_carried|]. split; [exact size_ok_last_carried|].
  split; [exact ends_typed_last_carried|]. split; [exact last_hovering_changed|].
  split; [vm_compute; reflexivity|]. split; [vm_compute; reflexivity|].
  split; [vm_compute; reflexivity|].
  exact (proj1 (hover_lands_at_the_slot last_carried last_element mounted_container
                  ids_ok_last_carried pair_unique_last_carried keys_unique_last_carried
                  size_ok_last_carried ends_typed_last_carried last_element_carried
                  eq_refl target_of_last_carried last_hovering_changed)).
Defined.

Lemma pick_up_and_drop_in_place_witness :
  let shape := element_at 1%nat 224 224 in
  let ed1 := ElementShapeUtil_onTranslateStart row2 shape in
  ids_ok row2 /\ keys_unique row2 /\ ends_typed row2
  /\ Editor_getBindingsToShape row2 shape = [member_1]
  /\ nth_error (sort_by_index (Editor_getBindingsFromShape row2 row2_container)) 0
     = Some member_1
  /\ vx (element_anchor shape) - shape_x row2_container = 74
  /\ ElementShapeUtil_getTargetContainer ed1 shape (element_anchor shape)
     = Some row2_container
  /\ bindings row2 = [member_1; member_2]
  /\ bindings (ElementShapeUtil_onTranslateEnd ed1 shape)
     = [member_2; mkBinding 2%nat 0%nat 1%nat (key 1) false].
Proof.
  intros shape ed1.
  assert (H4 : Editor_getBindingsToShape row2 shape = [member_1]) by reflexivity.
  assert (H5 : nth_error (sort_by_index (Editor_getBindingsFromShape row2 row2_container))
                 0 = Some member_1) by (vm_compute; reflexivity).
  assert (H6 : 24 + 124 * Z.of_nat 0 - 62
               <= vx (element_anchor shape) - shape_x row2_container
               < 24 + 124 * (Z.of_nat 0 + 1) + 62)
    by (vm_compute; split; [discriminate | reflexivity]).
  assert (H7 : ElementShapeUtil_getTargetContainer ed1 shape (element_anchor shape)
               = Some row2_container) by (vm_compute; reflexivity).
  split; [exact ids_ok_row2|]. split; [exact keys_unique_row2|].
  split; [exact ends_typed_row2|]. split; [exact H4|]. split; [exact H5|].
  split; [reflexivity|]. split; [exact H7|]. split; [reflexivity|].
  exact (proj1 (pick_up_and_drop_in_place row2 shape row2_container row2_container
                  member_1 0 ids_ok_row2 keys_unique_row2 ends_typed_row2
                  eq_refl eq_refl eq_refl H4 H5 H6 H7 eq_refl)).
Defined.

(** Two containers, the first with two committed members; and the store
    after the first member has been picked up, carried over the second
    container and reported there by a drag move. *)
Definition two_rows : @Editor Qc_keys :=
  mkEditor
    [container_at 0%nat 200 200 272 148; container_at 3%nat 200 400 148 148;
     element_at 1%nat 224 224; element_at 2%nat 348 224]
    [member_1; member_2]
    2%nat.

Definition moved_element : Shape := element_at 1%nat 224 424.

Definition across_hovering : @Editor Qc_keys :=
  ElementShapeUtil_onTranslate
    (Editor_afterShapeChange
       (Editor_updateShape
          (ElementShapeUtil_onTranslateStart two_rows (element_at 1%nat 224 224))
          (PartialXY 1%nat 224 424))
       1%nat)
    moved_element.

Definition across_dropped : @Editor Qc_keys :=
  ElementShapeUtil_onTranslateEnd across_hovering moved_element.

Definition others_singleb (sid : ShapeId) (bs : list (@LayoutBinding Qc_keys)) : bool :=
  forallb
    (fun b1 =>
       forallb
         (fun b2 =>
            implb (Nat.eqb (toId b1) (toId b2) && negb (Nat.eqb (toId b1) sid))
                  (Nat.eqb (fromId b1) (fromId b2)))
         bs)
    bs.

Lemma others_singleb_sound (sid : ShapeId) (bs : list (@LayoutBinding Qc_keys)) :
  others_singleb sid bs = true ->
  forall b1 b2, In b1 bs -> In b2 bs ->
    toId b1 = toId b2 -> toId b1 <> sid -> fromId b1 = fromId b2.
Proof.
  unfold others_singleb. rewrite forallb_forall. intros H b1 b2 Hb1 Hb2 Eto Hn.
  specialize (H b1 Hb1). rewrite forallb_forall in H. specialize (H b2 Hb2).
  apply Nat.eqb_neq in Hn. apply Nat.eqb_eq in Eto.
  rewrite Eto, Hn in H. cbn in H. apply Nat.eqb_eq. exact H.
Qed.

Lemma transfer_settles_both_rows_witness :
  let own := mkBinding 0%nat 0%nat 1%nat (key 1) true in
  let t := container_at 3%nat 200 400 148 148 in
  ids_ok across_hovering /\ pair_unique across_hovering /\ keys_unique across_hovering
  /\ size_ok across_hovering /\ ends_typed across_hovering
  /\ ElementShapeUtil_getTargetContainer across_hovering moved_element
       (element_anchor moved_element) = Some t
  /\ Editor_getBindingsToShape across_hovering moved_element
     = [own; mkBinding 2%nat 3%nat 1%nat (Q2Qc (1 # 2)) true]
  /\ member_count across_hovering 0%nat = 2%nat
  /\ member_count across_dropped 0%nat = 1%nat
  /\ row_settled across_dropped 3%nat (fun _ => false)
  /\ row_settled across_dropped 0%nat (fun _ => false).
Proof.
  intros own t.
  assert (H1 : ids_ok across_hovering) by (by_check ids_okb_sound).
  assert (H2 : pair_unique across_hovering) by (by_check pair_uniqueb_sound).
  assert (K2 : keys_unique across_hovering) by (by_check keys_uniqueb_sound).
  assert (S2 : size_ok across_hovering) by (by_check size_okb_sound).
  assert (H3 : ends_typed across_hovering) by (by_check ends_typedb_sound).
  assert (H4 : forall b1 b2, In b1 (bindings across_hovering) ->
                 In b2 (bindings across_hovering) ->
                 toId b1 = toId b2 -> toId b1 <> shape_id moved_element ->
                 fromId b1 = fromId b2)
    by (by_check others_singleb_sound).
  assert (H5 : Editor_getShape across_hovering (shape_id moved_element)
               = Some moved_element) by (vm_compute; reflexivity).
  assert (H6 : ElementShapeUtil_getTargetContainer across_hovering moved_element
                 (element_anchor moved_element) = Some t) by (vm_compute; reflexivity).
  assert (H7 : Editor_getBindingsToShape across_hovering moved_element
               = [own; mkBinding 2%nat 3%nat 1%nat (Q2Qc (1 # 2)) true])
    by (vm_compute; reflexivity).
  assert (H8 : In own (Editor_getBindingsToShape across_hovering moved_element))
    by (rewrite H7; left; reflexivity).
  assert (H9 : member_count across_dropped 0%nat = 1%nat) by (vm_compute; reflexivity).
  split; [exact H1|]. split; [exact H2|]. split; [exact K2|]. split; [exact S2|].
  split; [exact H3|]. split; [exact H6|].
  split; [exact H7|]. split; [vm_compute; reflexivity|]. split; [exact H9|].
  destruct (transfer_settles_both_rows across_hovering moved_element t own
              H1 H2 K2 S2 H3 H4 H5 eq_refl H6 H8) as (Ht & _ & Hrow).
  - cbn. discriminate.
  - split; [exact Ht|]. apply Hrow. intros E.
    change (member_count across_dropped 0%nat = 0%nat) in E.
    rewrite H9 in E. discriminate E.
Defined.

Lemma collision_colour_follows_cursor_witness :
  let c := CursorDemo.mkCircle "geo" "blue" in
  let bounds := CursorDemo.mkBox Z 0 0 100 100 in
  let editor := CursorDemo.mkEditorRef Z (Some c) (Some bounds) (fun p => p) in
  let corner := CursorDemo.mkPoint Z 100 100 in
  CursorDemo.getShape_circle Z editor = Some c
  /\ CursorDemo.circle_type c = "geo"%string
  /\ CursorDemo.getShapePageBounds Z editor = Some bounds
  /\ CursorDemo.isInside Z Z.leb Z.add corner bounds = true
  /\ exists c',
      CursorDemo.getShape_circle Z (CursorDemo.after_frame Z Z.leb Z.add editor corner)
      = Some c'
      /\ CursorDemo.circle_color c' = "green"%string.
Proof.
  intros c bounds editor corner.
  split; [reflexivity|]. split; [reflexivity|]. split; [reflexivity|].
  split; [reflexivity|].
  destruct (CursorDemo.collision_colour_follows_cursor Z Z.leb Z.add editor c bounds corner
              eq_refl eq_refl eq_refl) as (_ & (c' & Hc' & _ & Hcol & _) & _).
  exists c'. split; [exact Hc' | exact Hcol].
Defined.

(** ** The release point

    On the canvas a target under the anchor at the last drag move is
    still under it at the drag end: the reflow the move sets off leaves
    the container where it is and no smaller than its row, and the
    dragged element either stays under the pointer or is put in a slot of
    that container.  So on the canvas the drag end resolves no target
    only if the last move resolved none. *)

Lemma page_hit_complete (ed : @Editor Qc_keys) (p : Vec) (f : Shape -> bool) (s : Shape)
    (l : list Shape) :
  In s l ->
  Editor_getShape ed (shape_id s) = Some s ->
  f s = true -> inside_rectangle s p = true ->
  page_hit ed p f l <> None.
Proof.
  intros Hin Hs Hf Hp. induction l as [|x l IH]; [destruct Hin|].
  cbn [page_hit]. destruct Hin as [->|Hin].
  - rewrite Hs, Hf, Hp. discriminate.
  - destruct (Editor_getShape ed (shape_id x)) as [s'|]; [|exact (IH Hin)].
    destruct (f s' && inside_rectangle s' p); [discriminate | exact (IH Hin)].
Qed.

Lemma page_target_found (ed : @Editor Qc_keys) (current t1 : Shape) (id : ShapeId) :
  Editor_getShape ed id = Some t1 ->
  shape_type t1 = ContainerShapeUtil_type ->
  shape_type current = ElementShapeUtil_type ->
  inside_rectangle t1 (element_anchor current) = true ->
  ElementShapeUtil_getTargetContainer ed current (element_anchor current) <> None.
Proof.
  intros H1 Tt Tc Hins.
  pose proof (Editor_getShape_id ed _ _ H1) as Hid.
  unfold ElementShapeUtil_getTargetContainer.
  change (page_hit ed (element_anchor current)
            (fun otherShape => Editor_canBindShapes otherShape current LayoutBindingUtil_type)
            (rev (shapes ed)) <> None).
  apply (page_hit_complete ed _ _ t1).
  - apply -> in_rev. unfold Editor_getShape in H1. apply find_some in H1. tauto.
  - rewrite Hid. exact H1.
  - unfold Editor_canBindShapes. rewrite Tt, Tc. reflexivity.
  - exact Hins.
Qed.

Lemma layout_width_grows (n m : nat) : (n <= m)%nat -> layout_width n <= layout_width m.
Proof. intros H. unfold layout_width, CONTAINER_PADDING. lia. Qed.

Lemma release_target_persists (ed : @Editor Qc_keys) (shape t current : Shape) :
  ids_ok ed -> pair_unique ed -> keys_unique ed -> size_ok ed -> ends_typed ed ->
  Editor_getShape ed (shape_id shape) = Some shape ->
  shape_type shape = ElementShapeUtil_type ->
  ElementShapeUtil_getTargetContainer ed shape (element_anchor shape) = Some t ->
  (member_count ed (shape_id t) = 0%nat -> props_width t = 148 /\ props_height t = 148) ->
  let ed1 := ElementShapeUtil_onTranslate ed shape in
  Editor_getShape ed1 (shape_id shape) = Some current ->
  ElementShapeUtil_getTargetContainer ed1 current (element_anchor current) <> None.
Proof.
  intros Hids Hpair Hkeys Hsize Hty Hs He Ht Hempty ed1 Hcur.
  destruct (target_is_another_shape ed shape t _ Hs He Ht) as [Tc _].
  pose proof Ht as Hst. unfold ElementShapeUtil_getTargetContainer in Hst.
  pose proof (getShapeAtPoint_inside _ _ _ _ Hst) as Hin.
  apply getShapeAtPoint_stored in Hst.
  destruct (hands_on_onTranslate ed shape Hids) as (_ & P1 & _ & _ & K1).
  specialize (P1 Hpair). specialize (K1 Hpair Hsize Hkeys). fold ed1 in P1, K1.
  destruct (onTranslate_over_target ed shape t Hids Hpair Hty Hs Ht)
    as [[Esame _]|(l1 & olds & l2 & id & nx & El & Holds & Hold & _ & Erun)];
    fold ed1 in Esame || fold ed1 in Erun.
  - (* the move changed nothing *)
    rewrite Esame in Hcur |- *. rewrite Hs in Hcur. injection Hcur as <-.
    rewrite Ht. discriminate.
  - set (k := ElementShapeUtil_getBindingIndexForPosition ed shape t (element_anchor shape))
      in *.
    set (own := mkBinding id (shape_id t) (shape_id shape) k true) in *.
    set (mid := mkEditor (shapes ed) (l1 ++ own :: l2) nx) in *.
    destruct (updateElementsForContainer_bindings mid own) as [Eb _].
    rewrite <- Erun in Eb.
    assert (P2 : pair_unique mid) by (unfold pair_unique; rewrite <- Eb; exact P1).
    assert (K2 : keys_unique mid) by (unfold keys_unique; rewrite <- Eb; exact K1).
    assert (T2 : ends_typed mid).
    { intros b Hb.
      change (type_of mid (fromId b)) with (type_of ed (fromId b)).
      change (type_of mid (toId b)) with (type_of ed (toId b)).
      unfold mid in Hb. cbn [bindings] in Hb. apply in_app_or in Hb.
      assert (Hown : type_of ed (fromId own) = Some ContainerShapeUtil_type
                     /\ type_of ed (toId own) = Some ElementShapeUtil_type).
      { cbn [fromId toId own].
        rewrite (type_of_stored ed t Hst), (type_of_stored ed shape Hs), Tc, He.
        split; reflexivity. }
      destruct Hb as [Hb|[<-|Hb]]; [|exact Hown|];
        apply Hty; rewrite El; apply in_or_app;
        [left; exact Hb | right; apply in_or_app; right; exact Hb]. }
    assert (Hmem : In own (Editor_getBindingsFromShape mid t)).
    { apply filter_In. split; [|apply Nat.eqb_refl].
      unfold mid. cbn [bindings]. apply in_or_app. right. left. reflexivity. }
    assert (M2 : member_count mid (fromId own) <> 0%nat).
    { unfold member_count. cbn [fromId own]. unfold Editor_getBindingsFromShape in Hmem.
      destruct (filter _ (bindings mid)); [destruct Hmem | discriminate]. }
    destruct (row_of_trigger mid own P2 K2 T2 M2)
      as (c & Hc & _ & Hperm & _ & Hlen & Hne & Hnotin & Hnd).
    assert (c = t) by (change (Editor_getShape ed (shape_id t) = Some c) in Hc; congruence).
    subst c.
    destruct (updateElementsForContainer_shapes mid own t Hc Hne Hnotin Hnd)
      as (Hcont & _ & Hplace).
    rewrite <- Erun in Hcont, Hplace.
    set (bs := sort_by_index (Editor_getBindingsFromShape mid t)) in *.
    assert (Hbs : In own bs) by (apply (Permutation_in _ (Permutation_sym Hperm)), Hmem).
    destruct (In_nth_error _ _ Hbs) as (j & Hj).
    assert (Hjn : (j < List.length bs)%nat) by (apply nth_error_Some; congruence).
    (* the container is no smaller than it was *)
    assert (Hcount : (member_count ed (shape_id t) <= List.length bs)%nat).
    { rewrite Hlen. unfold member_count, mid. cbn [fromId own bindings].
      rewrite El, !filter_app, !length_app. cbn [filter fromId own].
      rewrite Nat.eqb_refl. cbn [List.length].
      pose proof (filter_length_le (fun b => Nat.eqb (fromId b) (shape_id t)) olds).
      lia. }
    assert (Hwide : props_width t <= layout_width (List.length bs)
                    /\ props_height t <= layout_height).
    { destruct (Nat.eq_dec (member_count ed (shape_id t)) 0) as [Hz|Hnz].
      - destruct (Hempty Hz) as [-> ->]. split; [|unfold layout_height; cbn; lia].
        change 148 with (layout_width 1). apply layout_width_grows. lia.
      - destruct (Hsize (shape_id t) t Hst Hnz) as [-> ->].
        split; [apply layout_width_grows; exact Hcount | lia]. }
    apply (page_target_found ed1 current
             (set_size t (layout_width (List.length bs)) layout_height) (shape_id t)
             Hcont Tc).
    + destruct (Hplace j own Hj) as ([E|E] & _);
        cbn [toId own] in E; rewrite Hcur in E;
        change (Editor_getShape mid (shape_id shape))
          with (Editor_getShape ed (shape_id shape)) in E;
        rewrite Hs in E; cbn [option_map] in E; injection E as ->;
        [exact He | exact He].
    + destruct (Hplace j own Hj) as ([E|E] & _);
        cbn [toId own] in E; rewrite Hcur in E;
        change (Editor_getShape mid (shape_id shape))
          with (Editor_getShape ed (shape_id shape)) in E;
        rewrite Hs in E; cbn [option_map] in E; injection E as ->.
      * unfold inside_rectangle. cbn [shape_x shape_y props_width props_height set_size].
        rewrite !andb_true_iff, !Z.leb_le. lia.
      * unfold inside_rectangle, place_at, slot_point, Editor_getShapePageTransform.
        cbn [fromId own] in Hc. rewrite Hc.
        cbn [element_anchor getShapePageTransform getPointInParentSpace page_frames
             page_transform page_parent_space set_xy set_size slot_offset
             shape_x shape_y props_width props_height vx vy].
        rewrite !andb_true_iff, !Z.leb_le.
        unfold layout_width, layout_height, CONTAINER_PADDING. lia.
Qed.

(** On the canvas, for a store as the application keeps it (a container
    without members having the default size), the claim's second half as
    it stands: when no target resolves at the drag end, the element ends
    the drag with no relationship. *)
Lemma release_without_target_leaves_none (ed : @Editor Qc_keys) (shape current : Shape) :
  ids_ok ed -> pair_unique ed -> keys_unique ed -> size_ok ed -> ends_typed ed ->
  (forall c, Editor_getShape ed (shape_id c) = Some c ->
     member_count ed (shape_id c) = 0%nat ->
     props_width c = 148 /\ props_height c = 148) ->
  Editor_getShape ed (shape_id shape) = Some shape ->
  shape_type shape = ElementShapeUtil_type ->
  let ed1 := ElementShapeUtil_onTranslate ed shape in
  Editor_getShape ed1 (shape_id shape) = Some current ->
  ElementShapeUtil_getTargetContainer ed1 current (element_anchor current) = None ->
  Editor_getBindingsToShape (Translating_complete ed shape) shape = [].
Proof.
  intros Hids Hpair Hkeys Hsize Hty Hempty Hs He ed1 Hcur Hend.
  destruct (ElementShapeUtil_getTargetContainer ed shape (element_anchor shape))
    as [t|] eqn:Ht.
  - exfalso.
    pose proof Ht as Hst. unfold ElementShapeUtil_getTargetContainer in Hst.
    apply getShapeAtPoint_stored in Hst.
    exact (release_target_persists ed shape t current Hids Hpair Hkeys Hsize Hty Hs He Ht
             (Hempty t Hst) Hcur Hend).
  - exact (drag_end_leaves_none ed shape current Hcur Ht Hend).
Qed.
